(* ===== verification/_CoqProject ===== *)
-Q . S2P
Prelude.v
Ram.v
CString.v
Vga.v
Memory.v
Heap.v
HeapCorrect.v
Alloc.v
PhysPages.v
Paging.v
PagingCorrect.v
Keyboard.v
Interrupt.v
Fat.v
FsNames.v
Fs.v
FsCorrect.v
FsPreserve.v
FsTotal.v
Process.v
ProcessCorrect.v
ProcessSteps.v
SysTable.v
Layout.v
Kernel.v
KernelInv.v
Syscall.v
Shell.v
ShellFrame.v
Boot.v
SyscallCorrect.v
SyscallProps.v
ShellInput.v
ShellCorrect.v
ShellFiles.v
ShellInv.v
Session.v
