(* ===== verification/Prelude.v ===== *)
(** * PXOS: a model of the kernel and its theorems

    PXOS is a small 32-bit x86 kernel in C: a VGA console, a keyboard driver, a memory
    manager, an in-memory FAT12 file system, a process manager, a table of system calls and
    a shell.  This library models its C code as executable functions and proves what each
    part does, and that the parts together keep the kernel well formed.

    ** The model

    A C pointer is a physical address ([Ram.ram], a map from addresses to bytes); integers
    are [Z] with the wrap-around of their width written out ([u8], [u16], [u32], [s32]
    below).  What the code keeps in RAM is kept in RAM: frame buffer, heap block headers and
    blocks, page bitmap, page tables, buffers and handles of system calls.  The other static
    variables are records, one per C file, gathered in [Kernel.kernel].  A function maps the
    state to its result and the new state; [None] as a whole result is a call that does not
    return (a loop that ran out of its fuel, see below).

    - lib/string.c: CString.  drivers/vga: Vga.  drivers/keyboard: Keyboard.
      kernel/interrupt.c: Interrupt.
    - kernel/memory.c: Memory (data), Heap (kmalloc, kfree, krealloc, ...), PhysPages (page
      bitmap), Paging (page tables, memory_init, reports).
    - fs/filesystem.c: Fat (12-bit table), FsNames (8.3 names, paths), Fs (directory, files).
    - kernel/process/process.c: Process, over the interface of Alloc for its stacks.
    - kernel/syscall.c: SysTable (table), Layout (structures as bytes), Syscall (handlers).
    - kernel/kernel.c: Shell (line input, parsing, the 21 commands, main loop), Boot ([kmain]
      and the static variables as linked).

    Definitions carry the names of the C functions; a definition named [x_step] is one turn
    of the loop of [x].  The shell and the handlers call the components exactly where the C
    code does: a command or a call is a function on [kernel] that runs an operation of a
    component on its field and prints through [k_con].

    ** Parameters

    [Kernel.env] holds what the source does not fix: the addresses the linker gives to
    functions, to the process pool and to the stack variable of [sys_open], and the contents
    of local arrays that are read before they are written ([sector_junk], [dir_junk],
    [info_junk], [path_junk]: the disk is a stub, so a sector read leaves the buffer as it
    was).  Theorems hold for every [env]; [KernelInv.env_ok] asks only that addresses are
    32-bit and that the stack lies outside the memory the kernel manages.  The stack variable
    of [sys_open] has one address ([file_addr]), as for calls from one stack depth.

    ** Interrupts and timing

    The timer is masked, so that the keyboard interrupt is the only concurrency; it runs with
    interrupts disabled, as one step ([Shell.irq], which is [Interrupt.keyboard_handler] on the
    kernel).  The main loop is a machine ([Shell.reader]: kernel, line, program counter) whose
    steps [Shell.input_step] are the accesses of [shell_read_input], [keyboard_has_input] and
    [keyboard_get_char] to the variables of the ring buffer, which are not volatile: the value of
    [buffer_count] that [keyboard_get_char] tests is the one it decrements and stores, as in
    optimised code.  A schedule is a list of events, [Cpu] and [Irq], and an interrupt may
    come between any two steps.  Nothing else in the kernel reads or writes the keyboard driver
    (ShellFrame proves it of every command and every system call), so that a whole command,
    and the echo of a character, is one step: an interrupt during it is one just before
    it, except that the log of port writes, which nothing reads, then shows the end of the
    interrupt earlier than the chip sees it.  ShellInput names the two windows in which the
    code is wrong, [racy] (between the load and the store of [buffer_count]) and [At_hlt] (between
    the test and [hlt]), proves what goes wrong there, and what holds of schedules that avoid
    them; Session proves what holds in spite of them.

    ** Theorems

    - Refinement of abstract objects: the console as a screen of rows (Vga), the ring buffer
      as a bounded queue (Keyboard), the heap as a list of blocks with first fit and
      merging (HeapCorrect), the page bitmap as a set (PhysPages), page tables as a function
      from pages to frames (PagingCorrect), the FAT as a function (Fat), the directory as a
      map from names (FsCorrect), the queues as lists of slots (ProcessCorrect), the system
      call table as a map from numbers (SysTable), a command line as a list of words
      (ShellCorrect), line input under any schedule that avoids the update of [buffer_count] as an
      editor that knows nothing of interrupts (ShellInput).
    - Functional behaviour and errors of every allocation, file, process and system call
      operation of importance, defects of the code included: what they state is what the code
      does (a second [rm] hangs, [cat] prints nothing, a descriptor is shared, the caller of
      [yield] always resumes, ...).
    - Round trips: numbers printed and read back, 8.3 names, FAT entries, malloc and free
      through the system calls and the shell, chdir and getcwd.
    - The invariant of the whole kernel, [KernelInv.kernel_ok], is the conjunction of the
      components' invariants: Boot shows that [kmain] establishes it from arbitrary memory,
      SyscallCorrect and ShellInv that harmless calls and command lines keep it and return,
      and Session that it holds in every state reached by interrupts, command lines and
      system calls (but for the ring buffer when interrupts hit its update, whose accesses
      then still stay within bounds), and that the main loop serves one line after the
      other.  Alloc, FsPreserve, FsTotal, ProcessSteps and ShellFrame carry the part of each
      component.

    "Harmless" excludes what the code does not defend itself against: buffers inside the
    memory the kernel manages, [free] of something that is not a block of the caller,
    [kill] of a process that is dead already, [fork] while a dead process is still linked,
    and [malloc] of the last three sizes, which wraps to 0.

    ** Fuel

    Loops over structures whose length the invariant bounds have a constant fuel: [heap_fuel]
    (52430 turns, two more than the headers that fit the 1 MB heap), [chain_fuel] (2881, one
    more than the clusters), [queue_fuel] (65, one more than the slots).  Loops that
    count down have a fuel computed from their arguments ([fs_read] and [fs_write]: the size
    and one; [shell_cat]: the size of the file and one).  Line input and the main loop need no
    fuel: they run along their schedule, and [weight] bounds the steps to the end of the line or to
    sleep.  Strings of a caller are read with the fuel
    [user_fuel] of the environment; theorems assume it larger than the string.  For each loop
    a theorem or lemma says that the fuel is enough where the structure is well formed, and
    [None] is proved only of loops that diverge for every fuel.

    ** Not modelled

    Assembly (arch/x86: multiboot entry, interrupt stubs, [lidt], CR0 and CR3, int 0x80) and
    with it the context switch and paging being in force; the linker script and the
    Makefile.  [enable_paging], [disable_paging], [invalidate_tlb] and [invalidate_page] only
    call assembly, and nothing calls [process_get_stats], a copy of a static variable.  Static
    variables other than those kept in RAM have no address, so a stray pointer into the kernel
    image, and the use of a stack variable after its function returned (beyond the handle of
    [sys_open]), are outside the model.

    ** Plan

    What remains worth proving: an invariant of the FAT under which deletion always returns
    as long as no file was deleted before, the path calls as refinements of one abstract
    directory, and [krealloc] and the memory contexts as clients of the allocator interface. *)

From stdpp Require Export base gmap list numbers strings.
From Stdlib Require Export ZArith Lia.

Set Default Goal Selector "!".

(** ** Machine integers

    A value of an unsigned C type of width [w] is a [Z] in [0, 2^w); the
    wrap-around of C arithmetic is written out with [u8], [u16], [u32].  [s8]
    and [s32] read such a value as the signed type of the same width. *)

Declare Scope word_scope.
Delimit Scope word_scope with word.
#[global] Open Scope Z_scope.

Definition u8 (z : Z) : Z := z mod 256.
Definition u16 (z : Z) : Z := z mod 65536.
Definition u32 (z : Z) : Z := z mod 4294967296.
Definition s8 (z : Z) : Z := let b := u8 z in if b <? 128 then b else b - 256.
Definition s32 (z : Z) : Z :=
  let w := u32 z in if w <? 2147483648 then w else w - 4294967296.

Notation "x +w y" := (u32 (x + y)) (at level 50, left associativity) : word_scope.
Notation "x -w y" := (u32 (x - y)) (at level 50, left associativity) : word_scope.
Notation "x *w y" := (u32 (x * y)) (at level 40, left associativity) : word_scope.
#[global] Open Scope word_scope.

Definition is_u8 (z : Z) : Prop := 0 <= z < 256.
Definition is_u16 (z : Z) : Prop := 0 <= z < 65536.
Definition is_u32 (z : Z) : Prop := 0 <= z < 4294967296.

(** ** Tactics *)

(** [lia] after unfolding the wrap-arounds and naming quotients and remainders. *)
Ltac word_unfold := unfold is_u8, is_u16, is_u32, u8, u16, u32 in *.
Ltac word_lia := word_unfold; Z.div_mod_to_equations; lia.

(** Case analysis on the first integer test of the goal. *)
Ltac ztest :=
  match goal with
  | |- context [Z.eqb ?a ?b] => destruct (Z.eqb_spec a b)
  | |- context [Z.ltb ?a ?b] => destruct (Z.ltb_spec a b)
  | |- context [Z.leb ?a ?b] => destruct (Z.leb_spec a b)
  end.

(** Turn an integer test known to succeed or fail into the branch it selects. *)
Ltac zdecide :=
  repeat match goal with
  | |- context [Z.eqb ?a ?b] =>
      first [ rewrite (proj2 (Z.eqb_eq a b)) by (lia || assumption)
            | rewrite (proj2 (Z.eqb_neq a b)) by (lia || assumption) ]
  | |- context [Z.ltb ?a ?b] =>
      first [ rewrite (proj2 (Z.ltb_lt a b)) by lia
            | rewrite (proj2 (Z.ltb_ge a b)) by lia ]
  | |- context [Z.leb ?a ?b] =>
      first [ rewrite (proj2 (Z.leb_le a b)) by lia
            | rewrite (proj2 (Z.leb_gt a b)) by lia ]
  end; cbn [negb andb orb].

(** Reflect every integer test assumed in the context. *)
Ltac zreflect :=
  repeat match goal with
  | H : Z.eqb _ _ = true |- _ => apply Z.eqb_eq in H
  | H : Z.eqb _ _ = false |- _ => apply Z.eqb_neq in H
  | H : Z.ltb _ _ = true |- _ => apply Z.ltb_lt in H
  | H : Z.ltb _ _ = false |- _ => apply Z.ltb_ge in H
  | H : Z.leb _ _ = true |- _ => apply Z.leb_le in H
  | H : Z.leb _ _ = false |- _ => apply Z.leb_gt in H
  | H : negb _ = true |- _ => apply negb_true_iff in H
  | H : negb _ = false |- _ => apply negb_false_iff in H
  | H : (_ && _)%bool = true |- _ => apply andb_true_iff in H as [? ?]
  | H : (_ || _)%bool = false |- _ => apply orb_false_iff in H as [? ?]
  end.

(** ** Integer facts *)

Lemma u8_range z : is_u8 (u8 z).
Proof. word_lia. Qed.
Lemma u16_range z : is_u16 (u16 z).
Proof. word_lia. Qed.
Lemma u32_range z : is_u32 (u32 z).
Proof. word_lia. Qed.
Lemma u8_small z : is_u8 z → u8 z = z.
Proof. intros; apply Z.mod_small; done. Qed.
Lemma u16_small z : is_u16 z → u16 z = z.
Proof. intros; apply Z.mod_small; done. Qed.
Lemma u32_small z : is_u32 z → u32 z = z.
Proof. intros; apply Z.mod_small; done. Qed.
Lemma u32_idemp z : u32 (u32 z) = u32 z.
Proof. apply u32_small, u32_range. Qed.

(** Masking with a run of [k] ones above [n] zeros clears the low [n] bits. *)
Lemma land_clear_low x n k :
  0 <= n → 0 <= k → 0 <= x < 2 ^ (n + k) →
  Z.land x (Z.shiftl (Z.ones k) n) = x / 2 ^ n * 2 ^ n.
Proof.
  intros Hn Hk Hx.
  rewrite <- Z.shiftl_mul_pow2, <- Z.shiftr_div_pow2 by lia.
  apply Z.bits_inj'. intros i Hi. rewrite Z.land_spec, !Z.shiftl_spec by lia.
  destruct (decide (i < n)).
  - rewrite !(Z.testbit_neg_r _ (i - n)) by lia. apply andb_false_r.
  - rewrite Z.shiftr_spec by lia. replace (i - n + n) with i by lia.
    destruct (decide (i < n + k)).
    + rewrite Z.ones_spec_low by lia. apply andb_true_r.
    + rewrite Z.ones_spec_high, andb_false_r by lia. symmetry.
      destruct (decide (x = 0)) as [->|]; [apply Z.testbit_0_l|].
      apply Z.bits_above_log2; [lia|].
      apply Z.log2_lt_pow2; [lia|]. apply Z.lt_le_trans with (2 ^ (n + k)); [lia|].
      apply Z.pow_le_mono_r; lia.
Qed.

Create HintDb word.
Create Rewrite HintDb word_rw.
#[export] Hint Resolve u8_range u16_range u32_range : word.
#[export] Hint Rewrite u32_idemp : word_rw.

(** ** Counting *)

Section counting.
Context {A : Type} (P Q : A → Prop) `{!∀ x, Decision (P x), !∀ x, Decision (Q x)}.

Lemma length_filter_ext l :
  (∀ x, x ∈ l → P x ↔ Q x) → length (filter P l) = length (filter Q l).
Proof using Type*.
  induction l as [|x l IH]; intros HPQ; [done|]. rewrite !filter_cons.
  assert (P x ↔ Q x) by (apply HPQ; by left).
  assert (length (filter P l) = length (filter Q l)) by (apply IH; intros; apply HPQ; by right).
  destruct (decide (P x)), (decide (Q x)); simpl; tauto || congruence.
Qed.

(** One more element satisfies the predicate. *)
Lemma length_filter_add_one a l :
  NoDup l → a ∈ l → ¬ P a → Q a → (∀ x, x ∈ l → x ≠ a → P x ↔ Q x) →
  length (filter Q l) = S (length (filter P l)).
Proof using Type*.
  intros Hnd Hin HPa HQa HPQ. induction Hnd as [|x l Hx Hnd IH];
    [by apply not_elem_of_nil in Hin|].
  rewrite !filter_cons. apply elem_of_cons in Hin as [->|Hin].
  - rewrite (decide_False (P := P x)), (decide_True (P := Q x)) by done. simpl. f_equal.
    symmetry. apply length_filter_ext. intros y Hy. apply HPQ; [by right|]. by intros ->.
  - assert (x ≠ a) as Hne by (by intros ->).
    assert (P x ↔ Q x) as Hx' by (apply HPQ; [by left|done]).
    assert (length (filter Q l) = S (length (filter P l))) as IH'.
    { apply IH; [done|]. intros y ??. apply HPQ; [by right|done]. }
    destruct (decide (P x)), (decide (Q x)); simpl; rewrite ?IH'; tauto.
Qed.
End counting.

(** ** Record update

    [r <| field := v |>] is C's [r.field = v] on a struct value.  A record
    declares how it is rebuilt from its fields once ([Eta]) and every setter is
    then derived from it. *)

Class Eta (R : Type) := eta : R → R.
Class Setter {R E : Type} (get : R → E) := set_field : (E → E) → R → R.
Arguments set_field {R E} get {Setter} f r /.

Ltac derive_setter R E get :=
  let e := constr:(_ : Eta R) in
  let e' := eval hnf in e in
  exact (λ (f : E → E) (r : R), ltac:(
    let t := eval cbv beta in (e' r) in
    let p := eval pattern (get r) in t in
    match p with
    | ?g _ => let t' := eval cbv beta in (g (f (get r))) in exact t'
    end)).
#[export] Hint Extern 1 (@Setter ?R ?E ?get) => derive_setter R E get : typeclass_instances.

Notation "r <| get := v |>" := (set_field get (λ _, v) r)
  (at level 12, left associativity, get constr at level 1, v constr at level 99).

(** ** Counted loops

    [for_z n i body s] is [for (j = i; j < i + n; j++) s = body(j, s)]. *)

Fixpoint for_z {S : Type} (n : nat) (i : Z) (body : Z → S → S) (s : S) : S :=
  match n with
  | O => s
  | Datatypes.S n' => for_z n' (i + 1) body (body i s)
  end.

(** [for_first n i test] is a counted loop whose body returns as soon as [test]
    yields a result: [None] is falling out of the loop. *)

Fixpoint for_first {A : Type} (n : nat) (i : Z) (test : Z → option A) : option A :=
  match n with
  | O => None
  | Datatypes.S n' =>
      match test i with
      | Some a => Some a
      | None => for_first n' (i + 1) test
      end
  end.

Section for_loops.
Context {S A : Type}.
Implicit Types (I : Z → S → Prop) (test : Z → option A).

(** The invariant rule of counted loops. *)
Lemma for_z_inv I n i body s :
  I i s →
  (∀ j s', i <= j < i + Z.of_nat n → I j s' → I (j + 1) (body j s')) →
  I (i + Z.of_nat n) (for_z n i body s).
Proof.
  revert i s. induction n as [|n IH]; intros i s H0 Hstep; simpl.
  - by replace (i + Z.of_nat 0) with i by lia.
  - replace (i + Z.of_nat (Datatypes.S n)) with (i + 1 + Z.of_nat n) by lia.
    apply IH; [apply Hstep; [lia|done]|].
    intros j s' Hj. apply Hstep. lia.
Qed.

Lemma for_first_Some n i test a :
  for_first n i test = Some a ↔
  ∃ j, i <= j < i + Z.of_nat n ∧ test j = Some a ∧ ∀ k, i <= k < j → test k = None.
Proof.
  revert i. induction n as [|n IH]; intros i; simpl.
  { split; [done|]. intros (j & ? & _). lia. }
  destruct (test i) as [b|] eqn:Hi.
  - split.
    + intros [= ->]. exists i. repeat split; [lia|lia|done|]. intros; lia.
    + intros (j & Hj & Ht & Hk). destruct (decide (j = i)) as [->|]; [congruence|].
      rewrite Hk in Hi; [done|lia].
  - rewrite IH. split.
    + intros (j & Hj & Ht & Hk). exists j. repeat split; [lia|lia|done|].
      intros k ?. destruct (decide (k = i)) as [->|]; [done|apply Hk; lia].
    + intros (j & Hj & Ht & Hk). exists j.
      assert (j ≠ i) by congruence. repeat split; [lia|lia|done|].
      intros; apply Hk; lia.
Qed.

Lemma for_first_None n i test :
  for_first n i test = None ↔ ∀ j, i <= j < i + Z.of_nat n → test j = None.
Proof.
  revert i. induction n as [|n IH]; intros i; simpl.
  { split; [intros _ j ?; lia|done]. }
  destruct (test i) as [b|] eqn:Hi.
  - split; [done|]. intros H. rewrite H in Hi; [done|lia].
  - rewrite IH. split; intros H j Hj.
    + destruct (decide (j = i)) as [->|]; [done|apply H; lia].
    + apply H; lia.
Qed.
End for_loops.

Lemma for_z_S {S : Type} n i (body : Z → S → S) s :
  for_z (Datatypes.S n) i body s = for_z n (i + 1) body (body i s).
Proof. done. Qed.
Lemma for_first_S {A : Type} n i (test : Z → option A) :
  for_first (Datatypes.S n) i test =
  match test i with Some a => Some a | None => for_first n (i + 1) test end.
Proof. done. Qed.
#[global] Arguments for_z : simpl never.
#[global] Arguments for_first : simpl never.

(** ** Unbounded loops

    [loop fuel step s] runs the body of a [while] loop: [step s = inl s'] is
    one more turn, [inr a] leaves the loop with [a].  [None] says that [fuel]
    turns were not enough. *)

Fixpoint loop {S A : Type} (fuel : nat) (step : S → S + A) (s : S) : option A :=
  match fuel with
  | O => None
  | Datatypes.S f =>
      match step s with
      | inl s' => loop f step s'
      | inr a => Some a
      end
  end.

Section loops.
Context {S A : Type} (step : S → S + A).

Lemma loop_mono f f' s a :
  (f <= f')%nat → loop f step s = Some a → loop f' step s = Some a.
Proof.
  revert f' s. induction f as [|f IH]; intros f' s Hf; simpl; [done|].
  destruct f' as [|f']; [lia|]. simpl. destruct (step s); [|done].
  apply IH. lia.
Qed.

(** Total correctness of a loop: an invariant, and a measure that every turn
    decreases; the fuel only has to exceed the initial measure. *)
Lemma loop_total (I : S → Prop) (Q : A → Prop) (μ : S → Z) :
  (∀ s, I s → match step s with
              | inl s' => I s' ∧ 0 <= μ s' < μ s
              | inr a => Q a
              end) →
  ∀ fuel s, I s → μ s < Z.of_nat fuel → 0 <= μ s →
  ∃ a, loop fuel step s = Some a ∧ Q a.
Proof.
  intros Hstep. induction fuel as [|f IH]; intros s HI Hμ Hμ0; [lia|].
  simpl. specialize (Hstep s HI). destruct (step s) as [s'|a].
  - destruct Hstep as [HI' ?]. apply IH; [done|lia|lia].
  - by exists a.
Qed.

(** Divergence: an invariant under which the loop always takes another turn. *)
Lemma loop_diverges (I : S → Prop) :
  (∀ s, I s → ∃ s', step s = inl s' ∧ I s') →
  ∀ fuel s, I s → loop fuel step s = None.
Proof.
  intros Hstep. induction fuel as [|f IH]; intros s HI; [done|]. simpl.
  destruct (Hstep s HI) as (s' & -> & HI'). by apply IH.
Qed.
End loops.

(** ** String literals

    A C string is the list of its bytes, without the terminating zero. *)

Fixpoint lit (s : string) : list Z :=
  match s with
  | EmptyString => []
  | String c s' => Z.of_N (Ascii.N_of_ascii c) :: lit s'
  end.

(** Character constants of the source. *)
Definition chr (s : string) : Z := nth 0 (lit s) 0.
