(* ===== verification/Ram.v ===== *)
(** * Flat physical memory

    PXOS runs with paging switched off (kernel/memory.c, [paging_init]): a C
    pointer is a physical address and every load and store goes to one flat
    byte array.  Memory is a finite map from addresses to bytes; an address the
    map does not bind reads as zero, and since every theorem quantifies over the
    map, nothing depends on that choice.  A cell always holds a byte: reads and
    writes reduce modulo 256.  Multi-byte accesses are little-endian, as on x86.

    The same type serves for a byte array that is not at a fixed address (the
    static FAT buffer of fs/filesystem.c), the addresses then being offsets. *)

From S2P Require Import Prelude.
Set Default Goal Selector "!".

Abbreviation ram := (gmap Z Z).

Definition rd8 (m : ram) (a : Z) : Z := u8 (default 0 (m !! a)).
Definition wr8 (m : ram) (a v : Z) : ram := <[a := u8 v]> m.

Definition rd16 (m : ram) (a : Z) : Z := rd8 m a + 256 * rd8 m (a + 1).
Definition wr16 (m : ram) (a v : Z) : ram := wr8 (wr8 m a v) (a + 1) (v / 256).

Definition rd32 (m : ram) (a : Z) : Z := rd16 m a + 65536 * rd16 m (a + 2).
Definition wr32 (m : ram) (a v : Z) : ram := wr16 (wr16 m a v) (a + 2) (v / 65536).

(** The bytes of [\[a, a + n)]. *)
Fixpoint rd_bytes (m : ram) (a : Z) (n : nat) : list Z :=
  match n with
  | O => []
  | S n' => rd8 m a :: rd_bytes m (a + 1) n'
  end.

(** Storing a list of bytes from address [a] upwards. *)
Fixpoint wr_bytes (m : ram) (a : Z) (l : list Z) : ram :=
  match l with
  | [] => m
  | b :: l' => wr_bytes (wr8 m a b) (a + 1) l'
  end.

(** ** Reads after writes *)

Lemma rd8_range m a : is_u8 (rd8 m a).
Proof. apply u8_range. Qed.
Lemma rd16_range m a : is_u16 (rd16 m a).
Proof. unfold rd16. pose proof (rd8_range m a). pose proof (rd8_range m (a + 1)). word_lia. Qed.
Lemma rd32_range m a : is_u32 (rd32 m a).
Proof. unfold rd32. pose proof (rd16_range m a). pose proof (rd16_range m (a + 2)). word_lia. Qed.
#[export] Hint Resolve rd8_range rd16_range rd32_range : word.

Lemma rd8_wr8_eq m a v : rd8 (wr8 m a v) a = u8 v.
Proof. unfold rd8, wr8. rewrite lookup_insert_eq. simpl. word_lia. Qed.
Lemma rd8_wr8_ne m a b v : a ≠ b → rd8 (wr8 m a v) b = rd8 m b.
Proof. intros. unfold rd8, wr8. by rewrite lookup_insert_ne. Qed.
Lemma rd8_wr16_ne m a b v : b < a ∨ a + 2 <= b → rd8 (wr16 m a v) b = rd8 m b.
Proof. intros. unfold wr16. rewrite !rd8_wr8_ne by lia. done. Qed.
Lemma rd8_wr32_ne m a b v : b < a ∨ a + 4 <= b → rd8 (wr32 m a v) b = rd8 m b.
Proof. intros. unfold wr32. rewrite !rd8_wr16_ne by lia. done. Qed.

Lemma rd16_wr16_eq m a v : rd16 (wr16 m a v) a = u16 v.
Proof.
  unfold rd16, wr16. rewrite rd8_wr8_eq, rd8_wr8_ne, rd8_wr8_eq by lia. word_lia.
Qed.
Lemma rd16_wr16_ne m a b v : b + 2 <= a ∨ a + 2 <= b → rd16 (wr16 m a v) b = rd16 m b.
Proof. intros. unfold rd16. rewrite !rd8_wr16_ne by lia. done. Qed.
Lemma rd16_wr32_ne m a b v : b + 2 <= a ∨ a + 4 <= b → rd16 (wr32 m a v) b = rd16 m b.
Proof. intros. unfold rd16. rewrite !rd8_wr32_ne by lia. done. Qed.
Lemma rd32_wr32_eq m a v : rd32 (wr32 m a v) a = u32 v.
Proof.
  unfold rd32, wr32. rewrite rd16_wr16_eq, rd16_wr16_ne, rd16_wr16_eq by lia. word_lia.
Qed.
Lemma rd32_wr32_ne m a b v : b + 4 <= a ∨ a + 4 <= b → rd32 (wr32 m a v) b = rd32 m b.
Proof. intros. unfold rd32. rewrite !rd16_wr32_ne by lia. done. Qed.
Lemma rd32_wr32_at m a b v : a = b → rd32 (wr32 m a v) b = u32 v.
Proof. intros ->. apply rd32_wr32_eq. Qed.
Lemma rd32_wr8_ne m a b v : a < b ∨ b + 4 <= a → rd32 (wr8 m a v) b = rd32 m b.
Proof. intros. unfold rd32, rd16. rewrite !rd8_wr8_ne by lia. done. Qed.

(** Resolve word reads over a chain of word writes, addresses compared by [lia]. *)
Ltac mem_simpl :=
  repeat first [ rewrite rd32_wr32_ne by lia | rewrite rd32_wr32_at by lia ].

(** ** Memories that read alike

    Two maps may differ and still be the same memory (an unbound address reads
    as a bound zero): [m ≡ᵣ m'] when every byte reads the same. *)

Definition ram_eq (m m' : ram) : Prop := ∀ a, rd8 m a = rd8 m' a.
Infix "≡ᵣ" := ram_eq (at level 70).

#[export] Instance ram_eq_equivalence : Equivalence ram_eq.
Proof.
  split.
  - by intros m a.
  - intros m m' H a. by rewrite H.
  - intros m1 m2 m3 H1 H2 a. by rewrite H1, H2.
Qed.
#[export] Instance rd8_proper : Proper (ram_eq ==> eq ==> eq) rd8.
Proof. intros m m' H a ? <-. apply H. Qed.
#[export] Instance rd16_proper : Proper (ram_eq ==> eq ==> eq) rd16.
Proof. intros m m' H a ? <-. unfold rd16. by rewrite !H. Qed.
#[export] Instance rd32_proper : Proper (ram_eq ==> eq ==> eq) rd32.
Proof. intros m m' H a ? <-. unfold rd32. by rewrite !H. Qed.
#[export] Instance wr8_proper : Proper (ram_eq ==> eq ==> eq ==> ram_eq) wr8.
Proof.
  intros m m' H a ? <- v ? <- b. destruct (decide (a = b)) as [->|].
  - by rewrite !rd8_wr8_eq.
  - by rewrite !rd8_wr8_ne.
Qed.
#[export] Instance wr16_proper : Proper (ram_eq ==> eq ==> eq ==> ram_eq) wr16.
Proof. intros m m' H a ? <- v ? <-. unfold wr16. by rewrite H. Qed.
#[export] Instance wr32_proper : Proper (ram_eq ==> eq ==> eq ==> ram_eq) wr32.
Proof. intros m m' H a ? <- v ? <-. unfold wr32. by rewrite H. Qed.

(** ** Framing

    [only m P m'] says that [m'] differs from [m] at most at addresses of [P]. *)

Definition only (m : ram) (P : Z → Prop) (m' : ram) : Prop :=
  ∀ a, P a ∨ rd8 m' a = rd8 m a.

(** The addresses of the [n] bytes at [b]. *)
Definition span (b n : Z) : Z → Prop := λ a, b <= a < b + n.

Lemma only_refl m P : only m P m.
Proof. by right. Qed.
Lemma only_trans m1 m2 m3 P : only m1 P m2 → only m2 P m3 → only m1 P m3.
Proof. intros H1 H2 a. destruct (H2 a) as [?| ->]; [by left|apply H1]. Qed.
Lemma only_mono m m' (P Q : Z → Prop) : only m P m' → (∀ a, P a → Q a) → only m Q m'.
Proof. intros H HPQ a. destruct (H a); [left|right]; auto. Qed.
Lemma only_wr8 m a v : only m (span a 1) (wr8 m a v).
Proof.
  intros b. destruct (decide (a = b)) as [->|].
  - left. unfold span. lia.
  - right. by apply rd8_wr8_ne.
Qed.
Lemma only_wr16 m a v : only m (span a 2) (wr16 m a v).
Proof.
  intros b. unfold span. destruct (decide (a <= b < a + 2)); [by left|right].
  apply rd8_wr16_ne. lia.
Qed.
Lemma only_wr32 m a v : only m (span a 4) (wr32 m a v).
Proof.
  intros b. unfold span. destruct (decide (a <= b < a + 4)); [by left|right].
  apply rd8_wr32_ne. lia.
Qed.

Lemma only_rd8 m m' P a : only m P m' → ¬ P a → rd8 m' a = rd8 m a.
Proof. intros H ?. destruct (H a); [done|done]. Qed.
Lemma only_rd16 m m' P a :
  only m P m' → (∀ k, a <= k < a + 2 → ¬ P k) → rd16 m' a = rd16 m a.
Proof.
  intros H HP. unfold rd16.
  rewrite !(only_rd8 m m' P) by (first [done | apply HP; lia]). done.
Qed.
Lemma only_rd32 m m' P a :
  only m P m' → (∀ k, a <= k < a + 4 → ¬ P k) → rd32 m' a = rd32 m a.
Proof.
  intros H HP. unfold rd32.
  rewrite !(only_rd16 m m' P) by (first [done | intros; apply HP; lia]). done.
Qed.

Create HintDb frame.
#[export] Hint Resolve only_refl only_wr8 only_wr16 only_wr32 : frame.

(** ** Byte sequences *)

Lemma length_rd_bytes m a n : length (rd_bytes m a n) = n.
Proof. revert a. induction n; intros; simpl; auto. Qed.

Lemma rd_bytes_lookup m a n i :
  (i < n)%nat → rd_bytes m a n !! i = Some (rd8 m (a + Z.of_nat i)).
Proof.
  revert a i. induction n as [|n IH]; intros a [|i] Hi; simpl; try lia.
  - do 2 f_equal. lia.
  - rewrite IH by lia. do 2 f_equal. lia.
Qed.

Lemma only_wr_bytes m a l : only m (span a (Z.of_nat (length l))) (wr_bytes m a l).
Proof.
  revert m a. induction l as [|b l IH]; intros m a; simpl; [apply only_refl|].
  apply only_trans with (wr8 m a b).
  - eapply only_mono; [apply only_wr8|]. unfold span; intros; lia.
  - eapply only_mono; [apply IH|]. unfold span; intros; lia.
Qed.
#[export] Hint Resolve only_wr_bytes : frame.

Lemma rd8_wr_bytes m a l i b :
  l !! i = Some b → rd8 (wr_bytes m a l) (a + Z.of_nat i) = u8 b.
Proof.
  revert m a i. induction l as [|c l IH]; intros m a [|i]; simpl; try done.
  - intros [= ->]. rewrite (only_rd8 (wr8 m a b) _ _ _ (only_wr_bytes _ _ _))
      by (unfold span; lia).
    replace (a + Z.of_nat 0) with a by lia. apply rd8_wr8_eq.
  - intros Hi. replace (a + Z.of_nat (S i)) with (a + 1 + Z.of_nat i) by lia.
    by apply IH.
Qed.

Lemma rd_wr_bytes m a l :
  Forall is_u8 l → rd_bytes (wr_bytes m a l) a (length l) = l.
Proof.
  intros Hl. apply list_eq. intros i.
  destruct (decide (i < length l)%nat) as [Hi|].
  - rewrite rd_bytes_lookup by done.
    destruct (lookup_lt_is_Some_2 l i Hi) as [b Hb]. rewrite Hb.
    rewrite (rd8_wr_bytes _ _ _ _ b Hb). f_equal. apply u8_small.
    by eapply Forall_lookup_1.
  - rewrite !lookup_ge_None_2; rewrite ?length_rd_bytes; auto with lia.
Qed.

Lemma rd_bytes_only m m' P a n :
  only m P m' → (∀ k, a <= k < a + Z.of_nat n → ¬ P k) →
  rd_bytes m' a n = rd_bytes m a n.
Proof.
  intros H HP. revert a HP. induction n as [|n IH]; intros a HP; simpl; [done|].
  rewrite (only_rd8 m m' P) by (first [done | apply HP; lia]).
  f_equal. apply IH. intros; apply HP; lia.
Qed.
