(* ===== verification/CString.v ===== *)
(** * The C library of the kernel (lib/string.c)

    Every routine twice.  At the top of the file, the routine as lib/string.c
    has it, on flat memory and pointers; loops that run until a terminating zero
    take a fuel argument and yield [None] when it is exhausted.  In [Module Str],
    the same routine on the contents of its strings (lists of bytes without the
    terminating zero), which is what the rest of the development calls for a
    [const char*] argument.  The [_ok] lemmas say that on memory that holds
    C strings the two agree, with fuel one above the string's length. *)

From S2P Require Import Prelude Ram.
Set Default Goal Selector "!".
#[local] Set Warnings "-clear-no-such-hyp".

(** ** The routines on memory *)

Definition strlen (fuel : nat) (m : ram) (str : Z) : option Z :=
  loop fuel (λ len, if rd8 m (str + len) =? 0 then inr len else inl (len +w 1)) 0.

Definition strcmp (fuel : nat) (m : ram) (str1 str2 : Z) : option Z :=
  loop fuel (λ '(p, q),
    if negb (rd8 m p =? 0) && (rd8 m p =? rd8 m q) then inl (p + 1, q + 1)
    else inr (rd8 m p - rd8 m q)) (str1, str2).

(** [c1 = c1 - 'A' + 'a'] when [c1] is an upper-case letter; [c] is a [char]. *)
Definition to_lower (c : Z) : Z :=
  if (chr "A" <=? c) && (c <=? chr "Z") then c - chr "A" + chr "a" else c.

Definition strcasecmp (fuel : nat) (m : ram) (str1 str2 : Z) : option Z :=
  loop fuel (λ '(p, q),
    if negb (rd8 m p =? 0) && negb (rd8 m q =? 0) then
      let c1 := to_lower (s8 (rd8 m p)) in
      let c2 := to_lower (s8 (rd8 m q)) in
      if negb (c1 =? c2) then inr (c1 - c2) else inl (p + 1, q + 1)
    else inr (rd8 m p - rd8 m q)) (str1, str2).

Definition strcpy (fuel : nat) (m : ram) (dest src : Z) : option ram :=
  loop fuel (λ '(m, d, s),
    let c := rd8 m s in
    let m := wr8 m d c in
    if c =? 0 then inr m else inl (m, d + 1, s + 1)) (m, dest, src).

Definition memset (m : ram) (ptr value num : Z) : ram :=
  for_z (Z.to_nat num) 0 (λ i m, wr8 m (ptr + i) value) m.

Definition memcpy (m : ram) (dest src num : Z) : ram :=
  for_z (Z.to_nat num) 0 (λ i m, wr8 m (dest + i) (rd8 m (src + i))) m.

(** The two loops of [strncpy]: the copy stops at [n] bytes or at the end of
    [src], and the rest of the [n] bytes is zeroed. *)
Fixpoint strncpy_copy (n : nat) (m : ram) (ptr src : Z) : nat * (Z * ram) :=
  match n with
  | O => (O, (ptr, m))
  | S n' => if rd8 m src =? 0 then (n, (ptr, m))
            else strncpy_copy n' (wr8 m ptr (rd8 m src)) (ptr + 1) (src + 1)
  end.

Definition strncpy (m : ram) (dest src n : Z) : ram :=
  let '(rest, (ptr, m)) := strncpy_copy (Z.to_nat n) m dest src in
  for_z rest 0 (λ i m, wr8 m (ptr + i) 0) m.

Definition strcat (fuel : nat) (m : ram) (dest src : Z) : option ram :=
  d ← loop fuel (λ d, if rd8 m d =? 0 then inr d else inl (d + 1)) dest;
  strcpy fuel m d src.

Definition memcmp (m : ram) (ptr1 ptr2 num : Z) : Z :=
  default 0 (for_first (Z.to_nat num) 0 (λ i,
    if rd8 m (ptr1 + i) <? rd8 m (ptr2 + i) then Some (-1)
    else if rd8 m (ptr2 + i) <? rd8 m (ptr1 + i) then Some 1
    else None)).

(** The pointer found, 0 for NULL. *)
Definition strchr (fuel : nat) (m : ram) (str character : Z) : option Z :=
  loop fuel (λ p,
    if rd8 m p =? 0 then inr (if character =? 0 then p else 0)
    else if rd8 m p =? u8 character then inr p else inl (p + 1)) str.

Definition strrchr (fuel : nat) (m : ram) (str character : Z) : option Z :=
  loop fuel (λ '(p, last),
    if rd8 m p =? 0 then inr (if character =? 0 then p else last)
    else inl (p + 1, if rd8 m p =? u8 character then p else last)) (str, 0).

Definition is_blank (c : Z) : bool :=
  (c =? 32) || (c =? 9) || (c =? 10).
Definition is_digit (c : Z) : bool := (chr "0" <=? c) && (c <=? chr "9").

(** Signed arithmetic is at 32 bits. *)
Definition atoi (fuel : nat) (m : ram) (str : Z) : option Z :=
  p ← loop fuel (λ p, if is_blank (rd8 m p) then inl (p + 1) else inr p) str;
  let '(sign, p) :=
    if rd8 m p =? chr "-" then (-1, p + 1)
    else if rd8 m p =? chr "+" then (1, p + 1) else (1, p) in
  result ← loop fuel (λ '(p, result),
    if is_digit (rd8 m p)
    then inl (p + 1, s32 (s32 (result * 10) + (rd8 m p - chr "0")))
    else inr result) (p, 0);
  Some (s32 (sign * result)).

(** A digit as [itoa] prints it; [rem] is C's truncating remainder. *)
Definition itoa_digit (rem : Z) : Z :=
  if 9 <? rem then u8 (rem - 10 + chr "a") else u8 (rem + chr "0").

(** The swap loop at the end of [itoa], on [str\[start .. end\]]. *)
Definition itoa_reverse (fuel : nat) (m : ram) (str start end_ : Z) : option ram :=
  loop fuel (λ '(m, start, end_),
    if start <? end_ then
      let temp := rd8 m (str + start) in
      let m := wr8 m (str + start) (rd8 m (str + end_)) in
      let m := wr8 m (str + end_) temp in
      inl (m, start + 1, end_ - 1)
    else inr m) (m, start, end_).

Definition itoa (fuel : nat) (m : ram) (num str base : Z) : option ram :=
  if num =? 0 then
    Some (wr8 (wr8 m str (chr "0")) (str + 1) 0)
  else
    let is_negative := (num <? 0) && (base =? 10) in
    let num := if is_negative then s32 (- num) else num in
    '(m, i) ← loop fuel (λ '(m, i, num),
      if num =? 0 then inr (m, i)
      else inl (wr8 m (str + i) (itoa_digit (Z.rem num base)), i + 1, Z.quot num base))
      (m, 0, num);
    let '(m, i) := if is_negative then (wr8 m (str + i) (chr "-"), i + 1) else (m, i) in
    let m := wr8 m (str + i) 0 in
    itoa_reverse fuel m str 0 (i - 1).

(** ** The routines on string contents *)

Module Str.

(** [*p] for a pointer into a string: the terminating zero at its end. *)
Definition peek (s : list Z) : Z := match s with [] => 0 | c :: _ => c end.

Definition strlen (s : list Z) : Z := Z.of_nat (length s).

Fixpoint strcmp (s1 s2 : list Z) : Z :=
  match s1 with
  | c :: s1' => if c =? peek s2 then strcmp s1' (tail s2) else c - peek s2
  | [] => 0 - peek s2
  end.

Fixpoint strcasecmp (s1 s2 : list Z) : Z :=
  match s1, s2 with
  | a :: s1', b :: s2' =>
      let c1 := to_lower (s8 a) in
      let c2 := to_lower (s8 b) in
      if negb (c1 =? c2) then c1 - c2 else strcasecmp s1' s2'
  | _, _ => peek s1 - peek s2
  end.

(** The bytes [strncpy(dest, s, n)] stores. *)
Definition strncpy (s : list Z) (n : nat) : list Z :=
  take n s ++ replicate (n - length s) 0.

(** The offset of the first (last) occurrence; [None] is NULL. *)
Fixpoint strchr (s : list Z) (character : Z) : option nat :=
  match s with
  | [] => if character =? 0 then Some O else None
  | c :: s' => if c =? u8 character then Some O else S <$> strchr s' character
  end.

Fixpoint strrchr_from (i : nat) (last : option nat) (s : list Z) (character : Z) :
    option nat :=
  match s with
  | [] => if character =? 0 then Some i else last
  | c :: s' => strrchr_from (S i) (if c =? u8 character then Some i else last) s' character
  end.
Definition strrchr (s : list Z) (character : Z) : option nat :=
  strrchr_from O None s character.

(** [memcmp] of the first [n] bytes of two arrays. *)
Fixpoint memcmp (n : nat) (a b : list Z) : Z :=
  match n with
  | O => 0
  | S n' => if peek a <? peek b then -1
            else if peek b <? peek a then 1
            else memcmp n' (tail a) (tail b)
  end.

Fixpoint skip_blank (s : list Z) : list Z :=
  match s with
  | c :: s' => if is_blank c then skip_blank s' else s
  | [] => []
  end.

Fixpoint digits_value (s : list Z) (result : Z) : Z :=
  match s with
  | c :: s' => if is_digit c
               then digits_value s' (s32 (s32 (result * 10) + (c - chr "0")))
               else result
  | [] => result
  end.

Definition atoi (s : list Z) : Z :=
  let s := skip_blank s in
  let '(sign, s) :=
    if peek s =? chr "-" then (-1, tail s)
    else if peek s =? chr "+" then (1, tail s) else (1, s) in
  s32 (sign * digits_value s 0).

(** The digits [itoa] produces for a positive [num], least significant first. *)
Fixpoint rdigits (fuel : nat) (num base : Z) : list Z :=
  match fuel with
  | O => []
  | S f => if num =? 0 then []
           else itoa_digit (Z.rem num base) :: rdigits f (Z.quot num base) base
  end.

(** The text of [itoa(num, _, base)] for [num] in the non-negative range, or for
    any [num > INT_MIN] in base 10; 32 digits are enough for any base. *)
Definition itoa (num base : Z) : list Z :=
  if num =? 0 then [chr "0"]
  else if (num <? 0) && (base =? 10) then chr "-" :: reverse (rdigits 32 (- num) base)
  else reverse (rdigits 32 num base).

End Str.

(** ** C strings in memory *)

(** [cstr m p s]: the zero-terminated string at [p] is [s]. *)
Fixpoint cstr (m : ram) (p : Z) (s : list Z) : Prop :=
  match s with
  | [] => rd8 m p = 0
  | c :: s' => rd8 m p = c ∧ c ≠ 0 ∧ cstr m (p + 1) s'
  end.

(** Reading a string off memory. *)
Fixpoint rd_cstr (fuel : nat) (m : ram) (p : Z) : option (list Z) :=
  match fuel with
  | O => None
  | S f => if rd8 m p =? 0 then Some []
           else s ← rd_cstr f m (p + 1); Some (rd8 m p :: s)
  end.

(** ** Facts about C strings *)

Lemma cstr_nonzero m p s : cstr m p s → Forall (λ c, 0 < c < 256) s.
Proof.
  revert p. induction s as [|c s IH]; intros p; simpl; [constructor|].
  intros (<- & ? & ?). constructor; [|by eapply IH].
  pose proof (rd8_range m p). word_lia.
Qed.

Lemma cstr_only m m' P p s :
  only m P m' → cstr m p s → (∀ a, p <= a <= p + Z.of_nat (length s) → ¬ P a) →
  cstr m' p s.
Proof.
  intros H. revert p. induction s as [|c s IH]; intros p; simpl.
  - intros <- HP. apply (only_rd8 m m' P); [done|apply HP; lia].
  - intros (<- & ? & ?) HP. split_and!; [|done|].
    + apply (only_rd8 m m' P); [done|apply HP; lia].
    + apply IH; [done|]. intros; apply HP; lia.
Qed.

Lemma cstr_inj m p s s' : cstr m p s → cstr m p s' → s = s'.
Proof.
  revert p s'. induction s as [|c s IH]; intros p [|c' s']; simpl; intuition; try congruence.
  f_equal; [congruence|by eapply IH].
Qed.

Lemma rd_cstr_ok m p s fuel :
  cstr m p s → (length s < fuel)%nat → rd_cstr fuel m p = Some s.
Proof.
  revert p fuel. induction s as [|c s IH]; intros p [|f]; simpl; try lia.
  - intros -> ?. done.
  - intros (<- & Hc & Hs) ?. zdecide. rewrite (IH _ f) by (done || lia). done.
Qed.

Lemma rd_cstr_cstr m p s fuel : rd_cstr fuel m p = Some s → cstr m p s.
Proof.
  revert p s. induction fuel as [|f IH]; intros p s; simpl; [done|].
  ztest; [intros [= <-]; done|].
  destruct (rd_cstr f m (p + 1)) eqn:E; intros; simplify_eq/=. eauto.
Qed.

Lemma cstr_peek m p s : cstr m p s → rd8 m p = Str.peek s.
Proof. destruct s; simpl; intuition. Qed.
Lemma cstr_tail m p s : cstr m p s → s ≠ [] → cstr m (p + 1) (tail s).
Proof. destruct s; simpl; intuition. Qed.
Lemma peek_range m p s : cstr m p s → is_u8 (Str.peek s).
Proof. intros H. rewrite <- (cstr_peek _ _ _ H). auto with word. Qed.

(** A memory write below a string's end that puts the string there. *)
Lemma cstr_wr_bytes m p s :
  Forall (λ c, 0 < c < 256) s → cstr (wr_bytes m p (s ++ [0])) p s.
Proof.
  revert m p. induction s as [|c s IH]; intros m p Hs; simpl.
  - rewrite rd8_wr8_eq. done.
  - inversion_clear Hs. split_and!; [|lia|by apply IH].
    rewrite (only_rd8 _ _ _ _ (only_wr_bytes _ _ _)) by (unfold span; lia).
    rewrite rd8_wr8_eq. apply u8_small. word_lia.
Qed.

(** ** The routines on memory compute the routines on contents *)

Lemma strlen_ok m p s fuel :
  cstr m p s → (length s < fuel)%nat → is_u32 (Str.strlen s) →
  strlen fuel m p = Some (Str.strlen s).
Proof.
  intros Hs Hf Hlen. unfold strlen, Str.strlen in *.
  assert (∀ s' k f, cstr m (p + k) s' → (length s' < f)%nat → 0 <= k →
    is_u32 (k + Z.of_nat (length s')) →
    loop f (λ len, if rd8 m (p + len) =? 0 then inr len else inl (len +w 1)) k
    = Some (k + Z.of_nat (length s'))) as Hgen.
  { induction s' as [|c s' IH]; intros k [|f]; simpl; try lia.
    - intros -> _ ? ?. f_equal. simpl. lia.
    - intros (<- & Hc & Hs') ? ? Hr. zdecide.
      rewrite u32_small by word_lia.
      rewrite IH; [f_equal; lia| |lia|lia|unfold is_u32 in *; lia].
      by replace (p + (k + 1)) with (p + k + 1) by lia. }
  rewrite (Hgen s 0 fuel); [done| |done|lia|done]. by rewrite Z.add_0_r.
Qed.

Lemma strcmp_ok m p q s1 s2 fuel :
  cstr m p s1 → cstr m q s2 → (length s1 < fuel)%nat →
  strcmp fuel m p q = Some (Str.strcmp s1 s2).
Proof.
  unfold strcmp. revert p q s2 fuel.
  induction s1 as [|c s1 IH]; intros p q s2 [|f]; simpl; try lia.
  - intros -> Hq _. rewrite (cstr_peek _ _ _ Hq). done.
  - intros (<- & Hc & Hp) Hq ?. rewrite (cstr_peek _ _ _ Hq). zdecide.
    ztest; simpl; [|done]. apply IH; [done| |lia].
    apply cstr_tail; [done|]. destruct s2; simpl in *; congruence.
Qed.

Lemma strcasecmp_ok m p q s1 s2 fuel :
  cstr m p s1 → cstr m q s2 → (length s1 < fuel)%nat →
  strcasecmp fuel m p q = Some (Str.strcasecmp s1 s2).
Proof.
  unfold strcasecmp. revert p q s2 fuel.
  induction s1 as [|c s1 IH]; intros p q s2 [|f]; simpl; try lia.
  - intros -> Hq _. rewrite (cstr_peek _ _ _ Hq). done.
  - intros (<- & Hc & Hp) Hq ?. zdecide. destruct s2 as [|d s2]; simpl in Hq.
    + rewrite Hq. done.
    + destruct Hq as (<- & Hd & Hq). zdecide.
      destruct (negb _); [done|]. apply IH; [done|done|lia].
Qed.

(** [strcpy] stores the source string and its terminator at [dest], provided the
    destination does not overlap the source. *)
Lemma strcpy_ok m d p s fuel :
  cstr m p s → (length s < fuel)%nat →
  d + Z.of_nat (length s) < p ∨ p + Z.of_nat (length s) < d →
  strcpy fuel m d p = Some (wr_bytes m d (s ++ [0])).
Proof.
  unfold strcpy. revert m d p fuel.
  induction s as [|c s IH]; intros m d p [|f]; simpl; try lia.
  - intros -> _ _. done.
  - intros (<- & Hc & Hs) ? ?. zdecide. rewrite IH; [done| |lia|lia].
    eapply cstr_only; [apply only_wr8|done|]. unfold span. lia.
Qed.

Lemma strcat_ok m d p s t fuel :
  cstr m d s → cstr m p t → (length s < fuel)%nat → (length t < fuel)%nat →
  let e := d + Z.of_nat (length s) in
  e + Z.of_nat (length t) < p ∨ p + Z.of_nat (length t) < e →
  strcat fuel m d p = Some (wr_bytes m e (t ++ [0])).
Proof.
  intros Hd Hp Hf Hf' e Hdisj. unfold strcat.
  assert (∀ s d f, cstr m d s → (length s < f)%nat →
    loop f (λ d, if rd8 m d =? 0 then inr d else inl (d + 1)) d
    = Some (d + Z.of_nat (length s))) as Hend.
  { induction s0 as [|c s' IH]; intros d' [|f]; simpl; try lia.
    - intros -> ?. simpl. f_equal; lia.
    - intros (<- & ? & ?) ?. zdecide. rewrite IH by (done || lia). f_equal; lia. }
  rewrite (Hend s) by done. simpl. by apply strcpy_ok.
Qed.

Lemma memset_only m p v n : only m (span p n) (memset m p v n).
Proof.
  unfold memset, span. destruct (decide (0 <= n)) as [Hn|].
  - apply (for_z_inv (λ _ m', only m (λ a, p <= a < p + n) m')); [apply only_refl|].
    intros j s' ? HI. eapply only_trans; [done|].
    eapply only_mono; [apply only_wr8|]. unfold span. lia.
  - rewrite Z2Nat.nonpos by lia. apply only_refl.
Qed.

Lemma memset_rd8 m p v n a : p <= a < p + n → rd8 (memset m p v n) a = u8 v.
Proof.
  intros Ha. unfold memset.
  pose proof (for_z_inv (λ j m', ∀ a, p <= a < p + j → rd8 m' a = u8 v)
    (Z.to_nat n) 0 (λ i m, wr8 m (p + i) v) m) as H.
  rewrite Z2Nat.id in H by lia. apply H; [lia| |lia].
  intros j s' ? HI b Hb. destruct (decide (b = p + j)) as [->|].
  - by rewrite rd8_wr8_eq.
  - rewrite rd8_wr8_ne by lia. apply HI. lia.
Qed.

Lemma memset_zero_rd32 m p n a : p <= a → a + 4 <= p + n → rd32 (memset m p 0 n) a = 0.
Proof.
  intros. unfold rd32, rd16. rewrite !memset_rd8 by lia. done.
Qed.

Lemma memcpy_only m d s n : only m (span d n) (memcpy m d s n).
Proof.
  unfold memcpy, span. destruct (decide (0 <= n)) as [Hn|].
  - apply (for_z_inv (λ _ m', only m (λ a, d <= a < d + n) m')); [apply only_refl|].
    intros j s' ? HI. eapply only_trans; [done|].
    eapply only_mono; [apply only_wr8|]. unfold span. lia.
  - rewrite Z2Nat.nonpos by lia. apply only_refl.
Qed.

(** [memcpy] copies the source bytes that lie outside the destination. *)
Lemma memcpy_rd8 m d s n len i :
  0 <= i < len → len <= n → d + n <= s ∨ s + len <= d →
  rd8 (memcpy m d s n) (d + i) = rd8 m (s + i).
Proof.
  intros Hi Hlen Hdisj. unfold memcpy.
  pose proof (for_z_inv
    (λ j m', only m (span d n) m' ∧
             ∀ i, 0 <= i < j → i < len → rd8 m' (d + i) = rd8 m (s + i))
    (Z.to_nat n) 0 (λ i m, wr8 m (d + i) (rd8 m (s + i))) m) as H.
  rewrite Z2Nat.id in H by lia. apply H; [split; [apply only_refl|lia]| |lia|lia].
  intros j m' ? (Ho & HI). split.
  - eapply only_trans; [done|]. eapply only_mono; [apply only_wr8|].
    unfold span. lia.
  - intros k Hk Hk'. destruct (decide (k = j)) as [->|].
    + rewrite rd8_wr8_eq, (only_rd8 _ _ _ _ Ho) by (unfold span; lia).
      apply u8_small. auto with word.
    + rewrite rd8_wr8_ne by lia. apply HI; lia.
Qed.

Lemma strncpy_copy_ok n m p s src :
  cstr m src s → p + Z.of_nat n <= src ∨ src + Z.of_nat (length s) < p →
  strncpy_copy n m p src =
    ((n - length s)%nat,
     (p + Z.of_nat (length (take n s)), wr_bytes m p (take n s))).
Proof.
  revert m p s src. induction n as [|n IH]; intros m p s src; simpl.
  { intros _ _. rewrite Z.add_0_r. done. }
  destruct s as [|c s]; simpl.
  - intros -> _. simpl. rewrite Z.add_0_r. done.
  - intros (<- & Hc & Hs) ?. zdecide. rewrite (IH _ _ s); [| |lia].
    + do 2 f_equal. lia.
    + eapply cstr_only; [apply only_wr8|done|]. unfold span. lia.
Qed.

Lemma zero_fill_ok n m p i :
  for_z n i (λ i m, wr8 m (p + i) 0) m = wr_bytes m (p + i) (replicate n 0).
Proof.
  revert m i. induction n as [|n IH]; intros m i; [done|].
  rewrite for_z_S, IH. simpl. f_equal. lia.
Qed.

Lemma wr_bytes_app m p l1 l2 :
  wr_bytes m p (l1 ++ l2) = wr_bytes (wr_bytes m p l1) (p + Z.of_nat (length l1)) l2.
Proof.
  revert m p. induction l1 as [|c l1 IH]; intros m p; simpl.
  - by rewrite Z.add_0_r.
  - rewrite IH. f_equal. lia.
Qed.

(** [strncpy] writes exactly [n] bytes: the source cut at [n], zero-padded. *)
Lemma strncpy_ok m d src s n :
  cstr m src s → 0 <= n → d + n <= src ∨ src + Z.of_nat (length s) < d →
  strncpy m d src n = wr_bytes m d (Str.strncpy s (Z.to_nat n)).
Proof.
  intros Hs Hn Hd. unfold strncpy.
  rewrite (strncpy_copy_ok _ _ _ s) by (done || lia).
  rewrite zero_fill_ok. unfold Str.strncpy. rewrite wr_bytes_app, Z.add_0_r. done.
Qed.

Lemma memcmp_ok m p q n a b :
  rd_bytes m p (Z.to_nat n) = a → rd_bytes m q (Z.to_nat n) = b →
  memcmp m p q n = Str.memcmp (Z.to_nat n) a b.
Proof.
  intros <- <-. unfold memcmp.
  assert (∀ k i, default 0 (for_first k i (λ i,
    if rd8 m (p + i) <? rd8 m (q + i) then Some (-1)
    else if rd8 m (q + i) <? rd8 m (p + i) then Some 1 else None))
    = Str.memcmp k (rd_bytes m (p + i) k) (rd_bytes m (q + i) k)) as Hgen.
  { induction k as [|k IH]; intros i; [done|].
    rewrite for_first_S. simpl. repeat ztest; simpl; try done.
    rewrite IH. do 2 f_equal; lia. }
  rewrite Hgen. by rewrite !Z.add_0_r.
Qed.

Lemma strchr_ok m p s c fuel :
  cstr m p s → (length s < fuel)%nat →
  strchr fuel m p c =
    Some (match Str.strchr s c with Some i => p + Z.of_nat i | None => 0 end).
Proof.
  unfold strchr. revert p fuel. induction s as [|d s IH]; intros p [|f]; simpl; try lia.
  - intros -> _. simpl. ztest; [|done]. by rewrite Z.add_0_r.
  - intros (<- & Hd & Hs) ?. zdecide. ztest; [by rewrite Z.add_0_r|].
    rewrite IH by (done || lia). f_equal.
    destruct (Str.strchr s c); simpl; [lia|done].
Qed.

Lemma strrchr_ok m p s c fuel :
  cstr m p s → (length s < fuel)%nat →
  strrchr fuel m p c =
    Some (match Str.strrchr s c with Some i => p + Z.of_nat i | None => 0 end).
Proof.
  intros Hs Hf. unfold strrchr, Str.strrchr.
  assert (∀ s k (last : option nat) f, cstr m (p + Z.of_nat k) s → (length s < f)%nat →
    loop f (λ '(p, last),
      if rd8 m p =? 0 then inr (if c =? 0 then p else last)
      else inl (p + 1, if rd8 m p =? u8 c then p else last))
      (p + Z.of_nat k, match last with Some i => p + Z.of_nat i | None => 0 end)
    = Some (match Str.strrchr_from k last s c with
            | Some i => p + Z.of_nat i | None => 0 end)) as Hgen.
  { clear; induction s as [|d s IH]; intros k last [|f]; simpl; try lia.
    - intros -> _. simpl. ztest; done.
    - intros (<- & Hd & Hs) ?. zdecide.
      specialize (IH (S k) (if rd8 m (p + Z.of_nat k) =? u8 c then Some k else last) f).
      replace (p + Z.of_nat (S k)) with (p + Z.of_nat k + 1) in IH by lia.
      rewrite <- IH by (done || lia). f_equal. f_equal. ztest; done. }
  specialize (Hgen s O None fuel). rewrite Z.add_0_r in Hgen. by apply Hgen.
Qed.

Lemma is_digit_range c : is_digit c = true ↔ 48 <= c <= 57.
Proof. unfold is_digit. change (chr "0") with 48. change (chr "9") with 57. lia. Qed.

Lemma atoi_ok m p s fuel :
  cstr m p s → (length s < fuel)%nat → atoi fuel m p = Some (Str.atoi s).
Proof.
  intros Hs Hf. unfold atoi.
  assert (∀ s p f, cstr m p s → (length s < f)%nat → ∃ p',
    loop f (λ p, if is_blank (rd8 m p) then inl (p + 1) else inr p) p = Some p' ∧
    cstr m p' (Str.skip_blank s)) as Hblank.
  { clear; induction s as [|c s IH]; intros p [|f]; simpl; try lia.
    - intros E _. rewrite E. simpl. eauto.
    - intros (<- & Hc & Hs) ?. destruct (is_blank (rd8 m p)) eqn:E.
      + apply IH; [done|lia].
      + exists p. done. }
  destruct (Hblank s p fuel Hs Hf) as (p1 & -> & H1). simpl.
  assert ((length (Str.skip_blank s) <= length s)%nat) as Hlen1.
  { clear. induction s as [|c s IH]; simpl; [done|]. destruct (is_blank c); simpl; lia. }
  set (s1 := Str.skip_blank s) in *.
  assert (∀ s p r f, cstr m p s → (length s < f)%nat →
    loop f (λ '(p, result), if is_digit (rd8 m p)
      then inl (p + 1, s32 (s32 (result * 10) + (rd8 m p - chr "0")))
      else inr result) (p, r) = Some (Str.digits_value s r)) as Hdig.
  { clear. induction s as [|c s IH]; intros p r [|f]; simpl; try lia.
    - intros E _. rewrite E. done.
    - intros (<- & Hc & Hs) ?. destruct (is_digit _); [|done]. apply IH; [done|lia]. }
  unfold Str.atoi. fold s1. rewrite (cstr_peek _ _ _ H1).
  assert (∀ c, Str.peek s1 = c → c ≠ 0 → cstr m (p1 + 1) (tail s1)) as Htl.
  { intros c Hc ?. apply cstr_tail; [done|]. intros E. rewrite E in Hc. done. }
  assert ((length (tail s1) <= length s1)%nat) by (destruct s1; simpl; lia).
  repeat (ztest; [rewrite (Hdig (tail s1)) by (first [by eapply Htl | lia]); done|]).
  rewrite (Hdig s1) by (done || lia). done.
Qed.

(** ** What the routines compute *)

Definition str_ok (s : list Z) : Prop := Forall (λ c, 0 < c < 256) s.

Lemma strcmp_eq s1 s2 : str_ok s1 → str_ok s2 → Str.strcmp s1 s2 = 0 ↔ s1 = s2.
Proof.
  intros H1. revert s2. induction H1 as [|c s1 Hc H1 IH]; intros [|d s2] H2; simpl.
  - done.
  - inversion H2. split; [lia|done].
  - split; [|done]. ztest; lia.
  - inversion_clear H2. ztest.
    + rewrite IH by done. simpl in *; subst. split; congruence.
    + split; [lia|]. intros [= -> ?]. done.
Qed.

Lemma strcmp_antisym s1 s2 : str_ok s1 → str_ok s2 →
  Str.strcmp s1 s2 = - Str.strcmp s2 s1.
Proof.
  intros H1. revert s2. induction H1 as [|c s1 Hc H1 IH]; intros [|d s2] H2; simpl.
  - done.
  - inversion_clear H2. zdecide. lia.
  - zdecide. lia.
  - inversion_clear H2. repeat ztest; try lia. apply IH; done.
Qed.

Lemma strcasecmp_eq s1 s2 : str_ok s1 → str_ok s2 →
  Str.strcasecmp s1 s2 = 0 ↔ to_lower ∘ s8 <$> s1 = to_lower ∘ s8 <$> s2.
Proof.
  intros H1. revert s2. induction H1 as [|c s1 Hc H1 IH]; intros [|d s2] H2; simpl.
  - done.
  - inversion_clear H2. split; [lia|done].
  - split; [lia|done].
  - inversion_clear H2. ztest; simpl.
    + rewrite IH by done. unfold compose. split; [|by intros [= _ ?]].
      intros E. f_equal; [done|exact E].
    + split; [lia|]. unfold compose. by intros [= ? ?].
Qed.

Lemma memcmp_eq n a b : (n <= length a)%nat → (n <= length b)%nat →
  Str.memcmp n a b = 0 ↔ take n a = take n b.
Proof.
  revert a b. induction n as [|n IH]; intros [|c a] [|d b]; simpl; try (done || lia).
  intros ? ?. repeat ztest; [split; [lia|intros [= ? ?]; lia]..|].
  assert (c = d) as -> by lia. rewrite IH by lia. split; [by intros ->|by intros [= ->]].
Qed.

Lemma strchr_Some s c i : str_ok s → 0 < c < 256 →
  Str.strchr s c = Some i ↔ s !! i = Some c ∧ c ∉ take i s.
Proof.
  intros Hs Hc. revert i. induction Hs as [|d s Hd Hs IH]; intros i; simpl.
  { zdecide. split; [done|]. by intros []. }
  rewrite u8_small by word_lia. ztest.
  - subst. split.
    + intros [= <-]. split; [done|]. apply not_elem_of_nil.
    + intros [? Hn]. destruct i; [done|]. simpl in Hn. set_solver.
  - destruct i as [|i]; simpl.
    + destruct (Str.strchr s c); simpl; split; [done|..]; naive_solver.
    + rewrite fmap_Some. setoid_rewrite IH. rewrite not_elem_of_cons. naive_solver.
Qed.

Lemma strchr_None s c : str_ok s → 0 < c < 256 → Str.strchr s c = None ↔ c ∉ s.
Proof.
  intros Hs Hc. induction Hs as [|d s Hd Hs IH]; simpl.
  { zdecide. split; [|done]. intros _. apply not_elem_of_nil. }
  rewrite u8_small by word_lia. rewrite not_elem_of_cons. ztest.
  - naive_solver.
  - rewrite fmap_None, IH. naive_solver.
Qed.

(** ** [itoa] and its inverse *)

(** The swap loop reverses [str\[lo .. hi\]] and touches nothing else. *)
Lemma itoa_reverse_ok fuel m p lo hi :
  (0 < fuel)%nat → hi - lo < 2 * Z.of_nat fuel - 1 →
  ∃ m', itoa_reverse fuel m p lo hi = Some m' ∧
    ∀ k, rd8 m' (p + k) =
         if (lo <=? k) && (k <=? hi) then rd8 m (p + (lo + hi - k)) else rd8 m (p + k).
Proof.
  unfold itoa_reverse. revert m lo hi. induction fuel as [|f IH]; intros m lo hi Hf0 Hf; [lia|].
  simpl. ztest.
  - set (m1 := wr8 (wr8 m (p + lo) (rd8 m (p + hi))) (p + hi) (rd8 m (p + lo))).
    destruct (IH m1 (lo + 1) (hi - 1)) as (m' & E & Hm'); [lia..|].
    exists m'. split; [done|]. intros k. rewrite Hm'.
    assert (∀ j, rd8 m1 (p + j) = if j =? hi then rd8 m (p + lo)
                                  else if j =? lo then rd8 m (p + hi) else rd8 m (p + j)) as Hm1.
    { intros j. unfold m1. repeat ztest.
      - subst j. rewrite rd8_wr8_eq. apply u8_small. auto with word.
      - subst j. rewrite rd8_wr8_ne, rd8_wr8_eq by lia. apply u8_small. auto with word.
      - rewrite !rd8_wr8_ne by lia. done. }
    rewrite !Hm1. destruct (decide (lo <= k <= hi)).
    + repeat (ztest; simpl; try lia); f_equal; lia.
    + repeat (ztest; simpl; try lia); done.
  - exists m. split; [done|]. intros k. repeat ztest; simpl; try done. f_equal. lia.
Qed.

Lemma cstr_of_lookup m p s :
  str_ok s → (∀ i c, (s ++ [0]) !! i = Some c → rd8 m (p + Z.of_nat i) = c) → cstr m p s.
Proof.
  intros Hs. revert p. induction Hs as [|c s Hc Hs IH]; intros p H; simpl.
  - specialize (H O 0 eq_refl). by rewrite Z.add_0_r in H.
  - split_and!; [|lia|].
    + specialize (H O c eq_refl). by rewrite Z.add_0_r in H.
    + apply IH. intros i d Hi. specialize (H (S i) d Hi). rewrite <- H. f_equal. lia.
Qed.

Lemma length_rdigits f num base : (length (Str.rdigits f num base) <= f)%nat.
Proof. revert num. induction f; intros; simpl; [lia|]. ztest; simpl; [lia|]. specialize (IHf (num ÷ base)). lia. Qed.

Lemma quot_bound num base n :
  0 <= num < 2 ^ Z.of_nat (S n) → 2 <= base → 0 <= Z.quot num base < 2 ^ Z.of_nat n.
Proof.
  intros Hn Hb. rewrite Nat2Z.inj_succ, Z.pow_succ_r in Hn by lia.
  rewrite Z.quot_div_nonneg by lia. split; [apply Z.div_pos; lia|].
  apply Z.div_lt_upper_bound; [lia|]. nia.
Qed.

Lemma itoa_digit_range r : 0 <= r < 36 → 0 < itoa_digit r < 256.
Proof.
  intros. unfold itoa_digit. change (chr "a") with 97. change (chr "0") with 48.
  ztest; rewrite u8_small by word_lia; lia.
Qed.

Lemma rdigits_ok n num base :
  0 <= num → 2 <= base <= 36 → str_ok (Str.rdigits n num base).
Proof.
  intros Hn Hb. revert num Hn. induction n as [|n IH]; intros num Hn; simpl; [constructor|].
  ztest; [constructor|]. constructor.
  - apply itoa_digit_range. pose proof (Z.rem_bound_pos num base). lia.
  - apply IH. apply Z.quot_pos; lia.
Qed.

(** The digit loop of [itoa]. *)
Lemma itoa_loop_ok n fuel m str i num base :
  0 <= num < 2 ^ Z.of_nat n → 2 <= base → (n < fuel)%nat →
  loop fuel (λ '(m, i, num),
    if num =? 0 then inr (m, i)
    else inl (wr8 m (str + i) (itoa_digit (Z.rem num base)), i + 1, Z.quot num base))
    (m, i, num)
  = Some (wr_bytes m (str + i) (Str.rdigits n num base),
          i + Z.of_nat (length (Str.rdigits n num base))).
Proof.
  intros Hnum Hb. revert fuel m i num Hnum.
  induction n as [|n IH]; intros [|f] m i num Hnum Hf; try lia; simpl.
  - assert (num = 0) as -> by lia. simpl. do 2 f_equal. lia.
  - ztest; simpl; [do 2 f_equal; lia|].
    rewrite IH by (lia || by apply quot_bound). do 2 f_equal; [f_equal|]; lia.
Qed.

(** Terminating and reversing [l] written at [str]. *)
Lemma itoa_finish_ok fuel m str l :
  str_ok l → Z.of_nat (length l) < 2 * Z.of_nat fuel → (0 < fuel)%nat →
  ∃ m', itoa_reverse fuel (wr8 (wr_bytes m str l) (str + Z.of_nat (length l)) 0) str 0
          (Z.of_nat (length l) - 1) = Some m' ∧
    cstr m' str (reverse l) ∧ only m (span str (Z.of_nat (length l) + 1)) m'.
Proof.
  intros Hl Hlen Hf.
  set (m1 := wr8 _ _ _).
  assert (only m (span str (Z.of_nat (length l) + 1)) m1) as Ho.
  { apply only_trans with (wr_bytes m str l).
    - eapply only_mono; [apply only_wr_bytes|]. unfold span. lia.
    - eapply only_mono; [apply only_wr8|]. unfold span. lia. }
  destruct (itoa_reverse_ok fuel m1 str 0 (Z.of_nat (length l) - 1)) as (m' & E & Hm');
    [lia|lia|].
  exists m'. split; [done|]. split.
  - apply cstr_of_lookup; [by apply Forall_reverse|].
    intros i c Hi. rewrite Hm'. apply lookup_app_Some in Hi as [Hi|[Hge Hi]].
    + pose proof (lookup_lt_Some _ _ _ Hi) as Hlt. rewrite length_reverse in Hlt.
      zdecide. rewrite reverse_lookup in Hi by done.
      unfold m1. rewrite rd8_wr8_ne by lia.
      replace (0 + (Z.of_nat (length l) - 1) - Z.of_nat i)
        with (Z.of_nat (length l - S i)) by lia.
      rewrite (rd8_wr_bytes _ _ _ _ c Hi). apply u8_small.
      eapply Forall_lookup_1 in Hl; [|done]. word_lia.
    + rewrite length_reverse in *. apply list_lookup_singleton_Some in Hi as [Hi <-].
      zdecide. assert (Z.of_nat i = Z.of_nat (length l)) as -> by lia.
      unfold m1. by rewrite rd8_wr8_eq.
  - intros a. destruct (Ho a) as [?|Ha]; [by left|].
    destruct (decide (str <= a < str + (Z.of_nat (length l) + 1))) as [?|Hn];
      [left; unfold span; lia|right].
    rewrite <- Ha. replace a with (str + (a - str)) by lia. rewrite Hm'.
    repeat ztest; simpl; try done. lia.
Qed.

(** The representable inputs: INT_MIN is excluded in base 10, where the source
    negates it, and a negative number in another base is not converted at all. *)
Definition itoa_input (num base : Z) : Prop :=
  2 <= base <= 36 ∧ -2147483648 < num < 2147483648 ∧ (0 <= num ∨ base = 10).

Lemma int_digits z : 0 <= z < 2147483648 → 0 <= z < 2 ^ Z.of_nat 32.
Proof. change (2 ^ Z.of_nat 32) with 4294967296. lia. Qed.

Lemma itoa_ok fuel m num str base :
  itoa_input num base → (33 <= fuel)%nat →
  ∃ m', itoa fuel m num str base = Some m' ∧ cstr m' str (Str.itoa num base) ∧
    only m (span str 34) m'.
Proof.
  intros (Hb & Hnum & Hneg) Hf. unfold itoa, Str.itoa. ztest.
  { eexists. split; [done|]. split.
    - simpl. rewrite rd8_wr8_ne, rd8_wr8_eq, rd8_wr8_eq by lia. done.
    - eapply only_trans; (eapply only_mono; [apply only_wr8|]); unfold span; lia. }
  destruct ((num <? 0) && (base =? 10)) eqn:Hs.
  - zreflect. subst base.
    assert (s32 (- num) = - num) as -> by (unfold s32, u32; ztest; word_lia).
    rewrite (itoa_loop_ok 32) by (first [apply int_digits; lia | lia]).
    set (ds := Str.rdigits 32 (- num) 10). simpl. rewrite !Z.add_0_r.
    assert (str_ok ds) by (apply rdigits_ok; lia).
    pose proof (length_rdigits 32 (- num) 10 : (length ds <= 32)%nat).
    destruct (itoa_finish_ok fuel m str (ds ++ [chr "-"])) as (m' & E & Hc & Ho).
    + apply Forall_app. split; [done|]. repeat constructor; done.
    + rewrite length_app. simpl. lia.
    + lia.
    + rewrite wr_bytes_app, length_app in E. simpl in E.
      exists m'. rewrite <- E. split.
      * repeat f_equal; lia.
      * split; [by rewrite reverse_snoc in Hc|].
        eapply only_mono; [done|]. unfold span. rewrite length_app. simpl. lia.
  - assert (0 <= num) by lia.
    rewrite (itoa_loop_ok 32) by (first [apply int_digits; lia | lia]).
    set (ds := Str.rdigits 32 num base). simpl. rewrite Z.add_0_r.
    pose proof (length_rdigits 32 num base : (length ds <= 32)%nat).
    destruct (itoa_finish_ok fuel m str ds) as (m' & E & Hc & Ho);
      [apply rdigits_ok; lia|lia|lia|].
    exists m'. split; [done|]. split; [done|].
    eapply only_mono; [done|]. unfold span. lia.
Qed.

Definition is_dec (c : Z) : Prop := 48 <= c <= 57.

Lemma digits_value_app l t r :
  Forall is_dec l → Str.digits_value (l ++ t) r = Str.digits_value t (Str.digits_value l r).
Proof.
  intros Hl. revert r. induction Hl as [|c l Hc Hl IH]; intros r; simpl; [done|].
  apply is_digit_range in Hc. rewrite Hc. apply IH.
Qed.

Lemma itoa_digit_dec r : 0 <= r < 10 → itoa_digit r = 48 + r.
Proof.
  intros. unfold itoa_digit. change (chr "0") with 48. zdecide.
  rewrite u8_small by word_lia. lia.
Qed.

Lemma rdigits_dec n num : 0 <= num → Forall is_dec (Str.rdigits n num 10).
Proof.
  revert num. induction n as [|n IH]; intros num Hn; simpl; [constructor|].
  ztest; [constructor|]. constructor.
  - pose proof (Z.rem_bound_pos num 10). unfold is_dec.
    rewrite itoa_digit_dec by lia. lia.
  - apply IH, Z.quot_pos; lia.
Qed.

Lemma s32_small z : -2147483648 <= z < 2147483648 → s32 z = z.
Proof. intros. unfold s32, u32. ztest; word_lia. Qed.

Lemma digits_value_rdigits n num :
  0 <= num < 2147483648 → num < 2 ^ Z.of_nat n →
  Str.digits_value (reverse (Str.rdigits n num 10)) 0 = num.
Proof.
  revert num. induction n as [|n IH]; intros num Hn Hlt; simpl; [lia|].
  ztest; [done|]. rewrite reverse_cons, digits_value_app
    by (apply Forall_reverse, rdigits_dec, Z.quot_pos; lia).
  pose proof (quot_bound num 10 n ltac:(lia) ltac:(lia)).
  rewrite Z.quot_div_nonneg, Z.rem_mod_nonneg in * by lia.
  rewrite IH; [|word_lia|lia]. simpl.
  rewrite itoa_digit_dec by (apply Z.mod_pos_bound; lia).
  change (chr "0") with 48.
  rewrite (proj2 (is_digit_range _)) by (pose proof (Z.mod_pos_bound num 10); lia).
  rewrite (s32_small (num / 10 * 10)) by word_lia. rewrite s32_small by word_lia. word_lia.
Qed.

Lemma reverse_rdigits_head n num :
  0 < num < 2 ^ Z.of_nat n →
  ∃ c s, reverse (Str.rdigits n num 10) = c :: s ∧ is_dec c.
Proof.
  intros Hn. pose proof (rdigits_dec n num ltac:(lia)) as Hd. apply Forall_reverse in Hd.
  destruct (reverse (Str.rdigits n num 10)) as [|c s] eqn:E.
  - destruct n as [|n]; simpl in *; [lia|]. zdecide.
    revert E. zdecide. rewrite reverse_cons. by destruct (reverse _).
  - inversion_clear Hd. eauto.
Qed.

Lemma atoi_digits c s :
  is_dec c → Str.atoi (c :: s) = s32 (Str.digits_value (c :: s) 0).
Proof.
  intros Hc. unfold is_dec in Hc.
  assert (Str.skip_blank (c :: s) = c :: s) as Hb.
  { simpl. unfold is_blank. zdecide. done. }
  unfold Str.atoi. rewrite Hb.
  change (chr "-") with 45. change (chr "+") with 43. cbn [Str.peek]. zdecide.
  by rewrite Z.mul_1_l.
Qed.

Lemma atoi_negative c s :
  is_dec c → Str.atoi (chr "-" :: c :: s) = s32 (- Str.digits_value (c :: s) 0).
Proof.
  intros Hc.
  change (Str.atoi (chr "-" :: c :: s)) with (s32 (-1 * Str.digits_value (c :: s) 0)).
  f_equal.
Qed.

(** Parsing what [itoa] prints in base 10. *)
Lemma atoi_itoa_str num :
  -2147483648 < num < 2147483648 → Str.atoi (Str.itoa num 10) = num.
Proof.
  intros Hn. unfold Str.itoa. ztest; [by subst|].
  destruct ((num <? 0) && (10 =? 10)) eqn:Hs.
  - zreflect.
    destruct (reverse_rdigits_head 32 (- num)) as (c & s & E & Hc);
      [pose proof (int_digits (- num)); lia|].
    rewrite E, atoi_negative, <- E by done.
    rewrite digits_value_rdigits by (pose proof (int_digits (- num)); lia).
    rewrite s32_small; lia.
  - assert (0 < num) by lia.
    destruct (reverse_rdigits_head 32 num) as (c & s & E & Hc);
      [pose proof (int_digits num); lia|].
    rewrite E, atoi_digits, <- E by done.
    rewrite digits_value_rdigits by (pose proof (int_digits num); lia).
    rewrite s32_small; lia.
Qed.

(** ** Properties *)

(** [strcmp] on two strings in memory returns, and returns 0 exactly when they are
    equal; swapping the arguments negates the result.  [strcasecmp] returns 0
    exactly when they are equal up to the case of ASCII letters. *)
Theorem strcmp_decides_equality m p q s1 s2 fuel :
  cstr m p s1 → cstr m q s2 → (length s1 < fuel)%nat → (length s2 < fuel)%nat →
  ∃ r c, strcmp fuel m p q = Some r ∧ (r = 0 ↔ s1 = s2) ∧ strcmp fuel m q p = Some (- r) ∧
    strcasecmp fuel m p q = Some c ∧ (c = 0 ↔ to_lower ∘ s8 <$> s1 = to_lower ∘ s8 <$> s2).
Proof.
  intros H1 H2 Hf1 Hf2. pose proof (cstr_nonzero _ _ _ H1) as O1. pose proof (cstr_nonzero _ _ _ H2) as O2.
  exists (Str.strcmp s1 s2), (Str.strcasecmp s1 s2).
  split; [by apply strcmp_ok|]. split; [by apply strcmp_eq|]. split.
  - rewrite (strcmp_ok m q p s2 s1) by done. f_equal. by apply strcmp_antisym.
  - split; [by apply strcasecmp_ok|by apply strcasecmp_eq].
Qed.

Lemma strcmp_decides_equality_witness :
  ∃ r, strcmp 10 (wr_bytes (wr_bytes ∅ 100 (lit "ls" ++ [0])) 200 (lit "LS" ++ [0])) 100 200 = Some r ∧
       r ≠ 0 ∧ strcasecmp 10 (wr_bytes (wr_bytes ∅ 100 (lit "ls" ++ [0])) 200 (lit "LS" ++ [0])) 100 200 = Some 0.
Proof.
  destruct (strcmp_decides_equality (wr_bytes (wr_bytes ∅ 100 (lit "ls" ++ [0])) 200 (lit "LS" ++ [0]))
    100 200 (lit "ls") (lit "LS") 10) as (r & c & H1 & H2 & _ & H3 & H4).
  - vm_compute. repeat split; discriminate.
  - vm_compute. repeat split; discriminate.
  - vm_compute. lia.
  - vm_compute. lia.
  - exists r. split; [exact H1|]. split; [intros E; apply H2 in E; discriminate E|].
    rewrite H3. f_equal. apply H4. reflexivity.
Defined.

(** Writing over a byte just written. *)
Lemma wr_bytes_overwrite m e v c l : wr_bytes (wr8 m e v) e (c :: l) = wr_bytes m e (c :: l).
Proof. simpl. f_equal. unfold wr8. apply insert_insert_eq. Qed.

Lemma strcpy_strcat_bytes m d s t :
  wr_bytes (wr_bytes m d (s ++ [0])) (d + Z.of_nat (length s)) (t ++ [0]) = wr_bytes m d ((s ++ t) ++ [0]).
Proof.
  rewrite <- app_assoc, (wr_bytes_app m d s [0]), (wr_bytes_app m d s (t ++ [0])). change (wr_bytes (wr_bytes m d s) (d + Z.of_nat (length s)) [0])
    with (wr8 (wr_bytes m d s) (d + Z.of_nat (length s)) 0).
  destruct t as [|c t]; apply wr_bytes_overwrite.
Qed.

(** [strcpy] followed by [strcat] builds the concatenation of the two source strings
    at the destination, with its terminator, and writes nothing else, when the
    destination has room and does not overlap the sources. *)
Theorem strcpy_strcat_concat m d p q s t fuel :
  cstr m p s → cstr m q t → (length s + length t < fuel)%nat →
  let n := Z.of_nat (length s + length t) in
  d + n < p ∨ p + Z.of_nat (length s) < d → d + n < q ∨ q + Z.of_nat (length t) < d →
  ∃ m1 m2, strcpy fuel m d p = Some m1 ∧ strcat fuel m1 d q = Some m2 ∧
    cstr m2 d (s ++ t) ∧ only m (span d (n + 1)) m2.
Proof.
  intros Hs Ht Hf n Hdp Hdq.
  assert (cstr (wr_bytes m d (s ++ [0])) d s) as H1.
  { apply cstr_wr_bytes. by apply (cstr_nonzero m p). }
  assert (cstr (wr_bytes m d (s ++ [0])) q t) as H2.
  { eapply cstr_only; [apply only_wr_bytes|done|]. rewrite length_app. simpl. unfold span. lia. }
  exists (wr_bytes m d (s ++ [0])). eexists. split; [by apply strcpy_ok; [|lia|lia]|]. split.
  { apply (strcat_ok _ d q s t); try done; lia. }
  rewrite strcpy_strcat_bytes. split.
  - apply cstr_wr_bytes. apply Forall_app. split; [by apply (cstr_nonzero m p)|by apply (cstr_nonzero m q)].
  - eapply only_mono; [apply only_wr_bytes|]. rewrite !length_app. simpl. unfold span. lia.
Qed.

Lemma strcpy_strcat_concat_witness :
  let m := wr_bytes (wr_bytes ∅ 100 (lit "/" ++ [0])) 200 (lit "bin" ++ [0]) in
  ∃ m1 m2, strcpy 10 m 300 100 = Some m1 ∧ strcat 10 m1 300 200 = Some m2 ∧ cstr m2 300 (lit "/bin").
Proof.
  intros m.
  destruct (strcpy_strcat_concat m 300 100 200 (lit "/") (lit "bin") 10) as (m1 & m2 & H1 & H2 & H3 & _).
  - vm_compute. repeat split; discriminate.
  - vm_compute. repeat split; discriminate.
  - vm_compute. lia.
  - vm_compute. by right.
  - vm_compute. by right.
  - exists m1, m2. split; [exact H1|]. split; [exact H2|exact H3].
Defined.

Lemma itoa_text_length num base : (length (Str.itoa num base) <= 33)%nat.
Proof.
  unfold Str.itoa. destruct (num =? 0); [simpl; lia|].
  destruct ((num <? 0) && (base =? 10)); cbn [length]; rewrite length_reverse;
    [pose proof (length_rdigits 32 (- num) base)|pose proof (length_rdigits 32 num base)]; lia.
Qed.

(** C36: [itoa] in base 10 of any [int] but INT_MIN returns, stays within 34 bytes, and
    leaves a string from which [atoi] reads the same number back. *)
Theorem itoa_atoi_roundtrip m num str fuel :
  -2147483648 < num < 2147483648 → (40 <= fuel)%nat →
  ∃ m', itoa fuel m num str 10 = Some m' ∧ only m (span str 34) m' ∧ atoi fuel m' str = Some num.
Proof.
  intros Hn Hf.
  destruct (itoa_ok fuel m num str 10) as (m' & E & Hc & Ho); [split; [lia|split; [lia|by right]]|lia|].
  exists m'. split; [done|]. split; [done|]. rewrite (atoi_ok m' str _ fuel Hc).
  - by rewrite atoi_itoa_str.
  - pose proof (itoa_text_length num 10). lia.
Qed.

Lemma itoa_atoi_roundtrip_witness :
  ∃ m', itoa 40 ∅ (-307) 4096 10 = Some m' ∧ atoi 40 m' 4096 = Some (-307).
Proof.
  destruct (itoa_atoi_roundtrip ∅ (-307) 4096 40) as (m' & H1 & _ & H2); [lia|lia|].
  exists m'. split; [exact H1|exact H2].
Defined.
