(* ===== verification/Vga.v ===== *)
(** * VGA text console (drivers/vga/vga.c)

    The terminal writes to the 80x25 frame buffer at 0xB8000 and keeps its
    cursor in three static variables.  Everything that prints goes through here,
    so the state it works on, [machine], is the one the printing parts of the
    kernel share: flat memory, the terminal's variables, and the bytes sent to
    I/O ports, oldest first. *)

From S2P Require Import Prelude Ram CString.
Set Default Goal Selector "!".

Definition VGA_WIDTH : Z := 80.
Definition VGA_HEIGHT : Z := 25.
Definition VGA_MEMORY : Z := 0xB8000.

Definition VGA_COLOR_BLACK : Z := 0.
Definition VGA_COLOR_LIGHT_GREY : Z := 7.
Definition VGA_COLOR_LIGHT_GREEN : Z := 10.
Definition VGA_COLOR_LIGHT_CYAN : Z := 11.
Definition VGA_COLOR_LIGHT_RED : Z := 12.
Definition VGA_COLOR_LIGHT_MAGENTA : Z := 13.
Definition VGA_COLOR_LIGHT_BROWN : Z := 14.
Definition VGA_COLOR_YELLOW : Z := 14.
Definition VGA_COLOR_WHITE : Z := 15.

Record machine := Machine {
  mem : ram;
  terminal_row : Z;
  terminal_column : Z;
  terminal_color : Z;
  ports : list (Z * Z);
}.
#[export] Instance eta_machine : Eta machine := λ r,
  Machine (mem r) (terminal_row r) (terminal_column r) (terminal_color r) (ports r).

Definition outb (port value : Z) (k : machine) : machine :=
  k <| ports := ports k ++ [(port, u8 value)] |>.

(** ** Operations *)

Definition vga_entry_color (fg bg : Z) : Z := u8 (Z.lor fg (Z.shiftl bg 4)).
Definition vga_entry (uc color : Z) : Z := u16 (Z.lor (u8 uc) (Z.shiftl color 8)).

(** [terminal_buffer\[index\] = entry] *)
Definition vga_store (k : machine) (index entry : Z) : machine :=
  k <| mem := wr16 (mem k) (VGA_MEMORY + 2 * index) entry |>.

Definition vga_update_cursor (k : machine) : machine :=
  let pos := u16 (terminal_row k * VGA_WIDTH + terminal_column k) in
  let k := outb 0x3D4 0x0E k in
  let k := outb 0x3D5 (Z.land (Z.shiftr pos 8) 0xFF) k in
  let k := outb 0x3D4 0x0F k in
  outb 0x3D5 (Z.land pos 0xFF) k.

Definition vga_hide_cursor (k : machine) : machine :=
  outb 0x3D5 0x20 (outb 0x3D4 0x0A k).

Definition vga_show_cursor (k : machine) : machine := vga_update_cursor k.

Definition pxos_art : list (list Z) :=
  [ lit "         _    _      _             _           _        ";
    lit "        /\ \/_/\    /\ \          /\ \        / /\      ";
    lit "       /  \ \ \ \   \ \_\        /  \ \      / /  \     ";
    lit "      / /\ \ \ \ \__/ / /       / /\ \ \    / / /\ \__  ";
    lit "     / / /\ \_\ \__ \/_/       / / /\ \ \  / / /\ \___\ ";
    lit "    / / /_/ / /\/_/\__/\      / / /  \ \_\ \ \ \ \/___/ ";
    lit "   / / /__\/ /  _/\/__\ \    / / /   / / /  \ \ \       ";
    lit "  / / /_____/  / _/_/\ \ \  / / /   / / /    \ \ \      ";
    lit " / / /        / / /   \ \ \/ / /___/ / /_/\__/ / /      ";
    lit "/ / /        / / /    /_/ / / /____\/ /\ \/___/ /       ";
    lit "\/_/         \/_/     \_\/\/_________/  \_____\/        ";
    lit "                                                        " ].

(** One line of the banner: [line\[j\]] from column [start_x] of row [y], while
    the column is on the screen. *)
Fixpoint put_art_line (k : machine) (line : list Z) (y x art_color : Z) : machine :=
  match line with
  | c :: line' =>
      if x <? VGA_WIDTH
      then put_art_line (vga_store k (y * VGA_WIDTH + x) (vga_entry c art_color))
             line' y (x + 1) art_color
      else k
  | [] => k
  end.

Fixpoint put_art (k : machine) (art : list (list Z)) (y art_color : Z) : machine :=
  match art with
  | line :: art' =>
      if y <? VGA_HEIGHT then
        let start_x := (VGA_WIDTH - Str.strlen line) / 2 in
        put_art (put_art_line k line y start_x art_color) art' (y + 1) art_color
      else k
  | [] => k
  end.

(** The three passes of [vga_clear]: blank every cell, draw the banner, draw the
    separator line below it. *)
Definition clear_cells (k : machine) : machine :=
  for_z (Z.to_nat VGA_HEIGHT) 0 (λ y k,
    for_z (Z.to_nat VGA_WIDTH) 0 (λ x k,
      vga_store k (y * VGA_WIDTH + x) (vga_entry (chr " ") (terminal_color k))) k) k.

Definition draw_banner (k : machine) (start_y : Z) : machine :=
  let art_color := vga_entry_color VGA_COLOR_LIGHT_CYAN VGA_COLOR_BLACK in
  put_art k pxos_art start_y art_color.

Definition draw_separator (k : machine) (separator_y : Z) : machine :=
  if separator_y <? VGA_HEIGHT then
    let separator_color := vga_entry_color VGA_COLOR_LIGHT_GREY VGA_COLOR_BLACK in
    for_z (Z.to_nat VGA_WIDTH) 0 (λ x k,
      vga_store k (separator_y * VGA_WIDTH + x) (vga_entry (chr "-") separator_color)) k
  else k.

Definition vga_clear (k : machine) : machine :=
  let k := clear_cells k in
  let art_height := Z.of_nat (length pxos_art) in
  let start_y := 2 in
  let k := draw_banner k start_y in
  let separator_y := start_y + art_height + 1 in
  let k := draw_separator k separator_y in
  let k := k <| terminal_row := u8 (separator_y + 2) |> <| terminal_column := 0 |> in
  vga_update_cursor k.

Definition vga_init (k : machine) : machine :=
  vga_clear (k <| terminal_row := 0 |> <| terminal_column := 0 |>
               <| terminal_color := vga_entry_color VGA_COLOR_LIGHT_GREY VGA_COLOR_BLACK |>).

Definition vga_set_color (k : machine) (fg bg : Z) : machine :=
  k <| terminal_color := vga_entry_color fg bg |>.

Definition vga_putchar_at (k : machine) (c fg bg x y : Z) : machine :=
  vga_store k (y * VGA_WIDTH + x) (vga_entry c (vga_entry_color fg bg)).

Fixpoint vga_putstr_at (k : machine) (str : list Z) (fg bg x y : Z) : machine :=
  match str with
  | [] => k
  | c :: str' => vga_putstr_at (vga_putchar_at k c fg bg x y) str' fg bg (u8 (x + 1)) y
  end.

(** The two loops of [vga_scroll]: move each line up, clear the last one. *)
Definition scroll_lines (k : machine) : machine :=
  for_z (Z.to_nat (VGA_HEIGHT - 1)) 0 (λ y k,
    for_z (Z.to_nat VGA_WIDTH) 0 (λ x k,
      vga_store k (y * VGA_WIDTH + x)
        (rd16 (mem k) (VGA_MEMORY + 2 * ((y + 1) * VGA_WIDTH + x)))) k) k.

Definition clear_last_line (k : machine) : machine :=
  for_z (Z.to_nat VGA_WIDTH) 0 (λ x k,
    vga_store k ((VGA_HEIGHT - 1) * VGA_WIDTH + x)
      (vga_entry (chr " ") (terminal_color k))) k.

Definition vga_scroll (k : machine) : machine :=
  let k := scroll_lines k in
  let k := clear_last_line k in
  k <| terminal_row := VGA_HEIGHT - 1 |> <| terminal_column := 0 |>.

(** [if (++terminal_row == VGA_HEIGHT) vga_scroll();] *)
Definition vga_next_row (k : machine) : machine :=
  let k := k <| terminal_row := u8 (terminal_row k + 1) |> in
  if terminal_row k =? VGA_HEIGHT then vga_scroll k else k.

Definition vga_putchar (k : machine) (c : Z) : machine :=
  let k :=
    if c =? 10 then vga_next_row (k <| terminal_column := 0 |>)
    else if c =? 8 then
      if 0 <? terminal_column k then
        let k := k <| terminal_column := u8 (terminal_column k - 1) |> in
        vga_putchar_at k (chr " ") VGA_COLOR_LIGHT_GREY VGA_COLOR_BLACK
          (terminal_column k) (terminal_row k)
      else k
    else
      let fg := Z.land (terminal_color k) 0x0F in
      let bg := Z.land (Z.shiftr (terminal_color k) 4) 0x0F in
      let k := vga_putchar_at k c fg bg (terminal_column k) (terminal_row k) in
      let k := k <| terminal_column := u8 (terminal_column k + 1) |> in
      if terminal_column k =? VGA_WIDTH then
        vga_next_row (k <| terminal_column := 0 |>)
      else k in
  vga_update_cursor k.

Fixpoint vga_putstr (k : machine) (str : list Z) : machine :=
  match str with
  | [] => k
  | c :: str' => vga_putstr (vga_putchar k c) str'
  end.

(** [vga_putnum]: the digits collected in [buffer] (at most ten), last digit
    first, and then printed backwards. *)
Fixpoint putnum_buffer (fuel : nat) (num : Z) : list Z :=
  match fuel with
  | O => []
  | S f => if 0 <? num then chr "0" + Z.rem num 10 :: putnum_buffer f (Z.quot num 10)
           else []
  end.

Definition vga_putnum (k : machine) (num : Z) : machine :=
  if num =? 0 then vga_putchar k (chr "0")
  else
    let '(k, num) :=
      if num <? 0 then (vga_putchar k (chr "-"), s32 (- num)) else (k, num) in
    vga_putstr k (reverse (putnum_buffer 32 num)).

Definition hex_digit (digit : Z) : Z :=
  if digit <? 10 then chr "0" + digit else chr "A" + (digit - 10).

Fixpoint puthex_buffer (fuel : nat) (num : Z) : list Z :=
  match fuel with
  | O => []
  | S f => if 0 <? num then hex_digit (Z.land num 0xF) :: puthex_buffer f (Z.shiftr num 4)
           else []
  end.

(** [vga_puthex]: [buffer] has nine bytes, eight of them for a 32-bit number. *)
Definition vga_puthex (k : machine) (num : Z) : machine :=
  let k := vga_putstr k (lit "0x") in
  if num =? 0 then vga_putchar k (chr "0")
  else vga_putstr k (reverse (puthex_buffer 9 num)).

(** ** The frame buffer as cells *)

Definition cell (k : machine) (i : Z) : Z := rd16 (mem k) (VGA_MEMORY + 2 * i).
Definition SCREEN_CELLS : Z := VGA_WIDTH * VGA_HEIGHT.

(** The cursor is on the screen. *)
Definition cursor_ok (k : machine) : Prop :=
  0 <= terminal_row k < VGA_HEIGHT ∧ 0 <= terminal_column k < VGA_WIDTH.

(** The addresses of the frame buffer. *)
Definition framebuffer : Z → Prop := span VGA_MEMORY (2 * SCREEN_CELLS).

Ltac vga_consts :=
  unfold cursor_ok, SCREEN_CELLS, VGA_WIDTH, VGA_HEIGHT, VGA_MEMORY in *.

Lemma cell_store k i j e :
  cell (vga_store k i e) j = if i =? j then u16 e else cell k j.
Proof.
  unfold cell, vga_store. simpl. ztest.
  - subst. apply rd16_wr16_eq.
  - apply rd16_wr16_ne. lia.
Qed.

Lemma cell_cursor k r c j :
  cell (k <| terminal_row := r |> <| terminal_column := c |>) j = cell k j.
Proof. done. Qed.

Lemma store_only k i e :
  0 <= i < SCREEN_CELLS → only (mem k) framebuffer (mem (vga_store k i e)).
Proof.
  intros. simpl. eapply only_mono; [apply only_wr16|].
  unfold framebuffer, span. lia.
Qed.

(** Loops of stores: a counted loop whose body only stores on the screen keeps
    the terminal's variables and writes to the frame buffer only. *)
Definition same_term (k k' : machine) : Prop :=
  terminal_row k' = terminal_row k ∧ terminal_column k' = terminal_column k ∧
  terminal_color k' = terminal_color k ∧ ports k' = ports k.
Definition draws (k k' : machine) : Prop :=
  same_term k k' ∧ only (mem k) framebuffer (mem k').

Lemma draws_refl k : draws k k.
Proof. repeat split. apply only_refl. Qed.
Lemma draws_trans k1 k2 k3 : draws k1 k2 → draws k2 k3 → draws k1 k3.
Proof.
  intros [(?&?&?&?) ?] [(?&?&?&?) ?].
  split; [repeat split; congruence|by eapply only_trans].
Qed.
Lemma draws_store k i e : 0 <= i < SCREEN_CELLS → draws k (vga_store k i e).
Proof. intros. split; [done|]. by apply store_only. Qed.
Lemma draws_for n i body k :
  (∀ j k', i <= j < i + Z.of_nat n → draws k' (body j k')) → draws k (for_z n i body k).
Proof.
  intros H. apply (for_z_inv (λ _ k', draws k k')); [apply draws_refl|].
  intros j k' Hj Hk. eapply draws_trans; [done|]. by apply H.
Qed.
#[export] Hint Resolve draws_refl draws_store : frame.

(** Rewriting row by row: after [n] rows of 80 stores, cell [j] holds what the
    store at its index put there. *)
Lemma fill_rows_cells n (e : Z → Z → machine → Z) (v : Z → Z) k :
  0 <= n <= VGA_HEIGHT →
  (∀ y x k', 0 <= y < n → 0 <= x < VGA_WIDTH → draws k k' →
    (∀ j, y * VGA_WIDTH + x <= j → cell k' j = cell k j) →
    u16 (e y x k') = v (y * VGA_WIDTH + x)) →
  let k' := for_z (Z.to_nat n) 0 (λ y k, for_z (Z.to_nat VGA_WIDTH) 0 (λ x k,
              vga_store k (y * VGA_WIDTH + x) (e y x k)) k) k in
  draws k k' ∧
  ∀ j, 0 <= j → cell k' j = if j <? n * VGA_WIDTH then v j else cell k j.
Proof.
  intros Hn He.
  set (I p k' := draws k k' ∧ ∀ j, 0 <= j → cell k' j = if j <? p then v j else cell k j).
  pose proof (for_z_inv (λ y k', I (y * VGA_WIDTH) k') (Z.to_nat n) 0
    (λ y k, for_z (Z.to_nat VGA_WIDTH) 0 (λ x k,
       vga_store k (y * VGA_WIDTH + x) (e y x k)) k) k) as H.
  cbv beta in H. rewrite Z.add_0_l, Z2Nat.id in H by lia. apply H; clear H.
  { split; [apply draws_refl|]. intros. by zdecide. }
  intros y k1 Hy HI.
  pose proof (for_z_inv (λ x k', I (y * VGA_WIDTH + x) k') (Z.to_nat VGA_WIDTH) 0
    (λ x k, vga_store k (y * VGA_WIDTH + x) (e y x k)) k1) as H.
  cbv beta in H. rewrite Z.add_0_r in H. change (0 + Z.of_nat (Z.to_nat VGA_WIDTH)) with VGA_WIDTH in H.
  replace ((y + 1) * VGA_WIDTH) with (y * VGA_WIDTH + VGA_WIDTH) by lia.
  apply H; clear H; [done|].
  intros x k2 Hx [Hd Hc]. split.
  - eapply draws_trans; [done|]. apply draws_store. vga_consts. lia.
  - intros j Hj. rewrite cell_store.
    assert (cell k2 (y * VGA_WIDTH + x) = cell k (y * VGA_WIDTH + x)) as Hcur.
    { rewrite Hc by (vga_consts; lia). by zdecide. }
    rewrite (He y x k2) by
      (first [done | lia | intros i Hi; rewrite Hc by (vga_consts; lia); by zdecide]).
    rewrite Hc by done. repeat ztest; try lia; congruence.
Qed.

Definition blank_cell (color : Z) : Z := u16 (vga_entry (chr " ") color).

Lemma scroll_lines_spec k :
  draws k (scroll_lines k) ∧
  ∀ j, 0 <= j → cell (scroll_lines k) j =
    if j <? (VGA_HEIGHT - 1) * VGA_WIDTH then cell k (j + VGA_WIDTH) else cell k j.
Proof.
  apply fill_rows_cells; [vga_consts; lia|].
  intros y x k' Hy Hx _ Heq. rewrite u16_small by auto with word.
  change (cell k' ((y + 1) * VGA_WIDTH + x) = cell k (y * VGA_WIDTH + x + VGA_WIDTH)).
  rewrite Heq by (vga_consts; lia). f_equal. lia.
Qed.

Lemma clear_last_line_spec k :
  draws k (clear_last_line k) ∧
  ∀ j, 0 <= j < SCREEN_CELLS → cell (clear_last_line k) j =
    if (VGA_HEIGHT - 1) * VGA_WIDTH <=? j then blank_cell (terminal_color k) else cell k j.
Proof.
  set (I p k' := draws k k' ∧ ∀ j, 0 <= j < SCREEN_CELLS → cell k' j =
    if ((VGA_HEIGHT - 1) * VGA_WIDTH <=? j) && (j <? (VGA_HEIGHT - 1) * VGA_WIDTH + p)
    then blank_cell (terminal_color k) else cell k j).
  assert (I VGA_WIDTH (clear_last_line k)) as [Hd Hc].
  { apply (for_z_inv I (Z.to_nat VGA_WIDTH) 0).
    - split; [apply draws_refl|]. intros j _. repeat ztest; simpl; try done. lia.
    - intros x k' Hx [Hd' Hc']. change (Z.of_nat (Z.to_nat VGA_WIDTH)) with 80 in Hx. split.
      + eapply draws_trans; [done|]. apply draws_store. vga_consts. lia.
      + intros j Hj. rewrite cell_store, Hc' by done.
        destruct Hd' as [(_&_& -> &_) _]. fold (blank_cell (terminal_color k)).
        repeat (ztest; simpl; try lia); done. }
  split; [done|]. intros j Hj. rewrite Hc by done.
  repeat ztest; simpl; try done. vga_consts. lia.
Qed.

Lemma for_z_ports n i body k p :
  (∀ j k p, body j (k <| ports := p |>) = body j k <| ports := p |>) →
  for_z n i body (k <| ports := p |>) = for_z n i body k <| ports := p |>.
Proof. intros Hb. revert i k. induction n as [|n IH]; intros i k; [done|].
  change (for_z n (i + 1) body (body i (k <| ports := p |>)) =
    for_z n (i + 1) body (body i k) <| ports := p |>). by rewrite Hb, IH.
Qed.

Lemma scroll_lines_ports k p : scroll_lines (k <| ports := p |>) = scroll_lines k <| ports := p |>.
Proof.
  unfold scroll_lines. generalize (Z.to_nat (VGA_HEIGHT - 1)) (Z.to_nat VGA_WIDTH). intros m n.
  apply for_z_ports. intros y k' p'. apply for_z_ports. reflexivity.
Qed.

Lemma clear_last_line_ports k p :
  clear_last_line (k <| ports := p |>) = clear_last_line k <| ports := p |>.
Proof.
  unfold clear_last_line. generalize (Z.to_nat VGA_WIDTH). intros n.
  apply for_z_ports. reflexivity.
Qed.

(** [vga_scroll] after its two loops. *)
Lemma home_ports (k k' : machine) p :
  k = k' <| ports := p |> →
  k <| terminal_row := VGA_HEIGHT - 1 |> <| terminal_column := 0 |> =
    k' <| terminal_row := VGA_HEIGHT - 1 |> <| terminal_column := 0 |> <| ports := p |>.
Proof. by intros ->. Qed.

Lemma scroll_ports k p : vga_scroll (k <| ports := p |>) = vga_scroll k <| ports := p |>.
Proof.
  apply (home_ports (clear_last_line (scroll_lines (k <| ports := p |>))) (clear_last_line (scroll_lines k))).
  rewrite scroll_lines_ports. apply clear_last_line_ports.
Qed.

#[global] Opaque scroll_lines clear_last_line.

(** Scrolling moves every row up by one and blanks the last. *)
Lemma vga_scroll_spec k :
  let k' := vga_scroll k in
  terminal_row k' = VGA_HEIGHT - 1 ∧ terminal_column k' = 0 ∧
  terminal_color k' = terminal_color k ∧ ports k' = ports k ∧
  only (mem k) framebuffer (mem k') ∧
  ∀ j, 0 <= j < SCREEN_CELLS →
    cell k' j = if j <? (VGA_HEIGHT - 1) * VGA_WIDTH then cell k (j + VGA_WIDTH)
                else blank_cell (terminal_color k).
Proof.
  unfold vga_scroll. cbv zeta.
  destruct (scroll_lines_spec k) as [Hd1 Hc1].
  destruct (clear_last_line_spec (scroll_lines k)) as [Hd2 Hc2].
  destruct (draws_trans _ _ _ Hd1 Hd2) as [(_&_&Hcol&Hp) Ho]. destruct Hd1 as [(_&_&E&_) _].
  generalize dependent (clear_last_line (scroll_lines k)). intros k2 _ Hc2 Hcol Hp Ho.
  split_and!; [done..|].
  intros j Hj. rewrite cell_cursor, Hc2, Hc1, E by lia. repeat ztest; try done; lia.
Qed.

(** ** The abstract terminal

    What the console promises its clients: a screen of 2000 cells, a cursor and a
    colour; a printed character lands at the cursor and the screen scrolls. *)

Record tty := MkTty { screen : list Z; trow : Z; tcol : Z; tcolor : Z }.

Definition tty_scroll (t : tty) : tty :=
  MkTty (drop (Z.to_nat VGA_WIDTH) (screen t)
         ++ replicate (Z.to_nat VGA_WIDTH) (blank_cell (tcolor t)))
        (VGA_HEIGHT - 1) 0 (tcolor t).

Definition tty_newline (t : tty) : tty :=
  if trow t =? VGA_HEIGHT - 1 then tty_scroll t
  else MkTty (screen t) (trow t + 1) 0 (tcolor t).

Definition tty_set (t : tty) (e : Z) : tty :=
  MkTty (<[Z.to_nat (trow t * VGA_WIDTH + tcol t) := u16 e]> (screen t))
        (trow t) (tcol t) (tcolor t).

Definition tty_put (t : tty) (c : Z) : tty :=
  if c =? 10 then tty_newline t
  else if c =? 8 then
    if 0 <? tcol t then
      tty_set (MkTty (screen t) (trow t) (tcol t - 1) (tcolor t))
        (vga_entry (chr " ") VGA_COLOR_LIGHT_GREY)
    else t
  else
    let t := tty_set t (vga_entry c (tcolor t)) in
    if tcol t =? VGA_WIDTH - 1 then tty_newline t
    else MkTty (screen t) (trow t) (tcol t + 1) (tcolor t).

Definition tty_write (t : tty) (s : list Z) : tty := foldl tty_put t s.

(** The terminal that a machine state implements. *)
Definition abs_tty (k : machine) : tty :=
  MkTty (cell k <$> seqZ 0 SCREEN_CELLS) (terminal_row k) (terminal_column k)
        (terminal_color k).

Lemma abs_screen_lookup k i :
  screen (abs_tty k) !! i =
    if Z.of_nat i <? SCREEN_CELLS then Some (cell k (Z.of_nat i)) else None.
Proof.
  cbn [screen abs_tty]. rewrite list_lookup_fmap. ztest.
  - rewrite lookup_seqZ_lt by lia. simpl. by rewrite Z.add_0_l.
  - rewrite lookup_seqZ_ge by lia. done.
Qed.

Lemma abs_screen_eq k l :
  length l = Z.to_nat SCREEN_CELLS →
  (∀ j, 0 <= j < SCREEN_CELLS → l !! Z.to_nat j = Some (cell k j)) →
  screen (abs_tty k) = l.
Proof.
  intros Hlen Hl. apply list_eq. intros i. rewrite abs_screen_lookup. ztest.
  - specialize (Hl (Z.of_nat i)). rewrite Nat2Z.id in Hl. symmetry. apply Hl. lia.
  - symmetry. apply lookup_ge_None. lia.
Qed.

Lemma length_screen k : length (screen (abs_tty k)) = Z.to_nat SCREEN_CELLS.
Proof. cbn [screen abs_tty]. by rewrite length_fmap, length_seqZ. Qed.

Lemma abs_vga_scroll k : abs_tty (vga_scroll k) = tty_scroll (abs_tty k).
Proof.
  destruct (vga_scroll_spec k) as (Hr & Hc & Hcol & _ & _ & Hcell).
  unfold tty_scroll. rewrite <- (abs_screen_eq (vga_scroll k) (drop _ _ ++ _)).
  - unfold abs_tty at 1. by rewrite Hr, Hc, Hcol.
  - rewrite length_app, length_drop, length_screen, length_replicate. done.
  - intros j Hj. rewrite Hcell by done. ztest.
    + rewrite lookup_app_l by (rewrite length_drop, length_screen; vga_consts; lia).
      rewrite lookup_drop, abs_screen_lookup.
      vga_consts. zdecide. do 2 f_equal. lia.
    + rewrite lookup_app_r by (rewrite length_drop, length_screen; vga_consts; lia).
      rewrite length_drop, length_screen, lookup_replicate_2; [done|]. vga_consts. lia.
Qed.

(** The colour byte splits into its nibbles and recombines. *)
Lemma color_nibbles color :
  is_u8 color →
  vga_entry_color (Z.land color 0x0F) (Z.land (Z.shiftr color 4) 0x0F) = color.
Proof.
  intros Hc.
  assert (forallb (λ c, vga_entry_color (Z.land c 0x0F) (Z.land (Z.shiftr c 4) 0x0F) =? c)
            (seqZ 0 256) = true) as H by (vm_compute; reflexivity).
  rewrite forallb_forall in H. apply Z.eqb_eq, H.
  apply list_elem_of_In, elem_of_seqZ. word_lia.
Qed.

Definition term_ok (k : machine) : Prop := cursor_ok k ∧ is_u8 (terminal_color k).

(** What an operation of the console may do: keep the cursor on the screen and
    write to the frame buffer only. *)
Definition console_step (k k' : machine) : Prop :=
  term_ok k' ∧ only (mem k) framebuffer (mem k').

Lemma console_step_trans k1 k2 k3 :
  console_step k1 k2 → console_step k2 k3 → console_step k1 k3.
Proof. intros [? ?] [? ?]. split; [done|]. by eapply only_trans. Qed.

Lemma abs_store k e :
  cursor_ok k →
  abs_tty (vga_store k (terminal_row k * VGA_WIDTH + terminal_column k) e)
  = tty_set (abs_tty k) e.
Proof.
  intros Hk. set (p := terminal_row k * VGA_WIDTH + terminal_column k).
  assert (0 <= p < SCREEN_CELLS) as Hp by (unfold p; vga_consts; lia).
  unfold tty_set. cbn [trow tcol tcolor abs_tty].
  fold p. rewrite <- (abs_screen_eq (vga_store k p e) (<[Z.to_nat p:=u16 e]> _)); [done| |].
  - rewrite length_insert. apply length_screen.
  - intros j Hj. rewrite cell_store. ztest.
    + subst j. apply list_lookup_insert_eq. rewrite length_screen. lia.
    + rewrite list_lookup_insert_ne by lia. rewrite abs_screen_lookup.
      zdecide. do 2 f_equal. lia.
Qed.

Lemma abs_update_cursor k : abs_tty (vga_update_cursor k) = abs_tty k.
Proof. done. Qed.

(** Starting a new row, with the column already reset. *)
Lemma vga_next_row_ok k :
  term_ok k →
  let k' := vga_next_row (k <| terminal_column := 0 |>) in
  abs_tty k' = tty_newline (abs_tty k) ∧ console_step k k'.
Proof.
  intros [[Hr Hc] Hcol]. unfold vga_next_row, tty_newline. cbn [trow abs_tty].
  set (k1 := k <| terminal_column := 0 |>).
  set (k2 := k1 <| terminal_row := u8 (terminal_row k1 + 1) |>).
  assert (terminal_row k2 = terminal_row k + 1) as Hrow.
  { change (u8 (terminal_row k + 1) = terminal_row k + 1).
    apply u8_small. vga_consts. word_lia. }
  rewrite Hrow. vga_consts. repeat ztest; try lia.
  - rewrite abs_vga_scroll. split; [done|].
    destruct (vga_scroll_spec k2) as (H1 & H2 & H3 & _ & H5 & _).
    split; [split; [split|]|exact H5].
    + rewrite H1. vga_consts. lia.
    + rewrite H2. vga_consts. lia.
    + by rewrite H3.
  - split.
    + unfold abs_tty at 1. rewrite Hrow. done.
    + split; [|apply only_refl]. split; [|done]. split; [|cbn; vga_consts; lia].
      rewrite Hrow. vga_consts. lia.
Qed.

Lemma term_ok_column k c :
  term_ok k → 0 <= c < VGA_WIDTH → term_ok (k <| terminal_column := c |>).
Proof. intros [[? ?] ?] ?. done. Qed.

Lemma store_step k e :
  term_ok k →
  console_step k (vga_store k (terminal_row k * VGA_WIDTH + terminal_column k) e).
Proof.
  intros Hk. split; [done|]. apply store_only. destruct Hk as [[? ?] ?]. vga_consts. lia.
Qed.

(** [vga_putchar] implements [tty_put], keeps the cursor on the screen, and
    writes nothing but the frame buffer. *)
Lemma vga_putchar_ok k c :
  term_ok k →
  abs_tty (vga_putchar k c) = tty_put (abs_tty k) c ∧ console_step k (vga_putchar k c).
Proof.
  intros Hk. unfold vga_putchar, tty_put. rewrite abs_update_cursor.
  change (console_step k (vga_update_cursor ?x)) with (console_step k x).
  ztest; [by apply vga_next_row_ok|]. ztest.
  { cbn [tcol abs_tty]. ztest; [|split; [done|split; [done|apply only_refl]]].
    assert (u8 (terminal_column k - 1) = terminal_column k - 1) as Hu
      by (destruct Hk as [[? ?] ?]; apply u8_small; vga_consts; word_lia).
    set (k1 := k <| terminal_column := u8 (terminal_column k - 1) |>).
    assert (term_ok k1) as Hk1
      by (apply term_ok_column; [done|]; destruct Hk as [[? ?] ?]; rewrite Hu; vga_consts; lia).
    unfold vga_putchar_at. split; [|by apply (store_step k1)].
    rewrite abs_store by apply Hk1.
    unfold k1. rewrite Hu. done. }
  unfold vga_putchar_at. rewrite color_nibbles by apply Hk.
  set (e := vga_entry c (terminal_color k)).
  change (vga_entry c (tcolor (abs_tty k))) with e.
  rewrite <- abs_store by apply Hk.
  set (k1 := vga_store k _ e).
  assert (console_step k k1) as Hs by (by apply store_step).
  assert (u8 (terminal_column k1 + 1) = terminal_column k + 1) as Hu
    by (destruct Hk as [[? ?] ?]; apply u8_small; vga_consts; word_lia).
  change (terminal_column (k1 <| terminal_column := u8 (terminal_column k1 + 1) |>))
    with (u8 (terminal_column k1 + 1)).
  change (tcol (abs_tty k1)) with (terminal_column k). rewrite Hu.
  vga_consts. repeat ztest; try lia.
  - destruct (vga_next_row_ok k1) as [Ha Hst]; [apply Hs|].
    split; [exact Ha|]. eapply console_step_trans; [exact Hs|exact Hst].
  - split.
    + done.
    + split; [|apply Hs]. apply term_ok_column; [apply Hs|].
      destruct Hk as [[? ?] ?]. vga_consts. lia.
Qed.

Lemma vga_putstr_ok k s :
  term_ok k →
  abs_tty (vga_putstr k s) = tty_write (abs_tty k) s ∧ console_step k (vga_putstr k s).
Proof.
  revert k. induction s as [|c s IH]; intros k Hk; simpl.
  - split; [done|]. split; [done|apply only_refl].
  - destruct (vga_putchar_ok k c Hk) as [Ha Hs]. destruct (IH _ (proj1 Hs)) as [Ha' Hs'].
    rewrite Ha', Ha. split; [done|]. by eapply console_step_trans.
Qed.

(** ** Clearing and initialisation *)

Lemma put_art_line_draws k line y x color :
  0 <= y < VGA_HEIGHT → 0 <= x → draws k (put_art_line k line y x color).
Proof.
  intros Hy. revert k x. induction line as [|c line IH]; intros k x Hx; simpl;
    [apply draws_refl|].
  ztest; [|apply draws_refl].
  eapply draws_trans; [|apply IH; lia]. apply draws_store. vga_consts. lia.
Qed.

Lemma put_art_draws k art y color :
  0 <= y → Forall (λ l, Str.strlen l <= VGA_WIDTH) art → draws k (put_art k art y color).
Proof.
  intros Hy Hart. revert k y Hy. induction Hart as [|l art Hl Hart IH]; intros k y Hy; simpl;
    [apply draws_refl|].
  ztest; [|apply draws_refl].
  eapply draws_trans; [|apply IH; lia]. apply put_art_line_draws; [lia|].
  apply Z.div_pos; lia.
Qed.

Lemma pxos_art_fits : Forall (λ l, Str.strlen l <= VGA_WIDTH) pxos_art.
Proof. repeat constructor; vm_compute; discriminate. Qed.

Lemma clear_cells_draws k : draws k (clear_cells k).
Proof.
  apply draws_for. intros y k' Hy. apply draws_for. intros x k'' Hx.
  apply draws_store. change (Z.of_nat (Z.to_nat VGA_HEIGHT)) with 25 in Hy.
  change (Z.of_nat (Z.to_nat VGA_WIDTH)) with 80 in Hx. vga_consts. lia.
Qed.

Lemma draw_separator_draws k y : 0 <= y → draws k (draw_separator k y).
Proof.
  intros Hy. unfold draw_separator. ztest; [|apply draws_refl].
  apply draws_for. intros x k' Hx. apply draws_store.
  change (Z.of_nat (Z.to_nat VGA_WIDTH)) with 80 in Hx. vga_consts. lia.
Qed.

Lemma draw_banner_draws k : draws k (draw_banner k 2).
Proof. apply put_art_draws; [lia|apply pxos_art_fits]. Qed.

Lemma pxos_art_height : Z.of_nat (length pxos_art) = 12.
Proof. done. Qed.
#[global] Opaque clear_cells draw_banner draw_separator pxos_art.

Lemma vga_clear_ok k : is_u8 (terminal_color k) → console_step k (vga_clear k).
Proof.
  intros Hc. unfold vga_clear. cbv zeta. rewrite pxos_art_height.
  pose proof (draws_trans _ _ _ (draws_trans _ _ _ (clear_cells_draws k)
    (draw_banner_draws (clear_cells k))) (draw_separator_draws _ 15 ltac:(lia))) as H.
  change (2 + 12 + 1) with 15 in *.
  generalize dependent (draw_separator (draw_banner (clear_cells k) 2) 15).
  intros k3 [(_&_&E&_) Ho].
  split; [|exact Ho]. split; [split|].
  - vm_compute. split; [discriminate|done].
  - cbn. vga_consts. lia.
  - change (is_u8 (terminal_color k3)). by rewrite E.
Qed.

Lemma vga_init_ok k : console_step k (vga_init k).
Proof.
  unfold vga_init.
  pose proof (vga_clear_ok (k <| terminal_row := 0 |> <| terminal_column := 0 |>
    <| terminal_color := vga_entry_color VGA_COLOR_LIGHT_GREY VGA_COLOR_BLACK |>)) as [? Ho].
  { vm_compute. split; [discriminate|done]. }
  split; [done|exact Ho].
Qed.

(** ** Printing numbers *)

Lemma vga_putstr_app k s1 s2 : vga_putstr k (s1 ++ s2) = vga_putstr (vga_putstr k s1) s2.
Proof. revert k. induction s1; intros k; simpl; auto. Qed.

Lemma putnum_buffer_rdigits n num :
  0 <= num → putnum_buffer n num = Str.rdigits n num 10.
Proof.
  revert num. induction n as [|n IH]; intros num Hn; simpl; [done|].
  repeat ztest; try lia; [done|].
  rewrite IH by (apply Z.quot_pos; lia). f_equal.
  rewrite itoa_digit_dec; [done|]. apply Z.rem_bound_pos; lia.
Qed.

(** [vga_putnum] prints the text [itoa] would produce. *)
Lemma vga_putnum_itoa k num :
  -2147483648 < num < 2147483648 → vga_putnum k num = vga_putstr k (Str.itoa num 10).
Proof.
  intros Hn. unfold vga_putnum, Str.itoa. ztest; [done|]. rewrite andb_true_r. ztest.
  - rewrite s32_small by lia. rewrite putnum_buffer_rdigits by lia. done.
  - rewrite putnum_buffer_rdigits by lia. done.
Qed.

(** The hexadecimal text of a 32-bit number, after the "0x". *)
Definition hex_text (num : Z) : list Z :=
  if num =? 0 then [chr "0"] else reverse (puthex_buffer 9 num).

Lemma vga_puthex_text k num : vga_puthex k num = vga_putstr k (lit "0x" ++ hex_text num).
Proof.
  unfold vga_puthex, hex_text. rewrite vga_putstr_app. by destruct (num =? 0).
Qed.

Lemma puthex_length n num :
  0 <= num < 16 ^ Z.of_nat n → (length (puthex_buffer (S n) num) <= n)%nat.
Proof.
  revert num. induction n as [|n IH]; intros num Hn.
  - simpl. zdecide. done.
  - cbn [puthex_buffer]. ztest; [|simpl; lia]. cbn [length]. apply le_n_S.
    apply IH. rewrite Z.shiftr_div_pow2 by lia. change (2 ^ 4) with 16.
    rewrite Nat2Z.inj_succ, Z.pow_succ_r in Hn by lia.
    split; [apply Z.div_pos; lia|]. apply Z.div_lt_upper_bound; lia.
Qed.

(** The digits fit the nine-byte [buffer] of [vga_puthex]. *)
Lemma hex_text_length num : is_u32 num → (1 <= length (hex_text num) <= 8)%nat.
Proof.
  intros Hn. unfold hex_text. ztest; [simpl; lia|]. rewrite length_reverse.
  split.
  - unfold is_u32 in Hn. assert ((0 <? num) = true) as E by lia.
    cbn [puthex_buffer]. rewrite E. apply le_n_S, Nat.le_0_l.
  - apply (puthex_length 8). change (16 ^ Z.of_nat 8) with 4294967296. done.
Qed.

(** ** Consequences for callers that print *)

Create HintDb console.

Lemma vga_putstr_step k s : term_ok k → console_step k (vga_putstr k s).
Proof. apply vga_putstr_ok. Qed.
Lemma vga_puthex_step k num : term_ok k → console_step k (vga_puthex k num).
Proof. rewrite vga_puthex_text. apply vga_putstr_ok. Qed.
Lemma vga_putnum_step k num :
  term_ok k → -2147483648 < num < 2147483648 → console_step k (vga_putnum k num).
Proof. intros ??. rewrite vga_putnum_itoa by done. by apply vga_putstr_ok. Qed.

Lemma console_step_refl k : term_ok k → console_step k k.
Proof. split; [done|apply only_refl]. Qed.
Lemma vga_putstr_after k k' s : console_step k k' → console_step k (vga_putstr k' s).
Proof. intros H. eapply console_step_trans; [exact H|]. apply vga_putstr_step, H. Qed.
Lemma vga_puthex_after k k' num : console_step k k' → console_step k (vga_puthex k' num).
Proof. intros H. eapply console_step_trans; [exact H|]. apply vga_puthex_step, H. Qed.
Lemma vga_putchar_after k k' c : console_step k k' → console_step k (vga_putchar k' c).
Proof. intros H. eapply console_step_trans; [exact H|]. apply (vga_putchar_ok k' c), H. Qed.
Lemma vga_set_color_after k k' fg bg : console_step k k' → console_step k (vga_set_color k' fg bg).
Proof. intros [[Hc _] Ho]. split; [|exact Ho]. split; [exact Hc|apply u8_range]. Qed.
Lemma vga_clear_after k k' : console_step k k' → console_step k (vga_clear k').
Proof. intros H. eapply console_step_trans; [exact H|]. apply vga_clear_ok, H. Qed.
#[export] Hint Resolve console_step_refl vga_putstr_after vga_puthex_after vga_putchar_after
  vga_set_color_after vga_clear_after : console.

Lemma term_ok_mem k m : term_ok k → term_ok (k <| mem := m |>).
Proof. intros [[? ?] ?]. split; [split|]; assumption. Qed.

(** The screen and cursor before the kernel has written anything. *)
Definition blank_machine : machine := Machine ∅ 0 0 7 [].
Lemma blank_machine_ok : term_ok blank_machine.
Proof. vm_compute. repeat split; discriminate. Qed.

(** ** The log of port writes is write-only

    Two machines that differ in it only are the same to the console. *)

#[export] Instance machine_equiv : Equiv machine :=
  λ k k', k <| ports := [] |> = k' <| ports := [] |>.
#[export] Instance machine_equivalence : Equivalence (≡@{machine}).
Proof. unfold equiv, machine_equiv. split; [by intros k|by intros k k' ->|by intros k1 k2 k3 -> ->]. Qed.

Lemma ports_equiv (k : machine) p : k <| ports := p |> ≡ k.
Proof. done. Qed.

Lemma next_row_ports k p : vga_next_row (k <| ports := p |>) = vga_next_row k <| ports := p |>.
Proof.
  unfold vga_next_row. cbv zeta.
  change (terminal_row (k <| ports := p |>)) with (terminal_row k). set (r := u8 _).
  change (k <| ports := p |> <| terminal_row := r |>) with (k <| terminal_row := r |> <| ports := p |>).
  change (terminal_row (k <| terminal_row := r |> <| ports := p |>)) with (terminal_row (k <| terminal_row := r |>)).
  destruct (_ =? VGA_HEIGHT); [apply scroll_ports|done].
Qed.

#[export] Instance vga_putchar_proper : Proper ((≡) ==> (=) ==> (≡)) vga_putchar.
Proof.
  assert (∀ k c, vga_putchar k c ≡ vga_putchar (k <| ports := [] |>) c) as H.
  { intros k c. unfold vga_putchar. cbv zeta.
    change (terminal_column (k <| ports := [] |>)) with (terminal_column k).
    destruct (c =? 10); [|destruct (c =? 8)].
    - change (k <| ports := [] |> <| terminal_column := 0 |>) with (k <| terminal_column := 0 |> <| ports := [] |>).
      by rewrite next_row_ports.
    - by destruct (0 <? _).
    - set (k1 := vga_putchar_at k c (Z.land (terminal_color k) 0x0F)
        (Z.land (Z.shiftr (terminal_color k) 4) 0x0F) (terminal_column k) (terminal_row k)
        <| terminal_column := u8 (terminal_column k + 1) |>).
      change (vga_update_cursor (if terminal_column k1 =? VGA_WIDTH
          then vga_next_row (k1 <| terminal_column := 0 |>) else k1) ≡
        vga_update_cursor (if terminal_column k1 =? VGA_WIDTH
          then vga_next_row (k1 <| terminal_column := 0 |> <| ports := [] |>)
          else k1 <| ports := [] |>)).
      destruct (_ =? VGA_WIDTH); [by rewrite next_row_ports|done]. }
  intros k k' Hk c ? <-. rewrite (H k), (H k'). unfold equiv, machine_equiv in Hk. by rewrite Hk.
Qed.

#[export] Instance vga_putstr_proper : Proper ((≡) ==> (=) ==> (≡)) vga_putstr.
Proof.
  intros k k' Hk s ? <-. revert k k' Hk. induction s as [|c s IH]; intros k k' Hk; [done|].
  cbn [vga_putstr]. apply IH. by rewrite Hk.
Qed.

(** ** Properties *)

(** C11: [vga_putstr] implements writing the text to an abstract terminal (newline,
    backspace, wrap-around at the right edge, scrolling at the bottom), keeps
    the cursor on the screen, and writes memory only in the frame buffer. *)
Theorem vga_putstr_refines k s :
  term_ok k →
  abs_tty (vga_putstr k s) = tty_write (abs_tty k) s ∧ term_ok (vga_putstr k s) ∧
  only (mem k) framebuffer (mem (vga_putstr k s)).
Proof. intros Hk. destruct (vga_putstr_ok k s Hk) as [Ha [Ht Ho]]. done. Qed.

Lemma vga_putstr_refines_witness :
  let t := abs_tty (vga_putstr blank_machine (lit "ab" ++ [8; 10])) in trow t = 1 ∧ tcol t = 0.
Proof.
  intros t. unfold t. destruct (vga_putstr_refines blank_machine (lit "ab" ++ [8; 10]) blank_machine_ok) as [-> _].
  by vm_compute.
Defined.

(** The value of a hexadecimal text. *)
Definition hex_digit_value (c : Z) : Z := if c <=? chr "9" then c - chr "0" else c - chr "A" + 10.
Definition hex_value (s : list Z) : Z := foldl (λ v c, 16 * v + hex_digit_value c) 0 s.

Lemma hex_digit_read d : 0 <= d < 16 → hex_digit_value (hex_digit d) = d.
Proof.
  intros Hd. unfold hex_digit, hex_digit_value. change (chr "0") with 48. change (chr "9") with 57.
  change (chr "A") with 65. repeat ztest; lia.
Qed.

Lemma puthex_value n num :
  0 <= num < 16 ^ Z.of_nat n → hex_value (reverse (puthex_buffer n num)) = num.
Proof.
  revert num. induction n as [|n IH]; intros num Hn; [simpl in Hn; unfold hex_value; simpl; lia|].
  cbn [puthex_buffer]. ztest; [|unfold hex_value; simpl; lia].
  assert (0 <= Z.shiftr num 4 < 16 ^ Z.of_nat n) as Hq.
  { rewrite Z.shiftr_div_pow2 by lia. change (2 ^ 4) with 16.
    rewrite Nat2Z.inj_succ, Z.pow_succ_r in Hn by lia.
    split; [apply Z.div_pos; lia|]. apply Z.div_lt_upper_bound; lia. }
  unfold hex_value in *. rewrite reverse_cons, foldl_app, IH by done. simpl.
  change 0xF with (Z.ones 4). rewrite Z.land_ones by lia. rewrite Z.shiftr_div_pow2 by lia.
  change (2 ^ 4) with 16. rewrite hex_digit_read by (apply Z.mod_pos_bound; lia).
  pose proof (Z.div_mod num 16 ltac:(lia)). lia.
Qed.

(** The number printers write the right text: [vga_putnum] prints what [itoa] would
    and [atoi] reads back, for every [int] but INT_MIN, of which only the sign
    is printed; [vga_puthex] prints "0x" and at most eight digits, the room of
    its buffer, whose value is the number. *)
Theorem vga_numbers_correct k num h :
  -2147483648 < num < 2147483648 → is_u32 h →
  vga_putnum k num = vga_putstr k (Str.itoa num 10) ∧ Str.atoi (Str.itoa num 10) = num ∧
  vga_putnum k (-2147483648) = vga_putstr k (lit "-") ∧
  ∃ text, vga_puthex k h = vga_putstr k (lit "0x" ++ text) ∧ hex_value text = h ∧
    (1 <= length text <= 8)%nat.
Proof.
  intros Hn Hh. split; [by apply vga_putnum_itoa|]. split; [by apply atoi_itoa_str|]. split; [done|].
  exists (hex_text h). split; [apply vga_puthex_text|]. split; [|by apply hex_text_length].
  unfold hex_text. ztest; [by subst|]. apply puthex_value. unfold is_u32 in Hh.
  change (16 ^ Z.of_nat 9) with 68719476736. lia.
Qed.

Lemma vga_numbers_correct_witness :
  vga_putnum blank_machine (-42) = vga_putstr blank_machine (lit "-42") ∧ Str.atoi (lit "-42") = -42.
Proof.
  destruct (vga_numbers_correct blank_machine (-42) 255) as (H1 & H2 & _); [lia|by vm_compute|].
  split; [exact H1|exact H2].
Defined.
