(* ===== verification/Memory.v ===== *)
(** * Memory manager: data (kernel/memory.h, globals of kernel/memory.c)

    The constants of memory.h, the statistics record, the globals of memory.c
    as one record, and the in-memory layout of a heap block header.  The three
    parts of memory.c that operate on them are Heap.v (the kernel heap),
    PhysPages.v (the physical page bitmap) and Paging.v (page tables). *)

From S2P Require Import Prelude Ram.
Set Default Goal Selector "!".

Definition PAGE_SIZE : Z := 4096.
Definition PAGE_DIRECTORY_SIZE : Z := 1024.
Definition PAGE_TABLE_SIZE : Z := 1024.
Definition KERNEL_HEAP_START : Z := 0x200000.
Definition KERNEL_HEAP_SIZE : Z := 0x100000.
Definition USER_SPACE_START : Z := 0x400000.
Definition USER_SPACE_SIZE : Z := 0x3C00000.

Definition PAGE_PRESENT : Z := 0x1.
Definition PAGE_WRITABLE : Z := 0x2.
Definition PAGE_USER : Z := 0x4.
Definition PAGE_GLOBAL : Z := 0x100.

(** [memory_type_t]; the enumerator's value is what a header stores. *)
Inductive memory_type : Set :=
| MEMORY_FREE
| MEMORY_ALLOCATED
| MEMORY_RESERVED
| MEMORY_KERNEL.

Definition memory_type_code (t : memory_type) : Z :=
  match t with
  | MEMORY_FREE => 0
  | MEMORY_ALLOCATED => 1
  | MEMORY_RESERVED => 2
  | MEMORY_KERNEL => 3
  end.

#[export] Instance memory_type_eq_dec : EqDecision memory_type.
Proof. solve_decision. Defined.

(** [memory_block_t]: five 32-bit words at the block's address. *)
Definition sizeof_memory_block : Z := 20.
Definition blk_start_addr (m : ram) (b : Z) : Z := rd32 m b.
Definition blk_size (m : ram) (b : Z) : Z := rd32 m (b + 4).
Definition blk_type (m : ram) (b : Z) : Z := rd32 m (b + 8).
Definition blk_next (m : ram) (b : Z) : Z := rd32 m (b + 12).
Definition blk_prev (m : ram) (b : Z) : Z := rd32 m (b + 16).
Definition set_blk_start_addr (m : ram) (b v : Z) : ram := wr32 m b v.
Definition set_blk_size (m : ram) (b v : Z) : ram := wr32 m (b + 4) v.
Definition set_blk_type (m : ram) (b : Z) (t : memory_type) : ram :=
  wr32 m (b + 8) (memory_type_code t).
Definition set_blk_next (m : ram) (b v : Z) : ram := wr32 m (b + 12) v.
Definition set_blk_prev (m : ram) (b v : Z) : ram := wr32 m (b + 16) v.

(** [memory_stats_t] *)
Record memory_stats := MkMemoryStats {
  total_memory : Z;
  free_memory : Z;
  used_memory : Z;
  kernel_memory : Z;
  user_memory : Z;
  page_faults : Z;
  page_allocations : Z;
  page_deallocations : Z;
}.
#[export] Instance eta_memory_stats : Eta memory_stats := λ r,
  MkMemoryStats (total_memory r) (free_memory r) (used_memory r) (kernel_memory r)
    (user_memory r) (page_faults r) (page_allocations r) (page_deallocations r).

(** The static variables of memory.c, with [next_page_table_addr], the static
    local of [create_page_table]. *)
Record mm_state := MkMm {
  current_page_directory : Z;
  memory_map : Z;
  mm_stats : memory_stats;
  physical_page_bitmap : Z;
  bitmap_size : Z;
  heap_start : Z;
  heap_end : Z;
  heap_current : Z;
  next_page_table_addr : Z;
}.
#[export] Instance eta_mm_state : Eta mm_state := λ r,
  MkMm (current_page_directory r) (memory_map r) (mm_stats r)
    (physical_page_bitmap r) (bitmap_size r) (heap_start r) (heap_end r)
    (heap_current r) (next_page_table_addr r).

(** The static initialisers: what the globals hold when the kernel is entered. *)
Definition mm_boot : mm_state :=
  MkMm 0 0 (MkMemoryStats 0 0 0 0 0 0 0 0) 0 0 0 0 0 0x700000.
