(* ===== verification/Heap.v ===== *)
(** * The kernel heap (kernel/memory.c: kmalloc, kfree and their helpers) *)

From S2P Require Import Prelude Ram CString Vga Memory.
Set Default Goal Selector "!".

(** Every walk over the block list takes at most this many turns: a block
    occupies at least its 20-byte header, so a well-formed list in the 1 MB heap
    is shorter.  A walk that needs more turns is on a corrupted (cyclic) list
    and the operation then yields [None]. *)
Definition heap_fuel : nat := Z.to_nat (KERNEL_HEAP_SIZE / sizeof_memory_block + 2).

(** ** Operations *)

Definition heap_init (mm : mm_state) (k : machine) : mm_state * machine :=
  let mm := mm <| heap_start := KERNEL_HEAP_START |> in
  let mm := mm <| heap_end := heap_start mm +w KERNEL_HEAP_SIZE |> in
  let mm := mm <| heap_current := heap_start mm |> in
  let m := mem k in
  let initial_block := heap_start mm in
  let m := set_blk_start_addr m initial_block (heap_start mm +w sizeof_memory_block) in
  let m := set_blk_size m initial_block (KERNEL_HEAP_SIZE - sizeof_memory_block) in
  let m := set_blk_type m initial_block MEMORY_FREE in
  let m := set_blk_next m initial_block 0 in
  let m := set_blk_prev m initial_block 0 in
  let mm := mm <| memory_map := initial_block |> in
  let k := k <| mem := m |> in
  let k := vga_putstr k (lit "Heap initialized at 0x") in
  let k := vga_puthex k (heap_start mm) in
  let k := vga_putstr k [10] in
  (mm, k).

(** One turn of the search loop; [inr] is the returned block, 0 for NULL. *)
Definition find_step (m : ram) (size current : Z) : Z + Z :=
  if current =? 0 then inr 0
  else if (blk_type m current =? memory_type_code MEMORY_FREE)
          && (size <=? blk_size m current)
  then inr current
  else inl (blk_next m current).

Definition find_free_block (mm : mm_state) (m : ram) (size : Z) : option Z :=
  loop heap_fuel (find_step m size) (memory_map mm).

Definition split_block (m : ram) (block size : Z) : Z * ram :=
  if blk_size m block <=? size +w sizeof_memory_block then (block, m)
  else
    let new_block := blk_start_addr m block +w size in
    let m := set_blk_start_addr m new_block
               (blk_start_addr m block +w size +w sizeof_memory_block) in
    let m := set_blk_size m new_block (blk_size m block -w size -w sizeof_memory_block) in
    let m := set_blk_type m new_block MEMORY_FREE in
    let m := set_blk_next m new_block (blk_next m block) in
    let m := set_blk_prev m new_block block in
    let m := set_blk_size m block size in
    let m := set_blk_next m block new_block in
    let m := if blk_next m new_block =? 0 then m
             else set_blk_prev m (blk_next m new_block) new_block in
    (block, m).

(** One turn of the loop of [merge_adjacent_blocks]. *)
Definition merge_step (s : ram * Z) : (ram * Z) + ram :=
  let '(m, current) := s in
  if (current =? 0) || (blk_next m current =? 0) then inr m
  else if (blk_type m current =? memory_type_code MEMORY_FREE)
          && (blk_type m (blk_next m current) =? memory_type_code MEMORY_FREE)
          && (blk_start_addr m current +w blk_size m current +w sizeof_memory_block
              =? blk_start_addr m (blk_next m current))
  then
    let m := set_blk_size m current
               (blk_size m current
                +w (blk_size m (blk_next m current) +w sizeof_memory_block)) in
    let m := set_blk_next m current (blk_next m (blk_next m current)) in
    let m := if blk_next m current =? 0 then m
             else set_blk_prev m (blk_next m current) current in
    inl (m, current)
  else inl (m, blk_next m current).

Definition merge_adjacent_blocks (mm : mm_state) (m : ram) : option ram :=
  loop heap_fuel merge_step (m, memory_map mm).

(** One turn of the loop of [update_memory_stats]: the block, and the two
    counters. *)
Definition stats_step (m : ram) (s : Z * (Z * Z)) : (Z * (Z * Z)) + (Z * Z) :=
  let '(current, (used, free)) := s in
  if current =? 0 then inr (used, free)
  else if blk_type m current =? memory_type_code MEMORY_ALLOCATED
  then inl (blk_next m current, (used +w blk_size m current, free))
  else if blk_type m current =? memory_type_code MEMORY_FREE
  then inl (blk_next m current, (used, free +w blk_size m current))
  else inl (blk_next m current, (used, free)).

Definition update_memory_stats (mm : mm_state) (m : ram) : option mm_state :=
  '(used, free) ← loop heap_fuel (stats_step m) (memory_map mm, (0, 0));
  Some (mm <| mm_stats := mm_stats mm <| used_memory := used |>
                                      <| free_memory := free |> |>).

(** [(size + 3) & ~3] on [size_t]. *)
Definition align_size (size : Z) : Z := Z.land (size +w 3) 0xFFFFFFFC.

(** The result is the returned pointer (0 is NULL) and the new state. *)
Definition kmalloc (mm : mm_state) (m : ram) (size : Z) : option (Z * (mm_state * ram)) :=
  if size =? 0 then Some (0, (mm, m))
  else
    let size := align_size size in
    block ← find_free_block mm m size;
    if block =? 0 then Some (0, (mm, m))
    else
      let '(block, m) :=
        if size +w sizeof_memory_block <? blk_size m block
        then split_block m block size else (block, m) in
      let m := set_blk_type m block MEMORY_ALLOCATED in
      mm ← update_memory_stats mm m;
      Some (blk_start_addr m block, (mm, m)).

Definition kfree (mm : mm_state) (m : ram) (ptr : Z) : option (mm_state * ram) :=
  if ptr =? 0 then Some (mm, m)
  else
    let block := ptr -w sizeof_memory_block in
    if blk_type m block =? memory_type_code MEMORY_ALLOCATED then
      let m := set_blk_type m block MEMORY_FREE in
      m ← merge_adjacent_blocks mm m;
      mm ← update_memory_stats mm m;
      Some (mm, m)
    else Some (mm, m).

Definition kcalloc (mm : mm_state) (m : ram) (num size : Z) :
    option (Z * (mm_state * ram)) :=
  '(ptr, (mm, m)) ← kmalloc mm m (num *w size);
  let m := if ptr =? 0 then m else memset m ptr 0 (num *w size) in
  Some (ptr, (mm, m)).

Definition krealloc (mm : mm_state) (m : ram) (ptr size : Z) :
    option (Z * (mm_state * ram)) :=
  if ptr =? 0 then kmalloc mm m size
  else if size =? 0 then
    '(mm, m) ← kfree mm m ptr;
    Some (0, (mm, m))
  else
    '(new_ptr, (mm, m)) ← kmalloc mm m size;
    if new_ptr =? 0 then Some (0, (mm, m))
    else
      let m := memcpy m new_ptr ptr size in
      '(mm, m) ← kfree mm m ptr;
      Some (new_ptr, (mm, m)).

Definition get_memory_stats (mm : mm_state) : memory_stats := mm_stats mm.

Definition vmalloc (mm : mm_state) (m : ram) (size : Z) := kmalloc mm m size.
Definition vfree (mm : mm_state) (m : ram) (ptr : Z) := kfree mm m ptr.

(** ** The block list in memory

    The heap is a list of blocks that tile the heap area: each is a 20-byte
    header followed by its payload.  A block is abstracted to its payload size
    and whether it is free. *)

Abbreviation blk := (Z * bool)%type.

Definition type_of_free (free : bool) : memory_type :=
  if free then MEMORY_FREE else MEMORY_ALLOCATED.

(** The address just after the blocks [l] that start at [hdr]. *)
Fixpoint blocks_end (hdr : Z) (l : list blk) : Z :=
  match l with
  | [] => hdr
  | (s, _) :: l' => blocks_end (hdr + sizeof_memory_block + s) l'
  end.

(** The header of one block. *)
Definition node (m : ram) (hdr prev next s : Z) (free : bool) : Prop :=
  blk_start_addr m hdr = hdr + sizeof_memory_block ∧
  blk_size m hdr = s ∧
  blk_type m hdr = memory_type_code (type_of_free free) ∧
  blk_next m hdr = next ∧
  blk_prev m hdr = prev.

(** The pointer to the first of the blocks [l] at [hdr]; [term] when there is none. *)
Definition ptr_to (hdr : Z) (l : list blk) (term : Z) : Z :=
  match l with [] => term | _ => hdr end.

(** The doubly linked list of headers of the blocks [l] from [hdr] on: [prev] is
    the header before, [term] the [next] pointer of the last one. *)
Fixpoint blocks_at (m : ram) (prev hdr : Z) (l : list blk) (term : Z) : Prop :=
  match l with
  | [] => True
  | (s, free) :: l' =>
      let hdr' := hdr + sizeof_memory_block + s in
      node m hdr prev (ptr_to hdr' l' term) s free ∧
      blocks_at m hdr hdr' l' term
  end.

(** The addresses occupied by headers. *)
Fixpoint header_cells (hdr : Z) (l : list blk) : Z → Prop :=
  match l with
  | [] => λ _, False
  | (s, _) :: l' => λ a,
      span hdr sizeof_memory_block a ∨ header_cells (hdr + sizeof_memory_block + s) l' a
  end.

(** No two neighbours are both free. *)
Fixpoint coalesced (l : list blk) : Prop :=
  match l with
  | (_, f1) :: (((_, f2) :: _) as l') => f1 && f2 = false ∧ coalesced l'
  | _ => True
  end.

Definition block_ok (b : blk) : Prop := 0 <= b.1 ∧ b.1 mod 4 = 0.

Record heap_inv (mm : mm_state) (m : ram) (l : list blk) : Prop := {
  hi_map : memory_map mm = KERNEL_HEAP_START;
  hi_nonempty : l ≠ [];
  hi_blocks : blocks_at m 0 KERNEL_HEAP_START l 0;
  hi_end : blocks_end KERNEL_HEAP_START l = KERNEL_HEAP_START + KERNEL_HEAP_SIZE;
  hi_ok : Forall block_ok l;
  hi_coalesced : coalesced l;
}.

(** ** The abstract heap *)

Fixpoint used_bytes (l : list blk) : Z :=
  match l with
  | [] => 0
  | (s, free) :: l' => (if free : bool then 0 else s) + used_bytes l'
  end.
Fixpoint free_bytes (l : list blk) : Z :=
  match l with
  | [] => 0
  | (s, free) :: l' => (if free : bool then s else 0) + free_bytes l'
  end.

(** First fit: the payload address and the blocks after allocating [sz] bytes
    from the first free block that is large enough, cut when the rest has room
    for a header and more. *)
Fixpoint alloc_first_fit (hdr sz : Z) (l : list blk) : option (Z * list blk) :=
  match l with
  | [] => None
  | (s, free) :: l' =>
      if free && (sz <=? s) then
        Some (hdr + sizeof_memory_block,
              if sz + sizeof_memory_block <? s
              then (sz, false) :: (s - sz - sizeof_memory_block, true) :: l'
              else (s, false) :: l')
      else '(p, l'') ← alloc_first_fit (hdr + sizeof_memory_block + s) sz l';
           Some (p, (s, free) :: l'')
  end.

(** Merging every run of free neighbours; [b] is the block in hand. *)
Fixpoint coalesce_from (b : blk) (l : list blk) : list blk :=
  match l with
  | [] => [b]
  | c :: l' =>
      if b.2 && c.2 then coalesce_from (b.1 + sizeof_memory_block + c.1, true) l'
      else b :: coalesce_from c l'
  end.
Definition coalesce (l : list blk) : list blk :=
  match l with [] => [] | b :: l' => coalesce_from b l' end.

(** Freeing the allocated block whose payload is at [p]. *)
Fixpoint mark_free (hdr p : Z) (l : list blk) : option (list blk) :=
  match l with
  | [] => None
  | (s, free) :: l' =>
      if hdr + sizeof_memory_block =? p then
        if free then None else Some ((s, true) :: l')
      else l'' ← mark_free (hdr + sizeof_memory_block + s) p l';
           Some ((s, free) :: l'')
  end.
Definition free_block (p : Z) (l : list blk) : option (list blk) :=
  coalesce <$> mark_free KERNEL_HEAP_START p l.

(** ** Arithmetic of block lists *)

Ltac heap_consts :=
  unfold sizeof_memory_block, KERNEL_HEAP_START, KERNEL_HEAP_SIZE in *.
Ltac heap_fields :=
  unfold node, blk_start_addr, blk_size, blk_type, blk_next, blk_prev,
    set_blk_start_addr, set_blk_size, set_blk_type, set_blk_next, set_blk_prev in *.

Lemma heap_fuel_val : Z.of_nat heap_fuel = 52430.
Proof. unfold heap_fuel. rewrite Z2Nat.id; done. Qed.

Lemma blocks_end_eq hdr l :
  blocks_end hdr l =
    hdr + sizeof_memory_block * Z.of_nat (length l) + used_bytes l + free_bytes l.
Proof.
  revert hdr. induction l as [|[s f] l IH]; intros hdr; simpl; [lia|].
  rewrite IH. destruct f; lia.
Qed.

Lemma used_bytes_nonneg l : Forall block_ok l → 0 <= used_bytes l.
Proof. induction 1 as [|[s []] l [? _] _ IH]; simpl in *; lia. Qed.
Lemma free_bytes_nonneg l : Forall block_ok l → 0 <= free_bytes l.
Proof. induction 1 as [|[s []] l [? _] _ IH]; simpl in *; lia. Qed.

Lemma blocks_end_ge hdr l :
  Forall block_ok l → hdr + sizeof_memory_block * Z.of_nat (length l) <= blocks_end hdr l.
Proof.
  intros Hl. rewrite blocks_end_eq.
  pose proof (used_bytes_nonneg l Hl). pose proof (free_bytes_nonneg l Hl). lia.
Qed.

Lemma header_cells_range hdr l a :
  Forall block_ok l → header_cells hdr l a → hdr <= a < blocks_end hdr l.
Proof.
  intros Hl. revert hdr. induction Hl as [|[s f] l [Hs _] Hl IH]; intros hdr; simpl; [done|].
  pose proof (blocks_end_ge (hdr + sizeof_memory_block + s) l Hl).
  unfold span. heap_consts. simpl in Hs. intros [?|H']; [lia|]. apply IH in H'. lia.
Qed.

(** ** Framing the block list *)

Lemma node_frame m m' P hdr prev next s f :
  only m P m' → (∀ a, span hdr sizeof_memory_block a → ¬ P a) →
  node m hdr prev next s f → node m' hdr prev next s f.
Proof.
  intros Ho HP. unfold span in HP. heap_fields. heap_consts.
  rewrite !(only_rd32 m m' P) by (first [done | intros; apply HP; lia]). done.
Qed.

Lemma blocks_at_frame m m' P prev hdr l t :
  only m P m' → (∀ a, header_cells hdr l a → ¬ P a) →
  blocks_at m prev hdr l t → blocks_at m' prev hdr l t.
Proof.
  intros Ho. revert prev hdr. induction l as [|[s f] l IH]; intros prev hdr HP; simpl; [done|].
  intros [Hn Hl]. split.
  - eapply node_frame; [done| |done]. intros a Ha. apply HP. by left.
  - apply IH; [|done]. intros a Ha. apply HP. by right.
Qed.

(** Re-pointing the [prev] field of the first block. *)
Lemma blocks_at_set_prev m p p' hdr l t :
  Forall block_ok l → is_u32 p' → l ≠ [] →
  blocks_at m p hdr l t → blocks_at (set_blk_prev m hdr p') p' hdr l t.
Proof.
  intros Hl Hp Hne. destruct l as [|[s f] l]; [done|]. inversion_clear Hl as [|? ? [Hs _] Hl'].
  simpl in Hs |- *. intros [Hn Hrest]. split.
  - heap_fields. mem_simpl. rewrite (u32_small p') by done. intuition.
  - eapply blocks_at_frame; [apply only_wr32| |done].
    intros a Ha%header_cells_range; [|done]. heap_consts. unfold span. lia.
Qed.

(** ** Allocation *)

(** What [kmalloc] does to the block it has found. *)
Definition take_block (m : ram) (block size : Z) : Z * ram :=
  let '(block, m) :=
    if size +w sizeof_memory_block <? blk_size m block
    then split_block m block size else (block, m) in
  (block, set_blk_type m block MEMORY_ALLOCATED).

Definition cells_of (hdr : Z) (l l' : list blk) : Z → Prop :=
  λ a, header_cells hdr l a ∨ header_cells hdr l' a.

Lemma only_words m a1 v m1 P :
  only m P m1 → (∀ a, span a1 4 a → P a) → only m P (wr32 m1 a1 v).
Proof.
  intros H HP. eapply only_trans; [done|]. eapply only_mono; [apply only_wr32|done].
Qed.

(** The whole block is handed out. *)
Lemma take_whole_ok m prev hdr s l sz :
  Forall block_ok l → 0 <= s → 0 <= hdr → 0 <= sz <= s →
  blocks_end (hdr + sizeof_memory_block + s) l < 2147483648 →
  s <= sz + sizeof_memory_block →
  blocks_at m prev hdr ((s, true) :: l) 0 →
  ∃ m', take_block m hdr sz = (hdr, m') ∧ blocks_at m' prev hdr ((s, false) :: l) 0 ∧
        only m (header_cells hdr [(s, true)]) m'.
Proof.
  intros Hl Hs Hhdr Hsz Hend Hle [Hn Hrest].
  pose proof (blocks_end_ge (hdr + sizeof_memory_block + s) l Hl).
  unfold take_block.
  assert (blk_size m hdr = s) as -> by apply Hn.
  assert ((sz +w sizeof_memory_block <? s) = false) as ->.
  { heap_consts. rewrite u32_small by word_lia. lia. }
  set (P := header_cells hdr [(s, true)]).
  assert (only m P (set_blk_type m hdr MEMORY_ALLOCATED)) as Ho.
  { apply only_words; [apply only_refl|]. unfold P. simpl. heap_consts. unfold span. lia. }
  eexists. split; [done|]. split; [|done]. simpl. split.
  - heap_fields. mem_simpl. destruct Hn as (?&?&?&?&?). split_and!; done.
  - eapply blocks_at_frame; [exact Ho| |done].
    intros a Ha%header_cells_range; [|done]. unfold P. simpl. unfold span. heap_consts. lia.
Qed.

(** The block is cut: its tail becomes a new free block. *)
(** The last step of [split_block]: the block after the new one points back to it. *)
Lemma relink_next_ok m prev hdr sz s l :
  let new := hdr + sizeof_memory_block + sz in
  let nxt := hdr + sizeof_memory_block + s in
  let m' := if blk_next m new =? 0 then m else set_blk_prev m (blk_next m new) new in
  Forall block_ok l → 0 < hdr → 0 <= sz → sz + sizeof_memory_block < s → is_u32 new →
  node m hdr prev new sz true →
  node m new hdr (ptr_to nxt l 0) (s - sz - sizeof_memory_block) true →
  blocks_at m hdr nxt l 0 →
  only m (λ a, l ≠ [] ∧ span nxt sizeof_memory_block a) m' ∧ node m' hdr prev new sz true ∧
  node m' new hdr (ptr_to nxt l 0) (s - sz - sizeof_memory_block) true ∧
  blocks_at m' new nxt l 0.
Proof.
  intros new nxt m' Hl Hhdr Hsz Hlt Hnew Hn Hnn Hrest.
  assert (blk_next m new = ptr_to nxt l 0) as Enext by apply Hnn.
  subst m'. rewrite Enext. destruct l as [|b l0].
  - simpl. split_and!; try done. apply only_refl.
  - simpl ptr_to in *. assert ((nxt =? 0) = false) as ->.
    { apply Z.eqb_neq. unfold nxt. heap_consts. lia. }
    assert (only m (span (nxt + 16) 4) (set_blk_prev m nxt new)) as Hset by apply only_wr32.
    split_and!.
    + eapply only_mono; [exact Hset|]. intros a Ha. split; [done|]. unfold span in *. heap_consts. lia.
    + eapply node_frame; [exact Hset| |done]. unfold span, nxt. heap_consts. lia.
    + eapply node_frame; [exact Hset| |done]. unfold span, nxt, new. heap_consts. lia.
    + eapply blocks_at_set_prev; [done| |done|done]. exact Hnew.
Qed.

(** Marking the first of the two parts allocated. *)
Lemma mark_split_ok m prev hdr sz s l :
  let new := hdr + sizeof_memory_block + sz in
  let nxt := hdr + sizeof_memory_block + s in
  Forall block_ok l → 0 <= sz → sz + sizeof_memory_block < s →
  node m hdr prev new sz true →
  node m new hdr (ptr_to nxt l 0) (s - sz - sizeof_memory_block) true →
  blocks_at m new nxt l 0 →
  blocks_at (set_blk_type m hdr MEMORY_ALLOCATED) prev hdr
    ((sz, false) :: (s - sz - sizeof_memory_block, true) :: l) 0.
Proof.
  intros new nxt Hl Hsz Hlt Hn Hnn Hrest.
  assert (only m (span (hdr + 8) 4) (set_blk_type m hdr MEMORY_ALLOCATED)) as Hty by apply only_wr32.
  simpl. split_and!.
  - unfold node in Hn. heap_fields. mem_simpl. intuition.
  - eapply node_frame; [exact Hty| |].
    + unfold span, new. heap_consts. lia.
    + replace (ptr_to _ l 0) with (ptr_to nxt l 0); [exact Hnn|].
      destruct l; [done|]. simpl. unfold nxt. lia.
  - replace (hdr + _ + sz + _ + _) with nxt by (unfold nxt; lia).
    eapply blocks_at_frame; [exact Hty| |exact Hrest].
    intros a Ha%header_cells_range; [|done]. unfold span, nxt in *. heap_consts. lia.
Qed.

Lemma take_split_ok m prev hdr s l sz :
  Forall block_ok l → 0 < hdr → 0 <= sz →
  blocks_end (hdr + sizeof_memory_block + s) l < 2147483648 →
  sz + sizeof_memory_block < s →
  blocks_at m prev hdr ((s, true) :: l) 0 →
  let l' := (sz, false) :: (s - sz - sizeof_memory_block, true) :: l in
  ∃ m', take_block m hdr sz = (hdr, m') ∧ blocks_at m' prev hdr l' 0 ∧
        only m (cells_of hdr ((s, true) :: l) l') m'.
Proof.
  intros Hl Hhdr Hsz Hend Hlt [Hn Hrest] l'.
  set (new := hdr + sizeof_memory_block + sz).
  set (nxt := hdr + sizeof_memory_block + s) in *.
  pose proof (blocks_end_ge nxt l Hl) as Hge.
  destruct Hn as (Hstart & Hsize & Htype & Hnext & Hprev).
  unfold take_block. rewrite Hsize.
  assert ((sz +w sizeof_memory_block <? s) = true) as ->.
  { unfold nxt in *. heap_consts. rewrite u32_small by word_lia. lia. }
  unfold split_block. rewrite Hsize.
  assert ((s <=? sz +w sizeof_memory_block) = false) as ->.
  { unfold nxt in *. heap_consts. rewrite u32_small by word_lia. lia. }
  rewrite Hstart.
  assert (u32 (hdr + sizeof_memory_block + sz) = new) as ->.
  { unfold new, nxt in *. heap_consts. apply u32_small. word_lia. }
  cbv zeta.
  match goal with |- context [if ?b then ?x else ?y] => set (m7 := x) end.
  match goal with |- context [if ?b then m7 else ?y] => set (m8 := if b then m7 else y) end.
  assert (is_u32 new) as Hnew by (unfold new, nxt in *; heap_consts; word_lia).
  set (Q := λ a, span hdr sizeof_memory_block a ∨ span new sizeof_memory_block a).
  assert (only m Q m7) as Ho7.
  { unfold m7, Q. heap_fields. heap_consts. unfold span.
    repeat apply only_words; try apply only_refl; unfold span; lia. }
  assert (node m7 hdr prev new sz true ∧
          node m7 new hdr (ptr_to nxt l 0) (s - sz - sizeof_memory_block) true) as [Hn7 Hnew7].
  { unfold m7, new, nxt in *. heap_fields. heap_consts.
    assert (is_u32 (ptr_to (hdr + 20 + s) l 0)) as Hpt
      by (rewrite <- Hnext; auto with word).
    mem_simpl. rewrite Hsize, Hnext, Hstart, Htype, Hprev.
    rewrite !(u32_small (ptr_to _ _ _)) by done.
    repeat split; rewrite ?u32_small; word_lia. }
  assert (blocks_at m7 hdr nxt l 0) as Hrest7.
  { eapply blocks_at_frame; [exact Ho7| |done]. intros a Ha%header_cells_range; [|done].
    unfold Q, span, new, nxt in *. heap_consts. lia. }
  assert (Forall block_ok l → is_u32 new → only m7 (λ a, l ≠ [] ∧ span nxt sizeof_memory_block a) m8 ∧
    node m8 hdr prev new sz true ∧ node m8 new hdr (ptr_to nxt l 0) (s - sz - sizeof_memory_block) true ∧
    blocks_at m8 new nxt l 0) as H8.
  { intros. apply relink_next_ok; assumption. }
  destruct (H8 Hl Hnew) as (Ho8 & Hn8 & Hnew8 & Hrest8). clear H8. clearbody m8.
  exists (set_blk_type m8 hdr MEMORY_ALLOCATED). split; [done|].
  split; [by apply mark_split_ok|].
  assert (only m8 (span (hdr + 8) 4) (set_blk_type m8 hdr MEMORY_ALLOCATED)) as Hty by apply only_wr32.
  eapply only_trans; [eapply only_mono; [exact Ho7|]|eapply only_trans; [eapply only_mono; [exact Ho8|]|
    eapply only_mono; [exact Hty|]]]; intros a Ha; unfold cells_of; simpl.
  - destruct Ha; [by left; left|by right; right; left].
  - destruct Ha as [? ?]. left; right. destruct l as [|[]]; [done|]. by left.
  - left; left. unfold span in *. heap_consts. lia.
Qed.

Lemma take_block_ok m prev hdr s l sz l' :
  Forall block_ok l → 0 < hdr → 0 <= sz <= s →
  blocks_end (hdr + sizeof_memory_block + s) l < 2147483648 →
  blocks_at m prev hdr ((s, true) :: l) 0 →
  l' = (if sz + sizeof_memory_block <? s
        then (sz, false) :: (s - sz - sizeof_memory_block, true) :: l
        else (s, false) :: l) →
  ∃ m', take_block m hdr sz = (hdr, m') ∧ blocks_at m' prev hdr l' 0 ∧
        only m (cells_of hdr ((s, true) :: l) l') m'.
Proof.
  intros Hl Hhdr Hsz Hend Hat ->. ztest.
  - apply take_split_ok; auto with lia.
  - destruct (take_whole_ok m prev hdr s l sz) as (m' & ? & ? & Ho); auto with lia.
    exists m'. split_and!; try done. eapply only_mono; [exact Ho|].
    simpl. intros a [?|[]]. left. by left.
Qed.

(** A node that is not taken: how the search sees it. *)
Lemma find_step_node m hdr prev next s f sz :
  node m hdr prev next s f → 0 < hdr →
  find_step m sz hdr = if f && (sz <=? s) then inr hdr else inl next.
Proof.
  intros (_ & Hs & Ht & Hn & _) ?. unfold find_step. rewrite Hs, Ht, Hn.
  zdecide. by destruct f.
Qed.

Lemma alloc_first_fit_ptr hdr sz l p l' t :
  alloc_first_fit hdr sz l = Some (p, l') → ∀ h, ptr_to h l' t = ptr_to h l t.
Proof.
  destruct l as [|[s f] l]; simpl; [done|]. intros Ha h.
  destruct (f && (sz <=? s)).
  - injection Ha as <- <-. by destruct (_ <? _).
  - destruct (alloc_first_fit _ _ l) as [[q l'']|]; [|done]. by injection Ha as <- <-.
Qed.

Lemma alloc_first_fit_wf hdr sz l p l' :
  Forall block_ok l → 0 <= sz → sz mod 4 = 0 →
  alloc_first_fit hdr sz l = Some (p, l') →
  Forall block_ok l' ∧ blocks_end hdr l' = blocks_end hdr l.
Proof.
  intros Hl Hsz Hmod. revert hdr l'.
  induction Hl as [|[s f] l [Hs Hm] Hl IH]; intros hdr l'; [done|]; simpl in *.
  destruct (f && (sz <=? s)) eqn:E.
  - intros [= <- <-]. zreflect. destruct (Z.ltb_spec (sz + sizeof_memory_block) s);
      (split; [|simpl; try f_equal; lia]); repeat constructor; simpl; try done;
      heap_consts; Z.div_mod_to_equations; lia.
  - destruct (alloc_first_fit _ sz l) as [[q l'']|] eqn:Ea; simpl; [|done].
    intros [= <- <-]. destruct (IH _ _ Ea) as [? He]. split; [by constructor|exact He].
Qed.

(** The search and the cut of [kmalloc] are [alloc_first_fit] on the block list. *)
Lemma alloc_blocks_ok m prev hdr l sz :
  Forall block_ok l → 0 < hdr → 0 <= sz → sz mod 4 = 0 →
  blocks_end hdr l < 2147483648 → blocks_at m prev hdr l 0 →
  ∀ f, (length l < f)%nat →
  match alloc_first_fit hdr sz l with
  | None => loop f (find_step m sz) (ptr_to hdr l 0) = Some 0
  | Some (p, l') => ∃ b m',
      loop f (find_step m sz) (ptr_to hdr l 0) = Some b ∧
      hdr <= b ∧ take_block m b sz = (b, m') ∧ blk_start_addr m' b = p ∧
      blocks_at m' prev hdr l' 0 ∧ only m (cells_of hdr l l') m'
  end.
Proof.
  intros Hl. revert m prev hdr. induction Hl as [|[s fr] l [Hs _] Hl IH];
    intros m prev hdr Hhdr Hsz Hmod Hend Hat f Hf; (destruct f as [|f]; [simpl in Hf; lia|]).
  { done. }
  simpl in Hs. cbn [blocks_end] in Hend. cbn [ptr_to alloc_first_fit loop].
  destruct Hat as [Hn Hrest].
  rewrite (find_step_node _ _ _ _ _ _ _ Hn) by done.
  destruct (fr && (sz <=? s)) eqn:Efit.
  - apply andb_true_iff in Efit as [-> Efit%Z.leb_le].
    destruct (take_block_ok m prev hdr s l sz _ Hl Hhdr ltac:(lia) Hend
      ltac:(by split) eq_refl) as (m' & Htk & Hat' & Ho).
    exists hdr, m'. split_and!; try done.
    destruct (_ <? _); apply Hat'.
  - specialize (IH m hdr (hdr + sizeof_memory_block + s) ltac:(heap_consts; lia) Hsz Hmod
      Hend Hrest f ltac:(simpl in Hf; lia)).
    destruct (alloc_first_fit _ sz l) as [[p l']|] eqn:Ea; simpl; [|done].
    destruct IH as (b & m' & Hloop & Hb & Htk & Hst & Hat' & Ho).
    exists b, m'. split_and!; try done; [heap_consts; lia| |].
    + rewrite (alloc_first_fit_ptr _ _ _ _ _ 0 Ea). eapply node_frame; [exact Ho| |exact Hn].
      destruct (alloc_first_fit_wf _ _ _ _ _ Hl Hsz Hmod Ea) as [Hl' _].
      intros a Ha [Hc|Hc]; apply header_cells_range in Hc; try done;
        unfold span in Ha; heap_consts; lia.
    + eapply only_mono; [exact Ho|]. intros a [?|?]; [left|right]; by right.
Qed.
