(* ===== verification/HeapCorrect.v ===== *)
(** * Correctness of the kernel heap

    The operations of Heap.v refine the abstract heap (a list of blocks): under
    [heap_inv] the walks over the block list terminate, [kmalloc] is first fit,
    [kfree] marks the block free and merges free neighbours, and everything
    outside the headers, in particular every payload, is left as it was. *)

From S2P Require Import Prelude Ram CString Vga Memory Heap.
Set Default Goal Selector "!".

(** ** Statistics *)

Lemma stats_step_node m hdr prev next s f u fr :
  node m hdr prev next s f → 0 < hdr →
  stats_step m (hdr, (u, fr)) =
    inl (next, if f then (u, fr +w s) else (u +w s, fr)).
Proof.
  intros (_ & Hs & Ht & Hn & _) ?. unfold stats_step. rewrite Hs, Ht, Hn. zdecide.
  by destruct f.
Qed.

Lemma stats_loop_ok m prev hdr l u fr f :
  Forall block_ok l → 0 < hdr → blocks_at m prev hdr l 0 → (length l < f)%nat →
  0 <= u → 0 <= fr →
  u + used_bytes l < 4294967296 → fr + free_bytes l < 4294967296 →
  loop f (stats_step m) (ptr_to hdr l 0, (u, fr))
    = Some (u + used_bytes l, fr + free_bytes l).
Proof.
  intros Hl. revert prev hdr u fr f.
  induction Hl as [|[s fl] l [Hs _] Hl IH]; intros prev hdr u fr f Hhdr Hat Hf Hu Hfr Hu' Hfr';
    (destruct f as [|f]; [simpl in Hf; lia|]).
  { simpl. do 2 f_equal; lia. }
  destruct Hat as [Hn Hat]. cbn [ptr_to loop]. simpl in Hs.
  rewrite (stats_step_node _ _ _ _ _ _ _ _ Hn) by done.
  pose proof (used_bytes_nonneg l Hl). pose proof (free_bytes_nonneg l Hl).
  simpl used_bytes in *. simpl free_bytes in *. simpl length in Hf.
  destruct fl; rewrite u32_small by word_lia;
    (rewrite (IH hdr); [do 2 f_equal; lia|try done; heap_consts; lia..]).
Qed.

(** ** Merging *)

(** The flag of the first block survives merging. *)
Lemma coalesce_from_head b l : ∃ s l', coalesce_from b l = (s, b.2) :: l'.
Proof.
  revert b. induction l as [|c l IH]; intros [s f]; simpl; [eauto|].
  destruct f; simpl; [|eauto]. destruct c as [s' []]; simpl; [|eauto].
  destruct (IH (s + sizeof_memory_block + s', true)) as (?&?&->). eauto.
Qed.

Lemma coalesce_from_ptr hdr b l t : ptr_to hdr (coalesce_from b l) t = hdr.
Proof. destruct (coalesce_from_head b l) as (?&?&->). done. Qed.

Lemma coalesce_from_coalesced b l : coalesced (coalesce_from b l).
Proof.
  revert b. induction l as [|c l IH]; intros [s f]; simpl; [done|].
  destruct (f && c.2) eqn:E; [apply IH|].
  specialize (IH c). destruct (coalesce_from_head c l) as (s' & l' & Hc).
  rewrite Hc in *. simpl. by split.
Qed.

Lemma coalesce_from_wf b l hdr :
  block_ok b → Forall block_ok l →
  Forall block_ok (coalesce_from b l) ∧
  blocks_end hdr (coalesce_from b l) = blocks_end hdr (b :: l).
Proof.
  intros Hb Hl. revert b hdr Hb.
  induction Hl as [|[s' f'] l [Hs' Hm'] Hl IH]; intros [s f] hdr [Hs Hm]; simpl in *.
  { split; [|done]. by repeat constructor. }
  destruct (f && f').
  - destruct (IH (s + sizeof_memory_block + s', true) hdr) as [? ->].
    { split; simpl; heap_consts; [lia|Z.div_mod_to_equations; lia]. }
    split; [done|]. simpl. f_equal. lia.
  - destruct (IH (s', f') (hdr + sizeof_memory_block + s)) as [? He]; [by split|].
    split; [|exact He]. by repeat constructor.
Qed.

Lemma coalesce_from_id b l : coalesced (b :: l) → coalesce_from b l = b :: l.
Proof.
  revert b. induction l as [|c l IH]; intros [s f] H; [done|].
  destruct c as [s' f']. cbn [coalesce_from]. destruct H as [E H]. simpl snd.
  rewrite E. f_equal. by apply IH.
Qed.

Lemma coalesce_id l : coalesced l → coalesce l = l.
Proof. destruct l; [done|]. apply coalesce_from_id. Qed.

Definition merge_post (m : ram) (prev hdr : Z) (b : blk) (l : list blk) (m' : ram) : Prop :=
  blocks_at m' prev hdr (coalesce_from b l) 0 ∧ only m (header_cells hdr (b :: l)) m'.

(** One merge: the block in hand swallows its free right neighbour. *)
Lemma merge_step_join m prev hdr s s' l :
  Forall block_ok l → 0 < hdr → 0 <= s → 0 <= s' →
  blocks_end hdr ((s, true) :: (s', true) :: l) < 2147483648 →
  blocks_at m prev hdr ((s, true) :: (s', true) :: l) 0 →
  ∃ m', merge_step (m, hdr) = inl (m', hdr) ∧
        blocks_at m' prev hdr ((s + sizeof_memory_block + s', true) :: l) 0 ∧
        only m (header_cells hdr ((s, true) :: (s', true) :: l)) m'.
Proof.
  intros Hl Hhdr Hs Hs' Hend (Hn1 & Hn2 & Hrest). cbn [blocks_end] in Hend.
  set (nx := hdr + sizeof_memory_block + s) in *.
  set (nn := nx + sizeof_memory_block + s') in *.
  pose proof (blocks_end_ge nn l Hl) as Hge.
  assert (is_u32 (ptr_to nn l 0)) as Hpt.
  { destruct Hn2 as (_ & _ & _ & <- & _). apply rd32_range. }
  destruct Hn1 as (Ha1 & Hz1 & Ht1 & Hx1 & Hp1). destruct Hn2 as (Ha2 & Hz2 & Ht2 & Hx2 & Hp2).
  cbn [ptr_to] in Hx1. fold nx in Hx1.
  unfold merge_step. rewrite !Hx1, Ht1, Ht2, Ha1, Ha2, Hz1, Hz2.
  assert (u32 (u32 (hdr + sizeof_memory_block + s) + sizeof_memory_block) =
          nx + sizeof_memory_block) as ->.
  { unfold nn, nx in *. heap_consts. rewrite !u32_small; [done|..]; word_lia. }
  assert (nx ≠ 0) by (unfold nx; heap_consts; lia).
  cbn [type_of_free memory_type_code].
  rewrite Z.eqb_refl. zdecide.
  set (s'' := s + sizeof_memory_block + s').
  assert (u32 (s + u32 (s' + sizeof_memory_block)) = s'') as ->.
  { unfold s'', nn, nx in *. heap_consts. rewrite !u32_small; [lia|..]; word_lia. }
  set (m1 := set_blk_size m hdr s'').
  assert (blk_next m1 hdr = nx) as ->.
  { unfold m1. heap_fields. mem_simpl. done. }
  assert (blk_next m1 nx = ptr_to nn l 0) as ->.
  { unfold m1. rewrite <- Hx2. unfold nx, nn in *. heap_fields. heap_consts.
    mem_simpl. done. }
  set (m2 := set_blk_next m1 hdr (ptr_to nn l 0)).
  assert (only m (span hdr sizeof_memory_block) m2) as Ho2.
  { unfold m2, m1. heap_fields. heap_consts. unfold span.
    repeat apply only_words; try apply only_refl; unfold span; lia. }
  assert (node m2 hdr prev (ptr_to nn l 0) s'' true) as Hn2'.
  { unfold m2, m1. heap_fields. heap_consts. unfold s'', nn, nx in *. mem_simpl.
    rewrite !(u32_small (ptr_to _ _ _)) by done.
    repeat split; rewrite ?u32_small; try done; word_lia. }
  assert (blocks_at m2 nx nn l 0) as Hrest2.
  { eapply blocks_at_frame; [exact Ho2| |done]. intros a Ha%header_cells_range; [|done].
    unfold span, nn, nx in *. heap_consts. lia. }
  assert (blk_next m2 hdr = ptr_to nn l 0) as -> by apply Hn2'.
  replace (hdr + sizeof_memory_block + s'') with nn by (unfold nn, nx, s''; lia).
  eexists. split; [reflexivity|]. clearbody m2. cbn [blocks_at].
  replace (hdr + sizeof_memory_block + s'') with nn by (unfold nn, nx, s''; lia).
  destruct l as [|b l0].
  - split; [done|]. eapply only_mono; [exact Ho2|]. by left.
  - cbn [ptr_to] in *. assert ((nn =? 0) = false) as ->.
    { apply Z.eqb_neq. unfold nn, nx. heap_consts. lia. }
    assert (only m2 (span (nn + 16) 4) (set_blk_prev m2 nn hdr)) as Hset by apply only_wr32.
    split; [split|].
    + eapply node_frame; [exact Hset| |done]. unfold span, nn, nx. heap_consts. lia.
    + eapply blocks_at_set_prev; [done| |done|done].
      unfold nn, nx in *. heap_consts. word_lia.
    + eapply only_trans; eapply only_mono; [exact Ho2|by left|exact Hset|].
      intros a Ha. right; right. destruct b. left. unfold span in *. fold nx nn. heap_consts. lia.
Qed.

Lemma merge_step_next m hdr prev s fl hdr' next' s' f' :
  node m hdr prev hdr' s fl → node m hdr' hdr next' s' f' → 0 < hdr → 0 < hdr' →
  fl && f' = false →
  merge_step (m, hdr) = inl (m, hdr').
Proof.
  intros (_ & _ & Ht & Hx & _) (_ & _ & Ht' & _) ?? E.
  unfold merge_step. rewrite !Hx, Ht, Ht'. zdecide. by destruct fl, f'.
Qed.

(** The loop of [merge_adjacent_blocks] computes [coalesce_from]. *)
Lemma merge_loop_ok m prev hdr b l f :
  Forall block_ok (b :: l) → 0 < hdr → blocks_end hdr (b :: l) < 2147483648 →
  blocks_at m prev hdr (b :: l) 0 → (length l < f)%nat →
  ∃ m', loop f merge_step (m, hdr) = Some m' ∧ merge_post m prev hdr b l m'.
Proof.
  revert m prev hdr b f. induction l as [|c l IH]; intros m prev hdr [s fl] f Hok Hhdr Hend Hat Hf;
    (destruct f as [|f]; [simpl in Hf; lia|]); cbn [loop];
    apply Forall_cons in Hok as [[Hs Hm] Hok]; simpl in Hs, Hm.
  { pose proof Hat as [(_ & _ & _ & Hx & _) _]. unfold merge_step. rewrite Hx.
    rewrite orb_true_r. exists m. split; [done|]. split; [|apply only_refl].
    exact Hat. }
  destruct c as [s' f']. apply Forall_cons in Hok as [[Hs' Hm'] Hok]. simpl in Hs', Hm'.
  destruct (fl && f') eqn:E.
  - apply andb_true_iff in E as [-> ->].
    destruct (merge_step_join m prev hdr s s' l) as (m1 & -> & Hat1 & Ho1); try done.
    destruct (IH m1 prev hdr (s + sizeof_memory_block + s', true) f) as (m2 & -> & Hat2 & Ho2);
      [|done| |done|simpl in Hf; lia|].
    + constructor; [|done]. split; simpl; heap_consts; [lia|Z.div_mod_to_equations; lia].
    + cbn [blocks_end] in *. eapply Z.le_lt_trans; [|exact Hend]. apply Z.eq_le_incl. f_equal. lia.
    + exists m2. split; [done|]. split; [exact Hat2|].
      eapply only_trans; [exact Ho1|]. eapply only_mono; [exact Ho2|].
      intros a. cbn [header_cells].
      replace (hdr + sizeof_memory_block + (s + sizeof_memory_block + s'))
        with (hdr + sizeof_memory_block + s + sizeof_memory_block + s') by lia. tauto.
  - pose proof Hat as [Hn Hat']. pose proof Hat' as [Hn' _].
    rewrite (merge_step_next _ _ _ _ _ _ _ _ _ Hn Hn') by (try done; cbn [ptr_to]; heap_consts; lia). cbn [ptr_to].
    destruct (IH m hdr (hdr + sizeof_memory_block + s) (s', f') f) as (m2 & -> & Hat2 & Ho2);
      [by repeat constructor|heap_consts; lia|exact Hend|exact Hat'|simpl in Hf; lia|].
    exists m2. split; [done|]. unfold merge_post. cbn [coalesce_from]. simpl snd. rewrite E.
    split; [|eapply only_mono; [exact Ho2|by right]]. split; [|exact Hat2].
    rewrite coalesce_from_ptr. eapply node_frame; [exact Ho2| |exact Hn].
    intros a Ha Hc%header_cells_range; [|by repeat constructor].
    unfold span in Ha. heap_consts. lia.
Qed.


(** ** Marking a block free *)

Lemma mark_free_ok m prev hdr p l l' :
  Forall block_ok l → 0 < hdr → blocks_end hdr l < 2147483648 →
  blocks_at m prev hdr l 0 → mark_free hdr p l = Some l' →
  hdr + sizeof_memory_block <= p <= blocks_end hdr l ∧
  blk_type m (p - sizeof_memory_block) = memory_type_code MEMORY_ALLOCATED ∧
  blocks_at (set_blk_type m (p - sizeof_memory_block) MEMORY_FREE) prev hdr l' 0 ∧
  (∀ a, span (p - sizeof_memory_block) sizeof_memory_block a → header_cells hdr l a).
Proof.
  intros Hl. revert prev hdr l'.
  induction Hl as [|[s f] l [Hs _] Hl IH]; intros prev hdr l' Hhdr Hend Hat; [done|].
  cbn [mark_free]. pose proof Hat as [Hn Hat']. simpl in Hs.
  pose proof (blocks_end_ge _ _ Hl : _ <= blocks_end (hdr + sizeof_memory_block + s) l) as Hge.
  cbn [blocks_end] in *.
  destruct (Z.eqb_spec (hdr + sizeof_memory_block) p) as [<-|Hne].
  - destruct f; [done|]. intros [= <-].
    replace (hdr + sizeof_memory_block - sizeof_memory_block) with hdr by lia.
    split_and!; [heap_consts; lia..|apply Hn| |by left].
    cbn [blocks_at]. assert (only m (span (hdr + 8) 4) (set_blk_type m hdr MEMORY_FREE)) as Ho
      by apply only_wr32.
    split.
    + destruct Hn as (?&?&?&?&?). heap_fields. mem_simpl. done.
    + eapply blocks_at_frame; [exact Ho| |done]. intros a Ha%header_cells_range; [|done].
      unfold span. heap_consts. lia.
  - destruct (mark_free _ p l) as [l''|] eqn:Em; simpl; [|done]. intros [= <-].
    destruct (IH hdr (hdr + sizeof_memory_block + s) l'') as (Hp & Ht & Hat'' & Hc);
      [heap_consts; lia|done|done|done|].
    split_and!; [heap_consts; lia..|done| |intros a Ha; right; by apply Hc].
    cbn [blocks_at]. split; [|done].
    replace (ptr_to _ l'' 0) with (ptr_to (hdr + sizeof_memory_block + s) l 0).
    + eapply node_frame; [apply only_wr32| |exact Hn]. unfold span. heap_consts. lia.
    + destruct l as [|[] l]; [done|]. simpl in Em.
      repeat case_match; simplify_option_eq; done.
Qed.

Lemma mark_free_wf hdr p l l' :
  Forall block_ok l → mark_free hdr p l = Some l' →
  Forall block_ok l' ∧ blocks_end hdr l' = blocks_end hdr l ∧ length l' = length l ∧
  (∀ a, header_cells hdr l' a ↔ header_cells hdr l a).
Proof.
  intros Hl. revert hdr l'. induction Hl as [|[s f] l [Hs Hm] Hl IH]; intros hdr l'; [done|].
  cbn [mark_free]. destruct (_ =? p).
  - destruct f; [done|]. intros [= <-]. split_and!; try done. by repeat constructor.
  - destruct (mark_free _ p l) as [l''|] eqn:Em; simpl; [|done]. intros [= <-].
    destruct (IH _ _ Em) as (? & He & Hlen & Hc). split_and!; simpl; [by constructor|done|by f_equal|].
    intros a. by rewrite Hc.
Qed.

(** ** The operations *)

Section heap.
Context (mm : mm_state) (m : ram) (l : list blk) (Hinv : heap_inv mm m l).

Lemma heap_length_bound : (length l < heap_fuel)%nat.
Proof.
  pose proof (blocks_end_ge KERNEL_HEAP_START l (hi_ok _ _ _ Hinv)).
  pose proof (hi_end _ _ _ Hinv).
  pose proof heap_fuel_val. heap_consts. lia.
Qed.

Lemma heap_map_ptr : memory_map mm = ptr_to KERNEL_HEAP_START l 0.
Proof. pose proof (hi_nonempty _ _ _ Hinv). rewrite (hi_map _ _ _ Hinv). by destruct l. Qed.

Lemma heap_total :
  used_bytes l + free_bytes l + sizeof_memory_block * Z.of_nat (length l) = KERNEL_HEAP_SIZE.
Proof.
  pose proof (blocks_end_eq KERNEL_HEAP_START l) as H.
  rewrite (hi_end _ _ _ Hinv) in H. lia.
Qed.

Lemma update_memory_stats_ok :
  update_memory_stats mm m =
    Some (mm <| mm_stats := mm_stats mm <| used_memory := used_bytes l |>
                                        <| free_memory := free_bytes l |> |>).
Proof.
  pose proof heap_total. pose proof heap_length_bound. destruct Hinv as [_ _ ? _ Hok _].
  pose proof (used_bytes_nonneg l Hok). pose proof (free_bytes_nonneg l Hok).
  unfold update_memory_stats. rewrite heap_map_ptr.
  rewrite (stats_loop_ok m 0); try done; heap_consts; lia.
Qed.

Lemma heap_inv_stats st : heap_inv (mm <| mm_stats := st |>) m l.
Proof. destruct Hinv. by split. Qed.
End heap.

Lemma align_size_spec size :
  0 <= size <= 0xFFFFFFFC → align_size size = (size + 3) / 4 * 4.
Proof.
  intros H. unfold align_size. rewrite u32_small by word_lia.
  change 0xFFFFFFFC with (Z.shiftl (Z.ones 30) 2).
  rewrite land_clear_low; [done|lia|lia|]. lia.
Qed.

Lemma align_size_bounds size :
  0 <= size <= 0xFFFFFFFC →
  size <= align_size size < size + 4 ∧ align_size size mod 4 = 0.
Proof. intros H. rewrite align_size_spec by done. split; [|apply Z.mod_mul; done]. word_lia. Qed.

Lemma alloc_coalesced hdr sz l p l' :
  0 <= sz → coalesced l → alloc_first_fit hdr sz l = Some (p, l') →
  coalesced l' ∧ (∀ s f rest, l' = (s, f) :: rest → f = true →
                   ∃ s0 rest0, l = (s0, true) :: rest0).
Proof.
  intros Hsz. revert hdr l'. induction l as [|[s f] l IH]; intros hdr l' Hc; [done|].
  cbn [alloc_first_fit]. destruct (f && (sz <=? s)) eqn:E.
  - apply andb_true_iff in E as [-> _]. intros [= <- <-]. split; [|by destruct (_ <? _); intros; simplify_eq; eauto].
    destruct l as [|[s' f'] l]; destruct (_ <? _); simpl in *; try done; by destruct Hc.
  - destruct (alloc_first_fit _ sz l) as [[q l'']|] eqn:Ea; simpl; [|done]. intros [= <- <-].
    assert (coalesced l) as Hc' by (destruct l as [|[]]; [done|apply Hc]).
    destruct (IH _ _ Hc' Ea) as [Hc'' Hh]. split; [|intros; simplify_eq; eauto].
    destruct l'' as [|[s1 f1] l'']; [done|]. simpl. split; [|done].
    destruct f; [|done]. destruct f1; [|done].
    destruct (Hh _ _ _ eq_refl eq_refl) as (s0 & rest0 & ->). by destruct Hc.
Qed.

(** The statistics after an operation that leaves the blocks [l]. *)
Definition with_heap_stats (mm : mm_state) (l : list blk) : mm_state :=
  mm <| mm_stats := mm_stats mm <| used_memory := used_bytes l |>
                                <| free_memory := free_bytes l |> |>.

(** What [kmalloc] returns and does, on the abstract heap. *)
Definition kmalloc_spec (l : list blk) (size : Z) : option (Z * list blk) :=
  if size =? 0 then None else alloc_first_fit KERNEL_HEAP_START (align_size size) l.

Lemma kmalloc_aligned_ok mm m l size :
  heap_inv mm m l → size ≠ 0 → 0 <= align_size size → align_size size mod 4 = 0 →
  match alloc_first_fit KERNEL_HEAP_START (align_size size) l with
  | None => kmalloc mm m size = Some (0, (mm, m))
  | Some (p, l') => ∃ m',
      kmalloc mm m size = Some (p, (with_heap_stats mm l', m')) ∧
      heap_inv (with_heap_stats mm l') m' l' ∧
      only m (cells_of KERNEL_HEAP_START l l') m'
  end.
Proof.
  intros Hinv Hsize Hal0 Hmod.
  pose proof (heap_length_bound _ _ _ Hinv) as Hlen.
  pose proof (heap_map_ptr _ _ _ Hinv) as Hmap.
  destruct Hinv as [Hm Hne Hat Hend Hok Hco].
  unfold kmalloc. rewrite (proj2 (Z.eqb_neq size 0)) by done.
  pose proof (alloc_blocks_ok m 0 KERNEL_HEAP_START l (align_size size) Hok ltac:(done)
    Hal0 Hmod ltac:(rewrite Hend; done) Hat heap_fuel Hlen) as H.
  unfold find_free_block. rewrite Hmap.
  destruct (alloc_first_fit _ _ l) as [[p l']|] eqn:Ea; [|by rewrite H].
  destruct H as (b & m' & -> & Hb & Htk & <- & Hat' & Ho). simpl mbind.
  rewrite (proj2 (Z.eqb_neq b 0)) by (heap_consts; lia).
  unfold take_block in Htk. destruct (if _ <? _ then _ else _) as [b' m1].
  injection Htk as -> Htk. rewrite Htk.
  destruct (alloc_first_fit_wf _ _ _ _ _ Hok Hal0 Hmod Ea) as [Hok' Hend'].
  destruct (alloc_coalesced _ _ _ _ _ Hal0 Hco Ea) as [Hco' _].
  assert (heap_inv mm m' l') as Hinv'.
  { split; try done; [|congruence]. intros ->.
    pose proof (alloc_first_fit_ptr _ _ _ _ _ 0 Ea 1). by destruct l. }
  rewrite (update_memory_stats_ok _ _ _ Hinv'). simpl.
  exists m'. split; [done|]. split; [|done]. by apply heap_inv_stats.
Qed.

Lemma kmalloc_ok mm m l size :
  heap_inv mm m l → 0 <= size <= 0xFFFFFFFC →
  match kmalloc_spec l size with
  | None => kmalloc mm m size = Some (0, (mm, m))
  | Some (p, l') => ∃ m',
      kmalloc mm m size = Some (p, (with_heap_stats mm l', m')) ∧
      heap_inv (with_heap_stats mm l') m' l' ∧
      only m (cells_of KERNEL_HEAP_START l l') m'
  end.
Proof.
  intros Hinv Hsize. pose proof (align_size_bounds size Hsize) as [Hal Hmod].
  unfold kmalloc_spec. destruct (Z.eqb_spec size 0) as [->|]; [done|].
  apply kmalloc_aligned_ok; auto with lia.
Qed.

Lemma kfree_ok mm m l p l' :
  heap_inv mm m l → free_block p l = Some l' →
  ∃ m', kfree mm m p = Some (with_heap_stats mm l', m') ∧
        heap_inv (with_heap_stats mm l') m' l' ∧
        only m (header_cells KERNEL_HEAP_START l) m'.
Proof.
  intros Hinv Hfree. pose proof (heap_length_bound _ _ _ Hinv) as Hlen.
  destruct Hinv as [Hm Hne Hat Hend Hok Hco].
  unfold free_block in Hfree. destruct (mark_free _ p l) as [l1|] eqn:Em; [|done].
  simpl in Hfree. injection Hfree as <-.
  destruct (mark_free_ok m 0 KERNEL_HEAP_START p l l1 Hok ltac:(done) ltac:(by rewrite Hend) Hat Em)
    as (Hp & Hty & Hat1 & Hcells).
  destruct (mark_free_wf _ _ _ _ Hok Em) as (Hok1 & Hend1 & Hlen1 & Hc1).
  unfold kfree. rewrite (proj2 (Z.eqb_neq p 0)) by (heap_consts; lia).
  rewrite u32_small by (heap_consts; word_lia). rewrite Hty, Z.eqb_refl.
  set (m1 := set_blk_type m _ _) in *.
  assert (only m (header_cells KERNEL_HEAP_START l) m1) as Ho1.
  { eapply only_mono; [apply only_wr32|]. intros a Ha. apply Hcells.
    unfold span in *. heap_consts. lia. }
  clearbody m1. destruct l1 as [|b l1]; [by destruct l|].
  destruct (merge_loop_ok m1 0 KERNEL_HEAP_START b l1 heap_fuel) as (m2 & Hl2 & Hat2 & Ho2);
    [done|done|by rewrite Hend1, Hend|done|simpl in Hlen1; lia|].
  unfold merge_adjacent_blocks. rewrite Hm, Hl2. simpl mbind.
  apply Forall_cons in Hok1 as [Hb Hok1].
  destruct (coalesce_from_wf b l1 KERNEL_HEAP_START Hb Hok1) as [Hok2 Hend2].
  assert (heap_inv mm m2 (coalesce (b :: l1))) as Hinv2.
  { split; try done; [|exact (eq_trans Hend2 (eq_trans Hend1 Hend))|apply coalesce_from_coalesced].
    simpl. destruct (coalesce_from_head b l1) as (?&?&->). done. }
  rewrite (update_memory_stats_ok _ _ _ Hinv2). simpl.
  exists m2. split; [done|]. split; [by apply heap_inv_stats|].
  eapply only_trans; [exact Ho1|]. eapply only_mono; [exact Ho2|]. intros a. apply Hc1.
Qed.

(** ** Payloads *)

(** [p], [s] is the payload of one of the blocks [l] from [hdr] on. *)
Fixpoint payload_at (hdr : Z) (l : list blk) (p s : Z) (free : bool) : Prop :=
  match l with
  | [] => False
  | (s', f') :: l' =>
      (p = hdr + sizeof_memory_block ∧ s = s' ∧ free = f') ∨
      payload_at (hdr + sizeof_memory_block + s') l' p s free
  end.

Lemma payload_range hdr l p s f :
  Forall block_ok l → payload_at hdr l p s f →
  hdr + sizeof_memory_block <= p ∧ p + s <= blocks_end hdr l ∧ 0 <= s ∧ s mod 4 = 0.
Proof.
  intros Hl. revert hdr. induction Hl as [|[s' f'] l [Hs' Hm'] Hl IH]; intros hdr; simpl; [done|].
  simpl in Hs', Hm'. pose proof (blocks_end_ge (hdr + sizeof_memory_block + s') l Hl).
  intros [(-> & -> & _)|H1]; [heap_consts; lia|]. apply IH in H1. heap_consts. lia.
Qed.

Lemma payload_not_header hdr l p s f a :
  Forall block_ok l → payload_at hdr l p s f → span p s a → ¬ header_cells hdr l a.
Proof.
  intros Hl. revert hdr. induction Hl as [|[s' f'] l [Hs' Hm'] Hl IH]; intros hdr; simpl; [done|].
  simpl in Hs'. intros [(-> & -> & _)|H1] Ha.
  - intros [?|H2]; [|apply header_cells_range in H2; [|done]];
      unfold span in *; heap_consts; lia.
  - pose proof (payload_range _ _ _ _ _ Hl H1). intros [?|H2]; [unfold span in *; heap_consts; lia|].
    by eapply IH.
Qed.

Lemma payload_disjoint hdr l p s f q t g :
  Forall block_ok l → payload_at hdr l p s f → payload_at hdr l q t g →
  (p = q ∧ s = t ∧ f = g) ∨ p + s <= q ∨ q + t <= p.
Proof.
  intros Hl. revert hdr. induction Hl as [|[s' f'] l [Hs' Hm'] Hl IH]; intros hdr; simpl; [done|].
  simpl in Hs'.
  intros [(-> & -> & ->)|H1] [(-> & -> & ->)|H2]; [by left| | |by eapply IH].
  - apply payload_range in H2; [|done]. right. heap_consts. lia.
  - apply payload_range in H1; [|done]. right. heap_consts. lia.
Qed.

(** The block that is handed out: as large as asked for, and not there before. *)
Lemma alloc_payload hdr sz l p l' :
  alloc_first_fit hdr sz l = Some (p, l') →
  ∃ s s0, payload_at hdr l' p s false ∧ sz <= s ∧ payload_at hdr l p s0 true ∧ s <= s0 ∧
          s <= sz + sizeof_memory_block.
Proof.
  revert hdr l'. induction l as [|[s f] l IH]; intros hdr l'; [done|]. cbn [alloc_first_fit].
  destruct (f && (sz <=? s)) eqn:E.
  - apply andb_true_iff in E as [-> E%Z.leb_le]. intros [= <- <-].
    destruct (Z.ltb_spec (sz + sizeof_memory_block) s); [exists sz, s|exists s, s];
      simpl; split_and!; try (by left); heap_consts; lia.
  - destruct (alloc_first_fit _ sz l) as [[q l'']|] eqn:Ea; simpl; [|done]. intros [= <- <-].
    destruct (IH _ _ Ea) as (s1 & s0 & ? & ? & ? & ? & ?). exists s1, s0. split_and!; try done; by right.
Qed.

(** Allocated blocks stay, and their payloads hold no header of the new list. *)
Lemma alloc_keeps hdr sz l p l' q t :
  alloc_first_fit hdr sz l = Some (p, l') →
  payload_at hdr l q t false → payload_at hdr l' q t false.
Proof.
  revert hdr l'. induction l as [|[s f] l IH]; intros hdr l'; [done|]. cbn [alloc_first_fit].
  destruct (f && (sz <=? s)) eqn:E.
  - apply andb_true_iff in E as [-> E%Z.leb_le]. intros [= <- <-] [(_ & _ & ?)|H]; [done|].
    destruct (Z.ltb_spec (sz + sizeof_memory_block) s); simpl; [right|]; right; [|done].
    by replace (hdr + _ + sz + _ + _) with (hdr + sizeof_memory_block + s) by lia.
  - destruct (alloc_first_fit _ sz l) as [[q' l'']|] eqn:Ea; simpl; [|done]. intros [= <- <-].
    intros [?|H]; [by left|right; eauto].
Qed.

(** Allocated blocks other than the freed one survive [mark_free] and merging. *)
Lemma mark_free_exists hdr l p s :
  Forall block_ok l → payload_at hdr l p s false → ∃ l', mark_free hdr p l = Some l'.
Proof.
  intros Hl. revert hdr. induction Hl as [|[s' f'] l [Hs' Hm'] Hl IH]; intros hdr; simpl; [done|].
  simpl in Hs'. destruct (Z.eqb_spec (hdr + sizeof_memory_block) p) as [<-|].
  - intros [(_ & _ & <-)|H]; [eauto|]. apply payload_range in H; [|done]. heap_consts. lia.
  - intros [(-> & _)|H]; [done|]. destruct (IH _ H) as [l' ->]. simpl. eauto.
Qed.

Lemma mark_free_keeps hdr l p l' q t :
  mark_free hdr p l = Some l' → payload_at hdr l q t false → q ≠ p →
  payload_at hdr l' q t false.
Proof.
  revert hdr l'. induction l as [|[s f] l IH]; intros hdr l'; [done|]. cbn [mark_free].
  destruct (Z.eqb_spec (hdr + sizeof_memory_block) p) as [<-|].
  - destruct f; [done|]. intros [= <-] [(-> & _)|H]; [done|by right].
  - destruct (mark_free _ p l) as [l''|] eqn:Em; simpl; [|done]. intros [= <-] [?|H] ?;
      [by left|right; eauto].
Qed.

Lemma coalesce_from_keeps hdr b l q t :
  payload_at hdr (b :: l) q t false → payload_at hdr (coalesce_from b l) q t false.
Proof.
  revert hdr b. induction l as [|[s' f'] l IH]; intros hdr [s f]; [done|].
  cbn [coalesce_from]. simpl snd. destruct (f && f') eqn:E.
  - apply andb_true_iff in E as [-> ->]. intros H. apply IH.
    destruct H as [(_ & _ & ?)|[(_ & _ & ?)|H]]; [done..|]. right.
    simpl fst. by replace (hdr + sizeof_memory_block + (s + sizeof_memory_block + s'))
      with (hdr + sizeof_memory_block + s + sizeof_memory_block + s') by lia.
  - intros [H|H]; [by left|right]. by apply IH.
Qed.

(** Freeing what was just allocated gives the old block list back. *)
Lemma mark_alloc hdr sz l p l' :
  Forall block_ok l → coalesced l → alloc_first_fit hdr sz l = Some (p, l') →
  ∃ b l1, mark_free hdr p l' = Some (b :: l1) ∧ coalesce (b :: l1) = l ∧
          (∀ s f rest, l = (s, f) :: rest → b.2 = f).
Proof.
  intros Hl. revert hdr l'.
  induction Hl as [|[s f] l [Hs _] Hl IH]; intros hdr l' Hc; [done|]. cbn [alloc_first_fit].
  destruct (f && (sz <=? s)) eqn:E.
  - apply andb_true_iff in E as [-> E%Z.leb_le]. intros [= <- <-].
    destruct (Z.ltb_spec (sz + sizeof_memory_block) s); cbn [mark_free]; rewrite Z.eqb_refl.
    + do 2 eexists. split; [done|]. split; [|by intros; simplify_eq].
      cbn [coalesce coalesce_from fst snd andb].
      replace (sz + sizeof_memory_block + _) with s by lia. by apply coalesce_from_id.
    + do 2 eexists. split; [done|]. split; [|by intros; simplify_eq].
      by apply coalesce_id.
  - destruct (alloc_first_fit _ sz l) as [[q l'']|] eqn:Ea; simpl; [|done]. intros [= <- <-].
    assert (coalesced l) as Hc' by (destruct l as [|[]]; [done|apply Hc]).
    destruct (alloc_payload _ _ _ _ _ Ea) as (_ & s0 & _ & _ & Hq%payload_range & _); [|done].
    simpl in Hs. cbn [mark_free].
    destruct (Z.eqb_spec (hdr + sizeof_memory_block) q); [heap_consts; lia|].
    destruct (IH _ _ Hc' Ea) as (b & l1 & Em & Hco & Hhead). rewrite Em. simpl.
    do 2 eexists. split; [done|]. split; [|by intros; simplify_eq].
    cbn [coalesce coalesce_from]. simpl snd.
    destruct l as [|[s' f'] l]; [by destruct l1; simpl in Hco|].
    rewrite (Hhead _ _ _ eq_refl). destruct Hc as [Hff _]. rewrite Hff. f_equal. exact Hco.
Qed.

Lemma free_alloc l sz p l' :
  Forall block_ok l → coalesced l → alloc_first_fit KERNEL_HEAP_START sz l = Some (p, l') →
  free_block p l' = Some l.
Proof.
  intros Hl Hc Ha. destruct (mark_alloc _ _ _ _ _ Hl Hc Ha) as (b & l1 & Hm & Hco & _).
  unfold free_block. rewrite Hm. simpl. by f_equal.
Qed.

(** ** Properties *)

Definition fresh_heap : list blk := [(KERNEL_HEAP_SIZE - sizeof_memory_block, true)].

Lemma heap_init_ok mm k :
  term_ok k →
  heap_inv (heap_init mm k).1 (mem (heap_init mm k).2) fresh_heap ∧
  term_ok (heap_init mm k).2 ∧
  only (mem k) (λ a, framebuffer a ∨ span KERNEL_HEAP_START sizeof_memory_block a)
    (mem (heap_init mm k).2).
Proof.
  intros Hk. unfold heap_init. cbv zeta. simpl fst.
  set (mm1 := _ <| memory_map := _ |>).
  match goal with |- context [set_blk_prev ?m _ _] =>
    match goal with |- context [k <| mem := ?m1 |>] => set (m1' := m1) end end.
  assert (only (mem k) (span KERNEL_HEAP_START sizeof_memory_block) m1') as Hom.
  { unfold m1'. heap_fields. simpl heap_start. heap_consts. unfold span.
    repeat apply only_words; try apply only_refl; unfold span; lia. }
  assert (heap_inv mm1 m1' fresh_heap) as Hm1.
  { split; try done.
    - unfold m1'. simpl. split; [|done]. heap_fields. simpl heap_start.
      heap_consts. mem_simpl. done.
    - repeat constructor. simpl. heap_consts. lia. }
  clearbody m1'. set (k1 := k <| mem := m1' |>).
  destruct (vga_putstr_step k1 (lit "Heap initialized at 0x") Hk) as [Ht2 Ho2].
  destruct (vga_puthex_step _ (heap_start mm1) Ht2) as [Ht3 Ho3].
  destruct (vga_putstr_step _ [10] Ht3) as [Ht4 Ho4].
  set (k4 := vga_putstr _ [10]) in *.
  pose proof (only_trans _ _ _ _ (only_trans _ _ _ _ Ho2 Ho3) Ho4) as Ho.
  change (mem k1) with m1' in Ho. clearbody k4. split_and!; [|done|].
  - destruct Hm1 as [? ? Hat ? Hok ?]. split; try done.
    eapply blocks_at_frame; [exact Ho| |done].
    intros a Ha%header_cells_range; [|done]. unfold framebuffer, span. vga_consts.
    heap_consts. lia.
  - eapply only_trans; eapply only_mono; [exact Hom|by right|exact Ho|by left].
Qed.

Definition demo_heap : mm_state * machine := heap_init mm_boot blank_machine.
Lemma demo_heap_inv : heap_inv demo_heap.1 (mem demo_heap.2) fresh_heap.
Proof. apply heap_init_ok, blank_machine_ok. Qed.
#[global] Opaque demo_heap.

(** The heap after one allocation of 101 bytes. *)
Definition demo_heap_blocks : list blk := [(104, false); (1048432, true)].
Lemma demo_kmalloc :
  ∃ m, kmalloc demo_heap.1 (mem demo_heap.2) 101 =
         Some (0x200014, (with_heap_stats demo_heap.1 demo_heap_blocks, m)) ∧
       heap_inv (with_heap_stats demo_heap.1 demo_heap_blocks) m demo_heap_blocks.
Proof.
  destruct (kmalloc_ok demo_heap.1 (mem demo_heap.2) fresh_heap 101 demo_heap_inv ltac:(done))
    as (m1 & Hk & H & _).
  exists m1. split; [exact Hk|exact H].
Qed.
Lemma demo_size : 0 <= 101 <= 0xFFFFFFFC.
Proof. done. Qed.
Lemma demo_ptr : 0x200014 ≠ 0.
Proof. done. Qed.

Lemma kmalloc_result mm m l size p mm' m' :
  heap_inv mm m l → 0 <= size <= 0xFFFFFFFC →
  kmalloc mm m size = Some (p, (mm', m')) → p ≠ 0 →
  ∃ l', alloc_first_fit KERNEL_HEAP_START (align_size size) l = Some (p, l') ∧
        heap_inv mm' m' l' ∧ only m (cells_of KERNEL_HEAP_START l l') m'.
Proof.
  intros Hinv Hsize Hk Hp. pose proof (kmalloc_ok mm m l size Hinv Hsize) as H.
  unfold kmalloc_spec in H. destruct (size =? 0); [by rewrite H in Hk; simplify_eq|].
  destruct (alloc_first_fit _ _ l) as [[q l']|]; [|by rewrite H in Hk; simplify_eq].
  destruct H as (m1 & Hk' & Hinv' & Ho). rewrite Hk' in Hk. simplify_eq. eauto.
Qed.

Lemma only_payload m m' l l' q t :
  only m (cells_of KERNEL_HEAP_START l l') m' →
  Forall block_ok l → Forall block_ok l' →
  payload_at KERNEL_HEAP_START l q t false → payload_at KERNEL_HEAP_START l' q t false →
  ∀ a, span q t a → rd8 m' a = rd8 m a.
Proof.
  intros Ho Hl Hl' Hq Hq' a Ha. apply (only_rd8 _ _ _ _ Ho).
  intros [Hc|Hc]; revert Hc; by eapply payload_not_header.
Qed.

Lemma kmalloc_fresh_ok mm m l size p mm' m' :
  heap_inv mm m l → 0 <= size <= 0xFFFFFFFC →
  kmalloc mm m size = Some (p, (mm', m')) → p ≠ 0 →
  ∃ l' s, heap_inv mm' m' l' ∧ payload_at KERNEL_HEAP_START l' p s false ∧ size <= s ∧
    KERNEL_HEAP_START + sizeof_memory_block <= p ∧
    p + s <= KERNEL_HEAP_START + KERNEL_HEAP_SIZE ∧
    ∀ q t, payload_at KERNEL_HEAP_START l q t false →
      payload_at KERNEL_HEAP_START l' q t false ∧ (p + s <= q ∨ q + t <= p) ∧
      ∀ a, span q t a → rd8 m' a = rd8 m a.
Proof.
  intros Hinv Hsize Hk Hp.
  destruct (kmalloc_result _ _ _ _ _ _ _ Hinv Hsize Hk Hp) as (l' & Ha & Hinv' & Ho).
  destruct (align_size_bounds size Hsize) as [Hal _].
  destruct (alloc_payload _ _ _ _ _ Ha) as (s & s0 & Hp1 & Hs & Hp0 & Hs0 & _).
  pose proof (hi_ok _ _ _ Hinv) as Hok. pose proof (hi_ok _ _ _ Hinv') as Hok'.
  destruct (payload_range _ _ _ _ _ Hok' Hp1) as (? & Hpe & _).
  rewrite (hi_end _ _ _ Hinv') in Hpe.
  exists l', s. split_and!; try done; [lia|].
  intros q t Hq. pose proof (alloc_keeps _ _ _ _ _ _ _ Ha Hq) as Hq'.
  split_and!; [done| |by eapply only_payload].
  destruct (payload_disjoint _ _ _ _ _ _ _ _ Hok Hp0 Hq) as [(_ & _ & ?)|?]; [done|lia].
Qed.

(** What [kmalloc] does for each of the 2^32 sizes: rounding the last three up wraps to 0. *)
Definition kmalloc_any (l : list blk) (size : Z) : option (Z * list blk) :=
  if size <=? 0xFFFFFFFC then kmalloc_spec l size else alloc_first_fit KERNEL_HEAP_START 0 l.

Lemma align_size_wraps size : 0xFFFFFFFC < size <= 0xFFFFFFFF → align_size size = 0.
Proof.
  intros Hsize. unfold align_size. replace (size +w 3) with (size - 0xFFFFFFFD) by word_lia.
  by assert (size = 0xFFFFFFFD ∨ size = 0xFFFFFFFE ∨ size = 0xFFFFFFFF) as [->|[->| ->]] by lia.
Qed.

(** C6: on a well-formed heap [kmalloc] always returns; for a size of at most 2^32-4 it hands
    out exactly the first-fit block of the abstract heap for the size rounded up to a
    multiple of 4 (NULL, with nothing changed, when no free block is large enough or the size is
    0), and for the last three sizes, whose rounding wraps to 0, the first-fit block for 0
    bytes; it keeps the heap well-formed with the statistics exact, and writes to block
    headers only. *)
Theorem kmalloc_first_fit mm m l size :
  heap_inv mm m l → is_u32 size →
  match kmalloc_any l size with
  | None => kmalloc mm m size = Some (0, (mm, m))
  | Some (p, l') => ∃ m',
      kmalloc mm m size = Some (p, (with_heap_stats mm l', m')) ∧
      heap_inv (with_heap_stats mm l') m' l' ∧
      only m (cells_of KERNEL_HEAP_START l l') m'
  end.
Proof.
  intros Hinv Hsize. unfold is_u32 in Hsize. unfold kmalloc_any. destruct (Z.leb_spec size 0xFFFFFFFC).
  - apply kmalloc_ok; [done|lia].
  - pose proof (align_size_wraps size ltac:(lia)) as Hal.
    pose proof (kmalloc_aligned_ok mm m l size Hinv ltac:(lia) ltac:(by rewrite Hal) ltac:(by rewrite Hal)) as H'.
    by rewrite Hal in H'.
Qed.

Lemma kmalloc_first_fit_witness :
  ∃ m', kmalloc demo_heap.1 (mem demo_heap.2) 101 =
          Some (0x200014, (with_heap_stats demo_heap.1 [(104, false); (1048432, true)], m')).
Proof.
  destruct (kmalloc_first_fit demo_heap.1 (mem demo_heap.2) fresh_heap 101
    demo_heap_inv ltac:(done)) as (m' & H & _).
  exists m'. exact H.
Defined.

(** C39: for a size of at most 2^32-4 (the last three get an empty block, see C6) the block that
    [kmalloc] returns lies inside the heap, is at least as large as requested, overlaps no block that was allocated before, and every
    previously allocated block survives with its contents. *)
Theorem kmalloc_fresh mm m l size p mm' m' :
  heap_inv mm m l → 0 <= size <= 0xFFFFFFFC →
  kmalloc mm m size = Some (p, (mm', m')) → p ≠ 0 →
  ∃ l' s, heap_inv mm' m' l' ∧ payload_at KERNEL_HEAP_START l' p s false ∧ size <= s ∧
    KERNEL_HEAP_START + sizeof_memory_block <= p ∧
    p + s <= KERNEL_HEAP_START + KERNEL_HEAP_SIZE ∧
    ∀ q t, payload_at KERNEL_HEAP_START l q t false →
      payload_at KERNEL_HEAP_START l' q t false ∧ (p + s <= q ∨ q + t <= p) ∧
      ∀ a, span q t a → rd8 m' a = rd8 m a.
Proof. apply kmalloc_fresh_ok. Qed.

Lemma kmalloc_fresh_witness :
  ∃ mm' m' l' s, heap_inv mm' m' l' ∧ payload_at KERNEL_HEAP_START l' 0x200014 s false ∧ 101 <= s.
Proof.
  destruct demo_kmalloc as (m1 & Hk & _).
  destruct (kmalloc_fresh _ _ _ _ _ _ _ demo_heap_inv demo_size Hk demo_ptr) as (l' & s & H1 & H2 & H3 & _).
  eexists _, m1, l', s. split_and!; done.
Defined.

(** C7: freeing an allocated block always returns; the block becomes free and is
    merged with its free neighbours (no two free neighbours remain), and every
    other allocated block survives with its contents. *)
Theorem kfree_releases mm m l p s :
  heap_inv mm m l → payload_at KERNEL_HEAP_START l p s false →
  ∃ l' m', free_block p l = Some l' ∧
    kfree mm m p = Some (with_heap_stats mm l', m') ∧
    heap_inv (with_heap_stats mm l') m' l' ∧
    ∀ q t, payload_at KERNEL_HEAP_START l q t false → q ≠ p →
      payload_at KERNEL_HEAP_START l' q t false ∧
      ∀ a, span q t a → rd8 m' a = rd8 m a.
Proof.
  intros Hinv Hp. pose proof (hi_ok _ _ _ Hinv) as Hok.
  destruct (mark_free_exists _ _ _ _ Hok Hp) as [l1 Hm].
  assert (free_block p l = Some (coalesce l1)) as Hf by (unfold free_block; by rewrite Hm).
  destruct (kfree_ok _ _ _ _ _ Hinv Hf) as (m' & Hk & Hinv' & Ho).
  exists (coalesce l1), m'. split_and!; try done. intros q t Hq Hne. split.
  - pose proof (mark_free_keeps _ _ _ _ _ _ Hm Hq Hne) as Hq1.
    destruct l1; [done|]. by apply coalesce_from_keeps.
  - intros a Ha. apply (only_rd8 _ _ _ _ Ho). by eapply payload_not_header.
Qed.

Lemma kfree_releases_witness :
  ∃ m m', kfree (with_heap_stats demo_heap.1 demo_heap_blocks) m 0x200014 =
          Some (with_heap_stats (with_heap_stats demo_heap.1 demo_heap_blocks) fresh_heap, m').
Proof.
  destruct demo_kmalloc as (m & _ & Hm).
  destruct (kfree_releases _ m demo_heap_blocks 0x200014 104 Hm ltac:(by left))
    as (l' & m' & Hf & Hk & _).
  assert (l' = fresh_heap) as -> by (injection Hf as <-; reflexivity).
  exists m, m'. exact Hk.
Defined.

(** [kmalloc] followed by [kfree] of the result restores the block list
    exactly. *)
Theorem kmalloc_kfree_roundtrip mm m l size p mm1 m1 :
  heap_inv mm m l → 0 <= size <= 0xFFFFFFFC →
  kmalloc mm m size = Some (p, (mm1, m1)) → p ≠ 0 →
  ∃ mm2 m2, kfree mm1 m1 p = Some (mm2, m2) ∧ heap_inv mm2 m2 l.
Proof.
  intros Hinv Hsize Hk Hp.
  destruct (kmalloc_result _ _ _ _ _ _ _ Hinv Hsize Hk Hp) as (l' & Ha & Hinv' & _).
  pose proof (free_alloc _ _ _ _ (hi_ok _ _ _ Hinv) (hi_coalesced _ _ _ Hinv) Ha) as Hf.
  destruct (kfree_ok _ _ _ _ _ Hinv' Hf) as (m2 & ? & ? & _). eauto.
Qed.

Lemma kmalloc_kfree_roundtrip_witness :
  ∃ mm1 m1 mm2 m2, kfree mm1 m1 0x200014 = Some (mm2, m2) ∧ heap_inv mm2 m2 fresh_heap.
Proof.
  destruct demo_kmalloc as (m1 & Hk & _).
  destruct (kmalloc_kfree_roundtrip _ _ _ _ _ _ _ demo_heap_inv demo_size Hk demo_ptr)
    as (mm2 & m2 & ? & ?).
  exists (with_heap_stats demo_heap.1 demo_heap_blocks), m1, mm2, m2. by split.
Defined.

(** [heap_init] leaves one free block that fills the heap, and writes only
    that block's header and the screen. *)
Theorem heap_init_establishes mm k :
  term_ok k →
  heap_inv (heap_init mm k).1 (mem (heap_init mm k).2) fresh_heap ∧
  term_ok (heap_init mm k).2 ∧
  only (mem k) (λ a, framebuffer a ∨ span KERNEL_HEAP_START sizeof_memory_block a)
    (mem (heap_init mm k).2).
Proof. apply heap_init_ok. Qed.

Lemma heap_init_establishes_witness : heap_inv demo_heap.1 (mem demo_heap.2) fresh_heap.
Proof.
  with_strategy transparent [demo_heap] unfold demo_heap.
  apply (heap_init_establishes mm_boot blank_machine), blank_machine_ok.
Defined.

(** Writing inside a payload does not disturb the heap. *)
Lemma heap_inv_payload_write mm m m' l p s f P :
  heap_inv mm m l → payload_at KERNEL_HEAP_START l p s f →
  only m P m' → (∀ a, P a → span p s a) → heap_inv mm m' l.
Proof.
  intros Hinv Hp Ho HP. destruct Hinv as [? ? Hat ? Hok ?]. split; try done.
  eapply blocks_at_frame; [exact Ho| |done]. intros a Ha HPa. revert Ha.
  eapply payload_not_header; [done|done|]. by apply HP.
Qed.

Lemma payload_unique hdr l p s f t g :
  Forall block_ok l → payload_at hdr l p s f → payload_at hdr l p t g → s = t ∧ f = g.
Proof.
  intros Hl. revert hdr. induction Hl as [|[s' f'] l [Hs' _] Hl IH]; intros hdr; simpl; [done|].
  simpl in Hs'. intros [(-> & -> & ->)|H1] [(? & -> & ->)|H2]; [done| | |by eapply IH].
  - apply payload_range in H2; [|done]. heap_consts. lia.
  - apply payload_range in H1; [|done]. heap_consts. lia.
Qed.

Lemma kmalloc_spec_nonnull l size p l' :
  Forall block_ok l → kmalloc_spec l size = Some (p, l') → p ≠ 0.
Proof.
  unfold kmalloc_spec. intros Hl. destruct (size =? 0); [done|]. intros Ha.
  destruct (alloc_payload _ _ _ _ _ Ha) as (_ & s0 & _ & _ & H & _).
  apply payload_range in H; [|done]. heap_consts. lia.
Qed.

Lemma alloc_first_fit_exists hdr l s :
  Forall block_ok l → (s, true) ∈ l → ∃ p l', alloc_first_fit hdr 0 l = Some (p, l').
Proof.
  intros Hl. revert hdr. induction Hl as [|[s' f'] l [Hs' _] Hl IH]; intros hdr Hin.
  { by apply not_elem_of_nil in Hin. }
  cbn [alloc_first_fit]. simpl in Hs'. rewrite (proj2 (Z.leb_le 0 s')) by done.
  rewrite andb_true_r. destruct f'; [eauto|]. apply elem_of_cons in Hin as [?|Hin]; [done|].
  destruct (IH (hdr + sizeof_memory_block + s') Hin) as (p & l' & ->). simpl. eauto.
Qed.

(** [kcalloc] returns NULL or a block of at least [num * size] bytes, all of
    them zero, as long as the product fits 32 bits. *)
Theorem kcalloc_zeroed mm m l num size :
  heap_inv mm m l → 0 <= num → 0 <= size → num * size <= 0xFFFFFFFC →
  ∃ p mm' m' l', kcalloc mm m num size = Some (p, (mm', m')) ∧ heap_inv mm' m' l' ∧
    (p ≠ 0 → ∃ s, payload_at KERNEL_HEAP_START l' p s false ∧ num * size <= s ∧
                  ∀ a, span p (num * size) a → rd8 m' a = 0).
Proof.
  intros Hinv Hn Hs Hprod. assert (0 <= num * size) as H0 by nia.
  unfold kcalloc. rewrite u32_small by (unfold is_u32; lia).
  pose proof (kmalloc_ok mm m l (num * size) Hinv ltac:(lia)) as H.
  destruct (kmalloc_spec l (num * size)) as [[p l']|].
  - destruct H as (m1 & Hk & Hinv' & _). rewrite Hk. simpl.
    ztest; [subst p; eexists 0, _, m1, l'; by split_and!|].
    destruct (kmalloc_fresh_ok _ _ _ _ _ _ _ Hinv (ltac:(lia) : 0 <= num * size <= 0xFFFFFFFC)
      Hk ltac:(done)) as (l2 & s & Hinv2 & Hp & Hle & _).
    eexists p, _, _, l2. split; [done|]. split.
    + eapply heap_inv_payload_write; [done|done|apply memset_only|].
      unfold span. lia.
    + intros _. exists s. split_and!; [done|done|]. intros a Ha.
      by rewrite (memset_rd8 _ _ _ (num * size)).
  - rewrite H. simpl. exists 0, mm, m, l. by split_and!.
Qed.

Lemma kcalloc_zeroed_witness :
  ∃ p mm' m' l', kcalloc demo_heap.1 (mem demo_heap.2) 3 7 = Some (p, (mm', m')) ∧ heap_inv mm' m' l'.
Proof.
  destruct (kcalloc_zeroed demo_heap.1 (mem demo_heap.2) fresh_heap 3 7 demo_heap_inv
    ltac:(done) ltac:(done) ltac:(done)) as (p & mm' & m' & l' & H & H' & _).
  exists p, mm', m', l'. by split.
Defined.

(** [krealloc] of an allocated block either returns NULL and changes nothing,
    or returns a block of at least the new size that holds the old contents, up
    to the smaller of the two sizes, and the heap stays well-formed. *)
Theorem krealloc_keeps_contents mm m l p s size :
  heap_inv mm m l → payload_at KERNEL_HEAP_START l p s false → 0 < size <= 0xFFFFFFFC →
  krealloc mm m p size = Some (0, (mm, m)) ∨
  ∃ q mm' m' l' s', krealloc mm m p size = Some (q, (mm', m')) ∧ heap_inv mm' m' l' ∧
    payload_at KERNEL_HEAP_START l' q s' false ∧ size <= s' ∧
    ∀ i, 0 <= i < size → i < s → rd8 m' (q + i) = rd8 m (p + i).
Proof.
  intros Hinv Hp Hsize. pose proof (hi_ok _ _ _ Hinv) as Hok.
  destruct (payload_range _ _ _ _ _ Hok Hp) as (Hp0 & _ & Hs0 & _).
  unfold krealloc. rewrite (proj2 (Z.eqb_neq p 0)) by (heap_consts; lia).
  rewrite (proj2 (Z.eqb_neq size 0)) by lia.
  pose proof (kmalloc_ok mm m l size Hinv ltac:(lia)) as H.
  destruct (kmalloc_spec l size) as [[q l1]|] eqn:Espec; [right|left; by rewrite H].
  destruct H as (m1 & Hk & Hinv1 & _). rewrite Hk. simpl.
  assert (q ≠ 0) as Hq0.
  { by eapply kmalloc_spec_nonnull. }
  rewrite (proj2 (Z.eqb_neq q 0)) by done.
  destruct (kmalloc_fresh_ok _ _ _ _ _ _ _ Hinv (ltac:(lia) : 0 <= size <= 0xFFFFFFFC)
    Hk Hq0) as (l2 & s' & Hinv2 & Hq & Hle & _ & _ & Hkeep).
  destruct (Hkeep _ _ Hp) as (Hp2 & Hdisj & Hcont).
  pose proof (memcpy_only m1 q p size) as Hcpy.
  pose proof (heap_inv_payload_write _ _ _ _ _ _ _ _ Hinv2 Hq Hcpy
    ltac:(unfold span; lia)) as Hinv3.
  pose proof (hi_ok _ _ _ Hinv3) as Hok2.
  destruct (mark_free_exists _ _ _ _ Hok2 Hp2) as [l3 Hm].
  assert (free_block p l2 = Some (coalesce l3)) as Hf by (unfold free_block; by rewrite Hm).
  destruct (kfree_ok _ _ _ _ _ Hinv3 Hf) as (m3 & -> & Hinv4 & Ho4). simpl.
  assert (q ≠ p) as Hqp.
  { intros ->. destruct (payload_unique _ _ _ _ _ _ _ (hi_ok _ _ _ Hinv2) Hq Hp2). lia. }
  exists q. do 2 eexists. exists (coalesce l3), s'. split; [done|]. split_and!; try done.
  - pose proof (mark_free_keeps _ _ _ _ _ _ Hm Hq Hqp) as Hq1.
    destruct l3; [done|]. by apply coalesce_from_keeps.
  - intros i Hi His. rewrite (only_rd8 _ _ _ _ Ho4).
    + rewrite (memcpy_rd8 _ _ _ _ (Z.min size s)) by lia. apply Hcont. unfold span. lia.
    + eapply payload_not_header; [exact Hok2|exact Hq|]. unfold span. lia.
Qed.

Lemma krealloc_keeps_contents_witness :
  ∃ m, heap_inv (with_heap_stats demo_heap.1 demo_heap_blocks) m demo_heap_blocks ∧
  (krealloc (with_heap_stats demo_heap.1 demo_heap_blocks) m 0x200014 500 =
     Some (0, (with_heap_stats demo_heap.1 demo_heap_blocks, m)) ∨
   ∃ q mm' m' l' s', krealloc (with_heap_stats demo_heap.1 demo_heap_blocks) m 0x200014 500 =
       Some (q, (mm', m')) ∧ heap_inv mm' m' l' ∧
     payload_at KERNEL_HEAP_START l' q s' false ∧ 500 <= s' ∧
     ∀ i, 0 <= i < 500 → i < 104 → rd8 m' (q + i) = rd8 m (0x200014 + i)).
Proof.
  destruct demo_kmalloc as (m & _ & Hm). exists m. split; [done|].
  apply (krealloc_keeps_contents _ m demo_heap_blocks 0x200014 104 500 Hm);
    [by left|done].
Defined.

(** The rounding of [kmalloc] wraps: a request of 2^32-3 bytes or more is
    granted, as long as any block is free, and what comes back is the first
    free block cut down to zero bytes (or handed out whole when it is tiny). *)
Theorem kmalloc_huge_request_granted mm m l size s :
  heap_inv mm m l → 0xFFFFFFFD <= size <= 0xFFFFFFFF → (s, true) ∈ l →
  ∃ p l' mm' m', kmalloc mm m size = Some (p, (mm', m')) ∧ p ≠ 0 ∧
    alloc_first_fit KERNEL_HEAP_START 0 l = Some (p, l') ∧ heap_inv mm' m' l' ∧
    ∃ t, payload_at KERNEL_HEAP_START l' p t false ∧ t <= sizeof_memory_block.
Proof.
  intros Hinv Hsize Hs. pose proof (hi_ok _ _ _ Hinv) as Hok.
  pose proof (align_size_wraps size ltac:(lia)) as Hal.
  pose proof (kmalloc_aligned_ok mm m l size Hinv ltac:(lia) ltac:(by rewrite Hal)
    ltac:(by rewrite Hal)) as H. rewrite Hal in H.
  destruct (alloc_first_fit_exists KERNEL_HEAP_START l s Hok Hs) as (p & l' & Ha).
  rewrite Ha in *. destruct H as (m' & Hk & Hinv' & _).
  destruct (alloc_payload _ _ _ _ _ Ha) as (t & s0 & Ht & _ & Hp & _ & Hle).
  apply payload_range in Hp; [|done].
  eexists p, l', _, m'. split; [done|]. split_and!; [heap_consts; lia|done|done|eauto].
Qed.

Lemma kmalloc_huge_request_granted_witness :
  ∃ p l' mm' m', kmalloc demo_heap.1 (mem demo_heap.2) 0xFFFFFFFF = Some (p, (mm', m')) ∧
    p ≠ 0 ∧ alloc_first_fit KERNEL_HEAP_START 0 fresh_heap = Some (p, l').
Proof.
  destruct (kmalloc_huge_request_granted demo_heap.1 (mem demo_heap.2) fresh_heap 0xFFFFFFFF
    (KERNEL_HEAP_SIZE - sizeof_memory_block) demo_heap_inv ltac:(done)
    (list_elem_of_here _ _)) as (p & l' & mm' & m' & H1 & H2 & H3 & _).
  exists p, l', mm', m'. by split_and!.
Defined.
