(* ===== verification/Alloc.v ===== *)
(** * The allocator interface

    What the heap of kernel/memory.c promises its clients: [Allocator] names the
    operations a client calls and the words it stores in its blocks,
    [AllocatorLaws] states their contract in terms of the blocks owned.  The
    process manager is proved against the interface; [heap_allocator] and
    [heap_allocator_laws] show that [kmalloc] and [kfree] implement it. *)

From S2P Require Import Prelude Ram CString Vga Memory Heap HeapCorrect.
Set Default Goal Selector "!".

Class Allocator (H : Type) := {
  malloc : H → Z → option (Z * H);
  mfree : H → Z → option H;
  peek32 : H → Z → Z;
  poke32 : H → Z → Z → H;
}.

(** [owns h p s]: the payload of an allocated block is [p], of [s] bytes.
    [heap_frame h h']: from [h] to [h'] nothing changed but what the allocator
    manages. *)
Class AllocatorLaws (H : Type) `{Allocator H} := {
  heap_ok : H → Prop;
  owns : H → Z → Z → Prop;
  heap_frame : H → H → Prop;
  heap_frame_refl h : heap_frame h h;
  heap_frame_trans h1 h2 h3 : heap_frame h1 h2 → heap_frame h2 h3 → heap_frame h1 h3;
  owns_range h p s : heap_ok h → owns h p s → 0 < p ∧ 0 <= s ∧ p + s < 4294967296;
  owns_disjoint h p s q t :
    heap_ok h → owns h p s → owns h q t → (p = q ∧ s = t) ∨ p + s <= q ∨ q + t <= p;
  malloc_spec h n :
    heap_ok h → 0 <= n <= 0xFFFFFFFC →
    malloc h n = Some (0, h) ∨
    ∃ p s h', malloc h n = Some (p, h') ∧ heap_ok h' ∧ heap_frame h h' ∧ p ≠ 0 ∧ n <= s ∧
      (∀ q t, owns h' q t ↔ owns h q t ∨ q = p ∧ t = s) ∧
      (∀ t, ¬ owns h p t);
  mfree_spec h p s :
    heap_ok h → owns h p s →
    ∃ h', mfree h p = Some h' ∧ heap_ok h' ∧ heap_frame h h' ∧ ∀ q t, owns h' q t ↔ owns h q t ∧ q ≠ p;
  poke_spec h p s a v :
    heap_ok h → owns h p s → p <= a → a + 4 <= p + s →
    heap_ok (poke32 h a v) ∧ heap_frame h (poke32 h a v) ∧ (∀ q t, owns (poke32 h a v) q t ↔ owns h q t) ∧
    peek32 (poke32 h a v) a = u32 v ∧
    ∀ b, b + 4 <= a ∨ a + 4 <= b → peek32 (poke32 h a v) b = peek32 h b;
}.

(** ** The converse of [alloc_keeps] and [mark_free_keeps] *)

Lemma alloc_only_new hdr sz l p l' q t :
  0 <= sz → alloc_first_fit hdr sz l = Some (p, l') →
  payload_at hdr l' q t false → payload_at hdr l q t false ∨ q = p.
Proof.
  intros Hsz. revert hdr l'. induction l as [|[s f] l IH]; intros hdr l'; [done|]. cbn [alloc_first_fit].
  destruct (f && (sz <=? s)) eqn:E.
  - intros [= <- <-]. destruct (Z.ltb_spec (sz + sizeof_memory_block) s); simpl.
    + intros [(-> & _)|[(_ & _ & ?)|H']]; [by right|done|left; right].
      by replace (hdr + sizeof_memory_block + s)
        with (hdr + sizeof_memory_block + sz + sizeof_memory_block + (s - sz - sizeof_memory_block)) by lia.
    + intros [(-> & _)|H']; [by right|left; by right].
  - destruct (alloc_first_fit _ sz l) as [[q' l'']|] eqn:Ea; simpl; [|done]. intros [= <- <-].
    intros [?|H']; [left; by left|]. destruct (IH _ _ Ea H'); [left; by right|by right].
Qed.

Lemma mark_free_only_old hdr l p l' q t :
  Forall block_ok l → mark_free hdr p l = Some l' → payload_at hdr l' q t false →
  payload_at hdr l q t false ∧ q ≠ p.
Proof.
  intros Hl. revert hdr l'. induction Hl as [|[s f] l [Hs Hm] Hl IH]; intros hdr l'; [done|]. cbn [mark_free].
  simpl in Hs. destruct (Z.eqb_spec (hdr + sizeof_memory_block) p) as [<-|Hne].
  - destruct f; [done|]. intros [= <-] [(_ & _ & ?)|H']; [done|]. split; [by right|].
    apply payload_range in H'; [|done]. heap_consts. lia.
  - destruct (mark_free _ p l) as [l''|] eqn:Em; simpl; [|done]. intros [= <-] [(-> & -> & ->)|H'].
    + split; [by left|done].
    + destruct (IH _ _ Em H'). split; [by right|done].
Qed.

Lemma coalesce_from_only_old hdr b l q t :
  payload_at hdr (coalesce_from b l) q t false → payload_at hdr (b :: l) q t false.
Proof.
  revert hdr b. induction l as [|[s' f'] l IH]; intros hdr [s f]; [done|].
  cbn [coalesce_from]. simpl snd. destruct (f && f') eqn:E.
  - apply andb_true_iff in E as [-> ->]. intros H'%IH. simpl fst in H'.
    destruct H' as [(_ & _ & ?)|H']; [done|]. right; right.
    by replace (hdr + sizeof_memory_block + s + sizeof_memory_block + s')
      with (hdr + sizeof_memory_block + (s + sizeof_memory_block + s')) by lia.
  - intros [H'|H']; [by left|right]. by apply IH.
Qed.

Lemma free_block_owns l p l' q t :
  Forall block_ok l → free_block p l = Some l' →
  payload_at KERNEL_HEAP_START l' q t false ↔ payload_at KERNEL_HEAP_START l q t false ∧ q ≠ p.
Proof.
  intros Hl Hf. unfold free_block in Hf. destruct (mark_free _ p l) as [l1|] eqn:Em; [|done].
  simpl in Hf. injection Hf as <-. destruct l1 as [|b l1].
  { destruct l as [|[s f] l]; [done|]. cbn [mark_free] in Em. repeat case_match; simplify_option_eq. }
  cbn [coalesce]. split.
  - intros H%coalesce_from_only_old. by eapply mark_free_only_old.
  - intros [H Hne]. apply coalesce_from_keeps. by eapply mark_free_keeps.
Qed.

(** Distinct blocks have distinct payload addresses, also when they are empty. *)
Lemma payload_fun hdr l p s f t g :
  Forall block_ok l → payload_at hdr l p s f → payload_at hdr l p t g → s = t ∧ f = g.
Proof.
  intros Hl. revert hdr. induction Hl as [|[s' f'] l [Hs _] Hl IH]; intros hdr; simpl; [done|].
  simpl in Hs. intros [(-> & -> & ->)|H1] [(E & -> & ->)|H2]; [done| | |by eapply IH].
  - apply payload_range in H2; [|done]. heap_consts. lia.
  - subst p. apply payload_range in H1; [|done]. heap_consts. lia.
Qed.

(** ** The block list is determined by memory *)

Lemma blocks_at_unique m prev prev' hdr l l' :
  0 < hdr → Forall block_ok l → Forall block_ok l' → (l = [] ↔ l' = []) →
  blocks_at m prev hdr l 0 → blocks_at m prev' hdr l' 0 → l = l'.
Proof.
  intros Hh Hl. revert prev prev' hdr l' Hh.
  induction Hl as [|[s f] l [Hs _] Hl IH]; intros prev prev' hdr l' Hh Hl' Hnil;
    [by destruct Hnil as [-> _]|].
  destruct Hl' as [|[s' f'] l' [Hs' _] Hl']; [by destruct Hnil as [_ ?]; discriminate H|].
  simpl in Hs, Hs'. intros [Hn Hat] [Hn' Hat'].
  destruct Hn as (_ & Hsz & Hty & Hnx & _), Hn' as (_ & Hsz' & Hty' & Hnx' & _).
  assert (s' = s) as -> by congruence. f_equal.
  - f_equal. rewrite Hty in Hty'. by destruct f, f'.
  - eapply IH; [| | |exact Hat|exact Hat']; [heap_consts; lia|done|].
    rewrite Hnx in Hnx'. split; intros ->; [destruct l'|destruct l]; try done;
      simpl in Hnx'; heap_consts; lia.
Qed.

Lemma heap_inv_unique mm m l l' : heap_inv mm m l → heap_inv mm m l' → l = l'.
Proof.
  intros [_ Hn Hat _ Hok _] [_ Hn' Hat' _ Hok' _].
  eapply blocks_at_unique; [..|exact Hat|exact Hat']; done.
Qed.

(** ** The kernel heap implements the interface *)

#[export] Instance heap_allocator : Allocator (mm_state * ram) := {
  malloc h n := '(p, h) ← kmalloc h.1 h.2 n; Some (p, h);
  mfree h p := kfree h.1 h.2 p;
  peek32 h a := rd32 h.2 a;
  poke32 h a v := (h.1, wr32 h.2 a v);
}.

Definition kheap_ok (h : mm_state * ram) : Prop := ∃ l, heap_inv h.1 h.2 l.
Definition kheap_owns (h : mm_state * ram) (p s : Z) : Prop :=
  ∃ l, heap_inv h.1 h.2 l ∧ payload_at KERNEL_HEAP_START l p s false.

(** Only the statistics and the bytes of the heap change. *)
Definition kheap_frame (h h' : mm_state * ram) : Prop :=
  (∃ st, h'.1 = h.1 <| mm_stats := st |>) ∧
  only h.2 (span KERNEL_HEAP_START KERNEL_HEAP_SIZE) h'.2.

Lemma kheap_frame_refl h : kheap_frame h h.
Proof. split; [exists (mm_stats h.1); by destruct h as [[] ?]|apply only_refl]. Qed.
Lemma kheap_frame_trans h1 h2 h3 : kheap_frame h1 h2 → kheap_frame h2 h3 → kheap_frame h1 h3.
Proof.
  intros [[st1 E1] O1] [[st2 E2] O2]. split; [|by eapply only_trans].
  exists st2. rewrite E2, E1. done.
Qed.

Lemma header_cells_heap mm m l a :
  heap_inv mm m l → header_cells KERNEL_HEAP_START l a → span KERNEL_HEAP_START KERNEL_HEAP_SIZE a.
Proof.
  intros Hl Ha. apply (header_cells_range _ _ _ (hi_ok _ _ _ Hl)) in Ha.
  rewrite (hi_end _ _ _ Hl) in Ha. unfold span. lia.
Qed.

Lemma kheap_frame_stats mm m mm' m' l l' P :
  heap_inv mm m l → heap_inv (with_heap_stats mm l') m' l' → mm' = with_heap_stats mm l' →
  only m P m' → (∀ a, P a → cells_of KERNEL_HEAP_START l l' a) → kheap_frame (mm, m) (mm', m').
Proof.
  intros Hl Hl' -> Ho HP. split; [by eexists|]. eapply only_mono; [exact Ho|].
  intros a [Ha|Ha]%HP; [exact (header_cells_heap _ _ _ _ Hl Ha)|exact (header_cells_heap _ _ _ _ Hl' Ha)].
Qed.

Lemma kheap_owns_inv mm m l p s :
  heap_inv mm m l → kheap_owns (mm, m) p s ↔ payload_at KERNEL_HEAP_START l p s false.
Proof.
  intros Hl. split; [|by exists l]. intros (l' & Hl' & Hp).
  by rewrite (heap_inv_unique _ _ _ _ Hl Hl').
Qed.

Lemma kheap_range mm m l p s f :
  heap_inv mm m l → payload_at KERNEL_HEAP_START l p s f →
  KERNEL_HEAP_START < p ∧ 0 <= s ∧ p + s <= KERNEL_HEAP_START + KERNEL_HEAP_SIZE.
Proof.
  intros Hl Hp. pose proof (payload_range _ _ _ _ _ (hi_ok _ _ _ Hl) Hp) as (? & He & ? & _).
  rewrite (hi_end _ _ _ Hl) in He. heap_consts. lia.
Qed.

Lemma kheap_malloc mm m l n :
  heap_inv mm m l → 0 <= n <= 0xFFFFFFFC →
  kmalloc mm m n = Some (0, (mm, m)) ∨
  ∃ p s h', kmalloc mm m n = Some (p, h') ∧ kheap_ok h' ∧ kheap_frame (mm, m) h' ∧ p ≠ 0 ∧ n <= s ∧
    (∀ q t, kheap_owns h' q t ↔ kheap_owns (mm, m) q t ∨ q = p ∧ t = s) ∧
    ∀ t, ¬ kheap_owns (mm, m) p t.
Proof.
  intros Hl Hn. pose proof (kmalloc_ok mm m l n Hl Hn) as H. unfold kmalloc_spec in H.
  destruct (n =? 0); [by left|].
  destruct (alloc_first_fit _ _ l) as [[p l']|] eqn:Ea; [right|by left].
  destruct H as (m' & Hk & Hl' & Ho).
  destruct (align_size_bounds n Hn) as [Hal _].
  destruct (alloc_payload _ _ _ _ _ Ea) as (s & s0 & Hps & Hsz & Hp0 & _).
  pose proof (kheap_range _ _ _ _ _ _ Hl' Hps).
  exists p, s, (with_heap_stats mm l', m'). split; [done|]. split; [by exists l'|].
  split; [exact (kheap_frame_stats mm m _ m' l l' _ Hl Hl' eq_refl Ho (λ a Ha, Ha))|].
  split; [heap_consts; lia|]. split; [lia|]. split.
  - intros q t. rewrite (kheap_owns_inv _ _ _ _ _ Hl'), (kheap_owns_inv _ _ _ _ _ Hl). split.
    + intros Hq. assert (0 <= align_size n) as Hal0 by lia.
      destruct (alloc_only_new _ _ _ _ _ _ _ Hal0 Ea Hq) as [?| ->]; [by left|right].
      split; [done|].
      by destruct (payload_fun _ _ _ _ _ _ _ (hi_ok _ _ _ Hl') Hps Hq) as [-> _].
    + intros [Hq|[-> ->]]; [by eapply alloc_keeps|done].
  - intros t. rewrite (kheap_owns_inv _ _ _ _ _ Hl). intros Hq.
    by destruct (payload_fun _ _ _ _ _ _ _ (hi_ok _ _ _ Hl) Hp0 Hq).
Qed.

Lemma kheap_free mm m l p s :
  heap_inv mm m l → kheap_owns (mm, m) p s →
  ∃ h', kfree mm m p = Some h' ∧ kheap_ok h' ∧ kheap_frame (mm, m) h' ∧
    ∀ q t, kheap_owns h' q t ↔ kheap_owns (mm, m) q t ∧ q ≠ p.
Proof.
  intros Hl Hp. apply (kheap_owns_inv _ _ _ _ _ Hl) in Hp.
  destruct (mark_free_exists _ _ _ _ (hi_ok _ _ _ Hl) Hp) as [l1 Em].
  assert (free_block p l = Some (coalesce l1)) as Hf by (unfold free_block; by rewrite Em).
  destruct (kfree_ok mm m l p _ Hl Hf) as (m' & Hk & Hl' & Ho).
  exists (with_heap_stats mm (coalesce l1), m'). split; [done|]. split; [by exists (coalesce l1)|].
  split; [exact (kheap_frame_stats mm m _ m' l _ _ Hl Hl' eq_refl Ho (λ a Ha, or_introl Ha))|].
  intros q t. rewrite (kheap_owns_inv _ _ _ _ _ Hl'), (kheap_owns_inv _ _ _ _ _ Hl).
  by apply free_block_owns; [apply Hl|].
Qed.

Lemma kheap_poke mm m l p s a v :
  heap_inv mm m l → kheap_owns (mm, m) p s → p <= a → a + 4 <= p + s →
  heap_inv mm (wr32 m a v) l ∧ kheap_frame (mm, m) (mm, wr32 m a v).
Proof.
  intros Hl Hp Ha Ha'. apply (kheap_owns_inv _ _ _ _ _ Hl) in Hp. split.
  2:{ pose proof (kheap_range _ _ _ _ _ _ Hl Hp). split; [exact (proj1 (kheap_frame_refl (mm, m)))|].
      eapply only_mono; [apply only_wr32|]. unfold span. lia. }
  destruct Hl as [H1 H2 Hat H4 Hok H6]. split; try done.
  eapply blocks_at_frame; [apply only_wr32| |done]. intros b Hb Hs. revert Hb.
  eapply payload_not_header; [done|done|]. unfold span in *. lia.
Qed.

#[export] Program Instance heap_allocator_laws : AllocatorLaws (mm_state * ram) := {
  heap_ok := kheap_ok;
  owns := kheap_owns;
  heap_frame := kheap_frame;
  heap_frame_refl := kheap_frame_refl;
  heap_frame_trans := kheap_frame_trans;
}.
Next Obligation.
  intros [mm m] p s [l Hl] Hp. apply (kheap_owns_inv _ _ _ _ _ Hl) in Hp.
  pose proof (kheap_range _ _ _ _ _ _ Hl Hp). heap_consts. lia.
Qed.
Next Obligation.
  intros [mm m] p s q t [l Hl] Hp Hq.
  apply (kheap_owns_inv _ _ _ _ _ Hl) in Hp. apply (kheap_owns_inv _ _ _ _ _ Hl) in Hq.
  destruct (payload_disjoint _ _ _ _ _ _ _ _ (hi_ok _ _ _ Hl) Hp Hq) as [(? & ? & _)|?]; [by left|by right].
Qed.
Next Obligation.
  intros [mm m] n [l Hl] Hn. cbn [malloc heap_allocator fst snd].
  destruct (kheap_malloc mm m l n Hl Hn) as [-> |(p & s & h' & -> & H)]; [by left|right].
  by exists p, s, h'.
Qed.
Next Obligation. intros [mm m] p s [l Hl] Hp. by eapply kheap_free. Qed.
Next Obligation.
  intros [mm m] p s a v [l Hl] Hp Ha Ha'. cbn [poke32 peek32 heap_allocator fst snd] in *.
  destruct (kheap_poke mm m l p s a v Hl Hp Ha Ha') as [Hl' Hfr]. split; [by exists l|].
  split; [exact Hfr|]. split.
  - intros q t. by rewrite (kheap_owns_inv _ _ _ _ _ Hl'), (kheap_owns_inv _ _ _ _ _ Hl).
  - split; [apply rd32_wr32_eq|]. intros b Hb. apply rd32_wr32_ne. lia.
Qed.

(** One allocation and what frees it. *)
Lemma kmalloc_then_free mm m l size :
  heap_inv mm m l → 0 < size <= 0xFFFFFFFC →
  kmalloc mm m size = Some (0, (mm, m)) ∨
  ∃ p l' m' s, kmalloc mm m size = Some (p, (with_heap_stats mm l', m')) ∧
    heap_inv (with_heap_stats mm l') m' l' ∧ free_block p l' = Some l ∧
    KERNEL_HEAP_START < p < KERNEL_HEAP_START + KERNEL_HEAP_SIZE ∧ size <= s ∧
    kheap_owns (with_heap_stats mm l', m') p s ∧ ∀ t, ¬ kheap_owns (mm, m) p t.
Proof.
  intros Hl Hsz. pose proof (kmalloc_ok mm m l size Hl ltac:(lia)) as H. unfold kmalloc_spec in H.
  rewrite (proj2 (Z.eqb_neq size 0)) in H by lia.
  destruct (alloc_first_fit _ _ l) as [[p l']|] eqn:Ea; [|by left].
  right. destruct H as (m' & Hkm & Hl' & _).
  destruct (align_size_bounds size ltac:(lia)) as [Hal Hmod].
  destruct (alloc_payload _ _ _ _ _ Ea) as (s & s0 & Hps & Hs & Hp0 & _).
  exists p, l', m', s. split; [exact Hkm|]. split; [exact Hl'|]. split.
  { exact (free_alloc _ _ _ _ (hi_ok _ _ _ Hl) (hi_coalesced _ _ _ Hl) Ea). }
  split; [|split; [lia|split]].
  - pose proof (kheap_range _ _ _ _ _ _ Hl' Hps) as Hr.
    pose proof (payload_range _ _ _ _ _ (hi_ok _ _ _ Hl) Hp0) as Hr0.
    rewrite (hi_end _ _ _ Hl) in Hr0. heap_consts. lia.
  - exists l'. by split.
  - intros t (l1 & Hl1 & Ht). rewrite (heap_inv_unique _ _ _ _ Hl1 Hl) in Ht.
    by destruct (payload_fun _ _ _ _ _ _ _ (hi_ok _ _ _ Hl) Hp0 Ht).
Qed.
