(* ===== verification/PhysPages.v ===== *)
(** * Physical page bitmap (kernel/memory.c)

    One bit per 4 KB page of the assumed 256 MB, at the fixed address 5 MB.
    [page_used] reads the bitmap as a set of pages; the operations are proved to
    be the allocation of the lowest free page and its release. *)

From S2P Require Import Prelude Ram CString Vga Memory Heap HeapCorrect.
Set Default Goal Selector "!".

(** ** Operations *)

Definition bitmap_word (mm : mm_state) (m : ram) (index : Z) : Z :=
  rd32 m (physical_page_bitmap mm + 4 * index).

Definition set_bitmap_bit (mm : mm_state) (m : ram) (page : Z) (set : bool) : ram :=
  let index := page / 32 in
  let bit := page mod 32 in
  let w := bitmap_word mm m index in
  wr32 m (physical_page_bitmap mm + 4 * index)
    (if set then Z.lor w (Z.shiftl 1 bit)
     else Z.land w (u32 (Z.lnot (Z.shiftl 1 bit)))).

Definition get_bitmap_bit (mm : mm_state) (m : ram) (page : Z) : bool :=
  let index := page / 32 in
  let bit := page mod 32 in
  negb (Z.land (bitmap_word mm m index) (Z.shiftl 1 bit) =? 0).

Definition init_physical_page_bitmap (mm : mm_state) (m : ram) : mm_state * ram :=
  let max_pages := 0x10000000 / PAGE_SIZE in
  let mm := mm <| bitmap_size := (max_pages +w 31) / 32 |> in
  let mm := mm <| physical_page_bitmap := 0x500000 |> in
  let m := memset m (physical_page_bitmap mm) 0 (bitmap_size mm *w 4) in
  let used_pages := 0x600000 / PAGE_SIZE in
  (mm, for_z (Z.to_nat used_pages) 0 (λ i m, set_bitmap_bit mm m i true) m).

Definition find_free_physical_page (mm : mm_state) (m : ram) : Z :=
  default 0 (for_first (Z.to_nat (bitmap_size mm)) 0 (λ i,
    if bitmap_word mm m i =? 0xFFFFFFFF then None
    else for_first 32 0 (λ j,
      if Z.land (bitmap_word mm m i) (Z.shiftl 1 j) =? 0
      then Some (i *w 32 +w j) else None))).

Definition alloc_physical_page (mm : mm_state) (m : ram) : option (Z * (mm_state * ram)) :=
  let page := find_free_physical_page mm m in
  if page =? 0 then Some (page *w PAGE_SIZE, (mm, m))
  else
    let m := set_bitmap_bit mm m page true in
    let mm := mm <| mm_stats := mm_stats mm
                <| page_allocations := page_allocations (mm_stats mm) +w 1 |> |> in
    mm ← update_memory_stats mm m;
    Some (page *w PAGE_SIZE, (mm, m)).

Definition free_physical_page (mm : mm_state) (m : ram) (page : Z) : option (mm_state * ram) :=
  let page_num := page / PAGE_SIZE in
  if page_num <? bitmap_size mm *w 32 then
    let m := set_bitmap_bit mm m page_num false in
    let mm := mm <| mm_stats := mm_stats mm
                <| page_deallocations := page_deallocations (mm_stats mm) +w 1 |> |> in
    mm ← update_memory_stats mm m;
    Some (mm, m)
  else Some (mm, m).

(** ** The bitmap as a set of pages *)

Definition MAX_PAGES : Z := 65536.

Definition page_used (mm : mm_state) (m : ram) (p : Z) : bool :=
  Z.testbit (bitmap_word mm m (p / 32)) (p mod 32).

Record bitmap_inv (mm : mm_state) : Prop := {
  bi_base : physical_page_bitmap mm = 0x500000;
  bi_size : bitmap_size mm = 2048;
}.

Definition bitmap_cells : Z → Prop := span 0x500000 8192.

(** ** Bits of a 32-bit word *)

Lemma u32_testbit x i : 0 <= i < 32 → Z.testbit (u32 x) i = Z.testbit x i.
Proof. intros. unfold u32. change 4294967296 with (2 ^ 32). apply Z.mod_pow2_bits_low. lia. Qed.

Lemma shiftl_1_testbit b i : 0 <= b → 0 <= i → Z.testbit (Z.shiftl 1 b) i = (i =? b).
Proof.
  intros. rewrite Z.shiftl_spec by lia. destruct (Z.eqb_spec i b) as [->|].
  - rewrite Z.sub_diag. done.
  - destruct (decide (i < b)); [by rewrite Z.testbit_neg_r by lia|].
    rewrite (Z.bits_above_log2 1); [done|lia|]. simpl. lia.
Qed.

Lemma land_bit_zero w b : 0 <= b → (Z.land w (Z.shiftl 1 b) =? 0) = negb (Z.testbit w b).
Proof.
  intros Hb. destruct (Z.testbit w b) eqn:Hw.
  - apply Z.eqb_neq. intros H. apply (f_equal (λ z, Z.testbit z b)) in H.
    rewrite Z.land_spec, Hw, shiftl_1_testbit, Z.eqb_refl, Z.bits_0 in H by lia. done.
  - apply Z.eqb_eq. apply Z.bits_inj'. intros i Hi.
    rewrite Z.land_spec, shiftl_1_testbit, Z.bits_0 by lia.
    destruct (Z.eqb_spec i b) as [->|]; [by rewrite Hw|apply andb_false_r].
Qed.

Lemma word_not_full w :
  is_u32 w → w ≠ 0xFFFFFFFF → ∃ j, 0 <= j < 32 ∧ Z.testbit w j = false.
Proof.
  intros Hw Hne.
  destruct (for_first 32 0 (λ j, if Z.testbit w j then None else Some j)) as [a|] eqn:E.
  - apply for_first_Some in E as (j & Hj & Ht & _). exists j. split; [lia|].
    by destruct (Z.testbit w j).
  - exfalso. apply Hne. rewrite for_first_None in E.
    change 0xFFFFFFFF with (Z.ones 32). apply Z.bits_inj'. intros i Hi.
    destruct (decide (i < 32)) as [Hlt|].
    + rewrite Z.ones_spec_low by lia. specialize (E i ltac:(lia)).
      by destruct (Z.testbit w i).
    + rewrite Z.ones_spec_high by lia. rewrite <- (u32_small w) by done.
      unfold u32. change 4294967296 with (2 ^ 32). apply Z.mod_pow2_bits_high. lia.
Qed.

Lemma get_bitmap_bit_used mm m p : get_bitmap_bit mm m p = page_used mm m p.
Proof.
  unfold get_bitmap_bit, page_used. rewrite land_bit_zero by word_lia. apply negb_involutive.
Qed.

Lemma page_index_eq p q : p / 32 = q / 32 → p mod 32 = q mod 32 → p = q.
Proof. intros. word_lia. Qed.

(** ** The operations on the set *)

Lemma set_bitmap_bit_used mm m p b q :
  page_used mm (set_bitmap_bit mm m p b) q = if q =? p then b else page_used mm m q.
Proof.
  unfold page_used, set_bitmap_bit, bitmap_word.
  set (w := rd32 m (physical_page_bitmap mm + 4 * (p / 32))).
  assert (0 <= p mod 32 < 32 ∧ 0 <= q mod 32 < 32) as [Hp Hq] by word_lia.
  destruct (decide (q / 32 = p / 32)) as [He|Hne].
  - rewrite He, rd32_wr32_eq, u32_testbit by done.
    assert ((q =? p) = (q mod 32 =? p mod 32)) as ->.
    { destruct (Z.eqb_spec q p) as [->|]; symmetry; [apply Z.eqb_refl|].
      apply Z.eqb_neq. intros ?. by apply page_index_eq in He. }
    destruct b.
    + rewrite Z.lor_spec, shiftl_1_testbit by lia.
      destruct (q mod 32 =? p mod 32); [apply orb_true_r|apply orb_false_r].
    + rewrite Z.land_spec, u32_testbit, Z.lnot_spec, shiftl_1_testbit by lia.
      destruct (q mod 32 =? p mod 32); [apply andb_false_r|apply andb_true_r].
  - rewrite rd32_wr32_ne by lia. destruct (Z.eqb_spec q p) as [->|]; [done|done].
Qed.

Lemma set_bitmap_bit_only mm m p b :
  bitmap_inv mm → 0 <= p < MAX_PAGES → only m bitmap_cells (set_bitmap_bit mm m p b).
Proof.
  intros [Hb _] Hp. eapply only_mono; [apply only_wr32|].
  rewrite Hb. unfold bitmap_cells, span, MAX_PAGES in *. word_lia.
Qed.

Lemma find_free_ok mm m :
  bitmap_inv mm →
  (∃ p, find_free_physical_page mm m = p ∧ 0 <= p < MAX_PAGES ∧ page_used mm m p = false ∧
        ∀ q, 0 <= q < p → page_used mm m q = true) ∨
  (find_free_physical_page mm m = 0 ∧ ∀ q, 0 <= q < MAX_PAGES → page_used mm m q = true).
Proof.
  intros [_ Hsz]. unfold find_free_physical_page. rewrite Hsz.
  assert (∀ i, 0 <= i < 2048 → ∀ q, i * 32 <= q < i * 32 + 32 →
            bitmap_word mm m i = 0xFFFFFFFF → page_used mm m q = true) as Hfull.
  { intros i Hi q Hq Hw. unfold page_used. replace (q / 32) with i by word_lia.
    rewrite Hw. change 0xFFFFFFFF with (Z.ones 32). apply Z.ones_spec_low. word_lia. }
  assert (∀ i j, 0 <= i → 0 <= j < 32 → page_used mm m (i * 32 + j)
            = Z.testbit (bitmap_word mm m i) j) as Hidx.
  { intros i j Hi Hj. unfold page_used. f_equal; [f_equal|]; word_lia. }
  match goal with |- context [for_first ?n ?z ?t] =>
    destruct (for_first n z t) as [p|] eqn:E end; simpl default.
  - left. exists p. split; [done|].
    apply for_first_Some in E as (i & Hi & Ht & Hbefore).
    change (Z.of_nat (Z.to_nat 2048)) with 2048 in Hi.
    destruct (Z.eqb_spec (bitmap_word mm m i) 0xFFFFFFFF); [done|].
    apply for_first_Some in Ht as (j & Hj & Ht & Hjb).
    rewrite land_bit_zero in Ht by lia.
    destruct (Z.testbit _ j) eqn:Hbit; [done|]. simpl in Ht. injection Ht as <-.
    assert (i *w 32 +w j = i * 32 + j) as -> by word_lia.
    split; [unfold MAX_PAGES; lia|]. split; [by rewrite Hidx by lia|].
    intros q Hq. replace q with (q / 32 * 32 + q mod 32) by word_lia.
    assert (0 <= q / 32 <= i ∧ 0 <= q mod 32 < 32) as [Hqi Hqm] by word_lia.
    destruct (decide (q / 32 = i)) as [He|].
    + rewrite He, Hidx by lia. specialize (Hjb (q mod 32) ltac:(word_lia)).
      rewrite land_bit_zero in Hjb by lia. by destruct (Z.testbit _ (q mod 32)).
    + specialize (Hbefore (q / 32) ltac:(lia)).
      destruct (Z.eqb_spec (bitmap_word mm m (q / 32)) 0xFFFFFFFF) as [Hw|Hw].
      * apply (Hfull (q / 32)); [lia|word_lia|done].
      * rewrite for_first_None in Hbefore. rewrite Hidx by lia.
        specialize (Hbefore (q mod 32) ltac:(lia)).
        rewrite land_bit_zero in Hbefore by lia. by destruct (Z.testbit _ (q mod 32)).
  - right. split; [done|]. rewrite for_first_None in E. intros q Hq. unfold MAX_PAGES in Hq.
    specialize (E (q / 32) ltac:(word_lia)). simpl in E.
    destruct (Z.eqb_spec (bitmap_word mm m (q / 32)) 0xFFFFFFFF) as [Hw|Hw].
    + apply (Hfull (q / 32)); [word_lia|word_lia|done].
    + rewrite for_first_None in E. unfold page_used. specialize (E (q mod 32) ltac:(word_lia)).
      rewrite land_bit_zero in E by word_lia. by destruct (Z.testbit _ (q mod 32)).
Qed.

Definition boot_pages (mm : mm_state) (m : ram) : Prop :=
  ∀ q, 0 <= q < MAX_PAGES → page_used mm m q = (q <? 1536).

Lemma init_bitmap_ok mm m :
  let '(mm', m') := init_physical_page_bitmap mm m in
  bitmap_inv mm' ∧ mm' = mm <| bitmap_size := 2048 |> <| physical_page_bitmap := 0x500000 |> ∧
  boot_pages mm' m' ∧ only m bitmap_cells m'.
Proof.
  unfold init_physical_page_bitmap. cbv zeta.
  set (mm1 := set_field physical_page_bitmap _ _).
  assert (bitmap_inv mm1) as Hinv by done.
  split; [done|]. split; [done|]. change (bitmap_size mm1 *w 4) with 8192.
  change (physical_page_bitmap mm1) with 0x500000.
  set (m1 := memset m 0x500000 0 8192).
  assert (∀ q, 0 <= q < MAX_PAGES → page_used mm1 m1 q = false) as Hzero.
  { intros q Hq. unfold page_used, bitmap_word, m1. rewrite (bi_base _ Hinv).
    unfold MAX_PAGES in Hq.
    rewrite memset_zero_rd32 by word_lia. apply Z.bits_0. }
  assert (only m bitmap_cells m1) as Ho by apply memset_only.
  clearbody m1 mm1.
  apply (for_z_inv (λ j m', (∀ q, 0 <= q < MAX_PAGES → page_used mm1 m' q = (q <? j)) ∧
                            only m bitmap_cells m')
           (Z.to_nat (0x600000 / PAGE_SIZE)) 0).
  - split; [|done]. intros q Hq. rewrite Hzero by done. symmetry. apply Z.ltb_ge. lia.
  - intros j m' Hj [Hused Ho'].
    change (Z.of_nat (Z.to_nat (0x600000 / PAGE_SIZE))) with 1536 in Hj. split.
    + intros q Hq. rewrite set_bitmap_bit_used, Hused by done.
      repeat ztest; lia || done.
    + eapply only_trans; [done|]. apply set_bitmap_bit_only; [done|]. unfold MAX_PAGES. lia.
Qed.

(** The state in which pages are allocated: the bitmap in place, page 0 taken,
    and a well-formed heap (its statistics are recomputed by every call). *)
Record pages_inv (mm : mm_state) (m : ram) (l : list blk) : Prop := {
  pi_bitmap : bitmap_inv mm;
  pi_zero : page_used mm m 0 = true;
  pi_heap : heap_inv mm m l;
}.

Lemma heap_inv_frame mm m m' l P :
  heap_inv mm m l → only m P m' →
  (∀ a, P a → ¬ span KERNEL_HEAP_START KERNEL_HEAP_SIZE a) → heap_inv mm m' l.
Proof.
  intros [? ? Hat Hend Hok ?] Ho HP. split; try done.
  eapply blocks_at_frame; [exact Ho| |done]. intros a Ha%header_cells_range HPa; [|done].
  apply (HP _ HPa). rewrite Hend in Ha. unfold span. lia.
Qed.

Lemma heap_inv_bitmap mm m m' l :
  heap_inv mm m l → only m bitmap_cells m' → heap_inv mm m' l.
Proof.
  intros Hinv Ho. eapply heap_inv_frame; [done|exact Ho|].
  unfold bitmap_cells, span. heap_consts. lia.
Qed.

Lemma set_bit_stats_ok mm m l p b st :
  pages_inv mm m l → 0 <= p < MAX_PAGES →
  let m' := set_bitmap_bit mm m p b in
  let mm1 := mm <| mm_stats := st |> in
  update_memory_stats mm1 m' = Some (with_heap_stats mm1 l) ∧
  only m bitmap_cells m' ∧ heap_inv (with_heap_stats mm1 l) m' l ∧
  ∀ q, page_used (with_heap_stats mm1 l) m' q = if q =? p then b else page_used mm m q.
Proof.
  intros [Hb Hz Hh] Hp m' mm1. pose proof (set_bitmap_bit_only mm m p b Hb Hp) as Ho.
  pose proof (heap_inv_stats _ _ _ (heap_inv_bitmap _ _ _ _ Hh Ho) st : heap_inv mm1 m' l) as Hh'.
  split_and!; [by apply update_memory_stats_ok|exact Ho|by apply heap_inv_stats|].
  intros q. apply (set_bitmap_bit_used mm m p b q).
Qed.

Lemma alloc_page_ok mm m l :
  pages_inv mm m l →
  (∃ p mm' m', alloc_physical_page mm m = Some (p * PAGE_SIZE, (mm', m')) ∧
     0 < p < MAX_PAGES ∧ page_used mm m p = false ∧
     (∀ q, 0 <= q < p → page_used mm m q = true) ∧
     pages_inv mm' m' l ∧ only m bitmap_cells m' ∧
     ∀ q, page_used mm' m' q = (q =? p) || page_used mm m q) ∨
  (alloc_physical_page mm m = Some (0, (mm, m)) ∧
     ∀ q, 0 <= q < MAX_PAGES → page_used mm m q = true).
Proof.
  intros Hinv. pose proof Hinv as [Hb Hz Hh]. unfold alloc_physical_page.
  destruct (find_free_ok mm m Hb) as [(p & Hf & Hp & Hfree & Hlow)|[Hf Hall]];
    rewrite Hf; [left|by right].
  assert (p ≠ 0) as Hp0 by congruence.
  rewrite (proj2 (Z.eqb_neq p 0)) by done.
  edestruct (set_bit_stats_ok mm m l p true) as (-> & Ho & Hh' & Hu); [done|done|].
  simpl mbind. assert (p *w PAGE_SIZE = p * PAGE_SIZE) as ->.
  { unfold MAX_PAGES, PAGE_SIZE in *. word_lia. }
  exists p. do 2 eexists. split; [done|]. split_and!; [lia|lia|done|done| |exact Ho|].
  - split; [by destruct Hb|rewrite Hu, Hz; by ztest|exact Hh'].
  - intros q. rewrite Hu. by destruct (q =? p).
Qed.

Lemma free_page_ok mm m l a :
  pages_inv mm m l → PAGE_SIZE <= a < 4294967296 →
  if a / PAGE_SIZE <? MAX_PAGES then
    ∃ mm' m', free_physical_page mm m a = Some (mm', m') ∧
      pages_inv mm' m' l ∧ only m bitmap_cells m' ∧
      ∀ q, page_used mm' m' q = negb (q =? a / PAGE_SIZE) && page_used mm m q
  else free_physical_page mm m a = Some (mm, m).
Proof.
  intros Hinv Ha. pose proof Hinv as [Hb Hz Hh]. unfold free_physical_page.
  rewrite (bi_size _ Hb). change (2048 *w 32) with MAX_PAGES.
  destruct (Z.ltb_spec (a / PAGE_SIZE) MAX_PAGES) as [Hlt|]; [|done].
  edestruct (set_bit_stats_ok mm m l (a / PAGE_SIZE) false) as (-> & Ho & Hh' & Hu);
    [done|unfold PAGE_SIZE in *; word_lia|].
  simpl mbind. do 2 eexists. split; [done|]. split_and!; [|exact Ho|].
  - split; [by destruct Hb| |exact Hh']. rewrite Hu, Hz. unfold PAGE_SIZE in *.
    ztest; [word_lia|done].
  - intros q. rewrite Hu. by destruct (q =? a / PAGE_SIZE).
Qed.

(** [n] successive calls of [alloc_physical_page]. *)
Fixpoint alloc_pages (n : nat) (mm : mm_state) (m : ram) :
    option (list Z * (mm_state * ram)) :=
  match n with
  | O => Some ([], (mm, m))
  | S n' =>
      '(a, (mm, m)) ← alloc_physical_page mm m;
      '(l, s) ← alloc_pages n' mm m;
      Some (a :: l, s)
  end.

Lemma alloc_pages_ok n mm m l k :
  pages_inv mm m l → 0 < k → k + Z.of_nat n <= MAX_PAGES →
  (∀ q, 0 <= q < MAX_PAGES → page_used mm m q = (q <? k)) →
  ∃ mm' m', alloc_pages n mm m =
    Some ((λ i, (k + i) * PAGE_SIZE) <$> seqZ 0 (Z.of_nat n), (mm', m')).
Proof.
  revert mm m k. induction n as [|n IH]; intros mm m k Hinv Hk Hn Hused; [by eauto|].
  cbn [alloc_pages].
  destruct (alloc_page_ok mm m l Hinv) as [(p & mm1 & m1 & -> & Hp & Hfree & Hlow & Hinv1 & _ & Hu)
    |[_ Hall]].
  - assert (p = k) as ->.
    { rewrite Hused in Hfree by lia. apply Z.ltb_ge in Hfree.
      destruct (decide (p = k)); [done|].
      specialize (Hlow k ltac:(lia)). rewrite Hused, Z.ltb_irrefl in Hlow by lia. done. }
    simpl mbind. destruct (IH mm1 m1 (k + 1) Hinv1) as (mm' & m' & ->); [lia|lia| |].
    { intros q Hq. rewrite Hu, Hused by done. repeat ztest; simpl; lia || done. }
    simpl. exists mm', m'. repeat f_equal.
    rewrite (seqZ_cons 0 (Z.of_nat (S n))) by lia.
    rewrite fmap_cons. f_equal; [lia|].
    replace (Z.pred (Z.of_nat (S n))) with (Z.of_nat n) by lia.
    apply list_eq. intros i. rewrite !list_lookup_fmap.
    destruct (decide (Z.of_nat i < Z.of_nat n)).
    + rewrite !lookup_seqZ_lt by lia. simpl. f_equal. lia.
    + rewrite !lookup_seqZ_ge by lia. done.
  - specialize (Hall k ltac:(lia)). rewrite Hused, Z.ltb_irrefl in Hall by lia. done.
Qed.

(** ** Properties *)

(** C38: allocating a physical page always returns: it yields the lowest page
    whose bit is clear and marks exactly that page (never a page in use), and 0
    with nothing changed when every page is in use; the heap is untouched. *)
Theorem alloc_physical_page_lowest mm m l :
  pages_inv mm m l →
  (∃ p mm' m', alloc_physical_page mm m = Some (p * PAGE_SIZE, (mm', m')) ∧
     0 < p < MAX_PAGES ∧ page_used mm m p = false ∧
     (∀ q, 0 <= q < p → page_used mm m q = true) ∧
     pages_inv mm' m' l ∧ only m bitmap_cells m' ∧
     ∀ q, page_used mm' m' q = (q =? p) || page_used mm m q) ∨
  (alloc_physical_page mm m = Some (0, (mm, m)) ∧
     ∀ q, 0 <= q < MAX_PAGES → page_used mm m q = true).
Proof. apply alloc_page_ok. Qed.

(** Freeing the page at an address below 256 MB clears exactly its bit, and
    does nothing beyond; freeing what [alloc_physical_page] returned restores the set
    of used pages. *)
Theorem free_physical_page_releases mm m l a :
  pages_inv mm m l → PAGE_SIZE <= a < 4294967296 →
  if a / PAGE_SIZE <? MAX_PAGES then
    ∃ mm' m', free_physical_page mm m a = Some (mm', m') ∧
      pages_inv mm' m' l ∧ only m bitmap_cells m' ∧
      ∀ q, page_used mm' m' q = negb (q =? a / PAGE_SIZE) && page_used mm m q
  else free_physical_page mm m a = Some (mm, m).
Proof. apply free_page_ok. Qed.

(** After initialisation, successive allocations return the consecutive pages
    from 6 MB upwards.  The 257th is therefore 7 MB, the frame in which
    [create_page_table] has put the first page table: the page-table region is
    not reserved in the bitmap. *)
Theorem alloc_pages_consecutive mm m l n :
  pages_inv mm m l → boot_pages mm m → Z.of_nat n <= MAX_PAGES - 1536 →
  ∃ mm' m', alloc_pages n mm m =
      Some ((λ i, 0x600000 + i * PAGE_SIZE) <$> seqZ 0 (Z.of_nat n), (mm', m')) ∧
    ((256 < n)%nat →
     ((λ i, 0x600000 + i * PAGE_SIZE) <$> seqZ 0 (Z.of_nat n)) !! 256%nat
       = Some (next_page_table_addr mm_boot)).
Proof.
  intros Hinv Hboot Hn.
  destruct (alloc_pages_ok n mm m l 1536 Hinv) as (mm' & m' & H); [lia|lia|done|].
  exists mm', m'. split.
  - rewrite H. do 2 f_equal. apply list_fmap_ext. intros _ i _. unfold PAGE_SIZE. lia.
  - intros. rewrite list_lookup_fmap, lookup_seqZ_lt by lia. done.
Qed.

(** The memory manager after [init_physical_page_bitmap] and [heap_init]. *)
Definition demo_pages : mm_state * machine :=
  let '(mm, m) := init_physical_page_bitmap mm_boot ∅ in
  heap_init mm (blank_machine <| mem := m |>).
Lemma demo_pages_inv :
  pages_inv demo_pages.1 (mem demo_pages.2) fresh_heap ∧
  boot_pages demo_pages.1 (mem demo_pages.2).
Proof.
  unfold demo_pages. pose proof (init_bitmap_ok mm_boot ∅) as H.
  destruct (init_physical_page_bitmap mm_boot ∅) as [mm m]. destruct H as (Hb & _ & Hboot & _).
  assert (term_ok (blank_machine <| mem := m |>)) as Hterm by exact blank_machine_ok.
  destruct (heap_init_ok mm (blank_machine <| mem := m |>) Hterm) as (Hh & _ & Ho).
  change (mem (blank_machine <| mem := m |>)) with m in Ho.
  assert (∀ q, 0 <= q < MAX_PAGES →
    page_used (heap_init mm (blank_machine <| mem := m |>)).1
      (mem (heap_init mm (blank_machine <| mem := m |>)).2) q = page_used mm m q) as Hu.
  { intros q Hq. unfold page_used, bitmap_word. f_equal.
    change (physical_page_bitmap (heap_init ?a ?b).1) with (physical_page_bitmap a).
    rewrite (bi_base _ Hb). eapply only_rd32; [exact Ho|].
    unfold framebuffer, span. vga_consts. heap_consts. unfold MAX_PAGES in Hq. word_lia. }
  split; [split|].
  - destruct Hb. by split.
  - by rewrite Hu, Hboot.
  - exact Hh.
  - intros q Hq. by rewrite Hu, Hboot.
Qed.
#[global] Opaque demo_pages.

Lemma alloc_physical_page_lowest_witness :
  pages_inv demo_pages.1 (mem demo_pages.2) fresh_heap ∧
  ∃ p s, alloc_physical_page demo_pages.1 (mem demo_pages.2) = Some (p, s).
Proof.
  destruct demo_pages_inv as [H _]. split; [exact H|].
  destruct (alloc_physical_page_lowest _ _ _ H) as [(p & mm' & m' & Ha & _)|[Ha _]]; eauto.
Defined.

Lemma free_physical_page_releases_witness :
  ∃ mm' m', free_physical_page demo_pages.1 (mem demo_pages.2) 0x600000 = Some (mm', m') ∧
    page_used mm' m' 1536 = false.
Proof.
  pose proof (free_physical_page_releases _ _ _ 0x600000 (proj1 demo_pages_inv) ltac:(done)) as H.
  destruct H as (mm' & m' & H & _ & _ & Hu). exists mm', m'. split; [done|]. by rewrite Hu.
Defined.

Lemma alloc_pages_consecutive_witness :
  ∃ mm' m', alloc_pages 257 demo_pages.1 (mem demo_pages.2) =
      Some ((λ i, 0x600000 + i * PAGE_SIZE) <$> seqZ 0 257, (mm', m')).
Proof.
  destruct (alloc_pages_consecutive _ _ _ 257 (proj1 demo_pages_inv) (proj2 demo_pages_inv)
    ltac:(done)) as (mm' & m' & H & _).
  exists mm', m'. exact H.
Defined.
