(* ===== verification/Paging.v ===== *)
(** * Page tables and memory contexts (kernel/memory.c)

    The two-level page tables as memory.c builds them in physical memory:
    directory and table entries are 32-bit words with the bit fields of
    [page_entry_t].  [mapping] reads the tables as a function from virtual pages to
    frames; mapping and unmapping update that function at one page. *)

From S2P Require Import Prelude Ram CString Vga Memory Heap HeapCorrect PhysPages.
Set Default Goal Selector "!".

(** ** Page entries

    A bit field of width [w] at bit [lo] of an entry. *)
Definition field_get (lo w e : Z) : Z := Z.land (Z.shiftr e lo) (Z.ones w).
Definition field_set (lo w e v : Z) : Z :=
  Z.lor (Z.land e (Z.lnot (Z.shiftl (Z.ones w) lo)))
        (Z.shiftl (Z.land v (Z.ones w)) lo).

(** The fields of [page_entry_t] the code uses. *)
Definition pe_present (e : Z) : Z := field_get 0 1 e.
Definition pe_rw (e : Z) : Z := field_get 1 1 e.
Definition pe_user (e : Z) : Z := field_get 2 1 e.
Definition pe_global (e : Z) : Z := field_get 8 1 e.
Definition pe_address (e : Z) : Z := field_get 12 20 e.

(** Assigning a field of the entry stored at [a]. *)
Definition set_entry (lo w : Z) (m : ram) (a v : Z) : ram :=
  wr32 m a (field_set lo w (rd32 m a) v).
Definition set_pe_present := set_entry 0 1.
Definition set_pe_rw := set_entry 1 1.
Definition set_pe_user := set_entry 2 1.
Definition set_pe_global := set_entry 8 1.
Definition set_pe_address := set_entry 12 20.

(** ** Operations *)

Definition align_to_page (addr : Z) : Z :=
  Z.land (addr +w PAGE_SIZE -w 1) (u32 (Z.lnot (PAGE_SIZE - 1))).
Definition get_page_directory_index (virtual_addr : Z) : Z :=
  Z.land (Z.shiftr virtual_addr 22) 0x3FF.
Definition get_page_table_index (virtual_addr : Z) : Z :=
  Z.land (Z.shiftr virtual_addr 12) 0x3FF.
Definition get_page_offset (virtual_addr : Z) : Z := Z.land virtual_addr 0xFFF.
Definition is_page_aligned (addr : Z) : bool := Z.land addr (PAGE_SIZE - 1) =? 0.

(** [entries\[i\]] of the directory or table at [base]. *)
Definition entry_at (base i : Z) : Z := base + 4 * i.

Definition create_page_table (mm : mm_state) (m : ram) : Z * (mm_state * ram) :=
  let page_addr := next_page_table_addr mm in
  let mm := mm <| next_page_table_addr := next_page_table_addr mm +w PAGE_SIZE |> in
  let m := memset m page_addr 0 4096 in
  (page_addr, (mm, m)).

Definition get_current_page_directory (mm : mm_state) : Z := current_page_directory mm.

Definition destroy_page_table (mm : mm_state) (m : ram) (pt : Z) : option (mm_state * ram) :=
  if pt =? 0 then Some (mm, m) else free_physical_page mm m pt.

(** The page table a directory entry points to: [address << 12]. *)
Definition table_of (pde : Z) : Z := u32 (Z.shiftl (pe_address pde) 12).

Definition flag_bit (flags f : Z) : Z := if Z.land flags f =? 0 then 0 else 1.

(** The directory entry of [map_page], created when it is absent: [None] is the
    early [return false]. *)
Definition ensure_table (mm : mm_state) (m : ram) (pde : Z) : option unit * (mm_state * ram) :=
  if pe_present (rd32 m pde) =? 0 then
    let '(pt, (mm, m)) := create_page_table mm m in
    if pt =? 0 then (None, (mm, m))
    else
      let m := set_pe_address m pde (Z.shiftr pt 12) in
      let m := set_pe_present m pde 1 in
      let m := set_pe_rw m pde 1 in
      let m := set_pe_user m pde 1 in
      (Some tt, (mm, m))
  else (Some tt, (mm, m)).

(** The five assignments to the table entry at [pte]. *)
Definition fill_entry (m : ram) (pte physical_addr flags : Z) : ram :=
  let m := set_pe_address m pte (Z.shiftr physical_addr 12) in
  let m := set_pe_present m pte (flag_bit flags PAGE_PRESENT) in
  let m := set_pe_rw m pte (flag_bit flags PAGE_WRITABLE) in
  let m := set_pe_user m pte (flag_bit flags PAGE_USER) in
  set_pe_global m pte (flag_bit flags PAGE_GLOBAL).

Definition map_page (mm : mm_state) (m : ram) (virtual_addr physical_addr flags : Z) :
    bool * (mm_state * ram) :=
  let pde := entry_at (current_page_directory mm) (get_page_directory_index virtual_addr) in
  let '(ok, (mm, m)) := ensure_table mm m pde in
  match ok with
  | None => (false, (mm, m))
  | Some _ =>
      let pt := table_of (rd32 m pde) in
      let pte := entry_at pt (get_page_table_index virtual_addr) in
      (true, (mm, fill_entry m pte physical_addr flags))
  end.

Definition unmap_page (mm : mm_state) (m : ram) (virtual_addr : Z) : bool * ram :=
  let pde := entry_at (current_page_directory mm) (get_page_directory_index virtual_addr) in
  if pe_present (rd32 m pde) =? 0 then (false, m)
  else
    let pt := table_of (rd32 m pde) in
    (true, set_pe_present m (entry_at pt (get_page_table_index virtual_addr)) 0).

Definition get_physical_address (mm : mm_state) (m : ram) (virtual_addr : Z) : Z :=
  let pde := rd32 m (entry_at (current_page_directory mm) (get_page_directory_index virtual_addr)) in
  if pe_present pde =? 0 then 0
  else
    let pte := rd32 m (entry_at (table_of pde) (get_page_table_index virtual_addr)) in
    if pe_present pte =? 0 then 0
    else Z.lor (u32 (Z.shiftl (pe_address pte) 12)) (get_page_offset virtual_addr).

Definition setup_identity_paging (s : mm_state * ram) : mm_state * ram :=
  for_z 1024 0 (λ i s,
    let physical_addr := i *w PAGE_SIZE in
    let virtual_addr := physical_addr in
    (map_page s.1 s.2 virtual_addr physical_addr
       (Z.lor (Z.lor PAGE_PRESENT PAGE_WRITABLE) PAGE_GLOBAL)).2) s.

Definition setup_kernel_paging (s : mm_state * ram) : mm_state * ram :=
  let kernel_start := 0x100000 in
  let kernel_size := 0x100000 in
  for_z (Z.to_nat (kernel_size / PAGE_SIZE)) 0 (λ i s,
    let physical_addr := kernel_start +w (i *w PAGE_SIZE) in
    let virtual_addr := physical_addr in
    (map_page s.1 s.2 virtual_addr physical_addr
       (Z.lor PAGE_PRESENT PAGE_WRITABLE)).2) s.

Definition paging_init (mm : mm_state) (k : machine) : mm_state * machine :=
  let k := vga_putstr k (lit "Setting up paging..." ++ [10]) in
  let mm := mm <| current_page_directory := 0x1000000 |> in
  let m := memset (mem k) (current_page_directory mm) 0 4096 in
  let '(mm, m) := setup_identity_paging (mm, m) in
  let '(mm, m) := setup_kernel_paging (mm, m) in
  let k := vga_putstr (k <| mem := m |>) (lit "Paging setup completed (not enabled)" ++ [10]) in
  (mm, k).

Definition memory_init (mm : mm_state) (k : machine) : mm_state * machine :=
  let k := vga_putstr k (lit "Initializing memory management..." ++ [10]) in
  let mm := mm <| mm_stats := MkMemoryStats 0 0 0 0 0 0 0 0 |> in
  let mm := mm <| mm_stats := mm_stats mm <| total_memory := 0x10000000 |> |> in
  let mm := mm <| mm_stats := mm_stats mm <| free_memory := total_memory (mm_stats mm) |> |> in
  let '(mm, m) := init_physical_page_bitmap mm (mem k) in
  let '(mm, k) := paging_init mm (k <| mem := m |>) in
  let '(mm, k) := heap_init mm k in
  let k := vga_putstr k (lit "Memory management initialized successfully!" ++ [10]) in
  (mm, k).

Definition is_page_allocated (mm : mm_state) (m : ram) (page : Z) : bool :=
  get_bitmap_bit mm m (page / PAGE_SIZE).
Definition mark_page_allocated (mm : mm_state) (m : ram) (page : Z) : ram :=
  set_bitmap_bit mm m (page / PAGE_SIZE) true.
Definition mark_page_free (mm : mm_state) (m : ram) (page : Z) : ram :=
  set_bitmap_bit mm m (page / PAGE_SIZE) false.

(** *** Memory contexts: a [memory_context_t] is four words on the heap. *)

Definition create_memory_context (mm : mm_state) (m : ram) :
    option (Z * (mm_state * ram)) :=
  '(ctx, (mm, m)) ← kmalloc mm m 16;
  if ctx =? 0 then Some (0, (mm, m))
  else
    let m := wr32 m ctx (current_page_directory mm) in
    let m := wr32 m (ctx + 4) 0 in
    let m := wr32 m (ctx + 8) USER_SPACE_START in
    let m := wr32 m (ctx + 12) (USER_SPACE_START +w USER_SPACE_SIZE) in
    Some (ctx, (mm, m)).

Definition destroy_memory_context (mm : mm_state) (m : ram) (ctx : Z) :
    option (mm_state * ram) :=
  if ctx =? 0 then Some (mm, m) else kfree mm m ctx.

(** The globals after the switch; the load of CR3 is an assembly routine. *)
Definition switch_memory_context (mm : mm_state) (m : ram) (ctx : Z) : mm_state :=
  if (ctx =? 0) || (rd32 m ctx =? 0) then mm
  else mm <| current_page_directory := rd32 m ctx |>.

Definition map_memory_region (ctx start end_ flags : Z) : bool := true.
Definition unmap_memory_region (ctx start end_ : Z) : bool := true.

(** *** Reports *)

Definition print_memory_info (mm : mm_state) (k : machine) : machine :=
  let st := mm_stats mm in
  let k := vga_putstr k (lit "=== Memory Information ===" ++ [10]) in
  let k := vga_putstr k (lit "Total Memory: ") in
  let k := vga_puthex k (total_memory st) in
  let k := vga_putstr k (lit " bytes" ++ [10]) in
  let k := vga_putstr k (lit "Used Memory: ") in
  let k := vga_puthex k (used_memory st) in
  let k := vga_putstr k (lit " bytes" ++ [10]) in
  let k := vga_putstr k (lit "Free Memory: ") in
  let k := vga_puthex k (free_memory st) in
  let k := vga_putstr k (lit " bytes" ++ [10]) in
  let k := vga_putstr k (lit "Page Allocations: ") in
  let k := vga_puthex k (page_allocations st) in
  let k := vga_putstr k [10] in
  let k := vga_putstr k (lit "Page Deallocations: ") in
  let k := vga_puthex k (page_deallocations st) in
  let k := vga_putstr k [10] in
  let k := vga_putstr k (lit "Page Faults: ") in
  let k := vga_puthex k (page_faults st) in
  vga_putstr k [10].

Definition memory_type_text (code : Z) : list Z :=
  if code =? 0 then lit "FREE"
  else if code =? 1 then lit "ALLOCATED"
  else if code =? 2 then lit "RESERVED"
  else if code =? 3 then lit "KERNEL" else [].

Definition print_map_step (s : machine * Z) : machine * Z + machine :=
  let '(k, current) := s in
  if current =? 0 then inr k
  else
    let k := vga_puthex k (blk_start_addr (mem k) current) in
    let k := vga_putstr k [9] in
    let k := vga_puthex k (blk_size (mem k) current) in
    let k := vga_putstr k [9; 9] in
    let k := vga_putstr k (memory_type_text (blk_type (mem k) current)) in
    let k := vga_putstr k [10] in
    inl (k, blk_next (mem k) current).

Definition print_memory_map (mm : mm_state) (k : machine) : option machine :=
  let k := vga_putstr k (lit "=== Memory Map ===" ++ [10]) in
  let k := vga_putstr k (lit "Address" ++ [9; 9] ++ lit "Size" ++ [9; 9] ++ lit "Type" ++ [10]) in
  let k := vga_putstr k (lit "----------------------------------------" ++ [10]) in
  loop heap_fuel print_map_step (k, memory_map mm).

Definition print_page_directory (pd : Z) (k : machine) : machine :=
  let k := vga_putstr k (lit "=== Page Directory ===" ++ [10]) in
  for_z (Z.to_nat PAGE_DIRECTORY_SIZE) 0 (λ i k,
    if pe_present (rd32 (mem k) (entry_at pd i)) =? 0 then k
    else
      let k := vga_putstr k (lit "PD[") in
      let k := vga_puthex k i in
      let k := vga_putstr k (lit "]: ") in
      let k := vga_puthex k (table_of (rd32 (mem k) (entry_at pd i))) in
      let k := vga_putstr k (lit " (") in
      let k := vga_putstr k (if pe_user (rd32 (mem k) (entry_at pd i)) =? 0
                             then lit "K" else lit "U") in
      let k := vga_putstr k (if pe_rw (rd32 (mem k) (entry_at pd i)) =? 0
                             then lit "R" else lit "W") in
      vga_putstr k (lit ")" ++ [10])) k.
