(* ===== verification/PagingCorrect.v ===== *)
(** * Correctness of the page tables

    Under [pt_inv] (the tables lie in distinct frames between 7 MB and the
    directory at 16 MB) [map_page] and [unmap_page] are point updates of the
    function [mapping], and [paging_init] maps exactly the first 4 MB onto
    themselves. *)

From S2P Require Import Prelude Ram CString Vga Memory Heap HeapCorrect PhysPages Paging.
Set Default Goal Selector "!".

(** ** Bit fields *)

Section fields.
Context (lo w : Z) (Hlo : 0 <= lo) (Hw : 0 <= w).

Lemma ones_testbit i : 0 <= i → Z.testbit (Z.ones w) i = (i <? w).
Proof. intros. apply Z.testbit_ones_nonneg; lia. Qed.

Lemma field_get_testbit e i :
  0 <= i → Z.testbit (field_get lo w e) i = (i <? w) && Z.testbit e (i + lo).
Proof.
  intros. unfold field_get. rewrite Z.land_spec, Z.shiftr_spec, ones_testbit by lia.
  apply andb_comm.
Qed.

Lemma field_set_testbit e v i :
  0 <= i → Z.testbit (field_set lo w e v) i =
    if (lo <=? i) && (i <? lo + w) then Z.testbit v (i - lo) else Z.testbit e i.
Proof.
  intros. unfold field_set.
  rewrite Z.lor_spec, Z.land_spec, Z.lnot_spec, !Z.shiftl_spec by lia.
  destruct (Z.leb_spec lo i); simpl.
  - rewrite Z.land_spec, ones_testbit by lia.
    destruct (Z.ltb_spec i (lo + w)).
    + rewrite (proj2 (Z.ltb_lt (i - lo) w)) by lia. simpl.
      rewrite andb_false_r, andb_true_r. done.
    + rewrite (proj2 (Z.ltb_ge (i - lo) w)) by lia. simpl.
      by rewrite !andb_true_r, andb_false_r, orb_false_r.
  - rewrite !(Z.testbit_neg_r _ (i - lo)) by lia. simpl.
    by rewrite andb_true_r, orb_false_r.
Qed.

Lemma field_get_set_eq e v : field_get lo w (field_set lo w e v) = Z.land v (Z.ones w).
Proof.
  apply Z.bits_inj'. intros i Hi.
  rewrite field_get_testbit, field_set_testbit, Z.land_spec, ones_testbit by lia.
  destruct (Z.ltb_spec i w); simpl; [|by rewrite andb_false_r].
  rewrite andb_true_r. zdecide. f_equal. lia.
Qed.
End fields.

Lemma field_get_set_ne lo w lo' w' e v :
  0 <= lo → 0 <= w → 0 <= lo' → 0 <= w' → lo + w <= lo' ∨ lo' + w' <= lo →
  field_get lo w (field_set lo' w' e v) = field_get lo w e.
Proof.
  intros. apply Z.bits_inj'. intros i Hi.
  rewrite !field_get_testbit, field_set_testbit by lia.
  destruct (Z.ltb_spec i w); [|done]. simpl.
  repeat ztest; simpl; done || lia.
Qed.

Lemma is_u32_bits x :
  0 <= x → (∀ i, 32 <= i → Z.testbit x i = false) → is_u32 x.
Proof.
  intros Hx Hb. split; [done|]. change 4294967296 with (2 ^ 32).
  destruct (decide (x = 0)) as [->|]; [done|]. apply Z.log2_lt_pow2; [lia|].
  destruct (Z.ltb_spec (Z.log2 x) 32); [done|].
  specialize (Hb (Z.log2 x) ltac:(done)).
  rewrite Z.bit_log2 in Hb by lia. done.
Qed.

Lemma field_set_u32 lo w e v :
  0 <= lo → 0 <= w → lo + w <= 32 → is_u32 e → is_u32 (field_set lo w e v).
Proof.
  intros Hlo Hw Hs [He He']. apply is_u32_bits.
  - unfold field_set. apply Z.lor_nonneg. split; [apply Z.land_nonneg; by left|].
    apply Z.shiftl_nonneg. rewrite Z.land_ones by lia. apply Z.mod_pos_bound. lia.
  - intros i Hi. rewrite field_set_testbit by lia. zdecide.
    rewrite <- (u32_small e) by done. unfold u32.
    change 4294967296 with (2 ^ 32). apply Z.mod_pow2_bits_high. lia.
Qed.

Lemma rd32_set_entry lo w m a v :
  0 <= lo → 0 <= w → lo + w <= 32 →
  rd32 (set_entry lo w m a v) a = field_set lo w (rd32 m a) v.
Proof.
  intros. unfold set_entry. rewrite rd32_wr32_eq. apply u32_small, field_set_u32; try done.
  apply rd32_range.
Qed.

Lemma set_entry_only lo w m a v : only m (span a 4) (set_entry lo w m a v).
Proof. apply only_wr32. Qed.

(** Resolve field reads over field writes. *)
Ltac field_simpl :=
  repeat first [ rewrite rd32_set_entry by lia | rewrite field_get_set_eq by lia
               | rewrite field_get_set_ne by lia ].

Ltac pe_unfold :=
  unfold set_pe_present, set_pe_rw, set_pe_user, set_pe_global, set_pe_address,
    pe_present, pe_rw, pe_user, pe_global, pe_address in *.

Lemma flag_bit_land flags f : Z.land (flag_bit flags f) (Z.ones 1) = flag_bit flags f.
Proof. unfold flag_bit. by destruct (_ =? 0). Qed.

Lemma frame_bits pa : is_u32 pa → Z.land (Z.shiftr pa 12) (Z.ones 20) = pa / 4096.
Proof.
  intros. rewrite Z.land_ones, Z.shiftr_div_pow2 by lia.
  change (2 ^ 12) with 4096. change (2 ^ 20) with 1048576. word_lia.
Qed.

Lemma fill_entry_ok m pte pa flags :
  is_u32 pa →
  let e := rd32 (fill_entry m pte pa flags) pte in
  pe_address e = pa / 4096 ∧ pe_present e = flag_bit flags PAGE_PRESENT ∧
  pe_rw e = flag_bit flags PAGE_WRITABLE ∧ pe_user e = flag_bit flags PAGE_USER ∧
  pe_global e = flag_bit flags PAGE_GLOBAL.
Proof.
  intros Hpa. unfold fill_entry. cbv zeta. pe_unfold. field_simpl.
  rewrite frame_bits by done. by rewrite !flag_bit_land.
Qed.

Lemma fill_entry_only m pte pa flags : only m (span pte 4) (fill_entry m pte pa flags).
Proof.
  unfold fill_entry. pe_unfold.
  repeat (eapply only_trans; [|apply set_entry_only]). apply only_refl.
Qed.

(** ** The tables as a function *)

Definition PT_BASE : Z := 0x700000.
Definition PD_BASE : Z := 0x1000000.
Definition paging_cells : Z → Prop := span PT_BASE (PD_BASE + 4096 - PT_BASE).

(** Directory entry [i], and the table it points to. *)
Definition pdw (m : ram) (i : Z) : Z := rd32 m (entry_at PD_BASE i).

(** The present table entry of virtual page [vpn]. *)
Definition table_entry (mm : mm_state) (m : ram) (vpn : Z) : option Z :=
  let pde := rd32 m (entry_at (current_page_directory mm) (vpn / 1024)) in
  if pe_present pde =? 0 then None
  else
    let pte := rd32 m (entry_at (table_of pde) (vpn mod 1024)) in
    if pe_present pte =? 0 then None else Some pte.

(** Frame, writable, user, global. *)
Definition mapping (mm : mm_state) (m : ram) (vpn : Z) : option (Z * (Z * Z * Z)) :=
  (λ e, (pe_address e, (pe_rw e, pe_user e, pe_global e))) <$> table_entry mm m vpn.

Definition is_vpn (vpn : Z) : Prop := 0 <= vpn < 1048576.

Lemma directory_index va : is_u32 va → get_page_directory_index va = va / 4096 / 1024.
Proof.
  intros. unfold get_page_directory_index. change 0x3FF with (Z.ones 10).
  rewrite Z.land_ones, Z.shiftr_div_pow2 by lia.
  change (2 ^ 22) with 4194304. change (2 ^ 10) with 1024. word_lia.
Qed.

Lemma table_index va : is_u32 va → get_page_table_index va = (va / 4096) mod 1024.
Proof.
  intros. unfold get_page_table_index. change 0x3FF with (Z.ones 10).
  by rewrite Z.land_ones, Z.shiftr_div_pow2 by lia.
Qed.

Lemma page_offset va : get_page_offset va = va mod 4096.
Proof. unfold get_page_offset. change 0xFFF with (Z.ones 12). by rewrite Z.land_ones by lia. Qed.

Lemma lor_low_high a b n : 0 <= n → 0 <= b < 2 ^ n → Z.lor (Z.shiftl a n) b = a * 2 ^ n + b.
Proof.
  intros Hn Hb.
  assert (Z.land (Z.shiftl a n) b = 0) as H0.
  { destruct (decide (b = 0)) as [->|]; [apply Z.land_0_r|].
    apply Z.bits_inj'. intros i Hi. rewrite Z.land_spec, Z.shiftl_spec, Z.bits_0 by lia.
    destruct (decide (i < n)); [by rewrite Z.testbit_neg_r by lia|].
    rewrite (Z.bits_above_log2 b), andb_false_r; [done|lia|].
    assert (Z.log2 b < n) by (apply Z.log2_lt_pow2; lia). lia. }
  rewrite <- Z.shiftl_mul_pow2, Z.add_nocarry_lxor by done.
  symmetry. by apply Z.lxor_lor.
Qed.

Lemma pe_address_range e : is_u32 e → 0 <= pe_address e < 1048576.
Proof.
  intros. unfold pe_address, field_get. rewrite Z.land_ones by lia.
  change (2 ^ 20) with 1048576. word_lia.
Qed.

Lemma table_of_eq e : is_u32 e → table_of e = pe_address e * 4096.
Proof.
  intros He. pose proof (pe_address_range e He). unfold table_of.
  rewrite Z.shiftl_mul_pow2 by lia. change (2 ^ 12) with 4096. apply u32_small. word_lia.
Qed.

Lemma get_physical_address_mapping mm m va :
  is_u32 va →
  get_physical_address mm m va =
    match mapping mm m (va / 4096) with
    | None => 0
    | Some (frame, _) => frame * 4096 + va mod 4096
    end.
Proof.
  intros Hva. unfold get_physical_address, mapping, table_entry.
  rewrite directory_index, table_index, page_offset by done.
  set (pde := rd32 m _). destruct (pe_present pde =? 0); [done|].
  set (pte := rd32 m _). destruct (pe_present pte =? 0); [done|]. simpl.
  pose proof (pe_address_range pte ltac:(apply rd32_range)).
  rewrite (u32_small (Z.shiftl _ _)).
  - apply (lor_low_high _ _ 12); [lia|]. change (2 ^ 12) with 4096. word_lia.
  - rewrite Z.shiftl_mul_pow2 by lia. change (2 ^ 12) with 4096. word_lia.
Qed.

(** ** The invariant *)

Definition pd_present (m : ram) (i : Z) : Prop := pe_present (pdw m i) ≠ 0.
#[export] Instance pd_present_dec m i : Decision (pd_present m i).
Proof. unfold pd_present. apply _. Defined.

Definition table_count (m : ram) : Z :=
  Z.of_nat (length (filter (pd_present m) (seqZ 0 1024))).

Record pt_inv (mm : mm_state) (m : ram) : Prop := {
  pt_dir : current_page_directory mm = PD_BASE;
  pt_next : next_page_table_addr mm = PT_BASE + 4096 * table_count m;
  pt_table : ∀ i, 0 <= i < 1024 → pd_present m i →
    ∃ k, 0 <= k < table_count m ∧ table_of (pdw m i) = PT_BASE + 4096 * k;
  pt_inj : ∀ i j, 0 <= i < 1024 → 0 <= j < 1024 → pd_present m i → pd_present m j →
    table_of (pdw m i) = table_of (pdw m j) → i = j;
}.

Lemma table_count_bound m : 0 <= table_count m <= 1024.
Proof.
  unfold table_count. pose proof (length_filter (pd_present m) (seqZ 0 1024)) as H.
  rewrite length_seqZ in H. lia.
Qed.

Lemma table_count_ext m m' :
  (∀ i, 0 <= i < 1024 → pdw m' i = pdw m i) → table_count m' = table_count m.
Proof.
  intros H. unfold table_count. f_equal. apply length_filter_ext.
  intros i Hi%elem_of_seqZ. unfold pd_present. by rewrite H by lia.
Qed.

Lemma table_count_add m m' i :
  0 <= i < 1024 → ¬ pd_present m i → pd_present m' i →
  (∀ j, 0 <= j < 1024 → j ≠ i → pdw m' j = pdw m j) →
  table_count m' = table_count m + 1.
Proof.
  intros Hi Hm Hm' H. unfold table_count.
  rewrite (length_filter_add_one (pd_present m) (pd_present m') i); [lia|..]; try done.
  - apply NoDup_seqZ.
  - apply elem_of_seqZ. lia.
  - intros j Hj%elem_of_seqZ Hne. unfold pd_present. by rewrite H by lia.
Qed.

Lemma pt_inv_ext mm m mm' m' :
  pt_inv mm m → (∀ i, 0 <= i < 1024 → pdw m' i = pdw m i) →
  current_page_directory mm' = current_page_directory mm →
  next_page_table_addr mm' = next_page_table_addr mm → pt_inv mm' m'.
Proof.
  intros [Hd Hn Ht Hi] H Hdir Hnext. pose proof (table_count_ext m m' H) as Hc.
  split; [congruence|congruence|..].
  - intros i ?. unfold pd_present. rewrite H, Hc by done. by apply Ht.
  - intros i j ??. unfold pd_present. rewrite !H by done. by apply Hi.
Qed.

(** Where the table of a present entry is. *)
Lemma table_range mm m i :
  pt_inv mm m → 0 <= i < 1024 → pd_present m i →
  PT_BASE <= table_of (pdw m i) ∧ table_of (pdw m i) + 4096 <= PD_BASE ∧
  table_of (pdw m i) + 4096 <= next_page_table_addr mm.
Proof.
  intros Hinv Hi Hp. destruct (pt_table _ _ Hinv i Hi Hp) as (k & Hk & ->).
  rewrite (pt_next _ _ Hinv). pose proof (table_count_bound m). unfold PT_BASE, PD_BASE. lia.
Qed.

Lemma tables_disjoint mm m i j :
  pt_inv mm m → 0 <= i < 1024 → 0 <= j < 1024 → pd_present m i → pd_present m j → i ≠ j →
  table_of (pdw m i) + 4096 <= table_of (pdw m j) ∨
  table_of (pdw m j) + 4096 <= table_of (pdw m i).
Proof.
  intros Hinv Hi Hj Hpi Hpj Hne.
  assert (table_of (pdw m i) ≠ table_of (pdw m j)) as Ht.
  { intros ?. apply Hne. by apply (pt_inj _ _ Hinv). }
  destruct (pt_table _ _ Hinv i Hi Hpi) as (k & _ & Ek).
  destruct (pt_table _ _ Hinv j Hj Hpj) as (k' & _ & Ek'). rewrite Ek, Ek' in *. lia.
Qed.

(** The walk in terms of [pdw]. *)
Lemma table_entry_pdw mm m vpn :
  pt_inv mm m →
  table_entry mm m vpn =
    if pe_present (pdw m (vpn / 1024)) =? 0 then None
    else let pte := rd32 m (entry_at (table_of (pdw m (vpn / 1024))) (vpn mod 1024)) in
         if pe_present pte =? 0 then None else Some pte.
Proof. intros Hinv. unfold table_entry. by rewrite (pt_dir _ _ Hinv). Qed.

(** ** [map_page] *)

Lemma pde_fields m a pt :
  let e := rd32 (set_pe_user (set_pe_rw (set_pe_present (set_pe_address m a
             (Z.shiftr pt 12)) a 1) a 1) a 1) a in
  is_u32 pt → pt mod 4096 = 0 → pe_present e = 1 ∧ table_of e = pt.
Proof.
  intros e Hpt Hal.
  assert (pe_address e = pt / 4096) as Haddr.
  { unfold e. pe_unfold. field_simpl. by apply frame_bits. }
  split; [unfold e; pe_unfold; field_simpl; done|].
  rewrite table_of_eq, Haddr by apply rd32_range. word_lia.
Qed.

(** Entering a fresh, empty table into the directory. *)
Section fresh_table.
Context (mm : mm_state) (m m2 : ram) (i : Z).
Let pt := next_page_table_addr mm.
Context (Hinv : pt_inv mm m) (Hi : 0 <= i < 1024) (Habs : ¬ pd_present m i)
  (Hroom : pt + 4096 <= PD_BASE) (Hpres : pd_present m2 i) (Ht2 : table_of (pdw m2 i) = pt)
  (Hother : ∀ j, 0 <= j < 1024 → j ≠ i → pdw m2 j = pdw m j).

Lemma fresh_table_inv : pt_inv (mm <| next_page_table_addr := pt +w PAGE_SIZE |>) m2.
Proof.
  assert (pt = PT_BASE + 4096 * table_count m) as Hpt by apply (pt_next _ _ Hinv).
  pose proof (table_count_bound m) as Hcb.
  assert (table_count m2 = table_count m + 1) as Hc2 by (by apply (table_count_add m m2 i)).
  split.
  - apply (pt_dir _ _ Hinv).
  - change (pt +w PAGE_SIZE = PT_BASE + 4096 * table_count m2).
    rewrite Hc2, Hpt. clear -Hpt Hroom Hcb. unfold PT_BASE, PD_BASE, PAGE_SIZE in *.
    rewrite u32_small; word_lia.
  - intros j Hj Hpj. destruct (decide (j = i)) as [->|Hne].
    + exists (table_count m). rewrite Ht2, Hc2. split; [lia|done].
    + unfold pd_present in Hpj. rewrite Hother in Hpj by done.
      destruct (pt_table _ _ Hinv j Hj Hpj) as (k & Hk & Ek).
      exists k. rewrite Hother, Hc2 by done. split; [lia|done].
  - assert (∀ j, 0 <= j < 1024 → j ≠ i → pd_present m2 j → table_of (pdw m2 j) ≠ pt) as Hfresh.
    { intros j Hj Hne Hpj. unfold pd_present in Hpj. rewrite Hother in Hpj |- * by done.
      destruct (table_range _ _ _ Hinv Hj Hpj) as (_ & _ & ?). fold pt in H. lia. }
    intros j j' Hj Hj' Hpj Hpj' He.
    destruct (decide (j = i)) as [->|Hne], (decide (j' = i)) as [->|Hne'];
      [reflexivity|..].
    + rewrite Ht2 in He. by destruct (Hfresh j' Hj' Hne' Hpj').
    + rewrite Ht2 in He. by destruct (Hfresh j Hj Hne Hpj).
    + unfold pd_present in Hpj, Hpj'. rewrite Hother in Hpj, Hpj', He by done.
      rewrite Hother in He by done. by apply (pt_inj _ _ Hinv).
Qed.

(** The walk finds what it found before: nothing in the new table, the other tables are
    untouched. *)
Lemma fresh_table_walk mm2 vpn :
  pt_inv mm2 m2 →
  (∀ idx, 0 <= idx < 1024 → rd32 m2 (entry_at pt idx) = 0) →
  (∀ a, PT_BASE <= a → a + 4 <= pt → rd32 m2 a = rd32 m a) →
  is_vpn vpn → table_entry mm2 m2 vpn = table_entry mm m vpn.
Proof.
  intros Hinv2 Hzero Hold Hvpn. unfold is_vpn in Hvpn. rewrite !table_entry_pdw by done.
  set (j := vpn / 1024). assert (0 <= j < 1024) as Hj by (unfold j; word_lia).
  assert (0 <= vpn mod 1024 < 1024) as Hidx by word_lia.
  destruct (decide (j = i)) as [->|Hne].
  - assert (pe_present (pdw m i) = 0) as -> by (unfold pd_present in Habs; lia).
    rewrite Ht2, Hzero by done. simpl. by destruct (pe_present (pdw m2 i) =? 0).
  - rewrite Hother by done.
    destruct (Z.eqb_spec (pe_present (pdw m j)) 0) as [|Hpj]; [done|].
    destruct (table_range _ _ _ Hinv Hj Hpj) as (? & ? & Hlt). fold pt in Hlt.
    rewrite Hold by (unfold entry_at; lia). done.
Qed.
End fresh_table.

Lemma ensure_table_ok mm m i :
  pt_inv mm m → 0 <= i < 1024 →
  ∃ mm' m', ensure_table mm m (entry_at PD_BASE i) = (Some tt, (mm', m')) ∧
    pt_inv mm' m' ∧ pd_present m' i ∧ only m paging_cells m' ∧
    (∀ vpn, is_vpn vpn → table_entry mm' m' vpn = table_entry mm m vpn) ∧
    (∃ a, mm' = mm <| next_page_table_addr := a |>).
Proof.
  intros Hinv Hi. unfold ensure_table. fold (pdw m i).
  destruct (Z.eqb_spec (pe_present (pdw m i)) 0) as [Habs|Hpres].
  2:{ exists mm, m. split_and!; try done; [apply only_refl|].
      exists (next_page_table_addr mm). by destruct mm. }
  pose proof (table_count_bound m) as Hcb.
  unfold create_page_table. set (pt := next_page_table_addr mm).
  assert (pt = PT_BASE + 4096 * table_count m) as Hpt by apply (pt_next _ _ Hinv).
  assert (PT_BASE <= pt ∧ pt + 4096 <= PD_BASE) as Hptr by (unfold PT_BASE, PD_BASE in *; lia).
  assert (is_u32 pt ∧ pt mod 4096 = 0 ∧ pt ≠ 0) as (Hpt32 & Hptal & Hpt0).
  { clear -Hpt Hptr. unfold PT_BASE, PD_BASE in *. word_lia. }
  rewrite (proj2 (Z.eqb_neq pt 0)) by done.
  set (m1 := memset m pt 0 4096).
  assert (only m (span pt 4096) m1) as Ho1 by apply memset_only.
  assert (∀ idx, 0 <= idx < 1024 → rd32 m1 (entry_at pt idx) = 0) as Hzero.
  { intros idx Hidx. apply memset_zero_rd32; unfold entry_at; lia. }
  clearbody m1. set (pde := entry_at PD_BASE i).
  match goal with |- context [(Some tt, (_, ?x))] => set (m2 := x) end.
  assert (only m1 (span pde 4) m2) as Ho2.
  { unfold m2. pe_unfold. repeat (eapply only_trans; [|apply set_entry_only]). apply only_refl. }
  destruct (pde_fields m1 pde pt Hpt32 Hptal) as [Hp2 Ht2].
  fold m2 in Hp2, Ht2. change (rd32 m2 pde) with (pdw m2 i) in Hp2, Ht2.
  clearbody m2.
  assert (∀ j, 0 <= j < 1024 → j ≠ i → pdw m2 j = pdw m j) as Hother.
  { intros j Hj Hne. unfold pdw, pde, entry_at in *.
    rewrite (only_rd32 _ _ _ _ Ho2) by (unfold span; lia).
    apply (only_rd32 _ _ _ _ Ho1). unfold span. lia. }
  assert (pd_present m2 i) as Hpres2 by (unfold pd_present; rewrite Hp2; done).
  assert (¬ pd_present m i) as Habs' by (unfold pd_present; lia).
  assert (pt_inv (mm <| next_page_table_addr := pt +w PAGE_SIZE |>) m2) as Hinv2.
  { apply (fresh_table_inv mm m m2 i); first [done | apply Hptr]. }
  exists (mm <| next_page_table_addr := pt +w PAGE_SIZE |>), m2.
  split; [done|]. split; [done|]. split; [done|].
  split; [|split; [|by exists (pt +w PAGE_SIZE)]].
  - eapply only_trans; eapply only_mono; [exact Ho1| |exact Ho2|];
      unfold paging_cells, pde, entry_at, span, PT_BASE, PD_BASE in *; lia.
  - intros vpn. apply (fresh_table_walk mm m m2 i); try done.
    + intros idx Hidx. rewrite (only_rd32 _ _ _ _ Ho2)
        by (unfold span, pde, entry_at, PD_BASE in *; lia). by apply Hzero.
    + intros b Hb1 Hb2. rewrite (only_rd32 _ _ _ _ Ho2)
        by (unfold span, pde, entry_at, PD_BASE in *; lia).
      apply (only_rd32 _ _ _ _ Ho1). unfold span. lia.
Qed.

(** Rewriting the table entry of page [vpn0]: the walk changes there only. *)
Lemma table_entry_update mm m m' vpn0 :
  let pte := entry_at (table_of (pdw m (vpn0 / 1024))) (vpn0 mod 1024) in
  pt_inv mm m → is_vpn vpn0 → pd_present m (vpn0 / 1024) → only m (span pte 4) m' →
  pt_inv mm m' ∧ only m paging_cells m' ∧
  ∀ vpn, is_vpn vpn → table_entry mm m' vpn =
    if vpn =? vpn0 then if pe_present (rd32 m' pte) =? 0 then None else Some (rd32 m' pte)
    else table_entry mm m vpn.
Proof.
  intros pte Hinv Hv0 Hp0 Ho. unfold is_vpn in *.
  assert (0 <= vpn0 / 1024 < 1024 ∧ 0 <= vpn0 mod 1024 < 1024) as [Hi0 Hx0] by word_lia.
  destruct (table_range _ _ _ Hinv Hi0 Hp0) as (Hlo & Hhi & _).
  assert (∀ j, 0 <= j < 1024 → pdw m' j = pdw m j) as Hpdw.
  { intros j Hj. apply (only_rd32 _ _ _ _ Ho). unfold span, pte, entry_at in *. lia. }
  assert (pt_inv mm m') as Hinv' by (by eapply pt_inv_ext).
  split; [done|]. split.
  { eapply only_mono; [exact Ho|].
    unfold paging_cells, span, pte, entry_at in *. unfold PT_BASE, PD_BASE in *. lia. }
  intros vpn Hv. rewrite !table_entry_pdw by done.
  assert (0 <= vpn / 1024 < 1024 ∧ 0 <= vpn mod 1024 < 1024) as [Hi Hx] by word_lia.
  rewrite Hpdw by done. destruct (Z.eqb_spec vpn vpn0) as [->|Hne].
  { unfold pd_present in Hp0. rewrite (proj2 (Z.eqb_neq _ 0)) by done. done. }
  destruct (Z.eqb_spec (pe_present (pdw m (vpn / 1024))) 0) as [|Hp]; [done|].
  assert (rd32 m' (entry_at (table_of (pdw m (vpn / 1024))) (vpn mod 1024)) =
          rd32 m (entry_at (table_of (pdw m (vpn / 1024))) (vpn mod 1024))) as ->; [|done].
  apply (only_rd32 _ _ _ _ Ho). unfold span, pte, entry_at.
  destruct (decide (vpn / 1024 = vpn0 / 1024)) as [He|He].
  - rewrite He. assert (vpn mod 1024 ≠ vpn0 mod 1024) by word_lia. lia.
  - pose proof (tables_disjoint _ _ _ _ Hinv Hi Hi0 Hp Hp0 He). lia.
Qed.

Definition flags_mapping (pa flags : Z) : option (Z * (Z * Z * Z)) :=
  if flag_bit flags PAGE_PRESENT =? 0 then None
  else Some (pa / 4096, (flag_bit flags PAGE_WRITABLE, flag_bit flags PAGE_USER,
                         flag_bit flags PAGE_GLOBAL)).

Lemma is_vpn_of va : is_u32 va → is_vpn (va / 4096).
Proof. unfold is_vpn. word_lia. Qed.

Lemma map_page_ok mm m va pa flags :
  pt_inv mm m → is_u32 va → is_u32 pa →
  ∃ mm' m', map_page mm m va pa flags = (true, (mm', m')) ∧ pt_inv mm' m' ∧
    only m paging_cells m' ∧
    (∀ vpn, is_vpn vpn → mapping mm' m' vpn =
       if vpn =? va / 4096 then flags_mapping pa flags else mapping mm m vpn) ∧
    (∃ a, mm' = mm <| next_page_table_addr := a |>).
Proof.
  intros Hinv Hva Hpa. pose proof (is_vpn_of va Hva) as Hvpn. unfold map_page.
  rewrite (pt_dir _ _ Hinv), directory_index, table_index by done.
  destruct (ensure_table_ok mm m (va / 4096 / 1024) Hinv) as
    (mm1 & m1 & He & Hinv1 & Hp1 & Ho1 & Hwalk1 & a & Hmm1); [unfold is_vpn in Hvpn; word_lia|].
  rewrite He. fold (pdw m1 (va / 4096 / 1024)).
  set (pte := entry_at _ _). set (m2 := fill_entry m1 pte pa flags).
  pose proof (fill_entry_only m1 pte pa flags) as Ho2. fold m2 in Ho2.
  destruct (fill_entry_ok m1 pte pa flags Hpa) as (Ha & Hp & Hw & Hu & Hg). fold m2 in Ha, Hp, Hw, Hu, Hg.
  clearbody m2.
  destruct (table_entry_update mm1 m1 m2 (va / 4096) Hinv1 Hvpn Hp1 Ho2) as (Hinv2 & Ho2' & Hwalk2).
  exists mm1, m2. split_and!; [done|done|by eapply only_trans| |by exists a].
  intros vpn Hv. unfold mapping. rewrite Hwalk2 by done. fold pte.
  destruct (vpn =? va / 4096).
  - unfold flags_mapping. rewrite Hp. destruct (flag_bit flags PAGE_PRESENT =? 0); [done|].
    simpl. by rewrite Ha, Hw, Hu, Hg.
  - by rewrite Hwalk1.
Qed.

Lemma unmap_page_ok mm m va :
  pt_inv mm m → is_u32 va →
  let '(ok, m') := unmap_page mm m va in
  pt_inv mm m' ∧ only m paging_cells m' ∧
  ok = negb (pe_present (pdw m (va / 4096 / 1024)) =? 0) ∧
  ∀ vpn, is_vpn vpn → mapping mm m' vpn =
    if vpn =? va / 4096 then None else mapping mm m vpn.
Proof.
  intros Hinv Hva. pose proof (is_vpn_of va Hva) as Hvpn. unfold unmap_page.
  rewrite (pt_dir _ _ Hinv), directory_index, table_index by done.
  fold (pdw m (va / 4096 / 1024)).
  destruct (Z.eqb_spec (pe_present (pdw m (va / 4096 / 1024))) 0) as [Habs|Hp].
  - split_and!; [done|apply only_refl|done|]. intros vpn Hv.
    destruct (Z.eqb_spec vpn (va / 4096)) as [->|]; [|done].
    unfold mapping. rewrite table_entry_pdw by done. by rewrite Habs.
  - set (pte := entry_at _ _).
    destruct (table_entry_update mm m (set_pe_present m pte 0) (va / 4096) Hinv Hvpn Hp)
      as (Hinv2 & Ho2 & Hwalk); [apply set_entry_only|].
    split_and!; [done|done|done|]. intros vpn Hv. unfold mapping. rewrite Hwalk by done.
    fold pte. destruct (vpn =? va / 4096); [|done].
    assert (pe_present (rd32 (set_pe_present m pte 0) pte) = 0) as ->; [|done].
    pe_unfold. field_simpl. done.
Qed.

(** ** Initialisation *)

(** Writes outside the paging area keep the tables. *)
Lemma pt_frame mm m m' P :
  pt_inv mm m → only m P m' → (∀ a, P a → ¬ paging_cells a) →
  pt_inv mm m' ∧ ∀ vpn, is_vpn vpn → mapping mm m' vpn = mapping mm m vpn.
Proof.
  intros Hinv Ho HP.
  assert (∀ a, PT_BASE <= a → a + 4 <= PD_BASE + 4096 → rd32 m' a = rd32 m a) as Hrd.
  { intros a ??. apply (only_rd32 _ _ _ _ Ho). intros b Hb HPb. apply (HP b HPb).
    unfold paging_cells, span. lia. }
  assert (∀ j, 0 <= j < 1024 → pdw m' j = pdw m j) as Hpdw.
  { intros j Hj. apply Hrd; unfold entry_at, PT_BASE, PD_BASE; lia. }
  assert (pt_inv mm m') as Hinv' by (by eapply pt_inv_ext).
  split; [done|]. intros vpn Hv. unfold is_vpn in Hv. unfold mapping.
  rewrite !table_entry_pdw by done.
  assert (0 <= vpn / 1024 < 1024 ∧ 0 <= vpn mod 1024 < 1024) as [Hi Hx] by word_lia.
  rewrite Hpdw by done.
  destruct (Z.eqb_spec (pe_present (pdw m (vpn / 1024))) 0) as [|Hp]; [done|].
  destruct (table_range _ _ _ Hinv Hi Hp) as (? & ? & _).
  rewrite Hrd; [done|..]; unfold entry_at, PD_BASE in *; lia.
Qed.

Lemma empty_directory mm m :
  current_page_directory mm = PD_BASE → next_page_table_addr mm = PT_BASE →
  (∀ i, 0 <= i < 1024 → pdw m i = 0) →
  pt_inv mm m ∧ ∀ vpn, is_vpn vpn → mapping mm m vpn = None.
Proof.
  intros Hd Hn Hz.
  assert (∀ i, 0 <= i < 1024 → ¬ pd_present m i) as Habs.
  { intros i Hi Hp. unfold pd_present in Hp. rewrite Hz in Hp by done. by apply Hp. }
  assert (table_count m = 0) as Hc.
  { unfold table_count.
    assert (length (filter (pd_present m) (seqZ 0 1024)) =
            length (filter (λ _ : Z, False) (seqZ 0 1024))) as ->.
    { apply length_filter_ext. intros i Hi%elem_of_seqZ. split; [apply Habs; lia|done]. }
    generalize (seqZ 0 1024) as l. induction l; [done|]. by rewrite filter_cons_False by tauto. }
  assert (pt_inv mm m) as Hinv.
  { split; [done|rewrite Hc, Hn; lia|..].
    - intros i Hi Hp. by destruct (Habs i Hi).
    - intros i j Hi _ Hp. by destruct (Habs i Hi). }
  split; [done|]. intros vpn Hv. unfold is_vpn in Hv. unfold mapping.
  rewrite table_entry_pdw by done. rewrite Hz by word_lia. done.
Qed.

(** What [memory_init] maps: the first 4 MB onto themselves, writable, kernel
    only; the second megabyte is mapped again without the global flag. *)
Definition boot_mapping (vpn : Z) : option (Z * (Z * Z * Z)) :=
  if vpn <? 1024
  then Some (vpn, (1, 0, if (256 <=? vpn) && (vpn <? 512) then 0 else 1))
  else None.

(** [s] is a paging state reached from [s0] with the mapping [f]. *)
Definition paged (s0 s : mm_state * ram) (f : Z → option (Z * (Z * Z * Z))) : Prop :=
  pt_inv s.1 s.2 ∧ only s0.2 paging_cells s.2 ∧
  (∀ vpn, is_vpn vpn → mapping s.1 s.2 vpn = f vpn) ∧
  ∃ a, s.1 = s0.1 <| next_page_table_addr := a |>.

Lemma paged_elim mm0 m0 mm m f :
  paged (mm0, m0) (mm, m) f →
  pt_inv mm m ∧ only m0 paging_cells m ∧ (∀ vpn, is_vpn vpn → mapping mm m vpn = f vpn) ∧
  ∃ a, mm = mm0 <| next_page_table_addr := a |>.
Proof. done. Qed.

(** One identity mapping in a loop of them. *)
Lemma paged_map s0 s f va flags g :
  paged s0 s f → is_u32 va →
  (∀ vpn, is_vpn vpn → g vpn = if vpn =? va / 4096 then flags_mapping va flags else f vpn) →
  paged s0 (map_page s.1 s.2 va va flags).2 g.
Proof.
  intros (Hinv & Ho & Hf & a & Ha) Hva Hg. destruct s0 as [mm0 m0], s as [mm m]. simpl in *.
  destruct (map_page_ok mm m va va flags Hinv Hva Hva) as (mm' & m' & -> & Hinv' & Ho' & Hm & a' & Ha').
  simpl. split_and!; [done|by eapply only_trans| |].
  - intros vpn Hv. by rewrite Hm, Hf, Hg.
  - exists a'. by subst.
Qed.

Lemma setup_identity_ok s :
  pt_inv s.1 s.2 → (∀ vpn, is_vpn vpn → mapping s.1 s.2 vpn = None) →
  paged s (setup_identity_paging s)
    (λ vpn, if vpn <? 1024 then Some (vpn, (1, 0, 1)) else None).
Proof.
  intros Hinv Hnone. unfold setup_identity_paging.
  apply (for_z_inv (λ i s', paged s s'
    (λ vpn, if vpn <? i then Some (vpn, (1, 0, 1)) else None)) 1024 0).
  - split_and!; [done|apply only_refl| |exists (next_page_table_addr s.1); by destruct s as [[] ?]].
    intros vpn Hv. rewrite Hnone by done. unfold is_vpn in Hv. by zdecide.
  - intros j s' Hj Hs. change (Z.of_nat 1024) with 1024 in Hj.
    assert (j *w PAGE_SIZE = j * 4096) as -> by (unfold PAGE_SIZE; apply u32_small; word_lia).
    apply (paged_map _ _ _ _ _ _ Hs); [word_lia|]. intros vpn Hv.
    rewrite Z.div_mul by done. repeat ztest; try lia; [|done..]. subst. unfold flags_mapping.
    by rewrite Z.div_mul by done.
Qed.

Lemma setup_kernel_ok s0 s f :
  paged s0 s f →
  paged s0 (setup_kernel_paging s)
    (λ vpn, if (256 <=? vpn) && (vpn <? 512) then Some (vpn, (1, 0, 0)) else f vpn).
Proof.
  intros Hs. unfold setup_kernel_paging.
  apply (for_z_inv (λ i s', paged s0 s'
    (λ vpn, if (256 <=? vpn) && (vpn <? 256 + i) then Some (vpn, (1, 0, 0)) else f vpn))
    (Z.to_nat (0x100000 / PAGE_SIZE)) 0).
  - destruct Hs as (? & ? & Hf & ?). split_and!; try done. intros vpn Hv.
    rewrite Hf by done. repeat ztest; simpl; lia || done.
  - intros j s' Hj Hs'. change (Z.of_nat (Z.to_nat (0x100000 / PAGE_SIZE))) with 256 in Hj.
    assert (0x100000 +w (j *w PAGE_SIZE) = (256 + j) * 4096) as ->.
    { unfold PAGE_SIZE. rewrite !u32_small; word_lia. }
    apply (paged_map _ _ _ _ _ _ Hs'); [word_lia|]. intros vpn Hv.
    rewrite Z.div_mul by done. repeat ztest; simpl; try lia; try done. subst.
    unfold flags_mapping. by rewrite Z.div_mul by done.
Qed.

#[global] Opaque setup_identity_paging setup_kernel_paging.

Lemma framebuffer_not_paging a : framebuffer a → ¬ paging_cells a.
Proof. unfold framebuffer, paging_cells, span, PT_BASE, PD_BASE. vga_consts. lia. Qed.

Definition paging_or_screen : Z → Prop := λ a, framebuffer a ∨ paging_cells a.

Lemma paging_init_ok mm k mm' k' :
  paging_init mm k = (mm', k') → term_ok k → next_page_table_addr mm = PT_BASE →
  pt_inv mm' (mem k') ∧ (∀ vpn, is_vpn vpn → mapping mm' (mem k') vpn = boot_mapping vpn) ∧
  term_ok k' ∧ only (mem k) paging_or_screen (mem k') ∧
  (∃ a, mm' = mm <| current_page_directory := PD_BASE |> <| next_page_table_addr := a |>).
Proof.
  intros E Hk Hnext.
  unfold paging_init in E.
  destruct (vga_putstr_step k (lit "Setting up paging..." ++ [10]) Hk) as [Hk1 Ho1].
  set (k1 := vga_putstr k _) in *. clearbody k1.
  set (mm1 := mm <| current_page_directory := 0x1000000 |>) in *.
  change (current_page_directory mm1) with PD_BASE in E.
  set (m1 := memset (mem k1) PD_BASE 0 4096) in *.
  assert (only (mem k1) paging_cells m1) as Ho2.
  { eapply only_mono; [apply memset_only|]. unfold paging_cells, span, PT_BASE, PD_BASE. lia. }
  assert (∀ i, 0 <= i < 1024 → pdw m1 i = 0) as Hz.
  { intros i Hi. apply memset_zero_rd32; unfold entry_at; lia. }
  clearbody m1.
  destruct (empty_directory mm1 m1) as [Hinv1 Hnone]; [done|done|done|].
  pose proof (setup_kernel_ok _ _ _ (setup_identity_ok (mm1, m1) Hinv1 Hnone)) as Hp.
  destruct (setup_identity_paging (mm1, m1)) as [mm2 m2].
  destruct (setup_kernel_paging (mm2, m2)) as [mm3 m3].
  apply paged_elim in Hp as (Hinv3 & Ho3 & Hmap3 & a & Ha).
  set (k3 := k1 <| mem := m3 |>) in *.
  destruct (vga_putstr_step k3 (lit "Paging setup completed (not enabled)" ++ [10])
              (term_ok_mem _ _ Hk1))
    as [Hk4 Ho4].
  set (k4 := vga_putstr k3 _) in *. change (mem k3) with m3 in Ho4. clearbody k4. injection E as <- <-.
  destruct (pt_frame mm3 m3 (mem k4) framebuffer Hinv3 Ho4 framebuffer_not_paging) as [Hinv4 Hmap4].
  split_and!; [done| |done| |].
  - intros vpn Hv. rewrite Hmap4, Hmap3 by done. unfold boot_mapping.
    repeat ztest; simpl; lia || done.
  - assert (∀ a, framebuffer a → paging_or_screen a) by (by left).
    assert (∀ a, paging_cells a → paging_or_screen a) by (by right).
    eapply only_trans; [eapply only_mono; [exact Ho1|done]|].
    eapply only_trans; [eapply only_mono; [exact Ho2|done]|].
    eapply only_trans; eapply only_mono; [exact Ho3|done|exact Ho4|done].
  - by exists a.
Qed.

Lemma page_used_frame mm mm' m m' P q :
  bitmap_inv mm → physical_page_bitmap mm' = physical_page_bitmap mm →
  0 <= q < MAX_PAGES → only m P m' →
  (∀ a, P a → ¬ bitmap_cells a) → page_used mm' m' q = page_used mm m q.
Proof.
  intros [Hb _] Hb' Hq Ho HP. unfold page_used, bitmap_word. rewrite Hb', Hb. f_equal.
  apply (only_rd32 _ _ _ _ Ho). intros k Hk HPk. apply (HP k HPk).
  unfold bitmap_cells, span. unfold MAX_PAGES in Hq. word_lia.
Qed.

Lemma heap_init_pair mm k mm' k' :
  heap_init mm k = (mm', k') → term_ok k →
  heap_inv mm' (mem k') fresh_heap ∧ term_ok k' ∧
  only (mem k) (λ a, framebuffer a ∨ span KERNEL_HEAP_START sizeof_memory_block a) (mem k') ∧
  current_page_directory mm' = current_page_directory mm ∧
  next_page_table_addr mm' = next_page_table_addr mm ∧
  physical_page_bitmap mm' = physical_page_bitmap mm ∧ bitmap_size mm' = bitmap_size mm.
Proof.
  intros E Hk. destruct (heap_init_ok mm k Hk) as (H1 & H2 & H3). rewrite E in H1, H2, H3.
  split_and!; [exact H1|exact H2|exact H3|..];
    unfold heap_init in E; apply (f_equal fst) in E; cbn [fst] in E; by rewrite <- E.
Qed.

Lemma mapping_dir mm mm' m vpn :
  current_page_directory mm' = current_page_directory mm → mapping mm' m vpn = mapping mm m vpn.
Proof. intros E. unfold mapping, table_entry. by rewrite E. Qed.

(** All that [memory_init] writes. *)
Definition boot_cells (a : Z) : Prop :=
  framebuffer a ∨ bitmap_cells a ∨ paging_cells a ∨ span KERNEL_HEAP_START KERNEL_HEAP_SIZE a.

Lemma memory_init_ok mm k mm' k' :
  memory_init mm k = (mm', k') → term_ok k → next_page_table_addr mm = PT_BASE →
  pages_inv mm' (mem k') fresh_heap ∧ boot_pages mm' (mem k') ∧
  pt_inv mm' (mem k') ∧ (∀ vpn, is_vpn vpn → mapping mm' (mem k') vpn = boot_mapping vpn) ∧
  term_ok k' ∧ only (mem k) boot_cells (mem k').
Proof.
  intros E Hk Hnext. unfold memory_init in E.
  destruct (vga_putstr_step k (lit "Initializing memory management..." ++ [10]) Hk) as [Hk1 Ho1].
  set (k1 := vga_putstr k _) in *. clearbody k1.
  match type of E with context [init_physical_page_bitmap ?x _] => set (mm1 := x) in * end.
  assert (next_page_table_addr mm1 = PT_BASE) as Hnext1 by exact Hnext. clearbody mm1.
  pose proof (init_bitmap_ok mm1 (mem k1)) as Hb.
  destruct (init_physical_page_bitmap mm1 (mem k1)) as [mm2 m2] eqn:E2.
  destruct Hb as (Hb2 & Emm2 & Hboot & Ho2).
  assert (next_page_table_addr mm2 = PT_BASE) as Hnext2 by (by rewrite Emm2). clear Emm2 E2.
  destruct (paging_init mm2 (k1 <| mem := m2 |>)) as [mm3 k3] eqn:E3.
  destruct (paging_init_ok _ _ _ _ E3 (term_ok_mem _ _ Hk1) Hnext2)
    as (Hpt & Hmap & Hk3 & Ho3 & a & Emm3). clear E3.
  change (mem (k1 <| mem := m2 |>)) with m2 in Ho3.
  destruct (heap_init mm3 k3) as [mm4 k4] eqn:E4.
  destruct (heap_init_pair _ _ _ _ E4 Hk3) as (Hheap & Hk4 & Ho4 & Edir & Enext & Ebase & Esize).
  clear E4.
  destruct (vga_putstr_step k4 (lit "Memory management initialized successfully!" ++ [10]) Hk4)
    as [Hk5 Ho5].
  set (k5 := vga_putstr k4 _) in *. clearbody k5. injection E as <- <-.
  assert (only (mem k3) (λ a, framebuffer a ∨ span KERNEL_HEAP_START sizeof_memory_block a) (mem k5))
    as Ho35 by (eapply only_trans; [exact Ho4|]; eapply only_mono; [exact Ho5|by left]).
  assert (only m2 (λ a, paging_or_screen a ∨ span KERNEL_HEAP_START sizeof_memory_block a) (mem k5))
    as Ho25.
  { eapply only_trans; eapply only_mono; [exact Ho3|by left|exact Ho35|].
    intros b [?|?]; [left; by left|by right]. }
  destruct (pt_frame mm3 (mem k3) (mem k5) _ Hpt Ho35) as [Hpt5 Hmap5].
  { intros b [?|Hb]; [by apply framebuffer_not_paging|].
    unfold span, paging_cells, PT_BASE, PD_BASE in *. unfold span. heap_consts. lia. }
  assert (physical_page_bitmap mm4 = physical_page_bitmap mm2) as Ebase' by (by rewrite Ebase, Emm3).
  assert (bitmap_inv mm4) as Hb4.
  { destruct Hb2 as [Hb0 Hs0]. split; [congruence|by rewrite Esize, Emm3]. }
  assert (∀ q, 0 <= q < MAX_PAGES → page_used mm4 (mem k5) q = page_used mm2 m2 q) as Hused.
  { intros q Hq. eapply page_used_frame; [exact Hb2|done|done|exact Ho25|].
    unfold paging_or_screen, framebuffer, paging_cells, bitmap_cells, span, PT_BASE, PD_BASE.
    vga_consts. heap_consts. lia. }
  split_and!.
  - split; [done|by rewrite Hused, Hboot|]. eapply heap_inv_frame; [exact Hheap|exact Ho5|].
    unfold framebuffer, span. vga_consts. heap_consts. lia.
  - intros q Hq. by rewrite Hused, Hboot.
  - by eapply pt_inv_ext.
  - intros vpn Hv. rewrite <- Hmap, <- Hmap5 by done. by apply mapping_dir.
  - done.
  - eapply only_trans; [eapply only_mono; [exact Ho1|by left]|].
    eapply only_trans; [eapply only_mono; [exact Ho2|by right; left]|].
    eapply only_mono; [exact Ho25|]. unfold paging_or_screen, boot_cells.
    intros b [[?|?]|Hb]; [by left|by right; right; left|]. do 3 right.
    unfold span in *. heap_consts. lia.
Qed.

(** ** Properties *)

(** The machine after [memory_init] at boot. *)
Definition demo_memory : mm_state * machine := memory_init mm_boot blank_machine.
Lemma demo_memory_ok :
  pages_inv demo_memory.1 (mem demo_memory.2) fresh_heap ∧
  boot_pages demo_memory.1 (mem demo_memory.2) ∧
  pt_inv demo_memory.1 (mem demo_memory.2).
Proof.
  unfold demo_memory. destruct (memory_init mm_boot blank_machine) as [mm' k'] eqn:E.
  destruct (memory_init_ok _ _ _ _ E blank_machine_ok) as (H1 & H2 & H3 & _); [done|].
  exact (conj H1 (conj H2 H3)).
Qed.
Lemma demo_memory_eq : memory_init mm_boot blank_machine = (demo_memory.1, demo_memory.2).
Proof. apply surjective_pairing. Qed.
Lemma demo_memory_next : next_page_table_addr mm_boot = PT_BASE.
Proof. done. Qed.
#[global] Opaque demo_memory.

(** C9: from a well-formed paging state [map_page] always succeeds (creating the
    page table when the directory entry is absent), keeps the tables
    well-formed, sets the mapping of exactly the page of [va] to the frame of
    [pa] with the given flags, changes the mapping of no other page, and writes
    only to the paging area; with [PAGE_PRESENT] the address then translates to
    the frame plus its page offset. *)
Theorem map_page_point_update mm m va pa flags :
  pt_inv mm m → is_u32 va → is_u32 pa →
  ∃ mm' m', map_page mm m va pa flags = (true, (mm', m')) ∧ pt_inv mm' m' ∧
    only m paging_cells m' ∧
    (∀ vpn, is_vpn vpn → mapping mm' m' vpn =
       if vpn =? va / 4096 then flags_mapping pa flags else mapping mm m vpn) ∧
    (Z.land flags PAGE_PRESENT ≠ 0 →
       get_physical_address mm' m' va = pa / 4096 * 4096 + va mod 4096).
Proof.
  intros Hinv Hva Hpa.
  destruct (map_page_ok mm m va pa flags Hinv Hva Hpa) as (mm' & m' & Hm & Hinv' & Ho & Hmap & _).
  exists mm', m'. split_and!; try done. intros Hf.
  rewrite get_physical_address_mapping, Hmap, Z.eqb_refl by (try apply is_vpn_of; done).
  unfold flags_mapping, flag_bit. by rewrite (proj2 (Z.eqb_neq _ _) Hf).
Qed.

Lemma map_page_point_update_witness :
  ∃ mm' m', map_page demo_memory.1 (mem demo_memory.2) 0xC0001234 0x800000 3 = (true, (mm', m')) ∧
    get_physical_address mm' m' 0xC0001234 = 0x800234.
Proof.
  destruct (map_page_point_update demo_memory.1 (mem demo_memory.2) 0xC0001234 0x800000 3
    (proj2 (proj2 demo_memory_ok)) ltac:(done) ltac:(done)) as (mm' & m' & H & _ & _ & _ & Ht).
  exists mm', m'. split; [exact H|]. by apply Ht.
Defined.

(** [unmap_page] removes the mapping of exactly the page of [va]; it reports
    failure exactly when the directory entry is absent, in which case nothing
    was mapped; afterwards the address translates to 0. *)
Theorem unmap_page_point_update mm m va :
  pt_inv mm m → is_u32 va →
  let '(ok, m') := unmap_page mm m va in
  pt_inv mm m' ∧ only m paging_cells m' ∧
  ok = negb (pe_present (pdw m (va / 4096 / 1024)) =? 0) ∧
  (∀ vpn, is_vpn vpn → mapping mm m' vpn =
    if vpn =? va / 4096 then None else mapping mm m vpn) ∧
  get_physical_address mm m' va = 0.
Proof.
  intros Hinv Hva. pose proof (unmap_page_ok mm m va Hinv Hva) as H.
  destruct (unmap_page mm m va) as [ok m']. destruct H as (H1 & H2 & H3 & H4).
  split_and!; try done.
  by rewrite get_physical_address_mapping, H4, Z.eqb_refl by (try apply is_vpn_of; done).
Qed.

Lemma unmap_page_point_update_witness :
  get_physical_address demo_memory.1
    (unmap_page demo_memory.1 (mem demo_memory.2) 0x123456).2 0x123456 = 0.
Proof.
  pose proof (unmap_page_point_update demo_memory.1 (mem demo_memory.2) 0x123456
    (proj2 (proj2 demo_memory_ok)) ltac:(done)) as H.
  destruct (unmap_page demo_memory.1 (mem demo_memory.2) 0x123456) as [ok m'].
  exact (proj2 (proj2 (proj2 (proj2 H)))).
Defined.

(** C13: [memory_init] establishes all three parts of the memory manager: a heap of
    one free block, a bitmap with exactly the first 6 MB in use, and page
    tables that translate every address below 4 MB to itself and map nothing
    else. *)
Theorem memory_init_establishes mm k mm' k' :
  memory_init mm k = (mm', k') → term_ok k → next_page_table_addr mm = PT_BASE →
  heap_inv mm' (mem k') fresh_heap ∧
  (∀ q, 0 <= q < MAX_PAGES → page_used mm' (mem k') q = (q <? 1536)) ∧
  pt_inv mm' (mem k') ∧ (∀ vpn, is_vpn vpn → mapping mm' (mem k') vpn = boot_mapping vpn) ∧
  (∀ va, is_u32 va → get_physical_address mm' (mem k') va = if va <? 0x400000 then va else 0).
Proof.
  intros E Hk Hn. destruct (memory_init_ok mm k mm' k' E Hk Hn) as ([_ _ Hh] & Hb & Hp & Hm & _).
  clear E.
  split_and!; try done. intros va Hva.
  rewrite get_physical_address_mapping, Hm by (try apply is_vpn_of; done).
  unfold boot_mapping. repeat ztest; simpl; word_lia.
Qed.

Lemma memory_init_establishes_witness :
  heap_inv demo_memory.1 (mem demo_memory.2) fresh_heap.
Proof.
  exact (proj1 (memory_init_establishes mm_boot blank_machine _ _ demo_memory_eq
    blank_machine_ok demo_memory_next)).
Defined.

(** The frames of live page tables are not reserved in the physical page
    bitmap: after [memory_init] the table that maps the first 4 MB lies in a
    frame whose bit is clear, so [alloc_physical_page] will hand it out. *)
Theorem page_table_frame_unreserved mm k mm' k' :
  memory_init mm k = (mm', k') → term_ok k → next_page_table_addr mm = PT_BASE →
  pd_present (mem k') 0 ∧ page_used mm' (mem k') (table_of (pdw (mem k') 0) / PAGE_SIZE) = false.
Proof.
  intros E Hk Hn. destruct (memory_init_ok mm k mm' k' E Hk Hn) as (_ & Hb & Hp & Hm & _).
  clear E.
  assert (pd_present (mem k') 0) as Hp0.
  { specialize (Hm 0 ltac:(done)). unfold mapping in Hm.
    rewrite table_entry_pdw in Hm by done. change (0 / 1024) with 0 in Hm.
    unfold pd_present. intros H0. rewrite H0 in Hm. done. }
  split; [done|].
  destruct (pt_table _ _ Hp 0 ltac:(done) Hp0) as (i & Hi & ->).
  pose proof (table_count_bound (mem k')). unfold PT_BASE, PAGE_SIZE, MAX_PAGES in *.
  replace ((0x700000 + 4096 * i) / 4096) with (0x700 + i) by word_lia.
  rewrite Hb by (unfold MAX_PAGES; lia). lia.
Qed.

Lemma page_table_frame_unreserved_witness :
  page_used demo_memory.1 (mem demo_memory.2)
    (table_of (pdw (mem demo_memory.2) 0) / PAGE_SIZE) = false.
Proof.
  exact (proj2 (page_table_frame_unreserved mm_boot blank_machine _ _ demo_memory_eq
    blank_machine_ok demo_memory_next)).
Defined.
