(* ===== verification/Keyboard.v ===== *)
(** * Keyboard driver (drivers/keyboard/keyboard.c)

    The scan-code translation, the modifier state and the 256-byte ring buffer,
    with the refinement of the ring buffer to a bounded first-in first-out
    queue. *)

From S2P Require Import Prelude.
Set Default Goal Selector "!".

(** ** Data *)

Definition KEY_ENTER : Z := 0x1C.
Definition KEY_BACKSPACE : Z := 0x0E.
Definition KEY_ESC : Z := 0x01.
Definition KEY_TAB : Z := 0x0F.
Definition KEY_CAPS_LOCK : Z := 0x3A.
Definition KEY_LSHIFT : Z := 0x2A.
Definition KEY_RSHIFT : Z := 0x36.
Definition KEY_LCTRL : Z := 0x1D.
Definition KEY_LALT : Z := 0x38.
Definition KEY_RELEASED : Z := 0x80.
Definition INPUT_BUFFER_SIZE : Z := 256.
Definition KEYBOARD_STATUS_OUTPUT_FULL : Z := 0x01.

(** [keyboard_state_t] *)
Record keyboard_state := MkKeyboardState {
  shift_pressed : bool;
  ctrl_pressed : bool;
  alt_pressed : bool;
  caps_lock : bool;
  num_lock : bool;
  scroll_lock : bool;
}.
#[export] Instance eta_keyboard_state : Eta keyboard_state := λ r,
  MkKeyboardState (shift_pressed r) (ctrl_pressed r) (alt_pressed r) (caps_lock r)
    (num_lock r) (scroll_lock r).

(** The static variables of keyboard.c. *)
Record keyboard := MkKeyboard {
  kbd_state : keyboard_state;
  input_buffer : list Z;
  buffer_head : Z;
  buffer_tail : Z;
  buffer_count : Z;
}.
#[export] Instance eta_keyboard : Eta keyboard := λ r,
  MkKeyboard (kbd_state r) (input_buffer r) (buffer_head r) (buffer_tail r) (buffer_count r).

(** Rows 0x00-0x3F of the maps; rows 0x40-0x7F are all zero. *)
Definition scancode_map : list Z :=
  [0; 0] ++ lit "1234567890-=" ++ [0; 0] ++
  lit "qwertyuiop[]" ++ [0; 0] ++ lit "as" ++
  lit "dfghjkl;'" ++ [0; 0; 0] ++ lit "zxcv" ++
  lit "bnm,./" ++ [0; 0; 0] ++ lit " " ++ replicate 6 0 ++
  replicate 64 0.

Definition shift_map : list Z :=
  [0; 0] ++ lit "!@#$%^&*()_+" ++ [0; 0] ++
  lit "QWERTYUIOP{}" ++ [0; 0] ++ lit "AS" ++
  lit "DFGHJKL:" ++ [34] ++ [0; 0; 0] ++ lit "ZXCV" ++
  lit "BNM<>?" ++ [0; 0; 0] ++ lit " " ++ replicate 6 0 ++
  replicate 64 0.

(** ** Operations *)

Definition keyboard_clear_buffer (k : keyboard) : keyboard :=
  k <| buffer_head := 0 |> <| buffer_tail := 0 |> <| buffer_count := 0 |>
    <| input_buffer := replicate (Z.to_nat INPUT_BUFFER_SIZE) 0 |>.

Definition keyboard_init (k : keyboard) : keyboard :=
  let k := k <| kbd_state := MkKeyboardState false false false false false false |> in
  let k := k <| input_buffer := replicate (Z.to_nat INPUT_BUFFER_SIZE) 0 |> in
  k <| buffer_head := 0 |> <| buffer_tail := 0 |> <| buffer_count := 0 |>.

Definition is_special_key (scancode : Z) : bool :=
  (scancode =? KEY_ESC) || (scancode =? KEY_TAB) || (scancode =? KEY_CAPS_LOCK) ||
  (scancode =? KEY_LSHIFT) || (scancode =? KEY_RSHIFT) || (scancode =? KEY_LCTRL) ||
  (scancode =? KEY_LALT).

Definition scancode_to_char (scancode : Z) (shift_pressed caps_lock : bool) : Z :=
  if 128 <=? scancode then 0
  else if is_special_key scancode then 0
  else
    let ch := if shift_pressed
              then nth (Z.to_nat scancode) shift_map 0
              else nth (Z.to_nat scancode) scancode_map 0 in
    if caps_lock && (chr "a" <=? ch) && (ch <=? chr "z") then ch - chr "a" + chr "A"
    else if caps_lock && (chr "A" <=? ch) && (ch <=? chr "Z") then ch - chr "A" + chr "a"
    else ch.

(** The three identical statements that append to [input_buffer]. *)
Definition buffer_put (k : keyboard) (ch : Z) : keyboard :=
  if buffer_count k <? INPUT_BUFFER_SIZE then
    k <| input_buffer := <[Z.to_nat (buffer_tail k) := ch]> (input_buffer k) |>
      <| buffer_tail := Z.rem (buffer_tail k + 1) INPUT_BUFFER_SIZE |>
      <| buffer_count := buffer_count k + 1 |>
  else k.

Definition process_scancode (k : keyboard) (scancode : Z) : keyboard :=
  let key_released := negb (Z.land scancode KEY_RELEASED =? 0) in
  let key_code := u8 (Z.land scancode (Z.lnot KEY_RELEASED)) in
  let st := kbd_state k in
  if (key_code =? KEY_LSHIFT) || (key_code =? KEY_RSHIFT) then
    k <| kbd_state := st <| shift_pressed := negb key_released |> |>
  else if key_code =? KEY_LCTRL then
    k <| kbd_state := st <| ctrl_pressed := negb key_released |> |>
  else if key_code =? KEY_LALT then
    k <| kbd_state := st <| alt_pressed := negb key_released |> |>
  else if key_code =? KEY_CAPS_LOCK then
    if negb key_released then k <| kbd_state := st <| caps_lock := negb (caps_lock st) |> |> else k
  else if key_code =? KEY_ENTER then
    if negb key_released then buffer_put k 10 else k
  else if key_code =? KEY_BACKSPACE then
    if negb key_released then buffer_put k 8 else k
  else if negb key_released then
    let ch := scancode_to_char key_code (shift_pressed st) (caps_lock st) in
    if ch =? 0 then k else buffer_put k ch
  else k.

(** [status] and [scancode] are what the two [inb] instructions read. *)
Definition keyboard_interrupt_handler (k : keyboard) (status scancode : Z) : keyboard :=
  if Z.land status KEYBOARD_STATUS_OUTPUT_FULL =? 0 then k else process_scancode k scancode.

Definition keyboard_has_input (k : keyboard) : bool := 0 <? buffer_count k.

Definition keyboard_get_char (k : keyboard) : Z * keyboard :=
  if buffer_count k =? 0 then (0, k)
  else
    let ch := nth (Z.to_nat (buffer_head k)) (input_buffer k) 0 in
    (ch, k <| buffer_head := Z.rem (buffer_head k + 1) INPUT_BUFFER_SIZE |>
           <| buffer_count := buffer_count k - 1 |>).

(** The accesses of [keyboard_get_char] to the variables it shares with the interrupt
    handler, one by one: [buffer_count] is tested and, nothing being volatile, the value
    tested is the one decremented and stored. *)
Definition load_char (k : keyboard) : Z := nth (Z.to_nat (buffer_head k)) (input_buffer k) 0.
Definition advance_head (k : keyboard) : keyboard :=
  k <| buffer_head := Z.rem (buffer_head k + 1) INPUT_BUFFER_SIZE |>.
Definition store_count (count : Z) (k : keyboard) : keyboard := k <| buffer_count := count - 1 |>.

(** Without an interrupt in between they make up [keyboard_get_char]. *)
Lemma get_char_accesses k :
  keyboard_get_char k =
    if buffer_count k =? 0 then (0, k)
    else (load_char k, store_count (buffer_count k) (advance_head k)).
Proof. reflexivity. Qed.

(** The waiting loop sleeps in [hlt] until the next interrupt: [irqs] are the
    port readings of the keyboard interrupts to come.  [None] is waiting for
    ever. *)
Fixpoint keyboard_wait_for_input (k : keyboard) (irqs : list (Z * Z)) :
    option (keyboard * list (Z * Z)) :=
  if keyboard_has_input k then Some (k, irqs)
  else match irqs with
       | [] => None
       | (status, scancode) :: irqs' =>
           keyboard_wait_for_input (keyboard_interrupt_handler k status scancode) irqs'
       end.

Definition keyboard_read_char (k : keyboard) (irqs : list (Z * Z)) :
    option (Z * (keyboard * list (Z * Z))) :=
  '(k, irqs) ← keyboard_wait_for_input k irqs;
  let '(ch, k) := keyboard_get_char k in
  Some (ch, (k, irqs)).

(** ** The ring buffer as a queue *)

Record kbd_inv (k : keyboard) : Prop := {
  ki_len : length (input_buffer k) = 256%nat;
  ki_head : 0 <= buffer_head k < 256;
  ki_count : 0 <= buffer_count k <= 256;
  ki_tail : buffer_tail k = (buffer_head k + buffer_count k) mod 256;
}.

Definition ring_at (k : keyboard) (i : Z) : Z :=
  nth (Z.to_nat ((buffer_head k + i) mod 256)) (input_buffer k) 0.

(** The characters waiting to be read, oldest first. *)
Definition kbd_queue (k : keyboard) : list Z := ring_at k <$> seqZ 0 (buffer_count k).

(** The modifiers a scan code leaves, and the character it types. *)
Definition key_effect (st : keyboard_state) (scancode : Z) : keyboard_state * option Z :=
  let pressed := scancode <? 128 in
  let code := scancode mod 128 in
  if (code =? KEY_LSHIFT) || (code =? KEY_RSHIFT) then (st <| shift_pressed := pressed |>, None)
  else if code =? KEY_LCTRL then (st <| ctrl_pressed := pressed |>, None)
  else if code =? KEY_LALT then (st <| alt_pressed := pressed |>, None)
  else if code =? KEY_CAPS_LOCK then
    (if pressed then st <| caps_lock := negb (caps_lock st) |> else st, None)
  else (st, if negb pressed then None
            else if code =? KEY_ENTER then Some 10
            else if code =? KEY_BACKSPACE then Some 8
            else let ch := scancode_to_char code (shift_pressed st) (caps_lock st) in
                 if ch =? 0 then None else Some ch).

(** Appending to a queue of at most 256 characters: input beyond that is lost. *)
Definition queue_put (q : list Z) (c : Z) : list Z :=
  if Z.of_nat (length q) <? INPUT_BUFFER_SIZE then q ++ [c] else q.

Lemma length_kbd_queue k : 0 <= buffer_count k → Z.of_nat (length (kbd_queue k)) = buffer_count k.
Proof. intros. unfold kbd_queue. rewrite length_fmap, length_seqZ. lia. Qed.

Lemma nth_insert (l : list Z) (i j : nat) v :
  (i < length l)%nat → nth j (<[i:=v]> l) 0 = if decide (i = j) then v else nth j l 0.
Proof.
  intros Hi. rewrite !nth_lookup. destruct (decide (i = j)) as [->|Hne].
  - by rewrite list_lookup_insert_eq.
  - by rewrite list_lookup_insert_ne.
Qed.

Lemma buffer_put_ok k c :
  kbd_inv k →
  kbd_inv (buffer_put k c) ∧ kbd_queue (buffer_put k c) = queue_put (kbd_queue k) c ∧
  kbd_state (buffer_put k c) = kbd_state k.
Proof.
  intros Hk. pose proof Hk as [Hlen Hhead Hcount Htail]. unfold buffer_put, queue_put.
  rewrite length_kbd_queue by lia. unfold INPUT_BUFFER_SIZE.
  destruct (Z.ltb_spec (buffer_count k) 256); [|done].
  assert (0 <= buffer_tail k < 256) as Ht by (rewrite Htail; word_lia).
  rewrite Z.rem_mod_nonneg by lia. split; [split|split].
  - cbn. by rewrite length_insert.
  - done.
  - cbn. lia.
  - cbn. rewrite Htail. rewrite Zplus_mod_idemp_l. f_equal. lia.
  - unfold kbd_queue. cbn [buffer_count set_field].
    rewrite seqZ_app by lia. rewrite fmap_app. simpl seqZ. f_equal.
    + apply list_fmap_ext. intros i j Hj.
      assert (0 <= j < buffer_count k) as Hj' by (apply list_elem_of_lookup_2, elem_of_seqZ in Hj; lia).
      unfold ring_at. cbn. rewrite nth_insert by lia. rewrite decide_False; [done|].
      rewrite Htail. word_lia.
    + simpl. f_equal. unfold ring_at. cbn. rewrite nth_insert by lia.
      rewrite decide_True; [done|]. by rewrite Htail.
  - done.
Qed.

Lemma key_code_mod sc : is_u8 sc → u8 (Z.land sc (Z.lnot KEY_RELEASED)) = sc mod 128.
Proof.
  intros Hsc.
  assert (forallb (λ s, u8 (Z.land s (Z.lnot KEY_RELEASED)) =? s mod 128) (seqZ 0 256) = true) as H
    by (vm_compute; reflexivity).
  rewrite forallb_forall in H. apply Z.eqb_eq, H, list_elem_of_In, elem_of_seqZ. word_lia.
Qed.

Lemma key_released_ltb sc : is_u8 sc → negb (Z.land sc KEY_RELEASED =? 0) = negb (sc <? 128).
Proof.
  intros Hsc.
  assert (forallb (λ s, eqb (negb (Z.land s KEY_RELEASED =? 0)) (negb (s <? 128))) (seqZ 0 256) = true)
    as H by (vm_compute; reflexivity).
  rewrite forallb_forall in H. apply eqb_prop, H, list_elem_of_In, elem_of_seqZ. word_lia.
Qed.

Lemma kbd_state_only k st :
  kbd_inv k → kbd_inv (k <| kbd_state := st |>) ∧ kbd_queue (k <| kbd_state := st |>) = kbd_queue k.
Proof. intros [? ? ? ?]. split; [by split|done]. Qed.

(** [process_scancode] on the abstract state. *)
Lemma process_scancode_ok k sc :
  kbd_inv k → is_u8 sc →
  let k' := process_scancode k sc in
  kbd_inv k' ∧ kbd_state k' = (key_effect (kbd_state k) sc).1 ∧
  kbd_queue k' = match (key_effect (kbd_state k) sc).2 with
                 | None => kbd_queue k
                 | Some c => queue_put (kbd_queue k) c
                 end.
Proof.
  intros Hk Hsc. cbv zeta. unfold process_scancode, key_effect.
  rewrite key_code_mod, key_released_ltb by done.
  set (code := sc mod 128). set (pressed := sc <? 128). rewrite negb_involutive.
  destruct ((code =? KEY_LSHIFT) || (code =? KEY_RSHIFT)).
  { destruct (kbd_state_only k (kbd_state k <| shift_pressed := pressed |>) Hk). done. }
  destruct (code =? KEY_LCTRL).
  { destruct (kbd_state_only k (kbd_state k <| ctrl_pressed := pressed |>) Hk). done. }
  destruct (code =? KEY_LALT).
  { destruct (kbd_state_only k (kbd_state k <| alt_pressed := pressed |>) Hk). done. }
  destruct (code =? KEY_CAPS_LOCK).
  { destruct pressed; [|done].
    destruct (kbd_state_only k (kbd_state k <| caps_lock := negb (caps_lock (kbd_state k)) |>) Hk).
    done. }
  destruct pressed; cbn [negb]; [|by destruct (code =? KEY_ENTER), (code =? KEY_BACKSPACE)].
  destruct (code =? KEY_ENTER).
  { destruct (buffer_put_ok k 10 Hk) as (? & ? & ?). done. }
  destruct (code =? KEY_BACKSPACE).
  { destruct (buffer_put_ok k 8 Hk) as (? & ? & ?). done. }
  cbv zeta. destruct (scancode_to_char _ _ _ =? 0); [done|].
  destruct (buffer_put_ok k (scancode_to_char code (shift_pressed (kbd_state k))
    (caps_lock (kbd_state k))) Hk) as (? & ? & ?). done.
Qed.

Lemma get_char_ok k :
  kbd_inv k →
  let '(c, k') := keyboard_get_char k in
  kbd_inv k' ∧ kbd_state k' = kbd_state k ∧
  match kbd_queue k with
  | [] => c = 0 ∧ k' = k
  | x :: q => c = x ∧ kbd_queue k' = q
  end.
Proof.
  intros Hk. pose proof Hk as [Hlen Hhead Hcount Htail]. unfold keyboard_get_char.
  destruct (Z.eqb_spec (buffer_count k) 0) as [E|Hne].
  { split; [done|]. split; [done|]. unfold kbd_queue. rewrite E. done. }
  unfold INPUT_BUFFER_SIZE. rewrite Z.rem_mod_nonneg by lia.
  split; [split|split]; cbn; try done; try word_lia.
  unfold kbd_queue at 1. rewrite (seqZ_cons 0) by lia. rewrite fmap_cons. split.
  - unfold ring_at. do 2 f_equal. word_lia.
  - unfold kbd_queue. cbn [buffer_count set_field].
    apply list_eq. intros i. rewrite !list_lookup_fmap.
    replace (Z.pred (buffer_count k)) with (buffer_count k - 1) by lia.
    destruct (decide (Z.of_nat i < buffer_count k - 1)).
    + rewrite !lookup_seqZ_lt by lia. simpl. f_equal. unfold ring_at. cbn.
      rewrite Zplus_mod_idemp_l. do 3 f_equal. lia.
    + rewrite !lookup_seqZ_ge by lia. done.
Qed.

(** ** Traces *)

(** The characters a sequence of scan codes types, from the modifiers [st]. *)
Fixpoint typed (st : keyboard_state) (scs : list Z) : list Z :=
  match scs with
  | [] => []
  | sc :: scs' =>
      let '(st', c) := key_effect st sc in
      match c with None => typed st' scs' | Some c => c :: typed st' scs' end
  end.

Fixpoint read_chars (n : nat) (k : keyboard) : list Z * keyboard :=
  match n with
  | O => ([], k)
  | S n' => let '(c, k) := keyboard_get_char k in
            let '(l, k) := read_chars n' k in (c :: l, k)
  end.

Lemma typing_ok scs k :
  kbd_inv k → Forall is_u8 scs →
  (length (kbd_queue k) + length (typed (kbd_state k) scs) <= 256)%nat →
  let k' := foldl process_scancode k scs in
  kbd_inv k' ∧ kbd_queue k' = kbd_queue k ++ typed (kbd_state k) scs.
Proof.
  intros Hk Hscs. revert k Hk. induction Hscs as [|sc scs Hsc Hscs IH]; intros k Hk Hlen; simpl.
  { split; [done|]. by rewrite app_nil_r. }
  destruct (process_scancode_ok k sc Hk Hsc) as (Hk' & Hst & Hq).
  simpl in Hlen. destruct (key_effect (kbd_state k) sc) as [st' [c|]] eqn:E; simpl in *.
  - assert (kbd_queue (process_scancode k sc) = kbd_queue k ++ [c]) as Hq'.
    { rewrite Hq. unfold queue_put, INPUT_BUFFER_SIZE. zdecide. done. }
    destruct (IH _ Hk') as [? ->].
    { rewrite Hq', Hst, length_app. simpl. lia. }
    split; [done|]. rewrite Hq', Hst, <- app_assoc. done.
  - destruct (IH _ Hk') as [? ->]; [rewrite Hq, Hst; lia|]. split; [done|]. by rewrite Hq, Hst.
Qed.

Lemma read_chars_ok k :
  kbd_inv k →
  (read_chars (length (kbd_queue k)) k).1 = kbd_queue k ∧
  kbd_queue (read_chars (length (kbd_queue k)) k).2 = [].
Proof.
  remember (kbd_queue k) as q eqn:Eq. revert k Eq.
  induction q as [|x q IH]; intros k Eq Hk; simpl; [done|].
  pose proof (get_char_ok k Hk) as H. destruct (keyboard_get_char k) as [c k1].
  rewrite <- Eq in H. destruct H as (Hk1 & _ & -> & Hq1).
  destruct (IH k1 (eq_sym Hq1) Hk1) as [H1 H2].
  destruct (read_chars (length q) k1) as [l k2]. simpl in *. by subst.
Qed.

Lemma keyboard_init_ok k : kbd_inv (keyboard_init k) ∧ kbd_queue (keyboard_init k) = [].
Proof. split; [|done]. split; [apply length_replicate|done..]. Qed.

Lemma has_input_queue k : kbd_inv k → keyboard_has_input k = negb (bool_decide (kbd_queue k = [])).
Proof.
  intros [_ _ Hc _]. unfold keyboard_has_input.
  pose proof (length_kbd_queue k ltac:(lia)) as Hl.
  destruct (kbd_queue k); simpl in *; ztest; lia || done.
Qed.

Lemma interrupt_full k sc : keyboard_interrupt_handler k 1 sc = process_scancode k sc.
Proof. done. Qed.

(** Waiting on an empty queue consumes scan codes up to the first that types. *)
Lemma wait_ok scs k :
  kbd_inv k → kbd_queue k = [] → Forall is_u8 scs →
  match typed (kbd_state k) scs with
  | [] => keyboard_wait_for_input k ((1,.) <$> scs) = None
  | c :: l => ∃ k' scs', keyboard_wait_for_input k ((1,.) <$> scs) = Some (k', (1,.) <$> scs') ∧
                kbd_inv k' ∧ kbd_queue k' = [c] ∧ typed (kbd_state k') scs' = l ∧ Forall is_u8 scs'
  end.
Proof.
  intros Hk Hq Hscs. revert k Hk Hq. induction Hscs as [|sc scs Hsc Hscs IH]; intros k Hk Hq;
    cbn [keyboard_wait_for_input fmap list_fmap typed]; rewrite has_input_queue, Hq by done; [done|].
  cbn [bool_decide negb]. rewrite bool_decide_true by done. cbn [negb].
  rewrite interrupt_full. destruct (process_scancode_ok k sc Hk Hsc) as (Hk' & Hst & Hq').
  destruct (key_effect (kbd_state k) sc) as [st' [c|]]; simpl in Hst, Hq'.
  - rewrite Hq in Hq'. change (queue_put [] c) with [c] in Hq'.
    exists (process_scancode k sc), scs. rewrite <- Hst. split_and!; try done.
    destruct scs; cbn [keyboard_wait_for_input fmap list_fmap];
      rewrite has_input_queue, bool_decide_false by (try done; by rewrite Hq'); done.
  - rewrite <- Hst. apply IH; [done|congruence].
Qed.

(** ** Properties *)

(** C12: handling a scan code keeps the ring buffer well-formed, updates the
    modifiers as [key_effect] says, and appends the typed character (if any) at
    the end of the queue unless 256 characters are waiting; nothing else in the
    queue moves. *)
Theorem process_scancode_refines k sc :
  kbd_inv k → is_u8 sc →
  let k' := process_scancode k sc in
  kbd_inv k' ∧ kbd_state k' = (key_effect (kbd_state k) sc).1 ∧
  kbd_queue k' = match (key_effect (kbd_state k) sc).2 with
                 | None => kbd_queue k
                 | Some c => queue_put (kbd_queue k) c
                 end.
Proof. apply process_scancode_ok. Qed.

Lemma process_scancode_refines_witness :
  let k := keyboard_init (MkKeyboard (MkKeyboardState true true true true true true) [] 7 8 9) in
  kbd_queue (process_scancode k 0x1E) = lit "a".
Proof.
  pose proof (process_scancode_refines
    (keyboard_init (MkKeyboard (MkKeyboardState true true true true true true) [] 7 8 9)) 0x1E
    (proj1 (keyboard_init_ok _)) ltac:(done)) as H.
  exact (proj2 (proj2 H)).
Defined.

(** C37: first in, first out: typing a sequence of scan codes that produces at most
    256 characters and then reading as many characters returns exactly those
    characters, in order, and leaves the buffer empty. *)
Theorem keyboard_fifo scs k :
  Forall is_u8 scs →
  (length (typed (kbd_state (keyboard_init k)) scs) <= 256)%nat →
  let k' := foldl process_scancode (keyboard_init k) scs in
  let text := typed (kbd_state (keyboard_init k)) scs in
  (read_chars (length text) k').1 = text ∧ kbd_queue (read_chars (length text) k').2 = [].
Proof.
  intros Hscs Hlen. cbv zeta. destruct (keyboard_init_ok k) as [Hk Hq].
  destruct (typing_ok scs (keyboard_init k) Hk Hscs) as [Hk' Hq']; [rewrite Hq; exact Hlen|].
  rewrite Hq, app_nil_l in Hq'. rewrite <- Hq'. by apply read_chars_ok.
Qed.

Lemma keyboard_fifo_witness :
  (read_chars 3 (foldl process_scancode
     (keyboard_init (MkKeyboard (MkKeyboardState false false false false false false) [] 0 0 0))
     [0x2A; 0x23; 0xA3; 0xAA; 0x17; 0x97; 0x1C])).1 = lit "Hi" ++ [10].
Proof.
  destruct (keyboard_fifo [0x2A; 0x23; 0xA3; 0xAA; 0x17; 0x97; 0x1C]
    (MkKeyboard (MkKeyboardState false false false false false false) [] 0 0 0)
    ltac:(repeat constructor; done) ltac:(apply Nat.leb_le; reflexivity)) as [H _].
  exact H.
Defined.

(** The blocking read returns the first character that the coming scan codes
    type, keeps the buffer well-formed and consumes no scan code beyond the one that typed
    it; it waits for ever exactly when they type nothing. *)
Theorem keyboard_read_char_blocking k scs :
  kbd_inv k → kbd_queue k = [] → Forall is_u8 scs →
  match typed (kbd_state k) scs with
  | [] => keyboard_read_char k ((1,.) <$> scs) = None
  | c :: l => ∃ k' scs', keyboard_read_char k ((1,.) <$> scs) = Some (c, (k', (1,.) <$> scs')) ∧
                kbd_inv k' ∧ kbd_queue k' = [] ∧ typed (kbd_state k') scs' = l
  end.
Proof.
  intros Hk Hq Hscs. pose proof (wait_ok scs k Hk Hq Hscs) as H. unfold keyboard_read_char.
  destruct (typed (kbd_state k) scs) as [|c l]; [by rewrite H|].
  destruct H as (k1 & scs' & -> & Hk1 & Hq1 & Ht & _). simpl mbind.
  pose proof (get_char_ok k1 Hk1) as H. destruct (keyboard_get_char k1) as [c' k2].
  rewrite Hq1 in H. destruct H as (Hk2 & Hst & -> & Hq2). exists k2, scs'.
  split_and!; [done|done|done|by rewrite Hst].
Qed.

Lemma keyboard_read_char_blocking_witness :
  let k := keyboard_init (MkKeyboard (MkKeyboardState false false false false false false) [] 0 0 0) in
  ∃ k' scs', keyboard_read_char k ((1,.) <$> [0x2A; 0x1E; 0x1C]) = Some (chr "A", (k', (1,.) <$> scs')).
Proof.
  pose proof (keyboard_read_char_blocking
    (keyboard_init (MkKeyboard (MkKeyboardState false false false false false false) [] 0 0 0))
    [0x2A; 0x1E; 0x1C] (proj1 (keyboard_init_ok _)) (proj2 (keyboard_init_ok _))
    ltac:(repeat constructor; done)) as H.
  destruct H as (k' & scs' & H & _). exists k', scs'. exact H.
Defined.

(** The translation of a scan code is 0 or a printable ASCII character; for a
    letter key it is upper case exactly when one of Shift and Caps Lock is
    active, and on every other key Caps Lock has no effect. *)
Theorem scancode_to_char_case sc shift caps :
  is_u8 sc →
  let plain := scancode_to_char sc false false in
  let ch := scancode_to_char sc shift caps in
  (ch = 0 ∨ 32 <= ch <= 126) ∧
  ch = (if (chr "a" <=? plain) && (plain <=? chr "z")
        then if xorb shift caps then plain - 32 else plain
        else scancode_to_char sc shift false).
Proof.
  intros Hsc. cbv zeta.
  assert (forallb (λ s, forallb (λ sh, forallb (λ cp,
      let plain := scancode_to_char s false false in
      let ch := scancode_to_char s sh cp in
      ((ch =? 0) || ((32 <=? ch) && (ch <=? 126))) &&
      (ch =? (if (chr "a" <=? plain) && (plain <=? chr "z")
        then if xorb sh cp then plain - 32 else plain
        else scancode_to_char s sh false))) [true; false]) [true; false]) (seqZ 0 256) = true)
    as H by (vm_compute; reflexivity).
  rewrite forallb_forall in H. specialize (H sc).
  rewrite !forallb_forall in H. specialize (H ltac:(apply list_elem_of_In, elem_of_seqZ; word_lia)).
  specialize (H shift ltac:(destruct shift; simpl; auto)). rewrite forallb_forall in H.
  specialize (H caps ltac:(destruct caps; simpl; auto)). cbv zeta in H.
  apply andb_true_iff in H as [H1 H2]. split; [|by apply Z.eqb_eq].
  apply orb_true_iff in H1 as [H1|H1]; [left|right]; zreflect; lia.
Qed.

Lemma scancode_to_char_case_witness :
  scancode_to_char 0x1E true true = chr "a" ∧ scancode_to_char 0x1E true false = chr "A".
Proof.
  split.
  - exact (proj2 (scancode_to_char_case 0x1E true true ltac:(done))).
  - exact (proj2 (scancode_to_char_case 0x1E true false ltac:(done))).
Defined.
