(* ===== verification/Interrupt.v ===== *)
(** * Interrupt descriptor table, PIC and handlers (kernel/interrupt.c)

    The IDT as a list of 256 [idt_entry_t], the exact sequence of port writes
    that programs the two interrupt controllers, and the C halves of the
    handlers.  The entry stubs and [lidt] are assembly; the addresses the linker gives
    to the handlers are a parameter. *)

From S2P Require Import Prelude Ram CString Vga Keyboard.
Set Default Goal Selector "!".

(** ** Data *)

Record idt_entry := MkIdtEntry {
  offset_low : Z;
  selector : Z;
  zero : Z;
  type_attr : Z;
  offset_high : Z;
}.
#[export] Instance eta_idt_entry : Eta idt_entry := λ r,
  MkIdtEntry (offset_low r) (selector r) (zero r) (type_attr r) (offset_high r).

(** [idt], [idt_desc.limit], [interrupt_handlers] (0 is NULL) and the static
    counter of [timer_handler]. *)
Record idt_state := MkIdt {
  idt : list idt_entry;
  idt_limit : Z;
  interrupt_handlers : list Z;
  timer_count : Z;
}.
#[export] Instance eta_idt_state : Eta idt_state := λ r,
  MkIdt (idt r) (idt_limit r) (interrupt_handlers r) (timer_count r).

(** The functions whose addresses go into the table. *)
Inductive handler : Set :=
| divide_by_zero_handler | debug_handler | nmi_handler | breakpoint_handler
| overflow_handler | bound_range_handler | invalid_opcode_handler
| device_not_available_handler | double_fault_handler | coprocessor_segment_handler
| invalid_tss_handler | segment_not_present_handler | stack_fault_handler
| general_protection_handler | page_fault_handler | fpu_error_handler
| alignment_check_handler | machine_check_handler | simd_fpu_error_handler
| interrupt_handler_32 | interrupt_handler_33 | syscall_entry | syscall_handler.

#[export] Instance handler_eq_dec : EqDecision handler.
Proof. solve_decision. Defined.

Definition IDT_ATTR_PRESENT : Z := 0x80.
Definition IDT_ATTR_DPL_0 : Z := 0x00.
Definition IDT_ATTR_DPL_3 : Z := 0x60.
Definition IDT_ATTR_32BIT_INT : Z := 0x0E.
Definition IDT_ATTR_32BIT_TRAP : Z := 0x0F.

Definition kernel_gate : Z := Z.lor (Z.lor IDT_ATTR_PRESENT IDT_ATTR_DPL_0) IDT_ATTR_32BIT_INT.
Definition user_trap : Z := Z.lor (Z.lor IDT_ATTR_PRESENT IDT_ATTR_DPL_3) IDT_ATTR_32BIT_TRAP.

(** The calls of [idt_init], in program order: vector, handler, attributes. *)
Definition idt_vectors : list (Z * (handler * Z)) := [
  (0, (divide_by_zero_handler, kernel_gate));
  (1, (debug_handler, kernel_gate));
  (2, (nmi_handler, kernel_gate));
  (3, (breakpoint_handler, user_trap));
  (4, (overflow_handler, kernel_gate));
  (5, (bound_range_handler, kernel_gate));
  (6, (invalid_opcode_handler, kernel_gate));
  (7, (device_not_available_handler, kernel_gate));
  (8, (double_fault_handler, kernel_gate));
  (9, (coprocessor_segment_handler, kernel_gate));
  (10, (invalid_tss_handler, kernel_gate));
  (11, (segment_not_present_handler, kernel_gate));
  (12, (stack_fault_handler, kernel_gate));
  (13, (general_protection_handler, kernel_gate));
  (14, (page_fault_handler, kernel_gate));
  (16, (fpu_error_handler, kernel_gate));
  (17, (alignment_check_handler, kernel_gate));
  (18, (machine_check_handler, kernel_gate));
  (19, (simd_fpu_error_handler, kernel_gate));
  (32, (interrupt_handler_32, kernel_gate));
  (33, (interrupt_handler_33, kernel_gate));
  (0x80, (syscall_entry, user_trap))].

(** ** Operations *)

Definition pic_init (k : machine) : machine :=
  let k := outb 0x20 0x11 k in
  let k := outb 0x21 0x20 k in
  let k := outb 0x21 0x04 k in
  let k := outb 0x21 0x01 k in
  let k := outb 0xA0 0x11 k in
  let k := outb 0xA1 0x28 k in
  let k := outb 0xA1 0x02 k in
  let k := outb 0xA1 0x01 k in
  outb 0x21 0xFD k.

Definition idt_set_entry (s : idt_state) (index handler selector attributes : Z) : idt_state :=
  s <| idt := <[Z.to_nat index := MkIdtEntry (Z.land handler 0xFFFF) selector 0 attributes
                 (Z.land (Z.shiftr handler 16) 0xFFFF)]> (idt s) |>.

(** The loop that empties the table. *)
Definition clear_idt (s : idt_state) : idt_state :=
  for_z 256 0 (λ i s,
    let s := idt_set_entry s i 0 0 0 in
    s <| interrupt_handlers := <[Z.to_nat i := 0]> (interrupt_handlers s) |>) s.

Section addresses.
Context (addr : handler → Z).

Definition idt_init (s : idt_state) (k : machine) : idt_state * machine :=
  let k := pic_init k in
  let s := s <| idt_limit := u16 (256 * 8 - 1) |> in
  let s := clear_idt s in
  let s := foldl (λ s '(v, (h, attr)), idt_set_entry s v (addr h) 0x08 attr) s idt_vectors in
  (s, k).
End addresses.

(** The handlers that print a message: colour and text. *)
Definition print_in_color (k : machine) (color : Z) (text : list Z) : machine :=
  let k := vga_set_color k color VGA_COLOR_BLACK in
  let k := vga_putstr k text in
  vga_set_color k VGA_COLOR_LIGHT_GREY VGA_COLOR_BLACK.

Definition interrupt_handler_common (k : machine) : machine :=
  print_in_color k VGA_COLOR_LIGHT_RED (lit "Unhandled interrupt occurred!" ++ [10]).
Definition exception_handler_common (k : machine) : machine :=
  print_in_color k VGA_COLOR_LIGHT_RED (lit "Unhandled exception occurred!" ++ [10]).

(** What each exception handler runs; the handlers of the interrupt stubs and
    of system calls are not exceptions. *)
Definition exception_handler (h : handler) (k : machine) : machine :=
  match h with
  | divide_by_zero_handler =>
      print_in_color k VGA_COLOR_LIGHT_RED (lit "Exception: Division by Zero!" ++ [10])
  | debug_handler => print_in_color k VGA_COLOR_LIGHT_BROWN (lit "Debug exception occurred." ++ [10])
  | nmi_handler => print_in_color k VGA_COLOR_LIGHT_MAGENTA
                     (lit "NMI (Non-Maskable Interrupt) occurred." ++ [10])
  | breakpoint_handler => print_in_color k VGA_COLOR_LIGHT_CYAN
                            (lit "Breakpoint exception occurred." ++ [10])
  | overflow_handler => print_in_color k VGA_COLOR_LIGHT_RED (lit "Exception: Overflow!" ++ [10])
  | bound_range_handler => print_in_color k VGA_COLOR_LIGHT_RED
                             (lit "Exception: Bound Range Exceeded!" ++ [10])
  | invalid_opcode_handler => print_in_color k VGA_COLOR_LIGHT_RED
                                (lit "Exception: Invalid Opcode!" ++ [10])
  | device_not_available_handler => print_in_color k VGA_COLOR_LIGHT_BROWN
                                      (lit "Exception: Device Not Available!" ++ [10])
  | double_fault_handler => print_in_color k VGA_COLOR_LIGHT_RED (lit "FATAL: Double Fault!" ++ [10])
  | coprocessor_segment_handler => print_in_color k VGA_COLOR_LIGHT_RED
                                     (lit "Exception: Coprocessor Segment Overrun!" ++ [10])
  | invalid_tss_handler => print_in_color k VGA_COLOR_LIGHT_RED
                             (lit "Exception: Invalid TSS!" ++ [10])
  | segment_not_present_handler => print_in_color k VGA_COLOR_LIGHT_RED
                                     (lit "Exception: Segment Not Present!" ++ [10])
  | stack_fault_handler => print_in_color k VGA_COLOR_LIGHT_RED
                             (lit "Exception: Stack Fault!" ++ [10])
  | general_protection_handler => print_in_color k VGA_COLOR_LIGHT_RED
                                    (lit "Exception: General Protection Fault!" ++ [10])
  | page_fault_handler => print_in_color k VGA_COLOR_LIGHT_RED
                            (lit "Exception: Page Fault!" ++ [10])
  | fpu_error_handler => print_in_color k VGA_COLOR_LIGHT_BROWN
                           (lit "Exception: FPU Error!" ++ [10])
  | alignment_check_handler => print_in_color k VGA_COLOR_LIGHT_RED
                                 (lit "Exception: Alignment Check!" ++ [10])
  | machine_check_handler => print_in_color k VGA_COLOR_LIGHT_RED
                               (lit "FATAL: Machine Check!" ++ [10])
  | simd_fpu_error_handler => print_in_color k VGA_COLOR_LIGHT_BROWN
                                (lit "Exception: SIMD FPU Error!" ++ [10])
  | interrupt_handler_32 | interrupt_handler_33 | syscall_entry | syscall_handler => k
  end.

Definition timer_handler (s : idt_state) (k : machine) : idt_state * machine :=
  (s <| timer_count := s32 (timer_count s + 1) |>, outb 0x20 0x20 k).

Definition keyboard_handler (kb : keyboard) (status scancode : Z) (k : machine) :
    keyboard * machine :=
  (keyboard_interrupt_handler kb status scancode, outb 0x20 0x20 k).

(** ** The table as a function *)

(** The address the processor jumps to through an entry. *)
Definition entry_offset (e : idt_entry) : Z := Z.lor (offset_low e) (Z.shiftl (offset_high e) 16).

Definition gate_of (e : idt_entry) : Z * (Z * Z) := (entry_offset e, (selector e, type_attr e)).

Lemma entry_offset_split a : is_u32 a →
  Z.lor (Z.land a 0xFFFF) (Z.shiftl (Z.land (Z.shiftr a 16) 0xFFFF) 16) = a.
Proof.
  intros Ha. apply Z.bits_inj'. intros i Hi. change 0xFFFF with (Z.ones 16).
  rewrite Z.lor_spec, Z.land_spec, Z.shiftl_spec by lia.
  rewrite Z.testbit_ones_nonneg by lia. destruct (Z.ltb_spec i 16).
  - rewrite (Z.testbit_neg_r _ (i - 16)) by lia. by rewrite andb_true_r, orb_false_r.
  - rewrite andb_false_r. simpl. rewrite Z.land_spec, Z.shiftr_spec by lia.
    replace (i - 16 + 16) with i by lia. rewrite Z.testbit_ones_nonneg by lia.
    destruct (Z.ltb_spec (i - 16) 16); [apply andb_true_r|]. rewrite andb_false_r. symmetry.
    rewrite <- (u32_small a) by done. unfold u32. change 4294967296 with (2 ^ 32).
    apply Z.mod_pow2_bits_high. lia.
Qed.

Lemma idt_set_entry_lookup s v a sel attr i :
  0 <= v < Z.of_nat (length (idt s)) → 0 <= i →
  idt (idt_set_entry s v a sel attr) !! Z.to_nat i =
    if i =? v then Some (MkIdtEntry (Z.land a 0xFFFF) sel 0 attr (Z.land (Z.shiftr a 16) 0xFFFF))
    else idt s !! Z.to_nat i.
Proof.
  intros Hv Hi. unfold idt_set_entry. cbn. destruct (Z.eqb_spec i v) as [->|].
  - apply list_lookup_insert_eq. lia.
  - apply list_lookup_insert_ne. lia.
Qed.

(** The gate every vector gets: the last call for the vector, or an empty gate. *)
Definition boot_gate (addr : handler → Z) (v : Z) : Z * (Z * Z) :=
  match list_find (λ p, p.1 = v) idt_vectors with
  | Some (_, (_, (h, attr))) => (addr h, (0x08, attr))
  | None => (0, (0, 0))
  end.

Lemma set_vectors_lookup (addr : handler → Z) l s i :
  length (idt s) = 256%nat → Forall (λ p, 0 <= p.1 < 256) l → NoDup l.*1 →
  (∀ h, is_u32 (addr h)) → 0 <= i < 256 →
  let s' := foldl (λ s '(v, (h, attr)), idt_set_entry s v (addr h) 0x08 attr) s l in
  length (idt s') = 256%nat ∧
  gate_of <$> (idt s' !! Z.to_nat i) =
    match list_find (λ p, p.1 = i) l with
    | Some (_, (_, (h, attr))) => Some (addr h, (0x08, attr))
    | None => gate_of <$> (idt s !! Z.to_nat i)
    end.
Proof.
  intros Hlen Hl Hnd Haddr Hi. revert s Hlen.
  induction Hl as [|[v [h attr]] l Hv Hl IH]; intros s Hlen; [done|].
  cbn [foldl]. simpl in Hv. inversion_clear Hnd as [|? ? Hnin Hnd'].
  destruct (IH Hnd' (idt_set_entry s v (addr h) 0x08 attr)) as [Hlen' ->].
  { cbn. by rewrite length_insert. }
  split; [done|]. rewrite idt_set_entry_lookup by (rewrite ?Hlen; lia). cbn [list_find].
  destruct (decide ((v, (h, attr)).1 = i)) as [Heq|Hne]; simpl in *.
  - subst v. rewrite Z.eqb_refl.
    assert (list_find (λ p : Z * (handler * Z), p.1 = i) l = None) as ->.
    { apply list_find_None, Forall_forall. intros p Hp He. apply Hnin.
      rewrite <- He. by apply list_elem_of_fmap_2. }
    simpl. unfold gate_of, entry_offset. simpl. by rewrite entry_offset_split.
  - rewrite (proj2 (Z.eqb_neq i v)) by congruence.
    by destruct (list_find _ l) as [[? [? [? ?]]]|].
Qed.

Lemma vectors_ok : Forall (λ p : Z * (handler * Z), 0 <= p.1 < 256) idt_vectors ∧ NoDup idt_vectors.*1.
Proof.
  split.
  - repeat constructor; simpl; lia.
  - apply (bool_decide_unpack _). vm_compute. exact I.
Qed.

Lemma clear_idt_ok s :
  length (idt s) = 256%nat → length (interrupt_handlers s) = 256%nat →
  let s' := clear_idt s in
  length (idt s') = 256%nat ∧ idt_limit s' = idt_limit s ∧
  ∀ i, 0 <= i < 256 → idt s' !! Z.to_nat i = Some (MkIdtEntry 0 0 0 0 0) ∧
                      interrupt_handlers s' !! Z.to_nat i = Some 0.
Proof.
  intros Hlen Hlen'.
  pose proof (for_z_inv (λ j s', length (idt s') = 256%nat ∧
      length (interrupt_handlers s') = 256%nat ∧ idt_limit s' = idt_limit s ∧
      ∀ i, 0 <= i < j → idt s' !! Z.to_nat i = Some (MkIdtEntry 0 0 0 0 0) ∧
                        interrupt_handlers s' !! Z.to_nat i = Some 0) 256 0) as H.
  destruct (H (λ i s, let s := idt_set_entry s i 0 0 0 in
               s <| interrupt_handlers := <[Z.to_nat i := 0]> (interrupt_handlers s) |>) s)
    as (H1 & _ & H3 & H4).
  - split_and!; try done. lia.
  - intros j s1 Hj (Hl1 & Hl2 & Hl3 & Hall). change (Z.of_nat 256) with 256 in Hj.
    split_and!; [cbn; by rewrite length_insert|cbn; by rewrite length_insert|done|].
    intros i Hi. split.
    + change (idt (idt_set_entry s1 j 0 0 0) !! Z.to_nat i = Some (MkIdtEntry 0 0 0 0 0)).
      rewrite idt_set_entry_lookup by lia. destruct (Z.eqb_spec i j); [done|]. apply Hall. lia.
    + cbn. destruct (decide (i = j)) as [->|].
      * apply list_lookup_insert_eq. lia.
      * rewrite list_lookup_insert_ne by lia. apply Hall. lia.
  - split_and!; try done.
Qed.
#[global] Opaque clear_idt.

Lemma idt_init_ok addr s k :
  length (idt s) = 256%nat → length (interrupt_handlers s) = 256%nat → (∀ h, is_u32 (addr h)) →
  let '(s', k') := idt_init addr s k in
  length (idt s') = 256%nat ∧
  (∀ i, 0 <= i < 256 → gate_of <$> (idt s' !! Z.to_nat i) = Some (boot_gate addr i)) ∧
  idt_limit s' = 2047 ∧ k' = pic_init k.
Proof.
  intros Hlen Hlen' Haddr. unfold idt_init. cbv zeta.
  match goal with |- context [clear_idt ?x] => set (s0 := x) end.
  destruct (clear_idt_ok s0 Hlen Hlen') as (Hl1 & Hlim & Hall).
  set (s1 := clear_idt s0) in *. clearbody s1. cbv beta iota.
  destruct vectors_ok as [Hv Hnd].
  assert (∀ l s, idt_limit (foldl (λ s '(v, (h, attr)), idt_set_entry s v (addr h) 0x08 attr) s l)
            = idt_limit s) as Hlimit.
  { induction l as [|[? [? ?]] l IH]; intros s'; simpl; [done|]. by rewrite IH. }
  split_and!.
  - by apply (set_vectors_lookup addr idt_vectors s1 0).
  - intros i Hi. destruct (set_vectors_lookup addr idt_vectors s1 i Hl1 Hv Hnd Haddr Hi) as [_ ->].
    unfold boot_gate. destruct (list_find _ idt_vectors) as [[? [? [? ?]]]|]; [done|].
    by rewrite (proj1 (Hall i Hi)).
  - by rewrite Hlimit, Hlim.
  - done.
Qed.

(** ** Properties *)

(** After [idt_init] every one of the 256 vectors has the gate of
    [boot_gate]: the handler's address recombines exactly from the two halves
    of the entry, selector 0x08, interrupt gates for exceptions and hardware
    interrupts, user-callable traps for vectors 3 and 0x80, and an empty entry
    everywhere else; the limit is the table's size less one and the PIC is
    programmed to vectors 0x20 and 0x28 with only the keyboard unmasked. *)
Theorem idt_init_gates addr s k i :
  length (idt s) = 256%nat → length (interrupt_handlers s) = 256%nat →
  (∀ h, is_u32 (addr h)) → 0 <= i < 256 →
  let '(s', k') := idt_init addr s k in
  gate_of <$> (idt s' !! Z.to_nat i) = Some (boot_gate addr i) ∧
  idt_limit s' = 2047 ∧
  ports k' = ports k ++ [(0x20, 0x11); (0x21, 0x20); (0x21, 0x04); (0x21, 0x01);
                         (0xA0, 0x11); (0xA1, 0x28); (0xA1, 0x02); (0xA1, 0x01); (0x21, 0xFD)].
Proof.
  intros Hlen Hlen' Haddr Hi. pose proof (idt_init_ok addr s k Hlen Hlen' Haddr) as H.
  destruct (idt_init addr s k) as [s' k']. destruct H as (_ & Hg & Hlim & ->).
  split; [by apply Hg|]. split; [done|]. unfold pic_init, outb. cbn. by rewrite <- !app_assoc.
Qed.

Lemma idt_init_gates_witness :
  let s := MkIdt (replicate 256 (MkIdtEntry 1 2 3 4 5)) 0 (replicate 256 7) 0 in
  gate_of <$> (idt (idt_init (λ h, if decide (h = page_fault_handler) then 0x123456 else 0x100000)
                     s blank_machine).1 !! 14%nat)
    = Some (0x123456, (0x08, 0x8E)).
Proof.
  exact (proj1 (idt_init_gates (λ h, if decide (h = page_fault_handler) then 0x123456 else 0x100000)
    (MkIdt (replicate 256 (MkIdtEntry 1 2 3 4 5)) 0 (replicate 256 7) 0) blank_machine 14
    ltac:(reflexivity) ltac:(reflexivity) ltac:(intros h; cbv beta; case_decide; done) ltac:(lia))).
Defined.

(** Every exception handler prints exactly its message in its colour, resets
    the colour to light grey, keeps the console well-formed, and touches nothing but the
    screen. *)
Theorem exception_handler_prints h k :
  term_ok k →
  term_ok (exception_handler h k) ∧ only (mem k) framebuffer (mem (exception_handler h k)) ∧
  (exception_handler h k = k ∨
   ∃ color text, abs_tty (exception_handler h k) =
     let t := abs_tty k in
     let t' := tty_write (MkTty (screen t) (trow t) (tcol t) (vga_entry_color color VGA_COLOR_BLACK))
                 (text ++ [10]) in
     MkTty (screen t') (trow t') (tcol t') (vga_entry_color VGA_COLOR_LIGHT_GREY VGA_COLOR_BLACK)).
Proof.
  intros Hk.
  assert (∀ color text,
    term_ok (print_in_color k color (text ++ [10])) ∧
    only (mem k) framebuffer (mem (print_in_color k color (text ++ [10]))) ∧
    abs_tty (print_in_color k color (text ++ [10])) =
     let t := abs_tty k in
     let t' := tty_write (MkTty (screen t) (trow t) (tcol t) (vga_entry_color color VGA_COLOR_BLACK))
                 (text ++ [10]) in
     MkTty (screen t') (trow t') (tcol t') (vga_entry_color VGA_COLOR_LIGHT_GREY VGA_COLOR_BLACK))
    as H.
  { intros color text. unfold print_in_color.
    assert (term_ok (vga_set_color k color VGA_COLOR_BLACK)) as Hk1.
    { destruct Hk as [Hc _]. split; [exact Hc|]. apply u8_range. }
    destruct (vga_putstr_ok _ (text ++ [10]) Hk1) as [Habs [[Hc _] Ho]].
    set (k2 := vga_putstr _ _) in *. clearbody k2.
    split; [split; [exact Hc|apply u8_range]|]. split; [exact Ho|].
    change (abs_tty (vga_set_color k2 VGA_COLOR_LIGHT_GREY VGA_COLOR_BLACK)) with
      (MkTty (screen (abs_tty k2)) (trow (abs_tty k2)) (tcol (abs_tty k2))
         (vga_entry_color VGA_COLOR_LIGHT_GREY VGA_COLOR_BLACK)).
    by rewrite Habs. }
  assert (∀ color text, exception_handler h k = print_in_color k color (text ++ [10]) →
    term_ok (exception_handler h k) ∧ only (mem k) framebuffer (mem (exception_handler h k)) ∧
    (exception_handler h k = k ∨
     ∃ color text, abs_tty (exception_handler h k) =
     let t := abs_tty k in
     let t' := tty_write (MkTty (screen t) (trow t) (tcol t) (vga_entry_color color VGA_COLOR_BLACK))
                 (text ++ [10]) in
     MkTty (screen t') (trow t') (tcol t') (vga_entry_color VGA_COLOR_LIGHT_GREY VGA_COLOR_BLACK)))
    as Hp.
  { intros color text ->. destruct (H color text) as (H1 & H2 & H3).
    split; [exact H1|]. split; [exact H2|]. right. by exists color, text. }
  destruct h; try (by eapply Hp); (split; [exact Hk|]; split; [apply only_refl|by left]).
Qed.

Lemma exception_handler_prints_witness : term_ok (exception_handler page_fault_handler blank_machine).
Proof. exact (proj1 (exception_handler_prints page_fault_handler blank_machine blank_machine_ok)). Defined.
