(* ===== verification/Fat.v ===== *)
(** * The FAT12 table (fs/filesystem.c)

    The file allocation table as the 4608 bytes of [fat_table_static], addressed
    by offset, with the 12-bit packing of the code.  The abstract table is the
    function [fat_get] from clusters to 12-bit entries; a file's clusters are a
    [chain] in it. *)

From S2P Require Import Prelude Ram CString.
Set Default Goal Selector "!".

(** ** Constants and results *)

Definition FS_SECTOR_SIZE : Z := 512.
Definition FS_ROOT_ENTRIES : Z := 224.
Definition FS_FAT_SIZE : Z := 9.
Definition FS_ROOT_SECTOR : Z := 19.
Definition FS_DATA_SECTOR : Z := 33.
Definition FS_MAX_PATH : Z := 256.
Definition FS_CLUSTERS : Z := 2880.

Definition FS_SUCCESS : Z := 0.
Definition FS_ERROR_NOT_FOUND : Z := -1.
Definition FS_ERROR_ACCESS_DENIED : Z := -2.
Definition FS_ERROR_DISK_FULL : Z := -3.
Definition FS_ERROR_INVALID_PATH : Z := -4.
Definition FS_ERROR_FILE_EXISTS : Z := -5.
Definition FS_ERROR_INVALID_MODE : Z := -6.
Definition FS_ERROR_IO_ERROR : Z := -7.
Definition FS_ERROR_NOT_DIRECTORY : Z := -8.

(** A function that returns [FS_SUCCESS] and stores a result through a pointer,
    or returns an error code. *)
Inductive fs_result (A : Type) : Type :=
| Ok (a : A)
| Err (e : Z).
Arguments Ok {A} _.
Arguments Err {A} _.

Definition status {A} (r : fs_result A) : Z :=
  match r with Ok _ => FS_SUCCESS | Err e => e end.

(** ** Operations: [init] is [fs_state.initialized], [fat] the table's bytes *)

Definition fs_read_fat (init : bool) (fat : ram) (cluster : Z) : fs_result Z :=
  if negb init || (FS_CLUSTERS <=? cluster) then Err FS_ERROR_IO_ERROR
  else
    let fat_offset := cluster * 3 / 2 in
    let fat_entry := rd16 fat fat_offset in
    Ok (if negb (Z.land cluster 1 =? 0) then Z.shiftr fat_entry 4
        else Z.land fat_entry 0x0FFF).

Definition fs_write_fat (init : bool) (fat : ram) (cluster value : Z) : fs_result unit * ram :=
  if negb init || (FS_CLUSTERS <=? cluster) then (Err FS_ERROR_IO_ERROR, fat)
  else
    let fat_offset := cluster * 3 / 2 in
    let fat_entry := rd16 fat fat_offset in
    (Ok tt,
     wr16 fat fat_offset
       (if negb (Z.land cluster 1 =? 0)
        then u16 (Z.lor (Z.land fat_entry 0x000F) (Z.shiftl value 4))
        else Z.lor (Z.land fat_entry 0xF000) (Z.land value 0x0FFF))).

(** -1 when there is none. *)
Definition fs_find_free_cluster (init : bool) (fat : ram) : Z :=
  if negb init then -1
  else default (-1) (for_first (Z.to_nat (FS_CLUSTERS - 2)) 2 (λ i,
    match fs_read_fat init fat i with
    | Ok value => if value =? 0 then Some i else None
    | Err _ => None
    end)).

Definition fs_allocate_cluster (init : bool) (fat : ram) : fs_result Z * ram :=
  if negb init then (Err FS_ERROR_IO_ERROR, fat)
  else
    let free_cluster := fs_find_free_cluster init fat in
    if free_cluster =? -1 then (Err FS_ERROR_DISK_FULL, fat)
    else match fs_write_fat init fat free_cluster 0xFFF with
         | (Err _, fat) => (Err FS_ERROR_IO_ERROR, fat)
         | (Ok _, fat) => (Ok (u16 free_cluster), fat)
         end.

(** One turn of the loop of [fs_free_cluster_chain]. *)
Definition free_chain_step (init : bool) (s : ram * Z) : (ram * Z) + (fs_result unit * ram) :=
  let '(fat, cluster) := s in
  if cluster <? 0xFF8 then
    match fs_read_fat init fat cluster with
    | Err _ => inr (Err FS_ERROR_IO_ERROR, fat)
    | Ok next_cluster =>
        match fs_write_fat init fat cluster 0 with
        | (Err _, fat) => inr (Err FS_ERROR_IO_ERROR, fat)
        | (Ok _, fat) => inl (fat, next_cluster)
        end
    end
  else inr (Ok tt, fat).

(** [None] when [fuel] turns are not enough; see [chain_fuel]. *)
Definition fs_free_cluster_chain (fuel : nat) (init : bool) (fat : ram) (cluster : Z) :
    option (fs_result unit * ram) :=
  if negb init then Some (Err FS_ERROR_IO_ERROR, fat)
  else loop fuel (free_chain_step init) (fat, cluster).

(** A chain without repetition has at most 2880 clusters, and its end takes one
    more turn. *)
Definition chain_fuel : nat := 2881.

(** ** The table as a function *)

Definition is_cluster (c : Z) : Prop := 0 <= c < FS_CLUSTERS.

Definition fat_get (fat : ram) (c : Z) : Z :=
  if Z.odd c then rd16 fat (c * 3 / 2) / 16 else rd16 fat (c * 3 / 2) mod 4096.

Definition fat_cells : Z → Prop := span 0 (FS_FAT_SIZE * FS_SECTOR_SIZE).

Lemma land_1_odd c : negb (Z.land c 1 =? 0) = Z.odd c.
Proof.
  change 1 with (Z.ones 1). rewrite Z.land_ones by lia. change (2 ^ 1) with 2.
  rewrite Zmod_odd. by destruct (Z.odd c).
Qed.

Lemma fs_read_fat_ok fat c : is_cluster c → fs_read_fat true fat c = Ok (fat_get fat c).
Proof.
  intros Hc. unfold fs_read_fat, is_cluster in *. rewrite (proj2 (Z.leb_gt _ _)) by lia.
  cbn [negb orb]. rewrite land_1_odd. unfold fat_get. f_equal.
  destruct (Z.odd c); [by rewrite Z.shiftr_div_pow2 by lia|].
  change 0x0FFF with (Z.ones 12). by rewrite Z.land_ones by lia.
Qed.

(** The new 16-bit word of an entry, as arithmetic. *)
Lemma fat_word_odd e v : is_u16 e → 0 <= v →
  u16 (Z.lor (Z.land e 0x000F) (Z.shiftl v 4)) = e mod 16 + v mod 4096 * 16.
Proof.
  intros He Hv. change 0x000F with (Z.ones 4). rewrite Z.land_ones by lia.
  change (2 ^ 4) with 16.
  assert (Z.lor (e mod 16) (Z.shiftl v 4) = v * 16 + e mod 16) as ->.
  { rewrite Z.lor_comm. change 16 with (2 ^ 4).
    assert (Z.land (Z.shiftl v 4) (e mod 2 ^ 4) = 0) as H0.
    { apply Z.bits_inj'. intros i Hi. rewrite Z.land_spec, Z.shiftl_spec, Z.bits_0 by lia.
      destruct (decide (i < 4)); [by rewrite Z.testbit_neg_r by lia|].
      rewrite Z.mod_pow2_bits_high by lia. apply andb_false_r. }
    rewrite <- Z.lxor_lor, <- Z.add_nocarry_lxor by done.
    by rewrite Z.shiftl_mul_pow2 by lia. }
  word_lia.
Qed.

Lemma fat_word_even e v : is_u16 e → 0 <= v →
  Z.lor (Z.land e 0xF000) (Z.land v 0x0FFF) = e / 4096 * 4096 + v mod 4096.
Proof.
  intros He Hv. change 0xF000 with (Z.shiftl (Z.ones 4) 12).
  rewrite land_clear_low by (try lia; apply He). change 0x0FFF with (Z.ones 12).
  rewrite Z.land_ones by lia. change (2 ^ 12) with 4096.
  set (h := e / 4096). replace (h * 4096) with (Z.shiftl h 12) by (by rewrite Z.shiftl_mul_pow2).
  assert (Z.land (Z.shiftl h 12) (v mod 4096) = 0) as H0.
  { apply Z.bits_inj'. intros i Hi. rewrite Z.land_spec, Z.shiftl_spec, Z.bits_0 by lia.
    destruct (decide (i < 12)); [by rewrite Z.testbit_neg_r by lia|].
    change 4096 with (2 ^ 12). rewrite Z.mod_pow2_bits_high by lia. apply andb_false_r. }
  by rewrite <- Z.lxor_lor, <- Z.add_nocarry_lxor by done.
Qed.

(** The 12-bit entries in bytes: clusters [2k] and [2k+1] share bytes [3k .. 3k+2]. *)
Lemma fat_get_even fat k :
  fat_get fat (2 * k) = rd8 fat (3 * k) + 256 * (rd8 fat (3 * k + 1) mod 16).
Proof.
  unfold fat_get. rewrite Z.odd_mul. simpl.
  replace (2 * k * 3 / 2) with (3 * k) by word_lia. unfold rd16.
  pose proof (rd8_range fat (3 * k)). pose proof (rd8_range fat (3 * k + 1)). word_lia.
Qed.
Lemma fat_get_odd fat k :
  fat_get fat (2 * k + 1) = rd8 fat (3 * k + 1) / 16 + 16 * rd8 fat (3 * k + 2).
Proof.
  unfold fat_get. rewrite Z.odd_add, Z.odd_mul. simpl.
  replace ((2 * k + 1) * 3 / 2) with (3 * k + 1) by word_lia. unfold rd16.
  replace (3 * k + 1 + 1) with (3 * k + 2) by lia.
  pose proof (rd8_range fat (3 * k + 1)). pose proof (rd8_range fat (3 * k + 2)). word_lia.
Qed.

Lemma rd8_wr16 m a v b :
  rd8 (wr16 m a v) b =
    if b =? a then v mod 256 else if b =? a + 1 then v / 256 mod 256 else rd8 m b.
Proof.
  unfold wr16. destruct (Z.eqb_spec b (a + 1)) as [->|].
  - rewrite rd8_wr8_eq. rewrite (proj2 (Z.eqb_neq (a + 1) a)) by lia. done.
  - rewrite rd8_wr8_ne by lia. destruct (Z.eqb_spec b a) as [->|].
    + by rewrite rd8_wr8_eq.
    + by rewrite rd8_wr8_ne by lia.
Qed.

Lemma cluster_cases c : (∃ k, c = 2 * k) ∨ (∃ k, c = 2 * k + 1).
Proof.
  destruct (Z.Even_or_Odd c) as [[k ->]|[k ->]]; [left|right]; eauto.
Qed.

Lemma fat_get_wr_even fat k v c' :
  0 <= v →
  let e := rd16 fat (3 * k) in
  fat_get (wr16 fat (3 * k) (e / 4096 * 4096 + v mod 4096)) c' =
    if c' =? 2 * k then v mod 4096 else fat_get fat c'.
Proof.
  intros Hv e. pose proof (rd8_range fat (3 * k)) as H0. pose proof (rd8_range fat (3 * k + 1)) as H1.
  unfold e, rd16. set (b0 := rd8 fat (3 * k)) in *. set (b1 := rd8 fat (3 * k + 1)) in *.
  set (w := _ + v mod 4096).
  destruct (cluster_cases c') as [[k' ->]|[k' ->]]; [rewrite !fat_get_even|rewrite !fat_get_odd];
    rewrite !rd8_wr16.
  - destruct (Z.eqb_spec (2 * k') (2 * k)).
    + assert (k' = k) as -> by lia. zdecide. unfold w. clear -H0 H1 Hv. clearbody b0 b1. word_lia.
    + by zdecide.
  - rewrite (proj2 (Z.eqb_neq (2 * k' + 1) (2 * k))) by lia.
    destruct (decide (k' = k)) as [->|].
    + zdecide. fold b1. unfold w. assert ((b0 + 256 * b1) / 4096 = b1 / 16) as E by word_lia.
      rewrite E. assert ((b1 / 16 * 4096 + v mod 4096) / 256 mod 256 / 16 = b1 / 16) as ->; [|done].
      clear -H1 Hv. clearbody b1. word_lia.
    + by zdecide.
Qed.

Lemma fat_get_wr_odd fat k v c' :
  0 <= v →
  let e := rd16 fat (3 * k + 1) in
  fat_get (wr16 fat (3 * k + 1) (e mod 16 + v mod 4096 * 16)) c' =
    if c' =? 2 * k + 1 then v mod 4096 else fat_get fat c'.
Proof.
  intros Hv e. pose proof (rd8_range fat (3 * k + 1)) as H1. pose proof (rd8_range fat (3 * k + 2)) as H2.
  unfold e, rd16. replace (3 * k + 1 + 1) with (3 * k + 2) by lia.
  set (b1 := rd8 fat (3 * k + 1)) in *. set (b2 := rd8 fat (3 * k + 2)) in *.
  set (w := _ + v mod 4096 * 16).
  destruct (cluster_cases c') as [[k' ->]|[k' ->]]; [rewrite !fat_get_even|rewrite !fat_get_odd];
    rewrite !rd8_wr16.
  - rewrite (proj2 (Z.eqb_neq (2 * k') (2 * k + 1))) by lia.
    destruct (decide (k' = k)) as [->|].
    + zdecide. fold b1. unfold w. assert ((b1 + 256 * b2) mod 16 = b1 mod 16) as E by word_lia.
      rewrite E. assert ((b1 mod 16 + v mod 4096 * 16) mod 256 mod 16 = b1 mod 16) as ->; [|done].
      clear -H1 Hv. clearbody b1. word_lia.
    + by zdecide.
  - destruct (Z.eqb_spec (2 * k' + 1) (2 * k + 1)).
    + assert (k' = k) as -> by lia. zdecide. unfold w. clear -H1 H2 Hv. clearbody b1 b2. word_lia.
    + by zdecide.
Qed.

Lemma fs_write_fat_ok fat c v :
  is_cluster c → 0 <= v →
  ∃ fat', fs_write_fat true fat c v = (Ok tt, fat') ∧ only fat fat_cells fat' ∧
    ∀ c', is_cluster c' → fat_get fat' c' = if c' =? c then v mod 4096 else fat_get fat c'.
Proof.
  intros Hc Hv. unfold fs_write_fat. unfold is_cluster in *.
  rewrite (proj2 (Z.leb_gt FS_CLUSTERS c)) by lia. cbn [negb orb]. rewrite land_1_odd.
  pose proof (rd16_range fat (c * 3 / 2)) as He.
  eexists. split; [reflexivity|]. split.
  { eapply only_mono; [apply only_wr16|]. unfold fat_cells, span, FS_CLUSTERS, FS_FAT_SIZE,
      FS_SECTOR_SIZE in *. intros a Ha. Z.div_mod_to_equations. lia. }
  rewrite fat_word_odd, fat_word_even by done. intros c' _.
  destruct (cluster_cases c) as [[k ->]|[k ->]].
  - rewrite Z.odd_mul. simpl Z.odd. cbn [andb].
    replace (2 * k * 3 / 2) with (3 * k) by word_lia. by apply fat_get_wr_even.
  - rewrite Z.odd_add, Z.odd_mul. simpl Z.odd. cbn [andb xorb].
    replace ((2 * k + 1) * 3 / 2) with (3 * k + 1) by word_lia. by apply fat_get_wr_odd.
Qed.

Lemma fs_find_free_cluster_ok fat :
  (∃ c, fs_find_free_cluster true fat = c ∧ 2 <= c < FS_CLUSTERS ∧ fat_get fat c = 0 ∧
        ∀ d, 2 <= d < c → fat_get fat d ≠ 0) ∨
  (fs_find_free_cluster true fat = -1 ∧ ∀ d, 2 <= d < FS_CLUSTERS → fat_get fat d ≠ 0).
Proof.
  unfold fs_find_free_cluster. cbn [negb].
  assert (∀ i, 2 <= i < FS_CLUSTERS →
    match fs_read_fat true fat i with
    | Ok value => if value =? 0 then Some i else None
    | Err _ => None
    end = if fat_get fat i =? 0 then Some i else None) as Hbody.
  { intros i Hi. rewrite fs_read_fat_ok; [done|]. unfold is_cluster. lia. }
  match goal with |- context [for_first ?n ?z ?t] =>
    destruct (for_first n z t) as [c|] eqn:E end; simpl default.
  - left. exists c. split; [done|]. apply for_first_Some in E as (j & Hj & Ht & Hk).
    change (2 + Z.of_nat (Z.to_nat (FS_CLUSTERS - 2))) with FS_CLUSTERS in Hj.
    rewrite Hbody in Ht by done. destruct (Z.eqb_spec (fat_get fat j) 0); [|done].
    injection Ht as <-. split_and!; try lia. intros d Hd. specialize (Hk d ltac:(lia)).
    rewrite Hbody in Hk by lia. by destruct (Z.eqb_spec (fat_get fat d) 0).
  - right. split; [done|]. rewrite for_first_None in E. intros d Hd.
    change (2 + Z.of_nat (Z.to_nat (FS_CLUSTERS - 2))) with FS_CLUSTERS in E.
    specialize (E d ltac:(lia)). rewrite Hbody in E by lia.
    by destruct (Z.eqb_spec (fat_get fat d) 0).
Qed.

Lemma fs_allocate_cluster_ok fat :
  (∃ c fat', fs_allocate_cluster true fat = (Ok c, fat') ∧ 2 <= c < FS_CLUSTERS ∧
     fat_get fat c = 0 ∧ (∀ d, 2 <= d < c → fat_get fat d ≠ 0) ∧
     only fat fat_cells fat' ∧
     ∀ d, is_cluster d → fat_get fat' d = if d =? c then 0xFFF else fat_get fat d) ∨
  (fs_allocate_cluster true fat = (Err FS_ERROR_DISK_FULL, fat) ∧
     ∀ d, 2 <= d < FS_CLUSTERS → fat_get fat d ≠ 0).
Proof.
  unfold fs_allocate_cluster. cbn [negb].
  destruct (fs_find_free_cluster_ok fat) as [(c & -> & Hc & H0 & Hlow)|[-> Hall]];
    [left|right; by split].
  rewrite (proj2 (Z.eqb_neq c (-1))) by lia.
  destruct (fs_write_fat_ok fat c 0xFFF) as (fat' & -> & Ho & Hget);
    [unfold is_cluster; lia|lia|].
  exists c, fat'. rewrite u16_small by (unfold FS_CLUSTERS in Hc; word_lia).
  split_and!; try done; lia.
Qed.

(** ** Cluster chains *)

(** The clusters of a file that starts at [c]; an entry from 0xFF8 up ends it. *)
Fixpoint chain (fat : ram) (c : Z) (l : list Z) : Prop :=
  match l with
  | [] => 0xFF8 <= c
  | x :: l' => c = x ∧ is_cluster x ∧ chain fat (fat_get fat x) l'
  end.

Lemma chain_clusters fat c l : chain fat c l → Forall is_cluster l.
Proof.
  revert c. induction l as [|x l IH]; intros c; simpl; [constructor|].
  intros (_ & Hx & Hl). constructor; eauto.
Qed.

Lemma chain_ext fat fat' c l :
  (∀ d, d ∈ l → fat_get fat' d = fat_get fat d) → chain fat c l → chain fat' c l.
Proof.
  revert c. induction l as [|x l IH]; intros c H; simpl; [done|].
  intros (-> & Hx & Hl). split_and!; [done|done|]. rewrite H by (by left).
  apply IH; [|done]. intros d Hd. apply H. by right.
Qed.

Lemma chain_length fat c l : chain fat c l → NoDup l → (length l < chain_fuel)%nat.
Proof.
  intros Hl%chain_clusters Hnd.
  assert (l ⊆+ seqZ 0 FS_CLUSTERS) as Hsub.
  { apply NoDup_submseteq; [done|]. intros x Hx. apply elem_of_seqZ.
    rewrite Forall_forall in Hl. specialize (Hl x Hx). unfold is_cluster in Hl. lia. }
  apply submseteq_length in Hsub. rewrite length_seqZ in Hsub.
  unfold FS_CLUSTERS, chain_fuel in *. lia.
Qed.

Lemma free_chain_ok l fuel fat c :
  chain fat c l → NoDup l → (length l < fuel)%nat →
  ∃ fat', fs_free_cluster_chain fuel true fat c = Some (Ok tt, fat') ∧
    only fat fat_cells fat' ∧
    ∀ d, is_cluster d → fat_get fat' d = if decide (d ∈ l) then 0 else fat_get fat d.
Proof.
  unfold fs_free_cluster_chain. cbn [negb]. revert fuel fat c.
  induction l as [|x l IH]; intros fuel fat c Hch Hnd Hf; (destruct fuel as [|f]; [simpl in Hf; lia|]);
    cbn [loop free_chain_step]; simpl in Hch.
  - rewrite (proj2 (Z.ltb_ge c 0xFF8)) by lia.
    exists fat. split_and!; [done|apply only_refl|done].
  - destruct Hch as (-> & Hx & Hch). inversion_clear Hnd as [|? ? Hnin Hnd'].
    rewrite (proj2 (Z.ltb_lt x 0xFF8)) by (unfold is_cluster, FS_CLUSTERS in Hx; lia).
    rewrite fs_read_fat_ok by done.
    destruct (fs_write_fat_ok fat x 0) as (fat1 & -> & Ho1 & Hget1); [done|lia|].
    assert (∀ d, d ∈ l → fat_get fat1 d = fat_get fat d) as Hsame.
    { intros d Hd. rewrite Hget1.
      - rewrite (proj2 (Z.eqb_neq d x)); [done|]. by intros ->.
      - pose proof (chain_clusters _ _ _ Hch) as Hc. rewrite Forall_forall in Hc. by apply Hc. }
    destruct (IH f fat1 (fat_get fat x)) as (fat2 & -> & Ho2 & Hget2);
      [by eapply chain_ext|done|simpl in Hf; lia|].
    exists fat2. split_and!; [done|by eapply only_trans|].
    intros d Hd. rewrite Hget2, Hget1 by done. change (0 mod 4096) with 0.
    destruct (Z.eqb_spec d x) as [->|Hne].
    + rewrite (decide_True (P := x ∈ x :: l)) by (by left). by case_decide.
    + destruct (decide (d ∈ l)).
      * by rewrite decide_True by (by right).
      * rewrite decide_False; [done|]. intros [?|?]%elem_of_cons; done.
Qed.

(** Two tables with the same 2880 entries. *)
Definition fat_eq (fat fat' : ram) : Prop := ∀ c, is_cluster c → fat_get fat c = fat_get fat' c.
#[export] Instance fat_eq_equivalence : Equivalence fat_eq.
Proof.
  split.
  - by intros f c _.
  - intros f g H c Hc. symmetry. by apply H.
  - intros f g h H1 H2 c Hc. rewrite H1 by done. by apply H2.
Qed.

(** A fresh cluster is a chain of its own. *)
Lemma allocated_chain fat fat' c :
  fs_allocate_cluster true fat = (Ok c, fat') → chain fat' c [c] ∧ 2 <= c < FS_CLUSTERS.
Proof.
  intros Ha. destruct (fs_allocate_cluster_ok fat) as [(c' & fat1 & Ha' & Hc & _ & _ & _ & Hget)|[Ha' _]];
    rewrite Ha' in Ha; [|done]. injection Ha as <- <-.
  assert (is_cluster c') as Hc' by (unfold is_cluster; lia).
  split; [|lia]. simpl. split_and!; [done|done|]. rewrite Hget, Z.eqb_refl by done. lia.
Qed.

(** ** Properties *)

(** C19: writing FAT entry [c] always succeeds for a cluster of the disk, stores
    exactly the low 12 bits of the value there (reading it back returns them),
    leaves the other 2879 entries, including the neighbour that shares a byte,
    as they were, and stays inside the nine sectors of the table. *)
Theorem fat_write_read fat c v :
  is_cluster c → 0 <= v →
  ∃ fat', fs_write_fat true fat c v = (Ok tt, fat') ∧
    fs_read_fat true fat' c = Ok (v mod 4096) ∧
    (∀ c', is_cluster c' → c' ≠ c → fs_read_fat true fat' c' = fs_read_fat true fat c') ∧
    only fat fat_cells fat'.
Proof.
  intros Hc Hv. destruct (fs_write_fat_ok fat c v Hc Hv) as (fat' & Hw & Ho & Hget).
  exists fat'. split_and!; [done| | |done].
  - by rewrite fs_read_fat_ok, Hget, Z.eqb_refl by done.
  - intros c' Hc' Hne. rewrite !fs_read_fat_ok, Hget by done.
    by rewrite (proj2 (Z.eqb_neq _ _) Hne).
Qed.

Lemma fat_write_read_witness :
  ∃ fat', fs_write_fat true (wr8 ∅ 4 0xAB) 3 0x1234 = (Ok tt, fat') ∧
    fs_read_fat true fat' 3 = Ok 0x234.
Proof.
  destruct (fat_write_read (wr8 ∅ 4 0xAB) 3 0x1234 ltac:(done) ltac:(done)) as (fat' & H1 & H2 & _).
  exists fat'. split; [exact H1|exact H2].
Defined.

(** Allocation takes the lowest free cluster from 2 up, marks it as the end of
    a chain and changes no other entry; it fails with [FS_ERROR_DISK_FULL],
    changing nothing, exactly when no cluster is free; and freeing the
    one-cluster chain it started restores the table. *)
Theorem fat_allocate_lowest fat :
  (∃ c fat', fs_allocate_cluster true fat = (Ok c, fat') ∧ 2 <= c < FS_CLUSTERS ∧
     fat_get fat c = 0 ∧ (∀ d, 2 <= d < c → fat_get fat d ≠ 0) ∧ chain fat' c [c] ∧
     (∀ d, is_cluster d → d ≠ c → fat_get fat' d = fat_get fat d) ∧
     ∃ fat'', fs_free_cluster_chain chain_fuel true fat' c = Some (Ok tt, fat'') ∧
              fat_eq fat'' fat) ∨
  (fs_allocate_cluster true fat = (Err FS_ERROR_DISK_FULL, fat) ∧
     ∀ d, 2 <= d < FS_CLUSTERS → fat_get fat d ≠ 0).
Proof.
  destruct (fs_allocate_cluster_ok fat) as [(c & fat' & Ha & Hc & H0 & Hlow & _ & Hget)|H];
    [left|by right].
  destruct (allocated_chain _ _ _ Ha) as [Hch _].
  destruct (free_chain_ok [c] chain_fuel fat' c Hch) as (fat'' & Hf & _ & Hget');
    [apply NoDup_singleton|unfold chain_fuel; simpl; lia|].
  exists c, fat'. split_and!; try done; try lia.
  - intros d Hd Hne. by rewrite Hget, (proj2 (Z.eqb_neq _ _) Hne).
  - exists fat''. split; [exact Hf|]. intros d Hd. rewrite Hget', Hget by done.
    destruct (Z.eqb_spec d c) as [->|Hne].
    + by rewrite decide_True by (by left).
    + rewrite decide_False; [done|]. intros ?%list_elem_of_singleton. done.
Qed.

(** C29: freeing a cyclefree chain terminates within [chain_fuel] turns, zeroes exactly
    the entries of the chain's clusters, and touches no other entry. *)
Theorem fat_free_chain_exact fat c l :
  chain fat c l → NoDup l →
  ∃ fat', fs_free_cluster_chain chain_fuel true fat c = Some (Ok tt, fat') ∧
    only fat fat_cells fat' ∧
    ∀ d, is_cluster d → fat_get fat' d = if decide (d ∈ l) then 0 else fat_get fat d.
Proof. intros Hch Hnd. apply free_chain_ok; [done|done|by eapply chain_length]. Qed.

Lemma fat_free_chain_exact_witness :
  ∃ fat', fs_free_cluster_chain chain_fuel true
    (fs_write_fat true (fs_write_fat true ∅ 2 7).2 7 0xFFF).2 2 = Some (Ok tt, fat').
Proof.
  destruct (fat_free_chain_exact (fs_write_fat true (fs_write_fat true ∅ 2 7).2 7 0xFFF).2 2 [2; 7])
    as (fat' & H & _).
  - repeat split; vm_compute; done.
  - apply (bool_decide_unpack _). vm_compute. exact I.
  - exists fat'. exact H.
Defined.

(** The walk never leaves cluster 0 when its entry is 0. *)
Lemma free_chain_loops fat c fuel :
  is_cluster c → fat_get fat c = 0 → fat_get fat 0 = 0 →
  fs_free_cluster_chain fuel true fat c = None.
Proof.
  intros Hc Hc0 H0. unfold fs_free_cluster_chain. cbn [negb].
  apply (loop_diverges _ (λ s, is_cluster s.2 ∧ fat_get s.1 s.2 = 0 ∧ fat_get s.1 0 = 0)); [|done].
  intros [f d] (Hd & Hfd & Hf0). cbn [fst snd] in *. unfold free_chain_step.
  rewrite (proj2 (Z.ltb_lt d 0xFF8)) by (unfold is_cluster, FS_CLUSTERS in Hd; lia).
  rewrite fs_read_fat_ok by done.
  destruct (fs_write_fat_ok f d 0) as (f1 & -> & _ & Hget); [done|lia|].
  exists (f1, fat_get f d). split; [done|]. cbn [fst snd]. rewrite Hfd.
  assert (is_cluster 0) as Hz by done. split; [done|].
  rewrite Hget by done. by destruct (0 =? d).
Qed.

(** Freeing from a cluster whose entry is already 0, on a table whose entry 0 is
    0 (as [fs_init] and [fs_format] leave it), never returns: the walk stays on
    cluster 0 for ever. *)
Theorem fat_double_free_diverges fat c fuel :
  is_cluster c → fat_get fat c = 0 → fat_get fat 0 = 0 →
  fs_free_cluster_chain fuel true fat c = None.
Proof. apply free_chain_loops. Qed.

Lemma fat_double_free_diverges_witness : fs_free_cluster_chain 1000 true ∅ 5 = None.
Proof. apply (fat_double_free_diverges ∅ 5 1000); vm_compute; done. Defined.
