(* ===== verification/FsNames.v ===== *)
(** * File names and paths (fs/filesystem.c)

    The 8.3 name conversion and the validation of names and paths, on the
    contents of the strings.  A [const char*] that may be NULL is an [option]. *)

From S2P Require Import Prelude CString Fat.
Set Default Goal Selector "!".

(** ** Operations *)

(** The loops "convert to upper case" on [uint8_t]. *)
Definition upper (c : Z) : Z :=
  if (chr "a" <=? c) && (c <=? chr "z") then u8 (c - chr "a" + chr "A") else c.

(** [memcpy(buf, src, n)] on a fixed-size array. *)
Definition copy_into (buf src : list Z) (n : nat) : list Z := take n src ++ drop n buf.

(** The two arrays the function fills: [name\[8\]] and [ext\[3\]]. *)
Definition convert_filename (filename : list Z) : list Z * list Z :=
  let name := replicate 8 (chr " ") in
  let ext := replicate 3 (chr " ") in
  let '(name, ext) :=
    match Str.strchr filename (chr ".") with
    | Some dot =>
        let name_len := if (8 <? dot)%nat then 8%nat else dot in
        let name := copy_into name filename name_len in
        let ext_start := drop (S dot) filename in
        let ext_len := length ext_start in
        let ext_len := if (3 <? ext_len)%nat then 3%nat else ext_len in
        (name, copy_into ext ext_start ext_len)
    | None =>
        let name_len := length filename in
        let name_len := if (8 <? name_len)%nat then 8%nat else name_len in
        (copy_into name filename name_len, ext)
    end in
  (upper <$> name, upper <$> ext).

(** [for (i = 0; i < n && a\[i\] != ' '; i++)]: the bytes copied. *)
Fixpoint until_space (n : nat) (a : list Z) : list Z :=
  match n, a with
  | S n', c :: a' => if c =? chr " " then [] else c :: until_space n' a'
  | _, _ => []
  end.

(** The bytes stored in [filename] before the terminating zero. *)
Definition convert_filename_back (name ext : list Z) : list Z :=
  until_space 8 name ++ (
    if Str.peek ext =? chr " " then [] else chr "." :: until_space 3 ext).

Definition is_valid_filename (filename : option (list Z)) : bool :=
  match filename with
  | None => false
  | Some filename =>
      if Str.strlen filename =? 0 then false
      else match Str.strchr filename (chr ".") with
           | Some dot =>
               let name_len := dot in
               if (name_len =? 0)%nat || (8 <? name_len)%nat then false
               else if (3 <? length (drop (S dot) filename))%nat then false else true
           | None => if 8 <? Str.strlen filename then false else true
           end
  end.

Definition validate_path (path : option (list Z)) : Z :=
  match path with
  | None => FS_ERROR_INVALID_PATH
  | Some path =>
      if Str.strlen path =? 0 then FS_ERROR_INVALID_PATH
      else if (Str.strcmp path (lit "..") =? 0) || (Str.strcmp path (lit ".") =? 0)
              || (Str.strcmp path (lit "/") =? 0) then FS_SUCCESS
      else if negb (Str.peek path =? chr "/") then FS_ERROR_INVALID_PATH
      else
        let filename := tail path in
        if Str.strlen filename =? 0 then FS_ERROR_INVALID_PATH
        else if negb (is_valid_filename (Some filename)) then FS_ERROR_INVALID_PATH
        else FS_SUCCESS
  end.

(** Directory and file name: the two strings stored on success. *)
Definition parse_path (path : list Z) : fs_result (list Z * list Z) :=
  match Str.strrchr path (chr "/") with
  | None => Err FS_ERROR_INVALID_PATH
  | Some last_slash =>
      let dir_len := last_slash in
      if FS_MAX_PATH <=? Z.of_nat dir_len then Err FS_ERROR_INVALID_PATH
      else Ok (take dir_len path, drop (S last_slash) path)
  end.

(** The string stored in [result]. *)
Definition join_path (dir filename : list Z) : list Z :=
  let result := dir in
  let dir_len := length result in
  let result := if (0 <? dir_len)%nat && negb (nth (dir_len - 1) result 0 =? chr "/")
                then result ++ [chr "/"] else result in
  result ++ filename.

(** The names the functions are exported under. *)
Definition fs_convert_name (filename : list Z) : list Z * list Z := convert_filename filename.
Definition fs_convert_name_back (name ext : list Z) : list Z := convert_filename_back name ext.
Definition fs_is_valid_filename (filename : option (list Z)) : bool := is_valid_filename filename.
Definition fs_validate_path (path : option (list Z)) : Z := validate_path path.
Definition fs_parse_path (path : list Z) : fs_result (list Z * list Z) := parse_path path.
Definition fs_join_path (dir filename : list Z) : list Z := join_path dir filename.

(** ** 8.3 names *)

(** A name the file system accepts: a base of one to eight bytes and, after a
    dot, an extension of at most three. *)
Definition name_parts (f : list Z) (base : list Z) (ext : option (list Z)) : Prop :=
  (chr "." ∉ base) ∧ (1 <= length base <= 8)%nat ∧
  match ext with
  | None => f = base
  | Some e => f = base ++ chr "." :: e ∧ (length e <= 3)%nat
  end.

(** How the name reads back: upper case, without a trailing dot. *)
Definition canonical (base : list Z) (ext : option (list Z)) : list Z :=
  upper <$> match ext with
            | None | Some [] => base
            | Some e => base ++ chr "." :: e
            end.

Lemma upper_u8 c : is_u8 c → is_u8 (upper c).
Proof. intros. unfold upper. destruct (_ && _); [apply u8_range|done]. Qed.

Lemma upper_space c : is_u8 c → upper c = chr " " ↔ c = chr " ".
Proof.
  intros Hc. unfold upper. change (chr "a") with 97. change (chr "z") with 122.
  change (chr "A") with 65. change (chr " ") with 32.
  destruct ((97 <=? c) && (c <=? 122)) eqn:E; zreflect; [|done].
  unfold u8. split; intros; word_lia.
Qed.

Lemma upper_dot c : is_u8 c → upper c = chr "." ↔ c = chr ".".
Proof.
  intros Hc. unfold upper. change (chr "a") with 97. change (chr "z") with 122.
  change (chr "A") with 65. change (chr ".") with 46.
  destruct ((97 <=? c) && (c <=? 122)) eqn:E; zreflect; [|done].
  unfold u8. split; intros; word_lia.
Qed.

Lemma upper_idemp c : is_u8 c → upper (upper c) = upper c.
Proof.
  intros Hc. unfold upper at 2 3. change (chr "a") with 97. change (chr "z") with 122.
  change (chr "A") with 65. destruct ((97 <=? c) && (c <=? 122)) eqn:E; zreflect.
  - unfold upper. change (chr "a") with 97. rewrite u8_small by word_lia.
    rewrite (proj2 (Z.leb_gt 97 _)) by lia. done.
  - unfold upper. change (chr "a") with 97. change (chr "z") with 122. by rewrite E.
Qed.

Definition pad (n : nat) (l : list Z) : list Z := l ++ replicate (n - length l) (chr " ").

Lemma copy_into_pad n l : (length l <= n)%nat → copy_into (replicate n (chr " ")) l (length l) = pad n l.
Proof. intros. unfold copy_into, pad. rewrite firstn_all, drop_replicate. done. Qed.

Lemma copy_into_app n l r :
  (length l <= n)%nat → copy_into (replicate n (chr " ")) (l ++ r) (length l) = pad n l.
Proof. intros. unfold copy_into, pad. by rewrite take_app_length, drop_replicate. Qed.

Lemma length_pad n l : (length l <= n)%nat → length (pad n l) = n.
Proof. intros. unfold pad. rewrite length_app, length_replicate. lia. Qed.

Lemma dot_range : 0 < chr "." < 256.
Proof. done. Qed.

Lemma drop_past {A} (l r : list A) x : drop (S (length l)) (l ++ x :: r) = r.
Proof. induction l; simpl; [by rewrite drop_0|done]. Qed.

(** Where the dot of a valid name is. *)
Lemma name_parts_dot f base ext :
  str_ok f → name_parts f base ext →
  Str.strchr f (chr ".") = match ext with None => None | Some _ => Some (length base) end.
Proof.
  intros Hf (Hdot & Hlen & Hext). destruct ext as [e|].
  - destruct Hext as [-> He]. apply (strchr_Some _ _ _ Hf dot_range).
    rewrite take_app_length. split; [|done]. by rewrite list_lookup_middle.
  - subst f. by apply (strchr_None _ _ Hf dot_range).
Qed.

Lemma convert_filename_parts f base ext :
  str_ok f → name_parts f base ext →
  convert_filename f = (upper <$> pad 8 base, upper <$> pad 3 (default [] ext)).
Proof.
  intros Hf Hp. unfold convert_filename. rewrite (name_parts_dot f base ext) by done.
  destruct Hp as (Hdot & Hlen & Hext). destruct ext as [e|]; simpl default.
  - destruct Hext as [-> He].
    rewrite (proj2 (Nat.ltb_ge 8 (length base))) by lia.
    rewrite drop_past.
    rewrite (proj2 (Nat.ltb_ge 3 (length e))) by lia.
    by rewrite copy_into_app, copy_into_pad by lia.
  - subst f. rewrite (proj2 (Nat.ltb_ge 8 (length base))) by lia.
    by rewrite copy_into_pad by lia.
Qed.

Lemma until_space_pad n l :
  str_ok l → (chr " " ∉ l) → (length l <= n)%nat → until_space n (upper <$> pad n l) = upper <$> l.
Proof.
  revert n. induction l as [|c l IH]; intros n Hl Hsp Hlen.
  - unfold pad. simpl length. rewrite Nat.sub_0_r, app_nil_l. by destruct n.
  - destruct n as [|n]; [simpl in Hlen; lia|].
    apply Forall_cons in Hl as [Hc Hl]. apply not_elem_of_cons in Hsp as [Hne Hsp].
    change (pad (S n) (c :: l)) with (c :: pad n l). cbn [fmap list_fmap until_space].
    rewrite (proj2 (Z.eqb_neq (upper c) (chr " "))).
    + f_equal. apply IH; [done|done|simpl in Hlen; lia].
    + intros He. apply (upper_space c ltac:(word_lia)) in He. congruence.
Qed.

Lemma convert_back_parts f base ext :
  str_ok f → name_parts f base ext → (chr " " ∉ f) →
  convert_filename_back (convert_filename f).1 (convert_filename f).2 = canonical base ext.
Proof.
  intros Hf Hp Hsp. rewrite (convert_filename_parts f base ext) by done.
  destruct Hp as (Hdot & Hlen & Hext). unfold convert_filename_back, canonical.
  cbn [fst snd].
  assert (str_ok base ∧ (chr " " ∉ base) ∧ str_ok (default [] ext) ∧ (chr " " ∉ default [] ext))
    as (Hb & Hbs & He & Hes).
  { destruct ext as [e|]; simpl.
    - destruct Hext as [-> ?]. apply Forall_app in Hf as [? [_ ?]%Forall_cons].
      rewrite not_elem_of_app, not_elem_of_cons in Hsp. tauto.
    - subst f. split_and!; try done; [constructor|apply not_elem_of_nil]. }
  rewrite until_space_pad by (done || lia).
  destruct ext as [[|c e]|]; simpl default in *.
  - by rewrite app_nil_r.
  - destruct Hext as [_ Hel]. apply Forall_cons in He as [Hc He].
    pose proof Hes as [Hne _]%not_elem_of_cons.
    rewrite until_space_pad by (try done; by constructor).
    unfold pad. cbn [app fmap list_fmap Str.peek].
    rewrite (proj2 (Z.eqb_neq (upper c) (chr " "))).
    + rewrite fmap_app. done.
    + intros H. apply (upper_space c ltac:(word_lia)) in H. congruence.
  - by rewrite app_nil_r.
Qed.

(** ** Validation *)

Lemma is_valid_filename_ok f :
  str_ok f → is_valid_filename (Some f) = true ↔ ∃ base ext, name_parts f base ext.
Proof.
  intros Hf. unfold is_valid_filename, Str.strlen. split.
  - destruct (Z.eqb_spec (Z.of_nat (length f)) 0); [done|].
    destruct (Str.strchr f (chr ".")) as [dot|] eqn:E.
    + apply (strchr_Some _ _ _ Hf dot_range) in E as [Hl Ht].
      destruct ((dot =? 0)%nat || (8 <? dot)%nat) eqn:E1; [done|].
      destruct (3 <? length (drop (S dot) f))%nat eqn:E2; [done|]. intros _.
      apply orb_false_iff in E1 as [E1%Nat.eqb_neq E1'%Nat.ltb_ge]. apply Nat.ltb_ge in E2.
      pose proof (lookup_lt_Some _ _ _ Hl).
      exists (take dot f), (Some (drop (S dot) f)). split; [done|].
      rewrite length_take. split; [lia|]. split; [|done].
      symmetry. by apply take_drop_middle.
    + apply (strchr_None _ _ Hf dot_range) in E.
      destruct (Z.ltb_spec 8 (Z.of_nat (length f))); [done|]. intros _.
      exists f, None. split; [done|]. split; [lia|done].
  - intros (base & ext & Hp). rewrite (name_parts_dot f base ext) by done.
    destruct Hp as (Hdot & Hlen & Hext). destruct ext as [e|].
    + destruct Hext as [-> He]. rewrite length_app. simpl length.
      rewrite (proj2 (Z.eqb_neq (Z.of_nat (length base + S (length e))) 0)) by lia.
      rewrite (proj2 (Nat.eqb_neq _ 0)), (proj2 (Nat.ltb_ge 8 _)) by lia. cbn [orb].
      rewrite drop_past. by rewrite (proj2 (Nat.ltb_ge 3 _)) by lia.
    + subst f. rewrite (proj2 (Z.eqb_neq _ 0)), (proj2 (Z.ltb_ge 8 _)) by lia. done.
Qed.

Lemma lit_str_ok s : forallb (λ c, (0 <? c) && (c <? 256)) (lit s) = true → str_ok (lit s).
Proof.
  intros H. apply Forall_forall. intros c Hc. rewrite forallb_forall in H.
  specialize (H c (proj1 (list_elem_of_In _ _) Hc)). zreflect. lia.
Qed.

Definition path_valid (p : list Z) : Prop :=
  p = lit ".." ∨ p = lit "." ∨ p = lit "/" ∨
  ∃ f base ext, p = chr "/" :: f ∧ name_parts f base ext.

Lemma strcmp_lit p s : str_ok p → str_ok (lit s) → (Str.strcmp p (lit s) =? 0) = bool_decide (p = lit s).
Proof.
  intros Hp Hs. pose proof (strcmp_eq p (lit s) Hp Hs) as H.
  destruct (Z.eqb_spec (Str.strcmp p (lit s)) 0) as [E|E]; symmetry.
  - apply bool_decide_eq_true. by apply H.
  - apply bool_decide_eq_false. intros He. apply E. by apply H.
Qed.

Lemma validate_path_ok p :
  str_ok p →
  (validate_path (Some p) = FS_SUCCESS ↔ path_valid p) ∧
  (validate_path (Some p) = FS_SUCCESS ∨ validate_path (Some p) = FS_ERROR_INVALID_PATH).
Proof.
  intros Hp. unfold validate_path.
  rewrite !strcmp_lit by (first [done | apply lit_str_ok; reflexivity]).
  destruct p as [|c f].
  { simpl. split; [|by right]. split; [done|]. intros [?|[?|[?|(?&?&?&?&_)]]]; done. }
  rewrite (proj2 (Z.eqb_neq (Str.strlen (c :: f)) 0)) by (unfold Str.strlen; simpl; lia).
  destruct (bool_decide_reflect (c :: f = lit "..")) as [E1|E1];
    [split; [split; [by left|done]|by left]|].
  destruct (bool_decide_reflect (c :: f = lit ".")) as [E2|E2];
    [split; [split; [by right; left|done]|by left]|].
  destruct (bool_decide_reflect (c :: f = lit "/")) as [E3|E3];
    [split; [split; [by right; right; left|done]|by left]|].
  cbn [orb Str.peek tail]. apply Forall_cons in Hp as [Hc Hf].
  pose proof (is_valid_filename_ok f Hf) as Hvalid.
  destruct (Z.eqb_spec c (chr "/")) as [->|Hne]; cbn [negb].
  2:{ split; [|by right]. split; [done|]. intros [?|[?|[?|(?&?&?&[= ? ?]&_)]]]; done. }
  destruct (Z.eqb_spec (Str.strlen f) 0) as [E|E].
  { split; [|by right]. split; [done|]. destruct f; [done|]. unfold Str.strlen in E. simpl in E. lia. }
  destruct (is_valid_filename (Some f)); cbn [negb].
  - split; [|by left]. split; [|done]. intros _. right; right; right.
    destruct (proj1 Hvalid eq_refl) as (b & e & ?). by exists f, b, e.
  - split; [|by right]. split; [done|]. intros [?|[?|[?|(f'&b&e&[= <-]&Hn)]]]; try done.
    assert (false = true) by (apply Hvalid; eauto). done.
Qed.

(** ** Names up to case *)

Definition dot_tail (l : list Z) : list Z := match l with [] => [] | _ => chr "." :: l end.

Lemma canonical_eq base ext :
  canonical base ext = (upper <$> base) ++ dot_tail (upper <$> default [] ext).
Proof.
  unfold canonical. destruct ext as [[|c e]|]; simpl; rewrite ?app_nil_r; try done.
  by rewrite fmap_app.
Qed.

Lemma dot_tail_inj a a' x x' :
  (chr "." ∉ a) → (chr "." ∉ a') → a ++ dot_tail x = a' ++ dot_tail x' → a = a' ∧ x = x'.
Proof.
  revert a'. induction a as [|c a IH]; intros [|c' a'] Ha Ha' He; simpl in He.
  - split; [done|]. destruct x, x'; simpl in He; try done. congruence.
  - destruct x; simpl in He; [done|]. injection He as <- _. by destruct Ha'; left.
  - destruct x'; simpl in He; [done|]. injection He as -> _. by destruct Ha; left.
  - injection He as -> He. apply not_elem_of_cons in Ha as [_ Ha], Ha' as [_ Ha'].
    destruct (IH a' Ha Ha' He) as [-> ->]. done.
Qed.

Lemma upper_no_dot l : str_ok l → (chr "." ∉ l) → (chr "." ∉ upper <$> l).
Proof.
  intros Hl Hd Hin. apply list_elem_of_fmap in Hin as (c & He & Hc).
  unfold str_ok in Hl. rewrite Forall_forall in Hl. specialize (Hl c Hc).
  symmetry in He. apply (upper_dot c ltac:(word_lia)) in He. congruence.
Qed.

Lemma fmap_upper_pad n l : upper <$> pad n l = pad n (upper <$> l).
Proof. unfold pad. by rewrite fmap_app, fmap_replicate, length_fmap. Qed.

Lemma name_parts_str_ok f base ext :
  str_ok f → name_parts f base ext → str_ok base ∧ str_ok (default [] ext).
Proof.
  intros Hf (_ & _ & Hext). destruct ext as [e|]; simpl.
  - destruct Hext as [-> _]. apply Forall_app in Hf as [? [_ ?]%Forall_cons]. done.
  - subst. split; [done|constructor].
Qed.

(** ** Properties *)

(** C30: a valid name without blanks survives the conversion to the 8.3 form and
    back: it comes back in upper case (and without a trailing dot); so two such
    names share a directory entry exactly when they are equal up to that. *)
Theorem filename_roundtrip f base ext g base' ext' :
  str_ok f → name_parts f base ext → (chr " " ∉ f) →
  str_ok g → name_parts g base' ext' → (chr " " ∉ g) →
  convert_filename_back (convert_filename f).1 (convert_filename f).2 = canonical base ext ∧
  (convert_filename f = convert_filename g ↔ canonical base ext = canonical base' ext').
Proof.
  intros Hf Hp Hsp Hg Hp' Hsp'. pose proof (convert_back_parts f base ext Hf Hp Hsp) as E.
  split; [done|]. pose proof (convert_back_parts g base' ext' Hg Hp' Hsp') as E'. split.
  - intros He. by rewrite <- E, <- E', He.
  - rewrite (convert_filename_parts f base ext), (convert_filename_parts g base' ext') by done.
    rewrite !canonical_eq. destruct (name_parts_str_ok _ _ _ Hf Hp) as [Hb _].
    destruct (name_parts_str_ok _ _ _ Hg Hp') as [Hb' _].
    intros He. apply dot_tail_inj in He as [H1 H2]; [|apply upper_no_dot; [done|apply Hp]
      |apply upper_no_dot; [done|apply Hp']].
    rewrite !fmap_upper_pad. by rewrite H1, H2.
Qed.

Lemma filename_roundtrip_witness :
  convert_filename (lit "readme.txt") = (lit "README  ", lit "TXT") ∧
  convert_filename_back (lit "README  ") (lit "TXT") = lit "README.TXT".
Proof.
  assert (name_parts (lit "readme.txt") (lit "readme") (Some (lit "txt"))) as Hp.
  { split; [apply (bool_decide_unpack _); vm_compute; exact I|]. simpl. split; [lia|]. split; [done|lia]. }
  assert (str_ok (lit "readme.txt")) as Hs by (apply lit_str_ok; reflexivity).
  assert (chr " " ∉ lit "readme.txt") as Hsp by (apply (bool_decide_unpack _); vm_compute; exact I).
  split; [reflexivity|].
  exact (proj1 (filename_roundtrip _ _ _ _ _ _ Hs Hp Hsp Hs Hp Hsp)).
Defined.

(** [validate_path] accepts exactly "/", ".", ".." and "/" followed by a valid
    8.3 name, and answers [FS_ERROR_INVALID_PATH] for everything else. *)
Theorem validate_path_decides p :
  str_ok p →
  (validate_path (Some p) = FS_SUCCESS ↔ path_valid p) ∧
  (validate_path (Some p) = FS_SUCCESS ∨ validate_path (Some p) = FS_ERROR_INVALID_PATH).
Proof. apply validate_path_ok. Qed.

Lemma validate_path_decides_witness : path_valid (lit "/A.B") ∧ ¬ path_valid (lit "/NAME.TEXT").
Proof.
  split.
  - apply (validate_path_decides (lit "/A.B")); [|reflexivity]. by apply lit_str_ok.
  - intros H. apply (validate_path_decides (lit "/NAME.TEXT")) in H; [done|]. by apply lit_str_ok.
Defined.
