(* ===== verification/Fs.v ===== *)
(** * The file system (fs/filesystem.c)

    Root directory, file handles and path operations on top of the FAT.  The disk
    is a stub in the source: [fs_read_sector] succeeds without filling the
    buffer, so what a function finds in a local sector buffer is whatever was
    on the stack; those contents are the parameters [sector_junk] and
    [dir_junk], and no theorem assumes anything about them. *)

From S2P Require Import Prelude Ram CString Vga Fat FsNames.
Set Default Goal Selector "!".

(** ** Data *)

Definition FS_ATTR_READ_ONLY : Z := 0x01.
Definition FS_ATTR_DIRECTORY : Z := 0x10.
Definition FS_ATTR_ARCHIVE : Z := 0x20.
Definition FS_MODE_READ : Z := 0x01.
Definition FS_MODE_WRITE : Z := 0x02.
Definition FS_MODE_APPEND : Z := 0x04.
Definition FS_MODE_CREATE : Z := 0x08.

(** [fs_dirent_t] *)
Record dirent := MkDirent {
  d_name : list Z;
  d_ext : list Z;
  d_attr : Z;
  d_reserved : list Z;
  d_time : Z;
  d_date : Z;
  d_cluster : Z;
  d_size : Z;
}.
#[export] Instance eta_dirent : Eta dirent := λ r,
  MkDirent (d_name r) (d_ext r) (d_attr r) (d_reserved r) (d_time r) (d_date r)
    (d_cluster r) (d_size r).
#[export] Instance dirent_eq_dec : EqDecision dirent.
Proof. solve_decision. Defined.

Definition dirent_zero : dirent :=
  MkDirent (replicate 8 0) (replicate 3 0) 0 (replicate 10 0) 0 0 0 0.

(** [fs_file_t]; [f_name] is the string stored in [name]. *)
Record fs_file := MkFile {
  f_cluster : Z;
  f_offset : Z;
  f_size : Z;
  f_mode : Z;
  f_valid : bool;
  f_name : list Z;
}.
#[export] Instance eta_fs_file : Eta fs_file := λ r,
  MkFile (f_cluster r) (f_offset r) (f_size r) (f_mode r) (f_valid r) (f_name r).

Inductive fs_file_type : Set := FS_TYPE_FILE | FS_TYPE_DIRECTORY | FS_TYPE_VOLUME.

(** [fs_dirent_info_t] *)
Record dirent_info := MkInfo {
  i_name : list Z;
  i_type : fs_file_type;
  i_size : Z;
  i_cluster : Z;
  i_attr : Z;
}.

(** [fs_stats_t] *)
Record fs_stats := MkStats {
  total_sectors : Z;
  free_sectors : Z;
  used_sectors : Z;
  total_files : Z;
  total_dirs : Z;
}.
#[export] Instance eta_fs_stats : Eta fs_stats := λ r,
  MkStats (total_sectors r) (free_sectors r) (used_sectors r) (total_files r) (total_dirs r).

(** [fs_state] with the two static arrays its pointers designate, whether the
    pointers are set, and [current_directory]. *)
Record fs := MkFs {
  initialized : bool;
  pointers_set : bool;
  fat_table : ram;
  root_dir : list dirent;
  stats : fs_stats;
  current_directory : list Z;
}.
#[export] Instance eta_fs : Eta fs := λ r,
  MkFs (initialized r) (pointers_set r) (fat_table r) (root_dir r) (stats r)
    (current_directory r).

Definition root_entry (s : fs) (i : Z) : dirent := nth (Z.to_nat i) (root_dir s) dirent_zero.
Definition set_root_entry (s : fs) (i : Z) (e : dirent) : fs :=
  s <| root_dir := <[Z.to_nat i := e]> (root_dir s) |>.

(** [e.name\[0\] != 0 && e.name\[0\] != 0xE5] *)
Definition in_use (e : dirent) : bool :=
  negb (Str.peek (d_name e) =? 0) && negb (Str.peek (d_name e) =? 0xE5).

Definition is_directory (e : dirent) : bool := negb (Z.land (d_attr e) FS_ATTR_DIRECTORY =? 0).

(** ** Sectors: the stubs of the source *)

Definition fs_read_sector (sector : Z) : Z := FS_SUCCESS.
Definition fs_write_sector (sector : Z) (buffer : list Z) : Z := FS_SUCCESS.
Definition write_fat_sector (sector : Z) (buffer : list Z) : Z := fs_write_sector sector buffer.

(** ** Directory entries *)

Definition strip_slash (name : list Z) : list Z :=
  if Str.peek name =? chr "/" then tail name else name.

Definition same_name (e : dirent) (search : list Z * list Z) : bool :=
  (Str.memcmp 8 (d_name e) search.1 =? 0) && (Str.memcmp 3 (d_ext e) search.2 =? 0).

(** The loops that look for an entry in use with a given 8.3 name. *)
Definition find_index (s : fs) (search : list Z * list Z) : option Z :=
  for_first (Z.to_nat FS_ROOT_ENTRIES) 0 (λ i,
    if in_use (root_entry s i) && same_name (root_entry s i) search then Some i else None).

Definition find_directory_entry (s : fs) (name : option (list Z)) : fs_result dirent :=
  match name with
  | None => Err FS_ERROR_IO_ERROR
  | Some name =>
      if negb (initialized s) then Err FS_ERROR_IO_ERROR
      else
        let filename := strip_slash name in
        let search := convert_filename filename in
        match find_index s search with
        | Some i => Ok (root_entry s i)
        | None => Err FS_ERROR_NOT_FOUND
        end
  end.

(** The assignments that fill a directory entry. *)
Definition fill_dirent (e : dirent) (nm : list Z * list Z) (attr cluster size : Z) : dirent :=
  e <| d_name := nm.1 |> <| d_ext := nm.2 |> <| d_attr := attr |> <| d_cluster := cluster |>
    <| d_size := size |> <| d_time := 0 |> <| d_date := 0 |> <| d_reserved := replicate 10 0 |>.

(** [dir_junk]: the sixteen entries the uninitialised sector buffer happens to hold. *)
Definition add_directory_entry_to_dir (s : fs) (dir_junk : list dirent) (name : option (list Z))
    (attr cluster size : Z) (target_dir : option (list Z)) : fs_result unit * fs :=
  match name with
  | None => (Err FS_ERROR_IO_ERROR, s)
  | Some name =>
      if negb (initialized s) then (Err FS_ERROR_IO_ERROR, s)
      else
        let filename := strip_slash name in
        let nm := convert_filename filename in
        if match target_dir with None => true | Some d => Str.strcmp d (lit "/") =? 0 end then
          match for_first (Z.to_nat FS_ROOT_ENTRIES) 0 (λ i,
                  if negb (in_use (root_entry s i)) then Some i else None) with
          | Some i => (Ok tt, set_root_entry s i (fill_dirent (root_entry s i) nm attr cluster size))
          | None => (Err FS_ERROR_DISK_FULL, s)
          end
        else
          match find_directory_entry s target_dir with
          | Err _ => (Err FS_ERROR_NOT_FOUND, s)
          | Ok dir_entry =>
              if negb (is_directory dir_entry) then (Err FS_ERROR_ACCESS_DENIED, s)
              else
                let sector := FS_DATA_SECTOR +w u32 ((d_cluster dir_entry - 2) * 2) in
                if negb (fs_read_sector sector =? FS_SUCCESS) then (Err FS_ERROR_IO_ERROR, s)
                else
                  match for_first (Z.to_nat (FS_SECTOR_SIZE / 32 - 2)) 2 (λ i,
                          if negb (in_use (nth (Z.to_nat i) dir_junk dirent_zero))
                          then Some i else None) with
                  | Some _ => (Ok tt, s)
                  | None => (Err FS_ERROR_DISK_FULL, s)
                  end
          end
  end.

Definition add_directory_entry (s : fs) (dir_junk : list dirent) (name : option (list Z))
    (attr cluster size : Z) : fs_result unit * fs :=
  add_directory_entry_to_dir s dir_junk name attr cluster size (Some (lit "/")).

Definition remove_directory_entry (s : fs) (name : option (list Z)) : fs_result unit * fs :=
  match name with
  | None => (Err FS_ERROR_IO_ERROR, s)
  | Some name =>
      if negb (initialized s) then (Err FS_ERROR_IO_ERROR, s)
      else
        let search := convert_filename name in
        match find_index s search with
        | Some i =>
            let e := root_entry s i in
            (Ok tt, set_root_entry s i (e <| d_name := 0xE5 :: tail (d_name e) |>))
        | None => (Err FS_ERROR_NOT_FOUND, s)
        end
  end.

Definition update_directory_entry (s : fs) (name : option (list Z)) (entry : dirent) :
    fs_result unit * fs :=
  match name with
  | None => (Err FS_ERROR_IO_ERROR, s)
  | Some name =>
      if negb (initialized s) then (Err FS_ERROR_IO_ERROR, s)
      else
        let search := convert_filename name in
        match find_index s search with
        | Some i => (Ok tt, set_root_entry s i entry)
        | None => (Err FS_ERROR_NOT_FOUND, s)
        end
  end.

(** The C string in a buffer that received the bytes [l] and a zero. *)
Fixpoint c_string (l : list Z) : list Z :=
  match l with
  | [] => []
  | c :: l' => if c =? 0 then [] else c :: c_string l'
  end.

(** The index of the entry found, [None] for NULL. *)
Definition find_entry (s : fs) (path : option (list Z)) : option Z :=
  match path with
  | None => None
  | Some path =>
      if negb (initialized s) then None
      else if Str.strcmp path (lit "/") =? 0 then None
      else
        let name := strip_slash path in
        for_first (Z.to_nat FS_ROOT_ENTRIES) 0 (λ i,
          let e := root_entry s i in
          if Str.peek (d_name e) =? 0 then None
          else
            let entry_name := c_string (convert_filename_back (d_name e) (d_ext e)) in
            if Str.strcasecmp entry_name name =? 0 then Some i else None)
  end.

(** ** FAT operations on the state *)

Definition read_fat (s : fs) (cluster : Z) : fs_result Z :=
  fs_read_fat (initialized s) (fat_table s) cluster.
Definition write_fat (s : fs) (cluster value : Z) : fs_result unit * fs :=
  let '(r, fat) := fs_write_fat (initialized s) (fat_table s) cluster value in
  (r, s <| fat_table := fat |>).
Definition allocate_cluster (s : fs) : fs_result Z * fs :=
  let '(r, fat) := fs_allocate_cluster (initialized s) (fat_table s) in
  (r, s <| fat_table := fat |>).
Definition free_cluster_chain (s : fs) (cluster : Z) : option (fs_result unit * fs) :=
  '(r, fat) ← fs_free_cluster_chain chain_fuel (initialized s) (fat_table s) cluster;
  Some (r, s <| fat_table := fat |>).

(** ** Statistics *)

Definition count_sectors (s : fs) : fs :=
  for_z (Z.to_nat (2880 - 2)) 2 (λ i s,
    let cluster := u16 (status (read_fat s i)) in
    if cluster =? 0
    then s <| stats := stats s <| free_sectors := free_sectors (stats s) +w 1 |> |>
    else s <| stats := stats s <| used_sectors := used_sectors (stats s) +w 1 |> |>) s.

Definition count_entries (s : fs) : fs :=
  for_z (Z.to_nat FS_ROOT_ENTRIES) 0 (λ i s,
    if in_use (root_entry s i) then
      if is_directory (root_entry s i)
      then s <| stats := stats s <| total_dirs := total_dirs (stats s) +w 1 |> |>
      else s <| stats := stats s <| total_files := total_files (stats s) +w 1 |> |>
    else s) s.

Definition update_fs_stats (s : fs) : fs :=
  if negb (initialized s) then s
  else
    let s := s <| stats := stats s <| free_sectors := 0 |> <| used_sectors := 0 |>
                                   <| total_files := 0 |> <| total_dirs := 0 |> |> in
    let s := count_sectors s in
    count_entries s.

Definition fs_get_stats (s : fs) : fs_result fs_stats * fs :=
  if negb (initialized s) then (Err FS_ERROR_IO_ERROR, s)
  else let s := update_fs_stats s in (Ok (stats s), s).

Definition fs_get_free_space (s : fs) : fs_result Z :=
  if negb (initialized s) then Err FS_ERROR_IO_ERROR
  else Ok (free_sectors (stats s) *w FS_SECTOR_SIZE).

(** ** Initialisation *)

Definition zero_fat (fat : ram) : ram := memset fat 0 0 (FS_FAT_SIZE * FS_SECTOR_SIZE).
Definition zero_root : list dirent := replicate (Z.to_nat FS_ROOT_ENTRIES) dirent_zero.

Definition fs_init (s : fs) (k : machine) : Z * (fs * machine) :=
  let k := vga_putstr k (lit "Initializing filesystem..." ++ [10]) in
  let s := s <| initialized := false |> <| pointers_set := false |>
             <| stats := MkStats 0 0 0 0 0 |> in
  let s := s <| pointers_set := true |> in
  if negb (fs_read_sector 0 =? FS_SUCCESS) then
    let k := vga_putstr k (lit "Failed to read boot sector" ++ [10]) in
    (FS_ERROR_IO_ERROR, (s, k))
  else
    let k := vga_putstr k (lit "Filesystem validation skipped (simulation mode)" ++ [10]) in
    let s := s <| fat_table := zero_fat (fat_table s) |> in
    let '(_, s) := write_fat s 0 0xFF8 in
    let '(_, s) := write_fat s 1 0xFFF in
    let k := vga_putstr k (lit "FAT table initialized (simulation mode)" ++ [10]) in
    let s := s <| root_dir := zero_root |> in
    let k := vga_putstr k (lit "Root directory initialized (simulation mode)" ++ [10]) in
    let s := s <| stats := MkStats 2880 0 0 0 0 |> in
    let s := count_sectors s in
    let s := count_entries s in
    let s := s <| initialized := true |> in
    let k := vga_putstr k (lit "Filesystem initialized successfully" ++ [10]) in
    (FS_SUCCESS, (s, k)).

Definition fs_cleanup (s : fs) : fs := s <| pointers_set := false |> <| initialized := false |>.

Definition fs_format (s : fs) : Z * fs :=
  if negb (initialized s) then (FS_ERROR_IO_ERROR, s)
  else
    let s := s <| fat_table := zero_fat (fat_table s) |> in
    let s := s <| root_dir := zero_root |> in
    match for_first (Z.to_nat FS_FAT_SIZE) 0 (λ i,
            if negb (write_fat_sector (1 + i)
                       (rd_bytes (fat_table s) (i * FS_SECTOR_SIZE) (Z.to_nat FS_SECTOR_SIZE))
                     =? FS_SUCCESS)
            then Some FS_ERROR_IO_ERROR else None) with
    | Some e => (e, s)
    | None =>
        if negb (fs_write_sector FS_ROOT_SECTOR [] =? FS_SUCCESS) then (FS_ERROR_IO_ERROR, s)
        else
          (FS_SUCCESS, s <| stats := stats s <| free_sectors := 2880 - 33 |>
                                     <| used_sectors := 33 |> <| total_files := 0 |>
                                     <| total_dirs := 0 |> |>)
    end.

(** ** Files

    [None] as the whole result is a call that never returns (a walk on a
    cyclic chain); a NULL handle is [None]. *)

(** The part of [fs_open] that finds or creates the entry. *)
Definition open_entry (s : fs) (k : machine) (dir_junk : list dirent) (path : list Z) (mode : Z) :
    option (fs_result dirent * (fs * machine)) :=
  match find_directory_entry s (Some path) with
  | Ok entry => Some (Ok entry, (s, k))
  | Err _ =>
      if Z.land mode FS_MODE_CREATE =? 0 then
        let k := vga_putstr k (lit "fs_open: file not found and not creating" ++ [10]) in
        Some (Err FS_ERROR_NOT_FOUND, (s, k))
      else
        match allocate_cluster s with
        | (Err _, s) => Some (Err FS_ERROR_DISK_FULL, (s, k))
        | (Ok cluster, s) =>
            match add_directory_entry_to_dir s dir_junk (Some path) FS_ATTR_ARCHIVE cluster 0
                    (Some (current_directory s)) with
            | (Err _, s) =>
                '(_, s) ← free_cluster_chain s cluster;
                Some (Err FS_ERROR_IO_ERROR, (s, k))
            | (Ok _, s) =>
                match find_directory_entry s (Some path) with
                | Err _ => Some (Err FS_ERROR_IO_ERROR, (s, k))
                | Ok entry => Some (Ok entry, (s, k))
                end
            end
        end
  end.

Definition fs_open (s : fs) (k : machine) (dir_junk : list dirent) (path : option (list Z))
    (mode : Z) (file : option fs_file) : option (Z * (option fs_file * (fs * machine))) :=
  match file with
  | None => Some (FS_ERROR_IO_ERROR, (None, (s, k)))
  | Some _ =>
      if negb (initialized s) then Some (FS_ERROR_IO_ERROR, (file, (s, k)))
      else if negb (validate_path path =? FS_SUCCESS)
      then Some (FS_ERROR_INVALID_PATH, (file, (s, k)))
      else
        let path := default [] path in
        '(r, (s, k)) ← open_entry s k dir_junk path mode;
        match r with
        | Err e => Some (e, (file, (s, k)))
        | Ok entry =>
            if negb (Z.land mode FS_MODE_WRITE =? 0)
               && negb (Z.land (d_attr entry) FS_ATTR_READ_ONLY =? 0)
            then Some (FS_ERROR_ACCESS_DENIED, (file, (s, k)))
            else Some (FS_SUCCESS,
                   (Some (MkFile (d_cluster entry) 0 (d_size entry) mode true path), (s, k)))
        end
  end.

Definition fs_close (file : option fs_file) : Z * option fs_file :=
  match file with
  | None => (FS_ERROR_IO_ERROR, None)
  | Some f => if negb (f_valid f) then (FS_ERROR_IO_ERROR, file)
              else (FS_SUCCESS, Some (f <| f_valid := false |>))
  end.

(** The state of the loop of [fs_read]: turn, bytes read, offset in the file,
    sector, cluster and memory. *)
Record read_state := MkRead {
  rs_turn : nat;
  rs_read : Z;
  rs_offset : Z;
  rs_sector : Z;
  rs_cluster : Z;
  rs_mem : ram;
}.

(** The first sector of a cluster. *)
Definition first_sector (cluster : Z) : Z := u32 (FS_DATA_SECTOR + u32 ((cluster - 2) * 2)).

Section io.
(** Byte [i] of the uninitialised sector buffer at each turn of the loop. *)
Context (sector_junk : nat → Z → Z).

Definition read_step (s : fs) (buffer bytes_to_read : Z) (r : read_state) :
    read_state + Z * (Z * ram) :=
  if rs_read r <? bytes_to_read then
    if negb (fs_read_sector (rs_sector r) =? FS_SUCCESS)
    then inr (FS_ERROR_IO_ERROR, (rs_offset r, rs_mem r))
    else
      let sector_bytes := FS_SECTOR_SIZE - rs_offset r mod FS_SECTOR_SIZE in
      let sector_bytes := if bytes_to_read - rs_read r <? sector_bytes
                          then bytes_to_read - rs_read r else sector_bytes in
      let m := wr_bytes (rs_mem r) (buffer + rs_read r)
                 (sector_junk (rs_turn r) <$>
                    seqZ (rs_offset r mod FS_SECTOR_SIZE) sector_bytes) in
      let bytes_read := rs_read r + sector_bytes in
      let offset := rs_offset r +w sector_bytes in
      if offset mod FS_SECTOR_SIZE =? 0 then
        let sector := rs_sector r +w 1 in
        if sector mod 2 =? 0 then
          match read_fat s (u16 (rs_cluster r)) with
          | Err _ => inr (FS_ERROR_IO_ERROR, (offset, m))
          | Ok next_cluster =>
              if 0xFF8 <=? next_cluster then inr (bytes_read, (offset, m))
              else inl (MkRead (S (rs_turn r)) bytes_read offset (first_sector next_cluster)
                          next_cluster m)
          end
        else inl (MkRead (S (rs_turn r)) bytes_read offset sector (rs_cluster r) m)
      else inl (MkRead (S (rs_turn r)) bytes_read offset (rs_sector r) (rs_cluster r) m)
  else inr (rs_read r, (rs_offset r, rs_mem r)).

(** The returned value, the handle and memory afterwards. *)
Definition fs_read (s : fs) (m : ram) (file : option fs_file) (buffer size : Z) :
    option (Z * (option fs_file * ram)) :=
  match file with
  | None => Some (FS_ERROR_IO_ERROR, (None, m))
  | Some f =>
      if negb (f_valid f) || (Z.land (f_mode f) FS_MODE_READ =? 0)
      then Some (FS_ERROR_IO_ERROR, (file, m))
      else if f_size f <=? f_offset f then Some (0, (file, m))
      else
        let bytes_to_read := if f_size f <? f_offset f +w size
                             then f_size f - f_offset f else size in
        let sector_offset := f_offset f / FS_SECTOR_SIZE in
        let current_sector := first_sector (f_cluster f) +w sector_offset in
        '(r, (offset, m)) ← loop (S (Z.to_nat bytes_to_read))
          (read_step s buffer bytes_to_read)
          (MkRead 0 0 (f_offset f) current_sector (f_cluster f) m);
        Some (s32 r, (Some (f <| f_offset := offset |>), m))
  end.

(** The state of the loop of [fs_write]: turn, bytes written, handle, sector,
    cluster and file system. *)
Record write_state := MkWrite {
  ws_turn : nat;
  ws_written : Z;
  ws_file : fs_file;
  ws_sector : Z;
  ws_cluster : Z;
  ws_fs : fs;
}.

(** Following or extending the chain at a cluster boundary: the next cluster. *)
Definition next_write_cluster (s : fs) (cluster : Z) : option (fs_result Z * fs) :=
  match read_fat s (u16 cluster) with
  | Err _ => Some (Err FS_ERROR_IO_ERROR, s)
  | Ok next_cluster =>
      if 0xFF8 <=? next_cluster then
        match allocate_cluster s with
        | (Err _, s) => Some (Err FS_ERROR_DISK_FULL, s)
        | (Ok new_cluster, s) =>
            match write_fat s (u16 cluster) new_cluster with
            | (Err _, s) =>
                '(_, s) ← free_cluster_chain s new_cluster;
                Some (Err FS_ERROR_IO_ERROR, s)
            | (Ok _, s) => Some (Ok new_cluster, s)
            end
        end
      else Some (Ok next_cluster, s)
  end.

(** One turn; the outer [option] is [None] when an inner walk does not end. *)
Definition write_step (m : ram) (buffer size : Z) (w : write_state) :
    write_state + option (Z * (fs_file * fs)) :=
  let f := ws_file w in
  if ws_written w <? size then
    if negb (fs_read_sector (ws_sector w) =? FS_SUCCESS)
    then inr (Some (FS_ERROR_IO_ERROR, (f, ws_fs w)))
    else
      let in_sector := f_offset f mod FS_SECTOR_SIZE in
      let sector_bytes := FS_SECTOR_SIZE - in_sector in
      let sector_bytes := if size - ws_written w <? sector_bytes
                          then size - ws_written w else sector_bytes in
      let sector_data :=
        (sector_junk (ws_turn w) <$> seqZ 0 in_sector) ++
        rd_bytes m (buffer + ws_written w) (Z.to_nat sector_bytes) ++
        (sector_junk (ws_turn w) <$>
           seqZ (in_sector + sector_bytes) (FS_SECTOR_SIZE - (in_sector + sector_bytes))) in
      if negb (fs_write_sector (ws_sector w) sector_data =? FS_SUCCESS)
      then inr (Some (FS_ERROR_IO_ERROR, (f, ws_fs w)))
      else
        let written := ws_written w + sector_bytes in
        let f := f <| f_offset := f_offset f +w sector_bytes |> in
        let f := if f_size f <? f_offset f then f <| f_size := f_offset f |> else f in
        if f_offset f mod FS_SECTOR_SIZE =? 0 then
          let sector := ws_sector w +w 1 in
          if sector mod 2 =? 0 then
            match next_write_cluster (ws_fs w) (ws_cluster w) with
            | None => inr None
            | Some (Err e, s) => inr (Some (e, (f, s)))
            | Some (Ok cluster, s) =>
                inl (MkWrite (S (ws_turn w)) written f (first_sector cluster) cluster s)
            end
          else inl (MkWrite (S (ws_turn w)) written f sector (ws_cluster w) (ws_fs w))
        else inl (MkWrite (S (ws_turn w)) written f (ws_sector w) (ws_cluster w) (ws_fs w))
  else inr (Some (ws_written w, (f, ws_fs w))).

Definition fs_write (s : fs) (m : ram) (file : option fs_file) (buffer size : Z) :
    option (Z * (option fs_file * fs)) :=
  match file with
  | None => Some (FS_ERROR_IO_ERROR, (None, s))
  | Some f =>
      if negb (f_valid f) || (Z.land (f_mode f) FS_MODE_WRITE =? 0)
      then Some (FS_ERROR_IO_ERROR, (file, s))
      else
        let sector_offset := f_offset f / FS_SECTOR_SIZE in
        let current_sector := first_sector (f_cluster f) +w sector_offset in
        r ← loop (S (Z.to_nat size)) (write_step m buffer size)
          (MkWrite 0 0 f current_sector (f_cluster f) s);
        '(r, (f, s)) ← r;
        Some (s32 r, (Some f, s))
  end.
End io.

Definition fs_seek (file : option fs_file) (offset whence : Z) : Z * option fs_file :=
  match file with
  | None => (FS_ERROR_IO_ERROR, None)
  | Some f =>
      if negb (f_valid f) then (FS_ERROR_IO_ERROR, file)
      else
        let new_offset :=
          if whence =? 0 then Some (u32 offset)
          else if whence =? 1 then Some (f_offset f +w offset)
          else if whence =? 2 then Some (f_size f +w offset)
          else None in
        match new_offset with
        | None => (FS_ERROR_IO_ERROR, file)
        | Some new_offset =>
            if f_size f <? new_offset then (FS_ERROR_IO_ERROR, file)
            else (FS_SUCCESS, Some (f <| f_offset := new_offset |>))
        end
  end.

Definition fs_tell (file : option fs_file) : Z :=
  match file with
  | None => -1
  | Some f => if negb (f_valid f) then -1 else s32 (f_offset f)
  end.

(** ** Directories and names *)

(** The bytes of the sector with the entries "." and "..". *)
Definition dot_sector (cluster : Z) : list Z :=
  let entry nm cl := nm ++ [FS_ATTR_DIRECTORY] ++ replicate 14 0 ++
                     [cl mod 256; cl / 256] ++ replicate 4 0 in
  entry (lit ".          ") cluster ++ entry (lit "..         ") 0 ++ replicate 448 0.

Definition fs_mkdir (s : fs) (dir_junk : list dirent) (path : option (list Z)) : option (Z * fs) :=
  if negb (initialized s) then Some (FS_ERROR_IO_ERROR, s)
  else if negb (validate_path path =? FS_SUCCESS) then Some (FS_ERROR_INVALID_PATH, s)
  else match find_directory_entry s path with
  | Ok _ => Some (FS_ERROR_FILE_EXISTS, s)
  | Err _ =>
      match allocate_cluster s with
      | (Err _, s) => Some (FS_ERROR_DISK_FULL, s)
      | (Ok cluster, s) =>
          match add_directory_entry s dir_junk path FS_ATTR_DIRECTORY cluster 0 with
          | (Err _, s) =>
              '(_, s) ← free_cluster_chain s cluster;
              Some (FS_ERROR_IO_ERROR, s)
          | (Ok _, s) =>
              let sector := first_sector cluster in
              if negb (fs_write_sector sector (dot_sector cluster) =? FS_SUCCESS) then
                '(_, s) ← free_cluster_chain s cluster;
                Some (FS_ERROR_IO_ERROR, s)
              else Some (FS_SUCCESS, s)
          end
      end
  end.

(** The common tail of [fs_rmdir] and [fs_delete]. *)
Definition free_and_remove (s : fs) (path : option (list Z)) (entry : dirent) : option (Z * fs) :=
  s ← (if negb (d_cluster entry =? 0)
       then '(_, s) ← free_cluster_chain s (d_cluster entry); Some s else Some s);
  match remove_directory_entry s path with
  | (Err _, s) => Some (FS_ERROR_IO_ERROR, s)
  | (Ok _, s) => Some (FS_SUCCESS, s)
  end.

Definition fs_rmdir (s : fs) (path : option (list Z)) : option (Z * fs) :=
  if negb (initialized s) then Some (FS_ERROR_IO_ERROR, s)
  else if negb (validate_path path =? FS_SUCCESS) then Some (FS_ERROR_INVALID_PATH, s)
  else match find_directory_entry s path with
  | Err _ => Some (FS_ERROR_NOT_FOUND, s)
  | Ok entry =>
      if negb (is_directory entry) then Some (FS_ERROR_ACCESS_DENIED, s)
      else free_and_remove s path entry
  end.

Definition fs_delete (s : fs) (path : option (list Z)) : option (Z * fs) :=
  if negb (initialized s) then Some (FS_ERROR_IO_ERROR, s)
  else if negb (validate_path path =? FS_SUCCESS) then Some (FS_ERROR_INVALID_PATH, s)
  else match find_directory_entry s path with
  | Err _ => Some (FS_ERROR_NOT_FOUND, s)
  | Ok entry =>
      if is_directory entry then Some (FS_ERROR_ACCESS_DENIED, s)
      else free_and_remove s path entry
  end.

(** The name one reads from the filled [fs_dirent_info_t]: a 12-byte name puts
    its zero on the low byte of [type], which is then assigned. *)
Definition stored_name (bytes : list Z) (type : fs_file_type) : list Z :=
  if (12 <=? length bytes)%nat
  then match type with FS_TYPE_FILE => bytes | FS_TYPE_DIRECTORY => bytes ++ [1]
       | FS_TYPE_VOLUME => bytes ++ [2] end
  else bytes.

Definition entry_info (e : dirent) : dirent_info :=
  let type := if is_directory e then FS_TYPE_DIRECTORY else FS_TYPE_FILE in
  MkInfo (c_string (stored_name (convert_filename_back (d_name e) (d_ext e)) type))
    type (d_size e) (d_cluster e) (d_attr e).

(** Both listing loops: the entries in use, up to the room in [entries]. *)
Definition list_entries (max_entries : Z) (entries : list dirent) : list dirent_info :=
  take (Z.to_nat max_entries) (entry_info <$> filter (λ e, in_use e = true) entries).

(** [entries] and [count] are assumed non-NULL: the result is what is stored in them. *)
Definition fs_listdir (s : fs) (dir_junk : list dirent) (path : option (list Z))
    (max_entries : Z) : fs_result (list dirent_info) :=
  if negb (initialized s) then Err FS_ERROR_IO_ERROR
  else if match path with
          | None => true
          | Some p => (Str.strcmp p (lit "/") =? 0) || (Str.strcmp p [] =? 0)
          end
  then Ok (list_entries max_entries (root_dir s))
  else match find_directory_entry s path with
  | Err _ => Err FS_ERROR_NOT_FOUND
  | Ok dir_entry =>
      if negb (is_directory dir_entry) then Err FS_ERROR_ACCESS_DENIED
      else if d_cluster dir_entry =? 0 then Ok []
      else if negb (fs_read_sector (first_sector (d_cluster dir_entry)) =? FS_SUCCESS)
      then Err FS_ERROR_IO_ERROR
      else Ok (list_entries max_entries (take 14 (drop 2 dir_junk)))
  end.

Definition fs_chdir (s : fs) (path : option (list Z)) : Z * fs :=
  if negb (initialized s) then (FS_ERROR_IO_ERROR, s)
  else if negb (validate_path path =? FS_SUCCESS) then (FS_ERROR_INVALID_PATH, s)
  else
    let p := default [] path in
    if Str.strcmp p (lit "/") =? 0 then (FS_SUCCESS, s <| current_directory := lit "/" |>)
    else if Str.strcmp p (lit "..") =? 0 then
      if Str.strcmp (current_directory s) (lit "/") =? 0 then (FS_ERROR_ACCESS_DENIED, s)
      else (FS_SUCCESS, s <| current_directory := lit "/" |>)
    else match find_entry s path with
    | None => (FS_ERROR_NOT_FOUND, s)
    | Some i =>
        if negb (is_directory (root_entry s i)) then (FS_ERROR_NOT_DIRECTORY, s)
        else (FS_SUCCESS, s <| current_directory := p |>)
    end.

Definition fs_set_cwd (s : fs) (path : option (list Z)) : Z * fs := fs_chdir s path.

(** The string stored in [buffer] (assumed non-NULL). *)
Definition fs_get_cwd (s : fs) (size : Z) : fs_result (list Z) :=
  if size =? 0 then Err FS_ERROR_INVALID_PATH
  else
    let len := Str.strlen (current_directory s) in
    if size <=? len then Err FS_ERROR_INVALID_PATH else Ok (current_directory s).

(** The local handle of [fs_create] is written by [fs_open] before it is read. *)
Definition fs_create (s : fs) (k : machine) (dir_junk : list dirent) (path : option (list Z)) :
    option (Z * (fs * machine)) :=
  let file := MkFile 0 0 0 0 false [] in
  '(result, (file, (s, k))) ←
    fs_open s k dir_junk path (Z.lor FS_MODE_CREATE FS_MODE_WRITE) (Some file);
  let '(_, file) := if result =? FS_SUCCESS then fs_close file else (FS_SUCCESS, file) in
  Some (result, (s, k)).

Definition fs_rename (s : fs) (old_path new_path : option (list Z)) : Z * fs :=
  if negb (initialized s) then (FS_ERROR_IO_ERROR, s)
  else if negb (validate_path old_path =? FS_SUCCESS)
          || negb (validate_path new_path =? FS_SUCCESS) then (FS_ERROR_INVALID_PATH, s)
  else match find_directory_entry s old_path with
  | Err _ => (FS_ERROR_NOT_FOUND, s)
  | Ok entry =>
      match find_directory_entry s new_path with
      | Ok _ => (FS_ERROR_FILE_EXISTS, s)
      | Err _ =>
          let nm := convert_filename (default [] new_path) in
          let entry := entry <| d_name := nm.1 |> <| d_ext := nm.2 |> in
          match update_directory_entry s old_path entry with
          | (Err _, s) => (FS_ERROR_IO_ERROR, s)
          | (Ok _, s) => (FS_SUCCESS, s)
          end
      end
  end.

Definition fs_exists (s : fs) (path : option (list Z)) : Z :=
  if negb (initialized s) then FS_ERROR_IO_ERROR
  else match find_directory_entry s path with Ok _ => FS_SUCCESS | Err _ => FS_ERROR_NOT_FOUND end.

Definition fs_get_size (s : fs) (path : option (list Z)) : Z :=
  if negb (initialized s) then -1
  else match find_directory_entry s path with Ok e => s32 (d_size e) | Err _ => -1 end.
