(* ===== verification/FsCorrect.v ===== *)
(** * Correctness of the file system

    The root directory as a partial function from 8.3 names to entries
    ([dir_lookup]), and what the operations of Fs.v do to it and to the FAT. *)

From S2P Require Import Prelude Ram CString Vga Fat FsNames Fs.
Set Default Goal Selector "!".

(** ** The root directory as a function *)

Definition name83 (nm : list Z * list Z) : Prop := length nm.1 = 8%nat ∧ length nm.2 = 3%nat.

(** A name an entry can be found under: its first byte is not one of the two
    marks of a free entry. *)
Definition usable (nm : list Z * list Z) : Prop :=
  name83 nm ∧ Str.peek nm.1 ≠ 0 ∧ Str.peek nm.1 ≠ 0xE5.

Definition entry_name (e : dirent) : list Z * list Z := (d_name e, d_ext e).

Record fs_inv (s : fs) : Prop := {
  fi_init : initialized s = true;
  fi_len : length (root_dir s) = 224%nat;
  fi_names : Forall (λ e, name83 (entry_name e)) (root_dir s);
}.

Definition dir_lookup (s : fs) (nm : list Z * list Z) : option dirent :=
  root_entry s <$> find_index s nm.

Definition is_slot (i : Z) : Prop := 0 <= i < 224.

Lemma root_entry_name s i : fs_inv s → is_slot i → name83 (entry_name (root_entry s i)).
Proof.
  intros [_ Hlen Hn] Hi. unfold is_slot in Hi. unfold root_entry.
  rewrite Forall_forall in Hn. apply Hn. apply list_elem_of_In, nth_In. lia.
Qed.

Lemma same_name_eq e nm : name83 (entry_name e) → name83 nm → same_name e nm = true ↔ entry_name e = nm.
Proof.
  destruct nm as [a b]. unfold name83, entry_name, same_name. cbn [fst snd].
  intros [H1 H2] [H3 H4].
  pose proof (memcmp_eq 8 (d_name e) a ltac:(lia) ltac:(lia)) as E1.
  pose proof (memcmp_eq 3 (d_ext e) b ltac:(lia) ltac:(lia)) as E2.
  rewrite !take_ge in E1, E2 by lia.
  rewrite andb_true_iff, !Z.eqb_eq, E1, E2. split; [by intros [-> ->]|by intros [= -> ->]].
Qed.

Lemma find_index_spec s nm :
  fs_inv s → name83 nm →
  match find_index s nm with
  | Some i => is_slot i ∧ in_use (root_entry s i) = true ∧ entry_name (root_entry s i) = nm ∧
      ∀ k, 0 <= k < i → in_use (root_entry s k) = true → entry_name (root_entry s k) ≠ nm
  | None => ∀ i, is_slot i → in_use (root_entry s i) = true → entry_name (root_entry s i) ≠ nm
  end.
Proof.
  intros Hs Hnm. unfold find_index. unfold is_slot.
  assert (∀ i, 0 <= i < 224 →
    (if in_use (root_entry s i) && same_name (root_entry s i) nm then Some i else None) = None →
    in_use (root_entry s i) = true → entry_name (root_entry s i) ≠ nm) as Hno.
  { intros i Hi E Hu He. rewrite Hu in E.
    rewrite (proj2 (same_name_eq _ _ (root_entry_name s i Hs Hi) Hnm) He) in E. done. }
  destruct (for_first _ _ _) as [i|] eqn:E.
  - apply for_first_Some in E as (j & Hj & Ht & Hk).
    change (0 + Z.of_nat (Z.to_nat FS_ROOT_ENTRIES)) with 224 in Hj.
    destruct (in_use (root_entry s j)) eqn:Hu; [|done]. cbn [andb] in Ht.
    destruct (same_name (root_entry s j) nm) eqn:Hsn; [|done]. injection Ht as <-.
    apply same_name_eq in Hsn; [|by apply root_entry_name|done].
    split_and!; try done; try lia. intros k Hk'. apply Hno; [lia|]. apply Hk. lia.
  - rewrite for_first_None in E. intros i Hi. apply Hno; [done|]. apply E.
    change (0 + Z.of_nat (Z.to_nat FS_ROOT_ENTRIES)) with 224. lia.
Qed.

(** [find_index] depends only on which slots match. *)
Lemma find_index_ext s s' nm nm' :
  (∀ i, is_slot i → in_use (root_entry s' i) && same_name (root_entry s' i) nm' =
                    in_use (root_entry s i) && same_name (root_entry s i) nm) →
  find_index s' nm' = find_index s nm.
Proof.
  intros H. unfold find_index. change (Z.to_nat FS_ROOT_ENTRIES) with 224%nat.
  assert (∀ n z, 0 <= z → z + Z.of_nat n <= 224 →
    for_first n z (λ i, if in_use (root_entry s' i) && same_name (root_entry s' i) nm' then Some i else None) =
    for_first n z (λ i, if in_use (root_entry s i) && same_name (root_entry s i) nm then Some i else None))
    as Hgen; [|by apply Hgen].
  induction n as [|n IH]; intros z Hz Hn; [done|]. rewrite !for_first_S.
  rewrite H by (unfold is_slot; lia). destruct (in_use _ && same_name _ _); [done|].
  apply IH; lia.
Qed.

Lemma root_entry_set s i e j :
  length (root_dir s) = 224%nat → is_slot i → 0 <= j →
  root_entry (set_root_entry s i e) j = if j =? i then e else root_entry s j.
Proof.
  intros Hlen Hi Hj. unfold is_slot in Hi. unfold root_entry, set_root_entry.
  cbn. rewrite !nth_lookup. destruct (Z.eqb_spec j i) as [->|].
  - by rewrite list_lookup_insert_eq by lia.
  - by rewrite list_lookup_insert_ne by lia.
Qed.

Lemma fs_inv_set s i e : fs_inv s → name83 (entry_name e) → fs_inv (set_root_entry s i e).
Proof.
  intros [H1 H2 H3] He. split; [done|unfold set_root_entry; cbn; by rewrite length_insert|].
  unfold set_root_entry. cbn. by apply Forall_insert.
Qed.

Lemma fs_inv_fat s fat : fs_inv s → fs_inv (s <| fat_table := fat |>).
Proof. intros [? ? ?]. by split. Qed.

Lemma find_index_fat s fat nm : find_index (s <| fat_table := fat |>) nm = find_index s nm.
Proof. by apply find_index_ext. Qed.

(** ** Adding and removing *)

(** Filling a free slot: the new name is found there, other names as before. *)
Lemma dir_lookup_add s i e nm :
  fs_inv s → is_slot i → in_use (root_entry s i) = false → usable (entry_name e) →
  dir_lookup s (entry_name e) = None → name83 nm →
  dir_lookup (set_root_entry s i e) nm =
    if decide (nm = entry_name e) then Some e else dir_lookup s nm.
Proof.
  intros Hs Hi Hfree [Hn83 [Hu0 HuE]] Hnone Hnm.
  assert (fs_inv (set_root_entry s i e)) as Hs' by (by apply fs_inv_set).
  assert (in_use e = true) as Hue.
  { unfold in_use. unfold entry_name in Hu0, HuE. cbn [fst] in Hu0, HuE.
    by rewrite (proj2 (Z.eqb_neq _ _) Hu0), (proj2 (Z.eqb_neq _ _) HuE). }
  assert (∀ j, is_slot j → root_entry (set_root_entry s i e) j =
                           if j =? i then e else root_entry s j) as Hget.
  { intros j Hj. apply root_entry_set; [apply Hs|done|apply Hj]. }
  case_decide as Hd.
  - subst nm. unfold dir_lookup.
    pose proof (find_index_spec _ _ Hs' Hnm) as H.
    destruct (find_index (set_root_entry s i e) (entry_name e)) as [j|].
    + destruct H as (Hj & Hu & He & _). simpl. f_equal. rewrite Hget in * by done.
      destruct (Z.eqb_spec j i); [done|]. exfalso.
      unfold dir_lookup in Hnone. pose proof (find_index_spec _ _ Hs Hnm) as H'.
      destruct (find_index s (entry_name e)); [done|]. by apply (H' j).
    + exfalso. apply (H i); [done|..]; rewrite Hget, Z.eqb_refl by done; done.
  - unfold dir_lookup. rewrite (find_index_ext s (set_root_entry s i e) nm nm).
    + destruct (find_index s nm) as [j|] eqn:E; [|done]. simpl. f_equal.
      pose proof (find_index_spec _ _ Hs Hnm) as H. rewrite E in H. destruct H as (Hj & Hu & _).
      rewrite Hget by done. destruct (Z.eqb_spec j i) as [->|]; [congruence|done].
    + intros j Hj. rewrite Hget by done. destruct (Z.eqb_spec j i) as [->|]; [|done].
      rewrite Hfree, Hue. cbn [andb]. destruct (same_name e nm) eqn:E; [|done].
      apply same_name_eq in E; [congruence|done|done].
Qed.

Lemma find_directory_entry_lookup s p :
  fs_inv s →
  find_directory_entry s (Some p) =
    match dir_lookup s (convert_filename (strip_slash p)) with
    | Some e => Ok e
    | None => Err FS_ERROR_NOT_FOUND
    end.
Proof.
  intros [Hi _ _]. unfold find_directory_entry, dir_lookup. rewrite Hi. cbn [negb].
  by destruct (find_index _ _).
Qed.

Lemma length_copy_clip n c (src : list Z) k :
  (k <= length src)%nat →
  length (copy_into (replicate n c) src (if (n <? k)%nat then n else k)) = n.
Proof.
  intros. unfold copy_into. rewrite length_app, length_take, length_drop, length_replicate.
  destruct (Nat.ltb_spec n k); lia.
Qed.

(** The result of the conversion always has the shape of an 8.3 name. *)
Lemma convert_filename_83 f : str_ok f → name83 (convert_filename f).
Proof.
  intros Hf. unfold convert_filename, name83.
  destruct (Str.strchr f (chr ".")) as [dot|] eqn:E; cbn [fst snd]; rewrite !length_fmap.
  - apply (strchr_Some _ _ _ Hf dot_range) in E as [Hl _]. apply lookup_lt_Some in Hl.
    rewrite !length_copy_clip by lia. done.
  - rewrite length_copy_clip, length_replicate by lia. done.
Qed.

(** ** Paths *)

(** "/" followed by a valid name whose first byte does not mark a deleted entry. *)
Definition file_path (p f : list Z) : Prop :=
  p = chr "/" :: f ∧ str_ok f ∧ Str.peek f ≠ 0xE5 ∧ ∃ base ext, name_parts f base ext.

Lemma upper_keeps c v : 0 < c < 256 → v = 0 ∨ v = 0xE5 → c ≠ v → upper c ≠ v.
Proof.
  intros Hc Hv Hne. unfold upper. change (chr "a") with 97. change (chr "z") with 122.
  change (chr "A") with 65. destruct ((97 <=? c) && (c <=? 122)) eqn:E; zreflect; [|done].
  unfold u8. word_lia.
Qed.

Lemma file_path_usable p f : file_path p f → usable (convert_filename f).
Proof.
  intros (-> & Hf & HE5 & base & ext & Hp). split; [by apply convert_filename_83|].
  rewrite (convert_filename_parts f base ext) by done. cbn [fst].
  destruct Hp as (_ & Hlen & Hext). destruct base as [|c base]; [simpl in Hlen; lia|].
  unfold pad. cbn [app fmap list_fmap Str.peek].
  assert (Str.peek f = c) as Hpk by (destruct ext; [destruct Hext as [-> _]|subst f]; done).
  rewrite Hpk in HE5. assert (0 < c < 256) as Hc.
  { destruct ext; [destruct Hext as [-> _]|subst f]; by apply Forall_inv in Hf. }
  split; apply upper_keeps; auto; lia.
Qed.

Lemma file_path_str_ok p f : file_path p f → str_ok p.
Proof. intros (-> & Hf & _). constructor; [done|exact Hf]. Qed.

Lemma file_path_valid p f : file_path p f → validate_path (Some p) = FS_SUCCESS.
Proof.
  intros Hp. apply (validate_path_ok p (file_path_str_ok p f Hp)).
  destruct Hp as (-> & _ & _ & base & ext & Hn). right; right; right. by exists f, base, ext.
Qed.

Lemma file_path_strip p f : file_path p f → strip_slash p = f.
Proof. by intros (-> & _). Qed.

Lemma find_path s p f :
  fs_inv s → file_path p f →
  find_directory_entry s (Some p) =
    match dir_lookup s (convert_filename f) with
    | Some e => Ok e
    | None => Err FS_ERROR_NOT_FOUND
    end.
Proof. intros Hs Hp. rewrite find_directory_entry_lookup by done. by rewrite (file_path_strip p f Hp). Qed.

(** ** Allocation on the state *)

Definition has_free_cluster (s : fs) : Prop := ∃ c, 2 <= c < FS_CLUSTERS ∧ fat_get (fat_table s) c = 0.
Definition has_free_slot (s : fs) : Prop := ∃ i, is_slot i ∧ in_use (root_entry s i) = false.

Lemma allocate_cluster_ok s :
  fs_inv s → has_free_cluster s →
  ∃ c fat', allocate_cluster s = (Ok c, s <| fat_table := fat' |>) ∧
    2 <= c < FS_CLUSTERS ∧ fat_get (fat_table s) c = 0 ∧
    ∀ d, is_cluster d → fat_get fat' d = if d =? c then 0xFFF else fat_get (fat_table s) d.
Proof.
  intros [Hi _ _] (c0 & Hc0 & Hz). unfold allocate_cluster. rewrite Hi.
  destruct (fs_allocate_cluster_ok (fat_table s)) as [(c & fat' & -> & Hc & H0 & _ & _ & Hget)|[_ Hall]].
  - exists c, fat'. split_and!; try done; lia.
  - by destruct (Hall c0 Hc0).
Qed.

(** The first free slot, as the loop of [add_directory_entry_to_dir] finds it. *)
Lemma add_root_ok s junk p f attr cluster size :
  fs_inv s → file_path p f → dir_lookup s (convert_filename f) = None → has_free_slot s →
  ∃ i e, is_slot i ∧ in_use (root_entry s i) = false ∧
    e = fill_dirent (root_entry s i) (convert_filename f) attr cluster size ∧
    add_directory_entry_to_dir s junk (Some p) attr cluster size (Some (lit "/")) =
      (Ok tt, set_root_entry s i e) ∧
    fs_inv (set_root_entry s i e) ∧
    ∀ nm, name83 nm → dir_lookup (set_root_entry s i e) nm =
      if decide (nm = convert_filename f) then Some e else dir_lookup s nm.
Proof.
  intros Hs Hp Hnone (i0 & Hi0 & Hfree0). unfold add_directory_entry_to_dir.
  rewrite (fi_init _ Hs), (file_path_strip p f Hp). cbn [negb].
  change (Str.strcmp (lit "/") (lit "/") =? 0) with true. cbn match.
  destruct (for_first _ _ _) as [i|] eqn:E.
  - apply for_first_Some in E as (j & Hj & Ht & _).
    change (0 + Z.of_nat (Z.to_nat FS_ROOT_ENTRIES)) with 224 in Hj.
    destruct (in_use (root_entry s j)) eqn:Hu; [done|]. cbn [negb] in Ht. injection Ht as <-.
    pose proof (file_path_usable p f Hp) as Hus.
    set (e := fill_dirent _ _ _ _ _).
    assert (entry_name e = convert_filename f) as He by (by destruct (convert_filename f)).
    exists j, e. split_and!; try done.
    + apply fs_inv_set; [done|]. rewrite He. apply Hus.
    + intros nm Hnm. rewrite <- He. apply dir_lookup_add; rewrite ?He; done.
  - rewrite for_first_None in E. specialize (E i0). rewrite Hfree0 in E. cbn [negb] in E.
    change (0 + Z.of_nat (Z.to_nat FS_ROOT_ENTRIES)) with 224 in E.
    discriminate E. unfold is_slot in Hi0. lia.
Qed.

Lemma dir_lookup_fat s fat nm : dir_lookup (s <| fat_table := fat |>) nm = dir_lookup s nm.
Proof. unfold dir_lookup. by rewrite find_index_fat. Qed.

(** ** Creating a file *)

Lemma create_ok s k junk p f mode f0 :
  fs_inv s → current_directory s = lit "/" → file_path p f →
  dir_lookup s (convert_filename f) = None → has_free_cluster s → has_free_slot s →
  Z.land mode FS_MODE_CREATE ≠ 0 →
  ∃ c s', fs_open s k junk (Some p) mode (Some f0) =
      Some (FS_SUCCESS, (Some (MkFile c 0 0 mode true p), (s', k))) ∧
    fs_inv s' ∧ 2 <= c < FS_CLUSTERS ∧ fat_get (fat_table s) c = 0 ∧
    (∀ d, is_cluster d → fat_get (fat_table s') d =
       if d =? c then 0xFFF else fat_get (fat_table s) d) ∧
    (∃ e, d_attr e = FS_ATTR_ARCHIVE ∧ d_cluster e = c ∧ d_size e = 0 ∧
       ∀ nm, name83 nm → dir_lookup s' nm =
         if decide (nm = convert_filename f) then Some e else dir_lookup s nm) ∧
    current_directory s' = current_directory s.
Proof.
  intros Hs Hcwd Hp Hnone Hfc Hfs Hmode.
  unfold fs_open. rewrite (fi_init _ Hs), (file_path_valid p f Hp). cbn [negb default].
  change (FS_SUCCESS =? FS_SUCCESS) with true. cbn [negb].
  change (id p) with p. unfold open_entry. rewrite (find_path s p f Hs Hp), Hnone.
  rewrite (proj2 (Z.eqb_neq _ _) Hmode).
  destruct (allocate_cluster_ok s Hs Hfc) as (c & fat' & -> & Hc & H0 & Hget).
  set (s1 := s <| fat_table := fat' |>). change (current_directory s1) with (current_directory s).
  rewrite Hcwd. assert (fs_inv s1) as Hs1 by (by apply fs_inv_fat).
  destruct (add_root_ok s1 junk p f FS_ATTR_ARCHIVE c 0 Hs1 Hp) as
    (i & e & Hi & Hfree & He & -> & Hs2 & Hlook).
  { unfold s1. by rewrite dir_lookup_fat. }
  { exact Hfs. }
  rewrite (find_path _ p f Hs2 Hp), Hlook by apply (file_path_usable p f Hp).
  rewrite decide_True by done. simpl mbind.
  assert (d_attr e = FS_ATTR_ARCHIVE ∧ d_cluster e = c ∧ d_size e = 0) as (Ha & Hcl & Hsz)
    by (by subst e).
  rewrite Ha, Hcl, Hsz. change (Z.land FS_ATTR_ARCHIVE FS_ATTR_READ_ONLY =? 0) with true.
  cbn [negb]. rewrite andb_false_r.
  exists c, (set_root_entry s1 i e). split_and!; try done; try lia.
  exists e. by split_and!.
Qed.

(** ** Reading *)

Definition file_ok (f : fs_file) : Prop :=
  is_u32 (f_size f) ∧ 0 <= f_offset f <= f_size f ∧ is_u16 (f_cluster f).

(** Following the chain: the entry of a cluster, unless it marks the end. *)
Definition next_cluster (fat : ram) (c : Z) : option Z :=
  if (0 <=? c) && (c <? FS_CLUSTERS)
  then if 0xFF8 <=? fat_get fat c then None else Some (fat_get fat c) else None.
Fixpoint hops (fat : ram) (n : nat) (c : Z) : option Z :=
  match n with O => Some c | S n' => c' ← hops fat n' c; next_cluster fat c' end.

(** [FS_DATA_SECTOR] is odd, so that the parity test of [fs_read] follows the chain at every
    end of a sector, but for the first one when the read starts in an odd sector of
    the file: whether it does at [p], and the cluster that the bytes before [p] are read
    from. *)
Definition fat_boundary (f : fs_file) (p : Z) : Prop :=
  p mod FS_SECTOR_SIZE = 0 ∧
  f_offset f / FS_SECTOR_SIZE + (f_offset f / FS_SECTOR_SIZE) mod 2 < p / FS_SECTOR_SIZE.
Definition cluster_before (fat : ram) (f : fs_file) (p : Z) : option Z :=
  hops fat (Z.to_nat ((p - 1) / FS_SECTOR_SIZE - f_offset f / FS_SECTOR_SIZE -
                      (f_offset f / FS_SECTOR_SIZE) mod 2)) (f_cluster f).

(** What a read of at most [n] bytes does: it stops before the [n] bytes where the chain
    is followed and ends, and fails where it leads outside the FAT. *)
Definition read_post (s : fs) (m : ram) (buffer : Z) (f : fs_file) (n : Z) (res : Z * (Z * ram)) : Prop :=
  let '(r, (off', m')) := res in
  only m (span buffer n) m' ∧ f_offset f <= off' <= f_offset f + n ∧
  (f_offset f < off' → is_Some (cluster_before (fat_table s) f off')) ∧
  (r = FS_ERROR_IO_ERROR ∧ fat_boundary f off' ∧
     (∃ c, cluster_before (fat_table s) f off' = Some c ∧ FS_CLUSTERS <= c) ∨
   r = off' - f_offset f ∧
     (r = n ∨ fat_boundary f off' ∧ ∃ c, cluster_before (fat_table s) f off' = Some c ∧ c < FS_CLUSTERS ∧
        0xFF8 <= fat_get (fat_table s) c)).

(** The position of the loop, the cluster it has come to and the parity of its sector. *)
Definition read_inv (s : fs) (m : ram) (buffer : Z) (f : fs_file) (n : Z) (r : read_state) : Prop :=
  let start := f_offset f / FS_SECTOR_SIZE in
  let here := rs_offset r / FS_SECTOR_SIZE in
  0 <= rs_read r <= n ∧ rs_offset r = f_offset f + rs_read r ∧ only m (span buffer n) (rs_mem r) ∧
  hops (fat_table s) (Z.to_nat (here - start - start mod 2)) (f_cluster f) = Some (rs_cluster r) ∧
  is_u16 (rs_cluster r) ∧
  rs_sector r mod 2 = if here =? start then (1 + start) mod 2 else 1.

Lemma first_sector_odd c : first_sector c mod 2 = 1.
Proof. unfold first_sector, FS_DATA_SECTOR. word_lia. Qed.

Lemma fat_get_u16 fat c : is_u16 (fat_get fat c).
Proof.
  unfold fat_get. pose proof (rd16_range fat (c * 3 / 2)). destruct (Z.odd c); word_lia.
Qed.

Lemma hops_mono fat m n c : (m <= n)%nat → is_Some (hops fat n c) → is_Some (hops fat m c).
Proof.
  induction 1 as [|n _ IH]; [done|]. intros H. apply IH. cbn [hops] in H.
  destruct (hops fat n c); [by eexists|by destruct H as [x H]; discriminate H].
Qed.

(** The bytes a turn transfers: to the end of the sector or of the request. *)
Lemma sector_chunk off done n :
  0 <= off → 0 <= done < n →
  let left := FS_SECTOR_SIZE - (off + done) mod FS_SECTOR_SIZE in
  let chunk := if n - done <? left then n - done else left in
  0 < chunk <= n - done ∧ (off + done + chunk - 1) / FS_SECTOR_SIZE = (off + done) / FS_SECTOR_SIZE.
Proof.
  intros. unfold FS_SECTOR_SIZE in *. subst left chunk. destruct (_ <? _) eqn:E; zreflect; word_lia.
Qed.

(** The boundary that a turn may reach. *)
Lemma boundary_step start here sector :
  0 <= start <= here → sector mod 2 = (if here =? start then (1 + start) mod 2 else 1) →
  if u32 (sector + 1) mod 2 =? 0
  then start + start mod 2 <= here ∧
       Z.to_nat (here + 1 - start - start mod 2) = S (Z.to_nat (here - start - start mod 2))
  else here = start ∧ start mod 2 = 1 ∧ u32 (sector + 1) mod 2 = 1.
Proof.
  intros Hs Hp. pose proof (Z.mod_pos_bound start 2 ltac:(lia)).
  destruct (Z.eqb_spec (u32 (sector + 1) mod 2) 0) as [E|E]; destruct (Z.eqb_spec here start); word_lia.
Qed.

Lemma read_fat_cases s c :
  initialized s = true → is_u16 c →
  if c <? FS_CLUSTERS then read_fat s (u16 c) = Ok (fat_get (fat_table s) c) else ∃ e, read_fat s (u16 c) = Err e.
Proof.
  intros Hi Hc. rewrite u16_small by done. unfold read_fat. rewrite Hi.
  destruct (Z.ltb_spec c FS_CLUSTERS); [apply fs_read_fat_ok; unfold is_cluster; word_lia|].
  unfold fs_read_fat. rewrite (proj2 (Z.leb_le FS_CLUSTERS c)) by lia. by eexists.
Qed.

Lemma read_step_ok junk s m buffer f n r :
  initialized s = true → 0 <= f_offset f → f_offset f + n < 4294967296 → read_inv s m buffer f n r →
  match read_step junk s buffer n r with
  | inl r' => read_inv s m buffer f n r' ∧ 0 <= n - rs_read r' < n - rs_read r
  | inr res => read_post s m buffer f n res
  end.
Proof.
  intros Hi Hoff Hn (Hr & Ho & Hm & Hc & Hcu & Hpar). unfold read_step.
  set (start := f_offset f / FS_SECTOR_SIZE) in *. set (here := rs_offset r / FS_SECTOR_SIZE) in *.
  assert (0 <= start <= here) as Hsh.
  { unfold start, here. rewrite Ho. unfold FS_SECTOR_SIZE. word_lia. }
  destruct (Z.ltb_spec (rs_read r) n) as [Hlt|Hge].
  2:{ split; [done|]. split; [lia|]. split; [|right; split; [lia|left; lia]]. intros _.
      eapply hops_mono; [|by eexists]. fold start here.
      assert ((rs_offset r - 1) / FS_SECTOR_SIZE <= here) by (unfold here, FS_SECTOR_SIZE; word_lia). lia. }
  unfold fs_read_sector. change (FS_SUCCESS =? FS_SUCCESS) with true. cbn [negb].
  pose proof (sector_chunk (f_offset f) (rs_read r) n Hoff ltac:(lia)) as Hchunk. cbv zeta in Hchunk.
  rewrite <- Ho in Hchunk.
  set (chunk := if n - rs_read r <? _ then _ else _) in *. clearbody chunk. destruct Hchunk as [Hchunk Hend].
  set (m' := wr_bytes _ _ _).
  assert (only m (span buffer n) m') as Hm'.
  { eapply only_trans; [exact Hm|]. eapply only_mono; [apply only_wr_bytes|].
    rewrite length_fmap, length_seqZ. unfold span. lia. }
  clearbody m'. rewrite u32_small by (unfold is_u32; lia). set (p := rs_offset r + chunk) in *.
  assert (cluster_before (fat_table s) f p = Some (rs_cluster r)) as Hbefore.
  { unfold cluster_before. fold start. rewrite Hend. exact Hc. }
  pose proof (boundary_step start here (rs_sector r) Hsh Hpar) as Hbd.
  assert (p mod FS_SECTOR_SIZE = 0 → p / FS_SECTOR_SIZE = here + 1) as Hnext.
  { unfold here, FS_SECTOR_SIZE in *. word_lia. }
  destruct (Z.eqb_spec (p mod FS_SECTOR_SIZE) 0) as [Hmod|Hmod].
  - specialize (Hnext Hmod). destruct (u32 (rs_sector r + 1) mod 2 =? 0).
    + destruct Hbd as [Hfollow Hhops].
      assert (fat_boundary f p) as Hfb by (split; [done|fold start; lia]).
      pose proof (read_fat_cases s (rs_cluster r) Hi Hcu) as Hfat.
      destruct (Z.ltb_spec (rs_cluster r) FS_CLUSTERS) as [Hcl|Hcl].
      * rewrite Hfat. destruct (Z.leb_spec 0xFF8 (fat_get (fat_table s) (rs_cluster r))) as [Hlast|Hmore].
        -- split; [done|]. split; [lia|]. split; [by eexists|]. right. split; [lia|]. right. split; [done|].
           by exists (rs_cluster r).
        -- split; [|simpl; lia]. split; [simpl; lia|]. split; [simpl; lia|]. split; [done|].
           cbn [rs_offset rs_cluster rs_sector]. fold start. rewrite Hnext. split; [|split; [apply fat_get_u16|]].
           { rewrite Hhops. cbn [hops]. rewrite Hc. cbn [mbind option_bind]. unfold next_cluster.
             rewrite (proj2 (Z.leb_le 0 _)), (proj2 (Z.ltb_lt _ _)), (proj2 (Z.leb_gt _ _)) by (word_lia || done). done. }
           rewrite (proj2 (Z.eqb_neq _ _)) by lia. apply first_sector_odd.
      * destruct Hfat as [e ->]. split; [done|]. split; [lia|]. split; [by eexists|]. left. split; [done|].
        split; [done|]. by exists (rs_cluster r).
    + destruct Hbd as (Hhere & Hodd & Hs1). split; [|simpl; lia]. split; [simpl; lia|]. split; [simpl; lia|].
      split; [done|]. cbn [rs_offset rs_cluster rs_sector]. fold start. rewrite Hnext. split; [|split; [done|]].
      { rewrite <- Hc. f_equal. lia. }
      rewrite (proj2 (Z.eqb_neq _ _)) by lia. exact Hs1.
  - assert (p / FS_SECTOR_SIZE = here) as Hsame by (unfold here, FS_SECTOR_SIZE in *; word_lia).
    split; [|simpl; lia]. split; [simpl; lia|]. split; [simpl; lia|]. split; [done|].
    cbn [rs_offset rs_cluster rs_sector]. fold start. by rewrite Hsame.
Qed.

Lemma start_sector_parity c q :
  0 <= q → (first_sector c +w q) mod 2 = (1 + q) mod 2.
Proof. intros. pose proof (first_sector_odd c). word_lia. Qed.

Lemma read_loop_ok junk s m buffer f n :
  initialized s = true → 0 <= f_offset f → is_u16 (f_cluster f) → 0 <= n → f_offset f + n < 4294967296 →
  ∃ res, loop (S (Z.to_nat n)) (read_step junk s buffer n)
           (MkRead 0 0 (f_offset f) (first_sector (f_cluster f) +w f_offset f / FS_SECTOR_SIZE) (f_cluster f) m)
         = Some res ∧ read_post s m buffer f n res.
Proof.
  intros Hi Hoff Hc Hn Hb.
  apply (loop_total _ (read_inv s m buffer f n) _ (λ r, n - rs_read r)).
  - intros r Hr. by apply read_step_ok.
  - split; [simpl; lia|]. split; [simpl; lia|]. split; [apply only_refl|].
    cbn [rs_offset rs_cluster rs_sector]. rewrite Z.eqb_refl. split; [|split; [done|]].
    + replace (Z.to_nat _) with O by (pose proof (Z.mod_pos_bound (f_offset f / FS_SECTOR_SIZE) 2); lia). done.
    + apply start_sector_parity. unfold FS_SECTOR_SIZE. word_lia.
  - simpl. lia.
  - simpl. lia.
Qed.

(** ** Writing *)

(** The directory, the flags and the current directory are the same. *)
Definition same_dir (s s' : fs) : Prop :=
  initialized s' = initialized s ∧ root_dir s' = root_dir s ∧
  current_directory s' = current_directory s.

Lemma next_write_cluster_ok s cluster :
  initialized s = true →
  ∃ r s', next_write_cluster s cluster = Some (r, s') ∧ same_dir s s' ∧
    match r with
    | Ok _ => True
    | Err e => e = FS_ERROR_IO_ERROR ∨ e = FS_ERROR_DISK_FULL
    end.
Proof.
  intros Hi. unfold next_write_cluster, read_fat, allocate_cluster, write_fat. rewrite Hi.
  pose proof (u16_range cluster) as Hc. destruct (decide (u16 cluster < FS_CLUSTERS)) as [Hlt|Hge].
  - assert (is_cluster (u16 cluster)) as Hcl by (unfold is_cluster; word_lia).
    rewrite fs_read_fat_ok by done. destruct (0xFF8 <=? _); [|by exists (Ok (fat_get (fat_table s) (u16 cluster))), s].
    destruct (fs_allocate_cluster_ok (fat_table s)) as [(c & fat' & -> & Hc2 & _)|[-> _]].
    + set (s1 := s <| fat_table := fat' |>).
      change (initialized s1) with (initialized s). rewrite Hi. change (fat_table s1) with fat'.
      destruct (fs_write_fat_ok fat' (u16 cluster) c Hcl) as (fat2 & -> & _); [lia|].
      by eexists (Ok c), (s1 <| fat_table := fat2 |>).
    + eexists (Err FS_ERROR_DISK_FULL), _. split; [done|]. split; [by destruct s|by right].
  - unfold fs_read_fat. rewrite (proj2 (Z.leb_le FS_CLUSTERS (u16 cluster))) by lia. cbn [negb orb].
    eexists (Err FS_ERROR_IO_ERROR), s. split; [done|]. split; [done|by left].
Qed.

Definition grown (f : fs_file) (n : Z) : fs_file :=
  f <| f_offset := f_offset f + n |> <| f_size := Z.max (f_size f) (f_offset f + n) |>.

Definition write_post (s : fs) (f : fs_file) (n : Z) (res : option (Z * (fs_file * fs))) : Prop :=
  ∃ r f' s' k, res = Some (r, (f', s')) ∧ same_dir s s' ∧ 0 <= k <= n ∧ f' = grown f k ∧
    (r = k ∧ k = n ∨ r = FS_ERROR_IO_ERROR ∨ r = FS_ERROR_DISK_FULL).

Definition write_inv (s : fs) (f : fs_file) (n : Z) (w : write_state) : Prop :=
  0 <= ws_written w <= n ∧ ws_file w = grown f (ws_written w) ∧ same_dir s (ws_fs w).

Lemma grown_0 f : file_ok f → grown f 0 = f.
Proof.
  intros (_ & Ho & _). unfold grown. destruct f as [c o z md v nm]. cbn in *.
  rewrite Z.add_0_r. by rewrite Z.max_l by lia.
Qed.

Lemma grown_step f a b :
  file_ok f → 0 <= a → 0 < b → f_offset f + a + b < 4294967296 →
  let g := grown f a <| f_offset := f_offset (grown f a) +w b |> in
  (if f_size g <? f_offset g then g <| f_size := f_offset g |> else g) = grown f (a + b).
Proof.
  intros (Hs & Ho & _) Ha Hb Hlt. destruct f as [c o z md v nm]. unfold grown in *. cbn in *.
  rewrite (u32_small (o + a + b)) by (unfold is_u32; lia).
  destruct (Z.ltb_spec (Z.max z (o + a)) (o + a + b)); f_equal; lia.
Qed.

Lemma write_step_ok junk m buffer s f n w :
  file_ok f → f_offset f + n < 4294967296 → initialized s = true → write_inv s f n w →
  match write_step junk m buffer n w with
  | inl w' => write_inv s f n w' ∧ 0 <= n - ws_written w' < n - ws_written w
  | inr res => write_post s f n res
  end.
Proof.
  intros Hf Hn Hi (Hw & Hfile & Hdir). unfold write_step. rewrite Hfile.
  destruct (Z.ltb_spec (ws_written w) n) as [Hlt|].
  2:{ exists (ws_written w), (grown f (ws_written w)), (ws_fs w), (ws_written w).
      split_and!; try done; lia. }
  unfold fs_read_sector, fs_write_sector. change (FS_SUCCESS =? FS_SUCCESS) with true. cbn [negb].
  pose proof Hf as (_ & Hoff & _).
  pose proof (proj1 (sector_chunk (f_offset f) (ws_written w) n ltac:(lia) ltac:(lia))) as Hchunk.
  cbv zeta in Hchunk. change (f_offset (grown f (ws_written w))) with (f_offset f + ws_written w).
  set (chunk := if n - ws_written w <? _ then _ else _) in *. clearbody chunk.
  pose proof (grown_step f (ws_written w) chunk Hf ltac:(lia) ltac:(lia) ltac:(lia)) as Hg.
  cbv zeta in Hg. change (f_offset (grown f (ws_written w))) with (f_offset f + ws_written w) in Hg.
  rewrite Hg. set (f2 := grown f (ws_written w + chunk)).
  destruct (f_offset f2 mod FS_SECTOR_SIZE =? 0).
  - destruct (_ mod 2 =? 0).
    + destruct (next_write_cluster_ok (ws_fs w) (ws_cluster w)) as (r & s' & -> & Hd & Hr).
      { destruct Hdir as (-> & _). done. }
      assert (same_dir s s') as Hd' by (destruct Hdir as (?&?&?), Hd as (?&?&?); repeat split; congruence).
      destruct r as [c|e].
      * split; [|simpl; lia]. split; [simpl; lia|]. by split.
      * exists e, f2, s', (ws_written w + chunk). split_and!; try done; lia.
    + split; [|simpl; lia]. split; [simpl; lia|]. by split.
  - split; [|simpl; lia]. split; [simpl; lia|]. by split.
Qed.

Lemma write_loop_ok junk m buffer s f n sector :
  file_ok f → 0 <= n → f_offset f + n < 4294967296 → initialized s = true →
  ∃ res, loop (S (Z.to_nat n)) (write_step junk m buffer n)
           (MkWrite 0 0 f sector (f_cluster f) s) = Some res ∧ write_post s f n res.
Proof.
  intros Hf Hn Hb Hi.
  apply (loop_total _ (write_inv s f n) _ (λ w, n - ws_written w)).
  - intros w Hw. by apply write_step_ok.
  - split; [simpl; lia|]. split; [simpl; by rewrite grown_0|done].
  - simpl. lia.
  - simpl. lia.
Qed.

(** ** Removing a file *)

Lemma free_cluster_chain_ok s l c :
  initialized s = true → chain (fat_table s) c l → NoDup l →
  ∃ fat', free_cluster_chain s c = Some (Ok tt, s <| fat_table := fat' |>) ∧
    ∀ d, is_cluster d → fat_get fat' d = if decide (d ∈ l) then 0 else fat_get (fat_table s) d.
Proof.
  intros Hi Hch Hnd. unfold free_cluster_chain. rewrite Hi.
  destruct (free_chain_ok l chain_fuel (fat_table s) c Hch Hnd) as (fat' & -> & _ & Hget);
    [by eapply chain_length|]. by exists fat'.
Qed.

Lemma chain_head fat c l : chain fat c l → is_cluster c → c ∈ l.
Proof.
  destruct l as [|x l]; simpl; [unfold is_cluster, FS_CLUSTERS; lia|]. intros [-> _] _. by left.
Qed.

Lemma free_cluster_chain_loops s c :
  initialized s = true → is_cluster c → fat_get (fat_table s) c = 0 → fat_get (fat_table s) 0 = 0 →
  free_cluster_chain s c = None.
Proof.
  intros Hi Hc H0 H00. unfold free_cluster_chain. rewrite Hi.
  by rewrite free_chain_loops.
Qed.

(** The two operations that look an entry up under the whole path find nothing
    when no entry has that name. *)
Lemma remove_path_none s p :
  fs_inv s → dir_lookup s (convert_filename p) = None →
  remove_directory_entry s (Some p) = (Err FS_ERROR_NOT_FOUND, s).
Proof.
  intros Hs H. unfold remove_directory_entry, dir_lookup in *. rewrite (fi_init _ Hs). cbn [negb].
  by destruct (find_index s (convert_filename p)).
Qed.

Lemma update_path_none s p e :
  fs_inv s → dir_lookup s (convert_filename p) = None →
  update_directory_entry s (Some p) e = (Err FS_ERROR_NOT_FOUND, s).
Proof.
  intros Hs H. unfold update_directory_entry, dir_lookup in *. rewrite (fi_init _ Hs). cbn [negb].
  by destruct (find_index s (convert_filename p)).
Qed.

(** [fs_delete] up to the freeing of the chain. *)
Lemma delete_start s p f e :
  fs_inv s → file_path p f → dir_lookup s (convert_filename f) = Some e → is_directory e = false →
  fs_delete s (Some p) = free_and_remove s (Some p) e.
Proof.
  intros Hs Hp He Hd. unfold fs_delete. rewrite (fi_init _ Hs), (file_path_valid p f Hp). cbn [negb].
  change (FS_SUCCESS =? FS_SUCCESS) with true. cbn [negb].
  by rewrite (find_path s p f Hs Hp), He, Hd.
Qed.

(** A name with an extra leading slash, in the 8.3 form. *)
Lemma free_and_remove_path s p e l :
  fs_inv s → dir_lookup s (convert_filename p) = None → d_cluster e ≠ 0 →
  chain (fat_table s) (d_cluster e) l → NoDup l →
  ∃ fat', free_and_remove s (Some p) e = Some (FS_ERROR_IO_ERROR, s <| fat_table := fat' |>) ∧
    ∀ d, is_cluster d → fat_get fat' d = if decide (d ∈ l) then 0 else fat_get (fat_table s) d.
Proof.
  intros Hs Hnone Hc Hch Hnd. unfold free_and_remove.
  rewrite (proj2 (Z.eqb_neq _ _) Hc). cbn [negb].
  destruct (free_cluster_chain_ok s l (d_cluster e) (fi_init _ Hs) Hch Hnd) as (fat' & -> & Hget).
  exists fat'. split; [|done]. cbn [mbind option_bind].
  rewrite remove_path_none; [done|by apply fs_inv_fat|by rewrite dir_lookup_fat].
Qed.

(** ** Counting entries *)

Definition count_if (P : dirent → bool) (l : list dirent) : Z :=
  Z.of_nat (length (filter (λ e, P e = true) l)).

Definition is_dir_entry (e : dirent) : bool := in_use e && is_directory e.
Definition is_file_entry (e : dirent) : bool := in_use e && negb (is_directory e).

(** The same file system with other statistics. *)
Definition with_stats (s : fs) (st : fs_stats) : fs := s <| stats := st |>.

Lemma count_if_take_S P l (i : nat) d :
  (i < length l)%nat →
  count_if P (take (S i) l) = count_if P (take i l) + (if P (nth i l d) then 1 else 0).
Proof.
  intros Hi. unfold count_if. destruct (lookup_lt_is_Some_2 l i Hi) as [e He].
  rewrite (take_S_r l i e He), filter_app, length_app, nth_lookup, He. simpl default.
  rewrite filter_cons. case_decide as HP; destruct (P e); try done; simpl; lia.
Qed.

Lemma count_if_bound P l : 0 <= count_if P l <= Z.of_nat (length l).
Proof. unfold count_if. pose proof (length_filter (λ e, P e = true) l). lia. Qed.

Lemma count_sectors_ok s :
  initialized s = true → free_sectors (stats s) = 0 →
  count_sectors s = with_stats s (stats s <| free_sectors := 2878 |>).
Proof.
  intros Hi H0. unfold count_sectors.
  pose proof (for_z_inv (λ j s', s' = with_stats s (stats s <| free_sectors := j - 2 |>))
    (Z.to_nat (2880 - 2)) 2) as H.
  cbv beta in H. change (2 + Z.of_nat (Z.to_nat (2880 - 2)) - 2) with 2878 in H. apply H; clear H.
  - destruct s as [? ? ? ? [] ?]. cbn in *. by subst.
  - intros j s' Hj ->. change (2 + Z.of_nat (Z.to_nat (2880 - 2))) with 2880 in Hj.
    unfold read_fat. change (initialized (with_stats _ _)) with (initialized s). rewrite Hi.
    rewrite fs_read_fat_ok by (unfold is_cluster, FS_CLUSTERS; lia).
    change (u16 (status (Ok _))) with 0. rewrite Z.eqb_refl.
    unfold with_stats. destruct s as [? ? ? ? [] ?]. cbn in *.
    replace (u32 (j - 2 + 1)) with (j + 1 - 2) by word_lia. done.
Qed.

Lemma count_entries_ok s :
  length (root_dir s) = 224%nat → total_files (stats s) = 0 → total_dirs (stats s) = 0 →
  count_entries s = with_stats s (stats s <| total_files := count_if is_file_entry (root_dir s) |>
                                          <| total_dirs := count_if is_dir_entry (root_dir s) |>).
Proof.
  intros Hl H1 H2. unfold count_entries. change (Z.to_nat FS_ROOT_ENTRIES) with 224%nat.
  pose proof (for_z_inv (λ j s', s' = with_stats s (stats s
    <| total_files := count_if is_file_entry (take (Z.to_nat j) (root_dir s)) |>
    <| total_dirs := count_if is_dir_entry (take (Z.to_nat j) (root_dir s)) |>)) 224 0) as H.
  cbv beta in H. change (Z.to_nat (0 + Z.of_nat 224)) with 224%nat in H. rewrite (take_ge (root_dir s) 224) in H by lia.
  apply H; clear H.
  - destruct s as [? ? ? ? [] ?]. cbn in *. by subst.
  - intros j s' Hj ->. replace (Z.to_nat (j + 1)) with (S (Z.to_nat j)) by lia.
    rewrite !(count_if_take_S _ _ _ dirent_zero) by lia.
    pose proof (count_if_bound is_file_entry (take (Z.to_nat j) (root_dir s))) as Hb1.
    pose proof (count_if_bound is_dir_entry (take (Z.to_nat j) (root_dir s))) as Hb2.
    rewrite length_take in Hb1, Hb2. unfold with_stats in *.
    set (a := count_if is_file_entry _) in *. set (b := count_if is_dir_entry _) in *.
    clearbody a b. unfold is_file_entry, is_dir_entry.
    change (nth (Z.to_nat j) (root_dir s) dirent_zero) with (root_entry s j).
    destruct s as [? ? ? ? [] ?]. unfold root_entry. cbn in *.
    destruct (in_use _); [|by rewrite !Z.add_0_r]. cbn [andb].
    destruct (is_directory _); cbn [negb]; rewrite ?Z.add_0_r, u32_small by word_lia; done.
Qed.

(** ** An empty file system *)

Lemma zero_fat_get fat c : is_cluster c → fat_get (zero_fat fat) c = 0.
Proof.
  intros Hc. unfold is_cluster, FS_CLUSTERS in Hc. unfold fat_get, rd16, zero_fat, FS_FAT_SIZE, FS_SECTOR_SIZE.
  rewrite !memset_rd8 by word_lia. by destruct (Z.odd c).
Qed.

Lemma zero_root_lookup s nm : root_dir s = zero_root → dir_lookup s nm = None.
Proof.
  intros H. unfold dir_lookup, find_index.
  rewrite (proj2 (for_first_None _ _ _)); [done|]. intros j Hj.
  assert (root_entry s j = dirent_zero) as ->; [|done].
  unfold root_entry, zero_root in *. rewrite H. rewrite nth_lookup, lookup_replicate_2; [done|].
  unfold FS_ROOT_ENTRIES in *. lia.
Qed.

Lemma zero_root_inv s : initialized s = true → root_dir s = zero_root → fs_inv s.
Proof.
  intros Hi Hr. split; [done|by rewrite Hr|]. rewrite Hr. apply Forall_replicate. done.
Qed.

Definition empty_fs : fs := MkFs true true ∅ zero_root (MkStats 2880 0 0 0 0) (lit "/").

Lemma empty_fs_inv : fs_inv empty_fs.
Proof. by apply zero_root_inv. Qed.
Lemma empty_fs_lookup nm : dir_lookup empty_fs nm = None.
Proof. by apply zero_root_lookup. Qed.
Lemma empty_fs_cluster : has_free_cluster empty_fs.
Proof. exists 2. by vm_compute. Qed.
Lemma empty_fs_slot : has_free_slot empty_fs.
Proof. exists 0. done. Qed.

(** "/A" *)
Definition demo_path : list Z := chr "/" :: lit "A".
Lemma demo_file_path : file_path demo_path (lit "A").
Proof.
  split; [done|]. split; [by repeat constructor|]. split; [done|].
  exists (lit "A"), None. apply (bool_decide_unpack _). vm_compute. exact I.
Qed.

(** ** Properties *)

(** C16: [fs_open] with [FS_MODE_CREATE] on a new path in the root directory
    succeeds when a cluster and a slot are free: the handle starts at offset 0
    with size 0 and a free cluster of its own, which becomes a
    one-cluster chain; that name, and only that name, is added to the directory
    (so it is found afterwards); no other FAT entry changes. *)
Theorem fs_open_creates s k junk p f mode f0 :
  fs_inv s → current_directory s = lit "/" → file_path p f →
  dir_lookup s (convert_filename f) = None → has_free_cluster s → has_free_slot s →
  Z.land mode FS_MODE_CREATE ≠ 0 →
  ∃ c s', fs_open s k junk (Some p) mode (Some f0) =
      Some (FS_SUCCESS, (Some (MkFile c 0 0 mode true p), (s', k))) ∧
    fs_inv s' ∧ fs_exists s' (Some p) = FS_SUCCESS ∧
    2 <= c < FS_CLUSTERS ∧ fat_get (fat_table s) c = 0 ∧ chain (fat_table s') c [c] ∧
    (∀ d, is_cluster d → d ≠ c → fat_get (fat_table s') d = fat_get (fat_table s) d) ∧
    (∃ e, d_attr e = FS_ATTR_ARCHIVE ∧ d_cluster e = c ∧ d_size e = 0 ∧
       ∀ nm, name83 nm → dir_lookup s' nm =
         if decide (nm = convert_filename f) then Some e else dir_lookup s nm) ∧
    current_directory s' = current_directory s.
Proof.
  intros Hs Hcwd Hp Hnone Hfc Hfs Hmode.
  destruct (create_ok s k junk p f mode f0 Hs Hcwd Hp Hnone Hfc Hfs Hmode)
    as (c & s' & Hopen & Hs' & Hc & H0 & Hget & (e & Ha & Hcl & Hsz & Hlook) & Hcwd').
  assert (is_cluster c) as Hcc by (unfold is_cluster; lia).
  exists c, s'. split; [exact Hopen|]. split; [done|]. split.
  { unfold fs_exists. rewrite (fi_init _ Hs'), (find_path s' p f Hs' Hp).
    rewrite Hlook by apply (file_path_usable p f Hp). by rewrite decide_True. }
  split_and!; try done; try lia.
  - simpl. rewrite Hget, Z.eqb_refl by done. split_and!; try done; lia.
  - intros d Hd Hne. by rewrite Hget, (proj2 (Z.eqb_neq _ _) Hne).
  - by exists e.
Qed.

Lemma fs_open_creates_witness :
  ∃ c s', fs_open empty_fs blank_machine [] (Some demo_path) 10 (Some (MkFile 0 0 0 0 false [])) =
      Some (FS_SUCCESS, (Some (MkFile c 0 0 10 true demo_path), (s', blank_machine))) ∧
    fs_exists s' (Some demo_path) = FS_SUCCESS.
Proof.
  destruct (fs_open_creates empty_fs blank_machine [] demo_path (lit "A") 10 (MkFile 0 0 0 0 false [])
    empty_fs_inv eq_refl demo_file_path (empty_fs_lookup _) empty_fs_cluster empty_fs_slot ltac:(done))
    as (c & s' & H & _ & He & _).
  exists c, s'. split; [exact H|exact He].
Defined.

(** C21: [fs_read] of less than 2^31 bytes, with offset and size adding up to less than 2^32, on
    a valid handle open for reading of an initialised file system always returns; it
    writes only inside the buffer, and no more than the bytes that remain in the
    file; the handle stays well formed, with only its offset moved forward.  It transfers every byte
    available unless the chain runs out: the chain is followed at every end of a sector
    passed, but for the first one of a read that starts in an odd sector of the file, so
    that one cluster serves one sector and not two; the read is short exactly where
    the cluster reached holds an end-of-chain mark, and the error is returned exactly where the
    cluster reached lies outside the FAT. *)
Theorem fs_read_correct junk s m f buffer size :
  file_ok f → f_valid f = true → Z.land (f_mode f) FS_MODE_READ ≠ 0 → initialized s = true →
  0 <= size < 2147483648 → f_offset f + size < 4294967296 →
  let n := Z.min size (f_size f - f_offset f) in
  ∃ r f' m', fs_read junk s m (Some f) buffer size = Some (r, (Some f', m')) ∧
    only m (span buffer n) m' ∧ file_ok f' ∧ f' = f <| f_offset := f_offset f' |> ∧
    f_offset f <= f_offset f' <= f_offset f + n ∧
    (f_offset f < f_offset f' → is_Some (cluster_before (fat_table s) f (f_offset f'))) ∧
    (r = FS_ERROR_IO_ERROR ∧ fat_boundary f (f_offset f') ∧
       (∃ c, cluster_before (fat_table s) f (f_offset f') = Some c ∧ FS_CLUSTERS <= c) ∨
     r = f_offset f' - f_offset f ∧
       (r = n ∨ fat_boundary f (f_offset f') ∧
          ∃ c, cluster_before (fat_table s) f (f_offset f') = Some c ∧ c < FS_CLUSTERS ∧
            0xFF8 <= fat_get (fat_table s) c)).
Proof.
  intros Hf Hv Hmode Hi Hsize Hw n. pose proof Hf as (Hsz & Ho & Hcl). unfold fs_read.
  rewrite Hv, (proj2 (Z.eqb_neq _ _) Hmode). cbn [negb orb].
  destruct (Z.leb_spec (f_size f) (f_offset f)).
  { exists 0, f, m. split; [done|]. split; [apply only_refl|]. split; [done|].
    split; [by destruct f|]. split; [lia|]. split; [lia|]. right. split; [lia|left; lia]. }
  rewrite u32_small by (unfold is_u32; lia).
  assert ((if f_size f <? f_offset f + size then f_size f - f_offset f else size) = n) as ->.
  { subst n. destruct (_ <? _) eqn:E; zreflect; lia. }
  destruct (read_loop_ok junk s m buffer f n) as ([r [off' m']] & -> & Hm & Hoff & Hread & Hr); [done|lia|done|lia|lia|].
  cbn [mbind option_bind]. exists (s32 r), (f <| f_offset := off' |>), m'.
  unfold is_u32 in Hsz. split; [done|]. split; [done|]. split.
  { split; [done|]. split; [simpl; lia|done]. }
  split; [by destruct f|]. split; [simpl; lia|]. split; [exact Hread|].
  destruct Hr as [(-> & Herr)|(Hr0 & Hok)]; [by left|right]. rewrite s32_small by lia. by split.
Qed.

(** A handle on a file of 700 bytes in cluster 2, at offset 500, open for both. *)
Definition demo_file : fs_file := MkFile 2 500 700 3 true (lit "A").
Lemma demo_file_ok : file_ok demo_file.
Proof. by vm_compute. Qed.

(** The 12 bytes to the end of the first sector, and then the FAT entry 0 of cluster 2, which
    leads on. *)
Lemma fs_read_correct_witness :
  ∃ r f' m', fs_read (λ _ i, i) empty_fs ∅ (Some demo_file) 4096 1000 = Some (r, (Some f', m')) ∧
    only ∅ (span 4096 200) m' ∧ r = f_offset f' - 500.
Proof.
  destruct (fs_read_correct (λ _ i, i) empty_fs ∅ demo_file 4096 1000 demo_file_ok eq_refl)
    as (r & f' & m' & H & Ho & _ & _ & Hoff & _ & Hr); [done|done|lia|done|].
  exists r, f', m'. split; [exact H|]. split; [exact Ho|].
  destruct Hr as [(_ & _ & c & Hc & Hbig)|(Hr & _)]; [|exact Hr].
  exfalso. revert Hc Hbig. unfold cluster_before. change (f_cluster demo_file) with 2.
  change (f_offset demo_file) with 500 in *. change (f_size demo_file) with 700 in Hoff.
  assert ((f_offset f' - 1) / FS_SECTOR_SIZE = 0 ∨ (f_offset f' - 1) / FS_SECTOR_SIZE = 1 ∨
          (f_offset f' - 1) / FS_SECTOR_SIZE < 0) as Hd.
  { unfold FS_SECTOR_SIZE. word_lia. }
  destruct Hd as [->|[->|Hd]].
  - vm_compute. intros [= <-] H'. by apply H'.
  - vm_compute. intros [= <-] H'. by apply H'.
  - replace (Z.to_nat _) with O by (change (500 / FS_SECTOR_SIZE) with 0; change (0 mod 2) with 0; lia).
    intros [= <-]. vm_compute. intros H'. by apply H'.
Defined.



(** The offset [fs_seek] moves to, with the wrap-around of the C addition. *)
Definition seek_target (f : fs_file) (offset whence : Z) : option Z :=
  match whence with
  | 0 => Some (u32 offset)
  | 1 => Some (u32 (f_offset f + offset))
  | 2 => Some (u32 (f_size f + offset))
  | _ => None
  end.

(** [fs_seek] succeeds exactly when the target of a valid [whence] (computed modulo
    2^32) lies within the file, end included; then [fs_tell] reports the target
    and the handle stays well formed; otherwise the handle is unchanged. *)
Theorem fs_seek_correct f offset whence :
  file_ok f → f_valid f = true →
  match seek_target f offset whence with
  | Some t => if t <=? f_size f
      then ∃ f', fs_seek (Some f) offset whence = (FS_SUCCESS, Some f') ∧ file_ok f' ∧
             fs_tell (Some f') = s32 t ∧ f' = f <| f_offset := t |>
      else fs_seek (Some f) offset whence = (FS_ERROR_IO_ERROR, Some f)
  | None => fs_seek (Some f) offset whence = (FS_ERROR_IO_ERROR, Some f)
  end.
Proof.
  intros (Hs & Ho & Hc) Hv. unfold fs_seek. rewrite Hv. cbn [negb].
  assert ((if whence =? 0 then Some (u32 offset)
           else if whence =? 1 then Some (f_offset f +w offset)
           else if whence =? 2 then Some (f_size f +w offset) else None)
          = seek_target f offset whence) as ->.
  { by destruct whence as [|[[|[]|]|[[]|[]|]|]|]. }
  destruct (seek_target f offset whence) as [t|] eqn:Ht; [|done].
  assert (0 <= t) by (unfold seek_target in Ht; repeat case_match; simplify_eq; apply u32_range).
  destruct (Z.leb_spec t (f_size f)).
  - rewrite (proj2 (Z.ltb_ge _ _)) by lia. eexists. split; [reflexivity|].
    split; [split; [done|split; [simpl; lia|done]]|]. split; [|done].
    unfold fs_tell. simpl. by rewrite Hv.
  - by rewrite (proj2 (Z.ltb_lt _ _)) by lia.
Qed.

Lemma fs_seek_correct_witness :
  fs_seek (Some demo_file) (-600) 2 = (FS_SUCCESS, Some (demo_file <| f_offset := 100 |>)).
Proof.
  pose proof (fs_seek_correct demo_file (-600) 2 demo_file_ok eq_refl) as H.
  destruct H as (f' & H & _ & _ & E). rewrite H, E. reflexivity.
Defined.

(** C23: [fs_delete] of a file in the root directory frees exactly the clusters of its
    chain but then looks the entry up under the path with its slash, so unless
    another entry happens to have that name it reports [FS_ERROR_IO_ERROR] and
    the directory still lists the file; where FAT entry 0 is 0 and the file does
    not use cluster 0, a second [fs_delete] of the path never returns. *)
Theorem fs_delete_leaves_entry s p f e l :
  fs_inv s → file_path p f → dir_lookup s (convert_filename f) = Some e → is_directory e = false →
  2 <= d_cluster e < FS_CLUSTERS → chain (fat_table s) (d_cluster e) l → NoDup l →
  dir_lookup s (convert_filename p) = None →
  ∃ s', fs_delete s (Some p) = Some (FS_ERROR_IO_ERROR, s') ∧ fs_inv s' ∧
    (∀ nm, dir_lookup s' nm = dir_lookup s nm) ∧
    (∀ d, is_cluster d → fat_get (fat_table s') d = if decide (d ∈ l) then 0 else fat_get (fat_table s) d) ∧
    (fat_get (fat_table s) 0 = 0 → fs_delete s' (Some p) = None).
Proof.
  intros Hs Hp He Hd Hc Hch Hnd Hnone.
  rewrite (delete_start s p f e Hs Hp He Hd).
  destruct (free_and_remove_path s p e l Hs Hnone ltac:(lia) Hch Hnd) as (fat' & -> & Hget).
  set (s' := s <| fat_table := fat' |>). assert (fs_inv s') as Hs' by (by apply fs_inv_fat).
  exists s'. split; [done|]. split; [done|].
  split; [intros nm; apply dir_lookup_fat|]. split; [exact Hget|]. intros H00.
  assert (dir_lookup s' (convert_filename f) = Some e) as He' by (by unfold s'; rewrite dir_lookup_fat).
  rewrite (delete_start s' p f e Hs' Hp He' Hd). unfold free_and_remove.
  rewrite (proj2 (Z.eqb_neq (d_cluster e) 0)) by lia. cbn [negb].
  assert (is_cluster (d_cluster e)) as Hcl by (unfold is_cluster; lia).
  rewrite free_cluster_chain_loops; [done|apply Hs'|done|..]; change (fat_table s') with fat'.
  - rewrite Hget, decide_True; [done|by eapply chain_head|done].
  - rewrite Hget, H00 by done. by destruct (decide _).
Qed.

(** The empty file system with one file "A" in cluster 2. *)
Definition demo_entry : dirent :=
  fill_dirent dirent_zero (convert_filename (lit "A")) FS_ATTR_ARCHIVE 2 0.
Definition demo_fs : fs :=
  set_root_entry (empty_fs <| fat_table := (fs_allocate_cluster true ∅).2 |>) 0 demo_entry.
Lemma demo_fs_inv : fs_inv demo_fs.
Proof.
  apply fs_inv_set; [apply fs_inv_fat, empty_fs_inv|].
  apply convert_filename_83. by repeat constructor.
Qed.

Lemma fs_delete_leaves_entry_witness :
  ∃ s', fs_delete demo_fs (Some demo_path) = Some (FS_ERROR_IO_ERROR, s') ∧
    fs_exists s' (Some demo_path) = FS_SUCCESS ∧ fs_delete s' (Some demo_path) = None.
Proof.
  destruct (fs_delete_leaves_entry demo_fs demo_path (lit "A") demo_entry [2] demo_fs_inv demo_file_path)
    as (s' & H & Hs' & Hl & _ & Hd).
  - by vm_compute.
  - by vm_compute.
  - by vm_compute.
  - by vm_compute.
  - apply NoDup_singleton.
  - by vm_compute.
  - exists s'. split; [exact H|]. split; [|apply Hd; by vm_compute].
    unfold fs_exists. rewrite (fi_init _ Hs'), (find_path s' demo_path (lit "A") Hs' demo_file_path), Hl.
    by vm_compute.
Defined.

(** [fs_rename] of a root-directory path to another never succeeds, unless an
    entry is named like the old path with its slash, and never changes the file
    system: the result tells a missing source from an existing target, and is
    [FS_ERROR_IO_ERROR] in the case that should succeed. *)
Theorem fs_rename_never_succeeds s p f p' f' :
  fs_inv s → file_path p f → file_path p' f' → dir_lookup s (convert_filename p) = None →
  fs_rename s (Some p) (Some p') =
    (match dir_lookup s (convert_filename f), dir_lookup s (convert_filename f') with
     | None, _ => FS_ERROR_NOT_FOUND
     | Some _, Some _ => FS_ERROR_FILE_EXISTS
     | Some _, None => FS_ERROR_IO_ERROR
     end, s).
Proof.
  intros Hs Hp Hp' Hnone. unfold fs_rename. rewrite (fi_init _ Hs).
  rewrite (file_path_valid p f Hp), (file_path_valid p' f' Hp'). cbn [negb orb].
  change (FS_SUCCESS =? FS_SUCCESS) with true. cbn [negb orb].
  rewrite (find_path s p f Hs Hp), (find_path s p' f' Hs Hp').
  destruct (dir_lookup s (convert_filename f)); [|done].
  destruct (dir_lookup s (convert_filename f')); [done|].
  by rewrite update_path_none.
Qed.

Lemma fs_rename_never_succeeds_witness :
  fs_rename demo_fs (Some demo_path) (Some demo_path) = (FS_ERROR_FILE_EXISTS, demo_fs).
Proof.
  pose proof (fs_rename_never_succeeds demo_fs demo_path (lit "A") demo_path (lit "A")
    demo_fs_inv demo_file_path demo_file_path) as H.
  rewrite H by (by vm_compute). by vm_compute.
Defined.

(** Adding to a subdirectory never changes the state. *)
Lemma add_subdir_state s junk p attr cluster size d :
  str_ok d → d ≠ lit "/" →
  ∃ r, add_directory_entry_to_dir s junk (Some p) attr cluster size (Some d) = (r, s).
Proof.
  intros Hd Hne. unfold add_directory_entry_to_dir.
  destruct (negb (initialized s)); [by eexists|].
  assert (Str.strcmp d (lit "/") =? 0 = false) as ->.
  { apply Z.eqb_neq. rewrite strcmp_eq; [done|done|by repeat constructor]. }
  repeat case_match; by eexists.
Qed.

(** After [fs_chdir] into a subdirectory, [fs_open] with [FS_MODE_CREATE] of a path
    that does not exist always fails with [FS_ERROR_IO_ERROR] and leaves the
    directory as it was; the cluster it allocated is given back, or leaks: the
    chain of one cluster it made stays in the FAT although no entry names it. *)
Theorem fs_open_in_subdirectory_fails s k junk p f mode f0 :
  fs_inv s → str_ok (current_directory s) → current_directory s ≠ lit "/" → file_path p f →
  dir_lookup s (convert_filename f) = None → has_free_cluster s → Z.land mode FS_MODE_CREATE ≠ 0 →
  ∃ s', fs_open s k junk (Some p) mode (Some f0) = Some (FS_ERROR_IO_ERROR, (Some f0, (s', k))) ∧
    fs_inv s' ∧ root_dir s' = root_dir s ∧
    (fat_eq (fat_table s') (fat_table s) ∨
     ∃ c, 2 <= c < FS_CLUSTERS ∧ fat_get (fat_table s) c = 0 ∧ chain (fat_table s') c [c]).
Proof.
  intros Hs Hd Hne Hp Hnone Hfc Hmode.
  unfold fs_open. rewrite (fi_init _ Hs), (file_path_valid p f Hp). cbn [negb default].
  change (FS_SUCCESS =? FS_SUCCESS) with true. cbn [negb].
  change (id p) with p. unfold open_entry. rewrite (find_path s p f Hs Hp), Hnone.
  rewrite (proj2 (Z.eqb_neq _ _) Hmode).
  destruct (allocate_cluster_ok s Hs Hfc) as (c & fat' & -> & Hc & H0 & Hget).
  set (s1 := s <| fat_table := fat' |>). change (current_directory s1) with (current_directory s).
  assert (fs_inv s1) as Hs1 by (by apply fs_inv_fat).
  assert (is_cluster c) as Hcc by (unfold is_cluster; lia).
  assert (chain fat' c [c]) as Hch.
  { simpl. rewrite Hget, Z.eqb_refl by done. split_and!; try done; lia. }
  destruct (add_subdir_state s1 junk p FS_ATTR_ARCHIVE c 0 _ Hd Hne) as [r ->].
  destruct r as [[]|e].
  - rewrite (find_path s1 p f Hs1 Hp). unfold s1 at 1. rewrite dir_lookup_fat, Hnone.
    cbn [mbind option_bind]. exists s1. split_and!; try done. right. exists c. done.
  - destruct (free_cluster_chain_ok s1 [c] c (fi_init _ Hs1) Hch (NoDup_singleton c)) as (fat2 & -> & Hget2).
    cbn [mbind option_bind]. eexists. split; [done|]. split; [by apply fs_inv_fat|].
    split; [done|]. left. intros d Hdc.
    change (fat_table (s1 <| fat_table := fat2 |>)) with fat2. rewrite Hget2 by done.
    change (fat_table s1) with fat'. rewrite Hget by done.
    destruct (Z.eqb_spec d c) as [->|Hdn].
    + by rewrite decide_True by (by left).
    + rewrite decide_False; [done|]. by intros ?%list_elem_of_singleton.
Qed.

Lemma fs_open_in_subdirectory_fails_witness :
  ∃ s', fs_open (empty_fs <| current_directory := lit "/D" |>) blank_machine [] (Some demo_path) 10
      (Some demo_file) = Some (FS_ERROR_IO_ERROR, (Some demo_file, (s', blank_machine))) ∧
    root_dir s' = zero_root.
Proof.
  destruct (fs_open_in_subdirectory_fails (empty_fs <| current_directory := lit "/D" |>) blank_machine
    [] demo_path (lit "A") 10 demo_file) as (s' & H & _ & Hr & _).
  - by apply zero_root_inv.
  - by repeat constructor.
  - done.
  - exact demo_file_path.
  - by apply zero_root_lookup.
  - exists 2. by vm_compute.
  - done.
  - exists s'. split; [exact H|exact Hr].
Defined.

(** [fs_get_stats] counts the entries in use of the root directory, files and
    directories apart, exactly; but it counts every cluster as free whatever the
    FAT holds, since it tests the status [fs_read_fat] returns and not the entry.
    Nothing but the statistics changes. *)
Theorem fs_get_stats_counts s :
  fs_inv s →
  ∃ st, fs_get_stats s = (Ok st, with_stats s st) ∧
    total_files st = count_if is_file_entry (root_dir s) ∧
    total_dirs st = count_if is_dir_entry (root_dir s) ∧
    free_sectors st = 2878 ∧ used_sectors st = 0 ∧ total_sectors st = total_sectors (stats s) ∧
    fs_get_free_space (with_stats s st) = Ok (2878 * 512).
Proof.
  intros [Hi Hl _]. unfold fs_get_stats, update_fs_stats. rewrite Hi. cbn [negb].
  rewrite count_sectors_ok by done. rewrite count_entries_ok by done.
  eexists. split; [reflexivity|]. split; [done|]. split; [done|]. split; [done|]. split; [done|].
  split; [done|]. unfold fs_get_free_space. simpl. by rewrite Hi.
Qed.

Lemma fs_get_stats_counts_witness :
  (fs_get_stats demo_fs).1 = Ok (MkStats 2880 2878 0 1 0).
Proof.
  destruct (fs_get_stats_counts demo_fs demo_fs_inv) as (st & H & H1 & H2 & H3 & H4 & H5 & _).
  rewrite H. cbn [fst]. destruct st. cbn in H1, H2, H3, H4, H5. subst. by vm_compute.
Defined.

(** Before [initialized] is set no entry can be read: every cluster counts as used. *)
Lemma count_sectors_uninit s :
  initialized s = false → used_sectors (stats s) = 0 →
  count_sectors s = with_stats s (stats s <| used_sectors := 2878 |>).
Proof.
  intros Hi H0. unfold count_sectors.
  pose proof (for_z_inv (λ j s', s' = with_stats s (stats s <| used_sectors := j - 2 |>))
    (Z.to_nat (2880 - 2)) 2) as H.
  cbv beta in H. change (2 + Z.of_nat (Z.to_nat (2880 - 2)) - 2) with 2878 in H. apply H; clear H.
  - destruct s as [? ? ? ? [] ?]. cbn in *. by subst.
  - intros j s' Hj ->. change (2 + Z.of_nat (Z.to_nat (2880 - 2))) with 2880 in Hj.
    unfold read_fat. change (initialized (with_stats _ _)) with (initialized s). rewrite Hi.
    unfold fs_read_fat. cbn [negb orb].
    change (u16 (status (Err FS_ERROR_IO_ERROR)) =? 0) with false.
    unfold with_stats. destruct s as [? ? ? ? [] ?]. cbn in *.
    replace (u32 (j - 2 + 1)) with (j + 1 - 2) by word_lia. done.
Qed.

Lemma count_zero_root P : P dirent_zero = false → count_if P zero_root = 0.
Proof.
  intros HP. unfold count_if, zero_root. induction (Z.to_nat FS_ROOT_ENTRIES) as [|n IH]; [done|].
  simpl. rewrite filter_cons, decide_False by (by rewrite HP). exact IH.
Qed.

Lemma write_fat_uninit s c v : initialized s = false → write_fat s c v = (Err FS_ERROR_IO_ERROR, s).
Proof. intros Hi. unfold write_fat, fs_write_fat. rewrite Hi. by destruct s as [? ? ? ? ? ?]. Qed.

Lemma fs_init_ok s k :
  ∃ s' k', fs_init s k = (FS_SUCCESS, (s', k')) ∧ fs_inv s' ∧
    (∀ nm, dir_lookup s' nm = None) ∧ (∀ c, is_cluster c → fat_get (fat_table s') c = 0) ∧
    stats s' = MkStats 2880 0 2878 0 0 ∧ current_directory s' = current_directory s ∧
    root_dir s' = zero_root ∧ (term_ok k → console_step k k').
Proof.
  unfold fs_init. change (negb (fs_read_sector 0 =? FS_SUCCESS)) with false. cbv iota zeta.
  destruct s as [i ps fat rd st cwd].
  set (s1 := MkFs false true (zero_fat fat) rd (MkStats 0 0 0 0 0) cwd).
  change (write_fat _ 0 0xFF8) with (write_fat s1 0 0xFF8). rewrite write_fat_uninit by done.
  rewrite write_fat_uninit by done.
  set (s2 := MkFs false true (zero_fat fat) zero_root (MkStats 2880 0 0 0 0) cwd).
  change (count_sectors _) with (count_sectors s2).
  rewrite count_sectors_uninit by done. rewrite count_entries_ok by done.
  rewrite !count_zero_root by done.
  eexists _, _. split; [reflexivity|]. split; [by apply zero_root_inv|].
  split; [intros nm; by apply zero_root_lookup|]. split; [intros c Hc; by apply zero_fat_get|].
  split; [done|]. split; [done|]. split; [done|]. intros Hk.
  auto 8 with console.
Qed.

(** [fs_init] succeeds from any state and leaves a well-formed, empty file system:
    no name is in the directory and every FAT entry is 0, entries 0 and 1
    included, since its two [fs_write_fat] calls come before [initialized] is set
    and fail; for the same reason the statistics count no free sector. *)
Theorem fs_init_empty s k :
  ∃ s' k', fs_init s k = (FS_SUCCESS, (s', k')) ∧ fs_inv s' ∧
    (∀ nm, dir_lookup s' nm = None) ∧ (∀ c, is_cluster c → fat_get (fat_table s') c = 0) ∧
    stats s' = MkStats 2880 0 2878 0 0 ∧ current_directory s' = current_directory s.
Proof.
  destruct (fs_init_ok s k) as (s' & k' & E & H1 & H2 & H3 & H4 & H5 & _).
  by exists s', k'.
Qed.

(** What [fs_chdir] does with a path that is not "/" or "..". *)
Definition chdir_entry (s : fs) (p : list Z) : Z * fs :=
  match find_entry s (Some p) with
  | None => (FS_ERROR_NOT_FOUND, s)
  | Some i => if is_directory (root_entry s i) then (FS_SUCCESS, s <| current_directory := p |>)
              else (FS_ERROR_NOT_DIRECTORY, s)
  end.

(** [fs_chdir] accepts exactly "/", ".." below the root, and valid paths of
    directory entries; it changes nothing but the current directory, and only
    when it succeeds, and then [fs_get_cwd] with enough room returns the path
    asked for ("/" for ".."). *)
Theorem fs_chdir_correct s p size :
  fs_inv s → str_ok p → str_ok (current_directory s) → Str.strlen p < size → 1 < size →
  fs_chdir s (Some p) =
    (if negb (validate_path (Some p) =? FS_SUCCESS) then (FS_ERROR_INVALID_PATH, s)
     else if decide (p = lit "/") then (FS_SUCCESS, s <| current_directory := lit "/" |>)
     else if decide (p = lit "..") then
       if decide (current_directory s = lit "/") then (FS_ERROR_ACCESS_DENIED, s)
       else (FS_SUCCESS, s <| current_directory := lit "/" |>)
     else chdir_entry s p) ∧
  ∀ s', fs_chdir s (Some p) = (FS_SUCCESS, s') →
    fs_get_cwd s' size = Ok (if decide (p = lit "..") then lit "/" else p) ∧
    s' = s <| current_directory := current_directory s' |>.
Proof.
  intros Hs Hp Hc Hsize H1.
  assert (∀ d, str_ok d → ∀ w, w = lit "/" ∨ w = lit ".." →
    (Str.strcmp d w =? 0) = bool_decide (d = w)) as Hcmp.
  { intros d Hd w Hw. apply eq_true_iff_eq. rewrite Z.eqb_eq, bool_decide_eq_true.
    apply strcmp_eq; [done|]. destruct Hw as [->| ->]; by repeat constructor. }
  assert (fs_chdir s (Some p) =
    (if negb (validate_path (Some p) =? FS_SUCCESS) then (FS_ERROR_INVALID_PATH, s)
     else if decide (p = lit "/") then (FS_SUCCESS, s <| current_directory := lit "/" |>)
     else if decide (p = lit "..") then
       if decide (current_directory s = lit "/") then (FS_ERROR_ACCESS_DENIED, s)
       else (FS_SUCCESS, s <| current_directory := lit "/" |>)
     else chdir_entry s p)) as E.
  { unfold fs_chdir, chdir_entry. rewrite (fi_init _ Hs). cbn [negb default]. change (id p) with p.
    rewrite !Hcmp by auto. destruct (negb _); [done|].
    repeat case_bool_decide; repeat case_decide; try done.
    destruct (find_entry s (Some p)); [|done]. by destruct (is_directory _). }
  split; [exact E|]. rewrite E. clear E. intros s' H.
  assert (∀ q, Str.strlen q < size → fs_get_cwd (s <| current_directory := q |>) size = Ok q) as Hget.
  { intros q Hq. unfold fs_get_cwd. simpl. rewrite (proj2 (Z.eqb_neq size 0)) by lia.
    by rewrite (proj2 (Z.leb_gt _ _)) by done. }
  destruct (negb _); [done|]. unfold chdir_entry in H.
  repeat case_decide; repeat case_match; simplify_eq; (split; [by apply Hget|done]).
Qed.

Lemma fs_chdir_correct_witness :
  ∃ s', fs_chdir (empty_fs <| current_directory := lit "/D" |>) (Some (lit "..")) = (FS_SUCCESS, s') ∧
    fs_get_cwd s' 10 = Ok (lit "/").
Proof.
  eexists. split; [reflexivity|].
  apply (fs_chdir_correct (empty_fs <| current_directory := lit "/D" |>) (lit "..") 10).
  - by apply zero_root_inv.
  - by repeat constructor.
  - by repeat constructor.
  - done.
  - done.
  - reflexivity.
Defined.
