(* ===== verification/FsPreserve.v ===== *)
(** * The file system keeps its invariant

    Every operation of Fs.v, on every branch and for every argument, keeps the
    root directory well formed ([fs_inv]), stores no size but 0 in it ([sizes_zero]) and
    prints only on the console.  These are the facts the system calls and the shell
    need, whatever the outcome of the operation. *)

From S2P Require Import Prelude Ram CString Vga Fat FsNames Fs FsCorrect.
Set Default Goal Selector "!".

(** Entries are created with size 0, and no operation stores another size. *)
Definition sizes_zero (s : fs) : Prop := Forall (λ e, d_size e = 0) (root_dir s).

Lemma root_entry_size s i : sizes_zero s → d_size (root_entry s i) = 0.
Proof.
  intros Hz. unfold root_entry. rewrite nth_lookup. unfold sizes_zero in Hz.
  destruct (root_dir s !! Z.to_nat i) as [e|] eqn:E; [|done].
  by eapply (Forall_lookup_1 _ _ _ _ Hz E).
Qed.

Lemma found_size s p e : sizes_zero s → find_directory_entry s (Some p) = Ok e → d_size e = 0.
Proof.
  intros Hz. unfold find_directory_entry. destruct (negb _); [done|].
  destruct (find_index _ _); [|done]. intros [= <-]. by apply root_entry_size.
Qed.

(** What a call may do to the state: keep it well formed, and leave the current
    directory alone. *)
Definition fs_step (s s' : fs) : Prop :=
  fs_inv s' ∧ current_directory s' = current_directory s ∧ (sizes_zero s → sizes_zero s').

(** The current directory is a path of at most 255 characters. *)
Definition fs_ok (s : fs) : Prop :=
  fs_inv s ∧ str_ok (current_directory s) ∧ Str.strlen (current_directory s) < FS_MAX_PATH ∧
  sizes_zero s.

Lemma fs_step_refl s : fs_inv s → fs_step s s.
Proof. by split. Qed.
Lemma fs_step_trans s1 s2 s3 : fs_step s1 s2 → fs_step s2 s3 → fs_step s1 s3.
Proof. intros (? & ? & ?) (? & ? & ?). split; [done|]. split; [congruence|auto]. Qed.
Lemma fs_step_fat s fat : fs_inv s → fs_step s (s <| fat_table := fat |>).
Proof. intros. split; [by apply fs_inv_fat|done]. Qed.
Lemma fs_step_set s i e :
  fs_inv s → name83 (entry_name e) → (sizes_zero s → d_size e = 0) → fs_step s (set_root_entry s i e).
Proof.
  intros Hs Hn Hz. split; [by apply fs_inv_set|]. split; [done|]. intros Hs0.
  apply Forall_insert; [exact Hs0|by apply Hz].
Qed.
Lemma fs_step_ok s s' : fs_ok s → fs_step s s' → fs_ok s'.
Proof. intros (? & ? & ? & ?) (? & Hc & ?). split; [done|]. rewrite Hc. auto. Qed.

Create HintDb fs_step.
#[export] Hint Resolve fs_step_refl : fs_step.

Lemma allocate_cluster_step s r s' : fs_inv s → allocate_cluster s = (r, s') → fs_step s s'.
Proof. unfold allocate_cluster. intros Hs. case_match. intros [= _ <-]. by apply fs_step_fat. Qed.
Lemma write_fat_step s c v r s' : fs_inv s → write_fat s c v = (r, s') → fs_step s s'.
Proof. unfold write_fat. intros Hs. case_match. intros [= _ <-]. by apply fs_step_fat. Qed.
Lemma free_cluster_chain_step s c r s' :
  fs_inv s → free_cluster_chain s c = Some (r, s') → fs_step s s'.
Proof.
  unfold free_cluster_chain. intros Hs. destruct (fs_free_cluster_chain _ _ _ _) as [[r0 fat]|]; [|done].
  cbn [mbind option_bind]. intros [= _ <-]. by apply fs_step_fat.
Qed.

Lemma strip_slash_ok p : str_ok p → str_ok (strip_slash p).
Proof.
  intros Hp. unfold strip_slash. destruct (_ =? _); [|done].
  destruct p; [done|by apply Forall_inv_tail in Hp].
Qed.

Lemma fill_dirent_83 e nm attr cluster size :
  name83 nm → name83 (entry_name (fill_dirent e nm attr cluster size)).
Proof. by destruct nm. Qed.

Lemma add_directory_entry_step s junk p attr cluster d r s' :
  fs_inv s → str_ok p →
  add_directory_entry_to_dir s junk (Some p) attr cluster 0 d = (r, s') → fs_step s s'.
Proof.
  intros Hs Hp. unfold add_directory_entry_to_dir. rewrite (fi_init _ Hs). cbn [negb].
  repeat case_match; intros [= <- <-]; first [by apply fs_step_refl | apply fs_step_set];
    first [done | by apply fill_dirent_83, convert_filename_83, strip_slash_ok].
Qed.

Lemma remove_directory_entry_step s p r s' :
  fs_inv s → str_ok p → remove_directory_entry s (Some p) = (r, s') → fs_step s s'.
Proof.
  intros Hs Hp. unfold remove_directory_entry. rewrite (fi_init _ Hs). cbn [negb].
  pose proof (find_index_spec s (convert_filename p) Hs (convert_filename_83 _ Hp)) as Hf.
  destruct (find_index _ _) as [i|]; intros [= _ <-]; [|auto with fs_step].
  destruct Hf as (Hi & _). pose proof (root_entry_name s i Hs Hi) as [H8 H3].
  apply fs_step_set; [done| |by apply root_entry_size]. split; [|exact H3]. cbn in *.
  destruct (d_name (root_entry s i)); [done|exact H8].
Qed.

Lemma update_directory_entry_step s p e r s' :
  fs_inv s → name83 (entry_name e) → (sizes_zero s → d_size e = 0) →
  update_directory_entry s (Some p) e = (r, s') → fs_step s s'.
Proof.
  intros Hs He Hz. unfold update_directory_entry. rewrite (fi_init _ Hs). cbn [negb].
  destruct (find_index _ _); intros [= _ <-]; [by apply fs_step_set|by apply fs_step_refl].
Qed.

(** ** The operations *)

#[local] Arguments vga_putstr : simpl never.

Ltac step_one :=
  first [done | by apply fs_step_refl | by apply console_step_refl
        | by apply vga_putstr_step | by intros H; injection H].
Ltac step_done := first [step_one | split; [step_one|step_done]].

Lemma open_entry_step s k junk p mode r s' k' :
  fs_inv s → term_ok k → str_ok p → open_entry s k junk p mode = Some (r, (s', k')) →
  fs_step s s' ∧ console_step k k' ∧ r ≠ Err FS_SUCCESS.
Proof.
  intros Hs Hk Hp. unfold open_entry.
  destruct (find_directory_entry s (Some p)) as [e|e];
    [intros [= <- <- <-]; step_done|].
  destruct (_ =? 0); [intros [= <- <- <-]; step_done|].
  destruct (allocate_cluster s) as [[c|e1] s1] eqn:Ea;
    pose proof (allocate_cluster_step _ _ _ Hs Ea) as H1;
    [|intros [= <- <- <-]; step_done].
  destruct (add_directory_entry_to_dir s1 _ _ _ _ _ _) as [r2 s2] eqn:Ed.
  pose proof (add_directory_entry_step _ _ _ _ _ _ _ _ (proj1 H1) Hp Ed) as H2.
  assert (fs_step s s2) as H02 by (by eapply fs_step_trans).
  destruct r2 as [u|e2].
  - destruct (find_directory_entry s2 _) eqn:E2; intros [= <- <- <-]; step_done.
  - destruct (free_cluster_chain s2 c) as [[r3 s3]|] eqn:Ef; [|done]. cbn [mbind option_bind].
    intros [= <- <- <-]. split; [|step_done].
    eapply fs_step_trans; [exact H02|]. eapply free_cluster_chain_step; [apply H02|exact Ef].
Qed.

Lemma fs_open_step s k junk p mode f r f' s' k' :
  fs_inv s → term_ok k → str_ok p →
  fs_open s k junk (Some p) mode (Some f) = Some (r, (f', (s', k'))) →
  fs_step s s' ∧ console_step k k' ∧ ∃ g, f' = Some g ∧ (r = FS_SUCCESS → f_name g = p ∧ f_offset g = 0 ∧ f_valid g = true).
Proof.
  intros Hs Hk Hp. unfold fs_open. rewrite (fi_init _ Hs). cbn [negb].
  destruct (negb _).
  { intros [= <- <- <- <-]. split; [by apply fs_step_refl|]. split; [by apply console_step_refl|].
    by exists f. }
  cbn [default]. change (id p) with p.
  destruct (open_entry s k junk p mode) as [[r1 [s1 k1]]|] eqn:Eo; [|done].
  destruct (open_entry_step _ _ _ _ _ _ _ _ Hs Hk Hp Eo) as (H1 & H2 & H3). cbn [mbind option_bind].
  destruct r1 as [e|e].
  - destruct (_ && _); intros [= <- <- <- <-]; (split; [done|split; [done|]]); [by exists f|].
    eexists. split; [done|]. done.
  - intros [= <- <- <- <-]. split; [done|split; [done|]]. exists f. split; [done|]. by intros ->.
Qed.

Lemma fs_create_step s k junk p r s' k' :
  fs_inv s → term_ok k → str_ok p →
  fs_create s k junk (Some p) = Some (r, (s', k')) → fs_step s s' ∧ console_step k k'.
Proof.
  intros Hs Hk Hp. unfold fs_create.
  destruct (fs_open _ _ _ _ _ _) as [[r1 [f1 [s1 k1]]]|] eqn:Eo; [|done].
  destruct (fs_open_step _ _ _ _ _ _ _ _ _ _ Hs Hk Hp Eo) as (H1 & H2 & _).
  cbn [mbind option_bind]. case_match. by intros [= _ <- <-].
Qed.

Lemma fs_mkdir_step s junk p r s' :
  fs_inv s → str_ok p → fs_mkdir s junk (Some p) = Some (r, s') → fs_step s s'.
Proof.
  intros Hs Hp. unfold fs_mkdir. rewrite (fi_init _ Hs). cbn [negb].
  destruct (negb _); [intros [= _ <-]; step_done|].
  destruct (find_directory_entry _ _); [intros [= _ <-]; step_done|].
  destruct (allocate_cluster s) as [[c|e1] s1] eqn:Ea;
    pose proof (allocate_cluster_step _ _ _ Hs Ea) as H1; [|intros [= _ <-]; step_done].
  destruct (add_directory_entry s1 _ _ _ _ _) as [r2 s2] eqn:Ed.
  pose proof (add_directory_entry_step _ _ _ _ _ _ _ _ (proj1 H1) Hp Ed) as H2.
  assert (fs_step s s2) as H02 by (by eapply fs_step_trans).
  destruct r2 as [u|e2].
  - cbn. by intros [= _ <-].
  - destruct (free_cluster_chain s2 c) as [[r3 s3]|] eqn:Ef; [|done]. cbn [mbind option_bind].
    intros [= _ <-].
    eapply fs_step_trans; [exact H02|]. eapply free_cluster_chain_step; [apply H02|exact Ef].
Qed.

Lemma free_and_remove_step s p e r s' :
  fs_inv s → str_ok p → free_and_remove s (Some p) e = Some (r, s') → fs_step s s'.
Proof.
  intros Hs Hp. unfold free_and_remove.
  assert (∀ s1, fs_step s s1 → ∀ r0 s2, remove_directory_entry s1 (Some p) = (r0, s2) → fs_step s s2) as Hrm.
  { intros s1 H1 r0 s2 E. eapply fs_step_trans; [exact H1|].
    eapply remove_directory_entry_step; [apply H1|exact Hp|exact E]. }
  destruct (negb _).
  - destruct (free_cluster_chain s _) as [[r1 s1]|] eqn:Ef; [|done]. cbn [mbind option_bind].
    specialize (Hrm s1 (free_cluster_chain_step _ _ _ _ Hs Ef)).
    destruct (remove_directory_entry s1 _) as [[u|e1] s2] eqn:E; intros [= _ <-]; by eapply Hrm.
  - cbn [mbind option_bind]. specialize (Hrm s (fs_step_refl _ Hs)).
    destruct (remove_directory_entry s _) as [[u|e1] s2] eqn:E; intros [= _ <-]; by eapply Hrm.
Qed.

Lemma fs_delete_step s p r s' :
  fs_inv s → str_ok p → fs_delete s (Some p) = Some (r, s') → fs_step s s'.
Proof.
  intros Hs Hp. unfold fs_delete.
  repeat (case_match; [intros [= _ <-]; step_done|]).
  destruct (find_directory_entry _ _) as [e|]; [|intros [= _ <-]; step_done].
  case_match; [intros [= _ <-]; step_done|]. by apply free_and_remove_step.
Qed.

Lemma fs_rmdir_step s p r s' :
  fs_inv s → str_ok p → fs_rmdir s (Some p) = Some (r, s') → fs_step s s'.
Proof.
  intros Hs Hp. unfold fs_rmdir.
  repeat (case_match; [intros [= _ <-]; step_done|]).
  destruct (find_directory_entry _ _) as [e|]; [|intros [= _ <-]; step_done].
  case_match; [intros [= _ <-]; step_done|]. by apply free_and_remove_step.
Qed.

Lemma fs_rename_step s p q r s' :
  fs_inv s → str_ok q → fs_rename s (Some p) (Some q) = (r, s') → fs_step s s'.
Proof.
  intros Hs Hq. unfold fs_rename.
  repeat (case_match; [intros [= _ <-]; step_done|]).
  destruct (find_directory_entry _ (Some p)) as [e|] eqn:Ee; [|intros [= _ <-]; step_done].
  destruct (find_directory_entry _ (Some q)) as [e'|]; [intros [= _ <-]; step_done|].
  cbn [default]. change (id q) with q. set (e1 := _ <| d_ext := _ |>).
  assert (name83 (entry_name e1)) as He by exact (convert_filename_83 q Hq).
  assert (sizes_zero s → d_size e1 = 0) as Hz by (intros Hz; exact (found_size s p e Hz Ee)).
  destruct (update_directory_entry s (Some p) e1) as [[u|e2] s1] eqn:E; intros [= _ <-];
    by eapply update_directory_entry_step.
Qed.

(** [fs_chdir] stores the path it accepts. *)
Lemma fs_chdir_ok s p r s' :
  fs_ok s → str_ok p → Str.strlen p < FS_MAX_PATH → fs_chdir s (Some p) = (r, s') → fs_ok s'.
Proof.
  intros Hok Hp Hl. unfold fs_chdir. cbn [default]. change (id p) with p.
  assert (∀ d, str_ok d → Str.strlen d < FS_MAX_PATH → fs_ok (s <| current_directory := d |>)) as Hset.
  { intros d Hd Hd'. destruct Hok as ([? ? ?] & _ & _ & ?). by split_and!. }
  repeat case_match; intros [= _ <-]; first [done | by apply Hset | apply Hset; [by apply Forall_forall|done]
    | apply Hset; [by repeat constructor|done]].
Qed.

Lemma same_dir_trans s1 s2 s3 : same_dir s1 s2 → same_dir s2 s3 → same_dir s1 s3.
Proof. intros (? & ? & ?) (? & ? & ?). split_and!; congruence. Qed.

Lemma fs_write_step junk s m f buffer size r f' s' :
  fs_inv s → fs_write junk s m (Some f) buffer size = Some (r, (f', s')) → fs_step s s'.
Proof.
  intros Hs. unfold fs_write. destruct (_ || _); [intros [= _ _ <-]; step_done|].
  destruct (loop _ _ _) as [res|] eqn:El; [|done]. cbn [mbind option_bind].
  assert (∀ s1, same_dir s s1 → fs_step s s1) as Hd.
  { intros s1 (H1 & H2 & H3). destruct Hs as [? ? ?].
    split; [split; by rewrite ?H1, ?H2|]. split; [done|]. unfold sizes_zero. by rewrite H2. }
  assert (match res with Some (_, (_, s1)) => same_dir s s1 | None => True end) as Hres.
  { clear Hd. set (w := MkWrite _ _ _ _ _ _) in El.
    assert (same_dir s (ws_fs w)) as Hw by done. clearbody w. revert w Hw El.
    generalize (S (Z.to_nat size)) as n. induction n as [|n IH]; intros w Hw; [done|]. cbn [loop].
    assert (match write_step junk m buffer size w with
            | inl w' => same_dir s (ws_fs w')
            | inr (Some (_, (_, s1))) => same_dir s s1
            | inr None => True
            end) as Hstep.
    { unfold write_step. repeat case_match; try done.
      all: destruct (next_write_cluster_ok (ws_fs w) (ws_cluster w)) as (r0 & s0 & E & Hsd & _);
        [destruct Hw as [-> _]; apply Hs|];
        assert (same_dir s s0) by (by eapply same_dir_trans); by simplify_eq. }
    destruct (write_step _ _ _ _ w) as [w'|res']; [by apply IH|]. intros [= <-].
    destruct res' as [[? [? ?]]|]; done. }
  destruct res as [[r1 [f1 s1]]|]; [|done]. cbn [mbind option_bind]. intros [= _ _ <-]. by apply Hd.
Qed.

(** Statistics are counted without touching the directory. *)
Lemma fs_get_stats_step s r s' : fs_inv s → fs_get_stats s = (r, s') → fs_step s s'.
Proof.
  intros Hs. unfold fs_get_stats, update_fs_stats. rewrite (fi_init _ Hs). cbn [negb].
  rewrite count_sectors_ok by (done || apply Hs). rewrite count_entries_ok by (done || apply Hs).
  intros [= _ <-]. split; [|done]. by destruct Hs.
Qed.
