(* ===== verification/FsTotal.v ===== *)
(** * File system calls return

    The walks of filesystem.c follow the FAT, which may be cyclic; these lemmas say which
    calls return in every well-formed state.  Opening, creating, making a directory,
    reading and writing always do; deleting does when the clusters of the file form a
    chain ([erasable]), which the code does not ensure. *)

From S2P Require Import Prelude Ram CString Vga Fat FsNames Fs FsCorrect.
Set Default Goal Selector "!".

(** The file that the path designates has no cluster, or a chain that ends. *)
Definition erasable (s : fs) (p : list Z) : Prop :=
  ∀ e, find_directory_entry s (Some p) = Ok e →
    d_cluster e = 0 ∨ ∃ l, chain (fat_table s) (d_cluster e) l ∧ NoDup l.

Lemma add_entry_fat s junk p attr c z d r s' :
  add_directory_entry_to_dir s junk p attr c z d = (r, s') →
  fat_table s' = fat_table s ∧ initialized s' = initialized s.
Proof. unfold add_directory_entry_to_dir. repeat case_match; by intros [= _ <-]. Qed.

(** Giving back a cluster that was just allocated. *)
Lemma undo_returns s c s1 s2 :
  initialized s = true → allocate_cluster s = (Ok c, s1) → fat_table s2 = fat_table s1 →
  initialized s2 = true → ∃ r s3, free_cluster_chain s2 c = Some (r, s3).
Proof.
  intros Hi. unfold allocate_cluster. rewrite Hi.
  destruct (fs_allocate_cluster true (fat_table s)) as [r fat] eqn:Ea. intros [= -> <-] Hf H2.
  apply allocated_chain in Ea as [Hch _].
  destruct (free_cluster_chain_ok s2 [c] c H2) as (fat' & E & _);
    [by rewrite Hf|by apply NoDup_singleton|]. by eexists _, _.
Qed.

Lemma open_entry_returns s k junk p mode :
  initialized s = true → ∃ res, open_entry s k junk p mode = Some res.
Proof.
  intros Hi. unfold open_entry. destruct (find_directory_entry s (Some p)); [by eexists|].
  destruct (_ =? 0); [by eexists|].
  destruct (allocate_cluster s) as [[c|e1] s1] eqn:Ea; [|by eexists].
  assert (initialized s1 = true) as H1.
  { unfold allocate_cluster in Ea. case_match. by injection Ea as _ <-. }
  destruct (add_directory_entry_to_dir s1 _ _ _ _ _ _) as [r2 s2] eqn:Ed.
  apply add_entry_fat in Ed as [Hf Hi2]. destruct r2.
  - destruct (find_directory_entry s2 _); by eexists.
  - destruct (undo_returns s c s1 s2 Hi Ea Hf) as (r & s3 & ->); [congruence|]. by eexists.
Qed.

Lemma fs_open_returns s k junk p mode f :
  initialized s = true → ∃ r f' s' k', fs_open s k junk p mode f = Some (r, (f', (s', k'))).
Proof.
  intros Hi. unfold fs_open. destruct f as [f|]; [|by eexists _, _, _, _]. rewrite Hi. cbn [negb].
  destruct (negb _); [by eexists _, _, _, _|].
  destruct (open_entry_returns s k junk (default [] p) mode Hi) as ([r [s1 k1]] & ->).
  cbn [mbind option_bind]. destruct r as [e|e]; [destruct (_ && _)|]; by eexists _, _, _, _.
Qed.

Lemma fs_create_returns s k junk p :
  initialized s = true → ∃ r s' k', fs_create s k junk p = Some (r, (s', k')).
Proof.
  intros Hi. unfold fs_create.
  destruct (fs_open_returns s k junk p (Z.lor FS_MODE_CREATE FS_MODE_WRITE)
    (Some (MkFile 0 0 0 0 false [])) Hi) as (r & f & s' & k' & ->). cbn [mbind option_bind].
  destruct (if r =? FS_SUCCESS then _ else _). by eexists _, _, _.
Qed.

Lemma fs_mkdir_returns s junk p : initialized s = true → ∃ r s', fs_mkdir s junk p = Some (r, s').
Proof.
  intros Hi. unfold fs_mkdir. rewrite Hi. cbn [negb]. destruct (negb _); [by eexists _, _|].
  destruct (find_directory_entry _ _); [by eexists _, _|].
  destruct (allocate_cluster s) as [[c|e1] s1] eqn:Ea; [|by eexists _, _].
  assert (initialized s1 = true) as H1.
  { unfold allocate_cluster in Ea. case_match. by injection Ea as _ <-. }
  destruct (add_directory_entry s1 _ _ _ _ _) as [r2 s2] eqn:Ed.
  apply add_entry_fat in Ed as [Hf Hi2]. destruct r2; [by eexists _, _|].
  destruct (undo_returns s c s1 s2 Hi Ea Hf) as (r & s3 & ->); [congruence|]. by eexists _, _.
Qed.

Lemma free_and_remove_returns s p e :
  initialized s = true →
  d_cluster e = 0 ∨ (∃ l, chain (fat_table s) (d_cluster e) l ∧ NoDup l) →
  ∃ r s', free_and_remove s p e = Some (r, s').
Proof.
  intros Hi He. unfold free_and_remove. destruct (Z.eqb_spec (d_cluster e) 0) as [E|E]; cbn [negb].
  - cbn [mbind option_bind]. destruct (remove_directory_entry s p) as [[u|e1] s1]; by eexists _, _.
  - destruct He as [?|(l & Hl & Hn)]; [done|].
    destruct (free_cluster_chain_ok s l _ Hi Hl Hn) as (fat' & -> & _). cbn [mbind option_bind].
    destruct (remove_directory_entry _ p) as [[u|e1] s1]; by eexists _, _.
Qed.

Lemma fs_delete_returns s p : initialized s = true → erasable s p → ∃ r s', fs_delete s (Some p) = Some (r, s').
Proof.
  intros Hi He. unfold fs_delete. rewrite Hi. cbn [negb]. destruct (negb _); [by eexists _, _|].
  destruct (find_directory_entry s (Some p)) as [e|] eqn:E; [|by eexists _, _].
  destruct (is_directory e); [by eexists _, _|]. apply free_and_remove_returns; [done|by apply He].
Qed.

Lemma fs_rmdir_returns s p : initialized s = true → erasable s p → ∃ r s', fs_rmdir s (Some p) = Some (r, s').
Proof.
  intros Hi He. unfold fs_rmdir. rewrite Hi. cbn [negb]. destruct (negb _); [by eexists _, _|].
  destruct (find_directory_entry s (Some p)) as [e|] eqn:E; [|by eexists _, _].
  destruct (negb (is_directory e)); [by eexists _, _|]. apply free_and_remove_returns; [done|by apply He].
Qed.

(** Writing through any handle, well formed or not: every turn writes at least a byte. *)
Lemma write_step_returns junk m buffer n w :
  initialized (ws_fs w) = true → 0 <= ws_written w <= n →
  match write_step junk m buffer n w with
  | inl w' => (initialized (ws_fs w') = true ∧ 0 <= ws_written w' <= n) ∧
              0 <= n - ws_written w' < n - ws_written w
  | inr res => res ≠ None
  end.
Proof.
  intros Hi Hw. unfold write_step. destruct (Z.ltb_spec (ws_written w) n); [|done].
  unfold fs_read_sector, fs_write_sector. change (FS_SUCCESS =? FS_SUCCESS) with true. cbn [negb]. cbv zeta.
  set (left := FS_SECTOR_SIZE - _). set (chunk := if n - ws_written w <? left then _ else _).
  assert (0 < chunk <= n - ws_written w) as Hc.
  { assert (0 < left) by (unfold left, FS_SECTOR_SIZE; word_lia).
    unfold chunk. destruct (Z.ltb_spec (n - ws_written w) left); lia. }
  clearbody chunk. clear left.
  destruct (_ mod FS_SECTOR_SIZE =? 0); [|cbn; split; [split; [exact Hi|lia]|lia]].
  destruct (_ mod 2 =? 0); [|cbn; split; [split; [exact Hi|lia]|lia]].
  destruct (next_write_cluster_ok (ws_fs w) (ws_cluster w) Hi) as (r & s' & -> & (H1 & _) & _).
  destruct r; [|done]. cbn. split; [split; [congruence|lia]|lia].
Qed.

Lemma fs_write_returns junk s m f buffer size :
  initialized s = true → 0 <= size → ∃ r f' s', fs_write junk s m f buffer size = Some (r, (f', s')).
Proof.
  intros Hi Hs. unfold fs_write. destruct f as [f|]; [|by eexists _, _, _].
  destruct (_ || _); [by eexists _, _, _|]. set (w := MkWrite _ _ _ _ _ _).
  destruct (loop_total (write_step junk m buffer size)
    (λ w, initialized (ws_fs w) = true ∧ 0 <= ws_written w <= size) (λ res, res ≠ None)
    (λ w, size - ws_written w)) with (fuel := S (Z.to_nat size)) (s := w) as (res & -> & Hres).
  { intros w' [Hi' Hw']. apply (write_step_returns junk m buffer size w' Hi' Hw'). }
  { unfold w. cbn. split; [done|lia]. }
  { unfold w. cbn. lia. }
  { unfold w. cbn. lia. }
  destruct res as [[r [f' s']]|]; [|done]. cbn [mbind option_bind]. by eexists _, _, _.
Qed.
