(* ===== verification/Process.v ===== *)
(** * The process manager (kernel/process/process.c)

    Process control blocks live in a static pool of 64 slots; the queues are
    doubly linked lists through the blocks.  A [pcb_t *] is the index of a slot,
    [None] for NULL.  Stacks come from an allocator (Alloc.v), so the
    operations that allocate or free take and return its state; [None] as a
    whole result is a call that does not return. *)

From S2P Require Import Prelude Ram CString Vga Alloc.
Set Default Goal Selector "!".

(** ** Data *)

Definition MAX_PROCESSES : Z := 64.
Definition DEFAULT_STACK_SIZE : Z := 4096.
Definition DEFAULT_TIME_SLICE : Z := 10.
Definition PROCESS_NAME_MAX : Z := 31.

Definition PROCESS_SUCCESS : Z := 0.
Definition PROCESS_ERROR_NOT_FOUND : Z := -2.
Definition PROCESS_ERROR_NO_MEMORY : Z := -5.
Definition PROCESS_ERROR_INVALID_PARAM : Z := -6.
Definition PROCESS_ERROR_QUEUE_FULL : Z := -7.

Definition PROCESS_PRIORITY_LOW : Z := 1.
Definition PROCESS_PRIORITY_NORMAL : Z := 2.
Definition PROCESS_PRIORITY_HIGH : Z := 3.
Definition PROCESS_PRIORITY_CRITICAL : Z := 4.

Inductive process_state : Set :=
| PROCESS_STATE_NEW
| PROCESS_STATE_READY
| PROCESS_STATE_RUNNING
| PROCESS_STATE_BLOCKED
| PROCESS_STATE_TERMINATED.
#[export] Instance process_state_eq_dec : EqDecision process_state.
Proof. solve_decision. Defined.

(** The register context of a [pcb_t]. *)
Record context := MkContext {
  eax : Z; ebx : Z; ecx : Z; edx : Z;
  esi : Z; edi : Z;
  esp : Z; ebp : Z;
  eip : Z;
  eflags : Z;
  cs : Z; ds : Z; es : Z; seg_fs : Z; gs : Z; ss : Z;
}.
#[export] Instance eta_context : Eta context := λ r,
  MkContext (eax r) (ebx r) (ecx r) (edx r) (esi r) (edi r) (esp r) (ebp r) (eip r)
    (eflags r) (cs r) (ds r) (es r) (seg_fs r) (gs r) (ss r).

(** [pcb_t]; [p_name] is the string stored in [name], [p_priority] the integer
    stored in the enum. *)
Record pcb := MkPcb {
  p_pid : Z;
  p_name : list Z;
  p_state : process_state;
  p_priority : Z;
  p_context : context;
  stack_base : Z;
  stack_size : Z;
  heap_base : Z;
  heap_size : Z;
  cpu_time : Z;
  creation_time : Z;
  last_run_time : Z;
  time_slice : Z;
  remaining_slice : Z;
  p_next : option nat;
  p_prev : option nat;
  p_parent : option nat;
  p_children : option nat;
  p_sibling : option nat;
  exit_code : Z;
  open_files : list Z;
  file_count : Z;
}.
#[export] Instance eta_pcb : Eta pcb := λ r,
  MkPcb (p_pid r) (p_name r) (p_state r) (p_priority r) (p_context r) (stack_base r)
    (stack_size r) (heap_base r) (heap_size r) (cpu_time r) (creation_time r)
    (last_run_time r) (time_slice r) (remaining_slice r) (p_next r) (p_prev r)
    (p_parent r) (p_children r) (p_sibling r) (exit_code r) (open_files r) (file_count r).

(** A block of zero bytes. *)
Definition pcb_zero : pcb :=
  MkPcb 0 [] PROCESS_STATE_NEW 0 (MkContext 0 0 0 0 0 0 0 0 0 0 0 0 0 0 0 0) 0 0 0 0 0 0 0 0 0
    None None None None None 0 (replicate 16 0) 0.

(** [process_pool], [process_pool_used] and [g_process_manager]. *)
Record procs := MkProcs {
  pool : list pcb;
  pool_used : list bool;
  running_process : option nat;
  ready_queue : option nat;
  blocked_queue : option nat;
  terminated_queue : option nat;
  next_pid : Z;
  process_count : Z;
  max_processes : Z;
  time_slice_quantum : Z;
  current_tick : Z;
  scheduler_ticks : Z;
}.
#[export] Instance eta_procs : Eta procs := λ r,
  MkProcs (pool r) (pool_used r) (running_process r) (ready_queue r) (blocked_queue r)
    (terminated_queue r) (next_pid r) (process_count r) (max_processes r)
    (time_slice_quantum r) (current_tick r) (scheduler_ticks r).

(** [*p] and [p->field = v]. *)
Definition pcb_at (s : procs) (p : nat) : pcb := nth p (pool s) pcb_zero.
Definition set_pcb (s : procs) (p : nat) (f : pcb → pcb) : procs :=
  s <| pool := alter f p (pool s) |>.
Definition set_next (s : procs) (p : nat) (v : option nat) : procs :=
  set_pcb s p (λ b, b <| p_next := v |>).
Definition set_prev (s : procs) (p : nat) (v : option nat) : procs :=
  set_pcb s p (λ b, b <| p_prev := v |>).
Definition set_state (s : procs) (p : nat) (v : process_state) : procs :=
  set_pcb s p (λ b, b <| p_state := v |>).

(** The three queue heads, passed by address in the source. *)
Inductive queue : Set := READY | BLOCKED | TERMINATED.
Definition queue_head (s : procs) (q : queue) : option nat :=
  match q with
  | READY => ready_queue s
  | BLOCKED => blocked_queue s
  | TERMINATED => terminated_queue s
  end.
Definition set_queue (s : procs) (q : queue) (v : option nat) : procs :=
  match q with
  | READY => s <| ready_queue := v |>
  | BLOCKED => s <| blocked_queue := v |>
  | TERMINATED => s <| terminated_queue := v |>
  end.

(** ** The pool *)

Definition allocate_pcb (s : procs) : option nat * procs :=
  match for_first (Z.to_nat MAX_PROCESSES) 0 (λ i,
          if negb (nth (Z.to_nat i) (pool_used s) true) then Some (Z.to_nat i) else None) with
  | Some i =>
      let s := s <| pool_used := <[i := true]> (pool_used s) |> in
      let s := s <| pool := <[i := pcb_zero]> (pool s) |> in
      (Some i, s)
  | None => (None, s)
  end.

Definition deallocate_pcb (s : procs) (p : option nat) : procs :=
  match p with
  | None => s
  | Some i => s <| pool_used := <[i := false]> (pool_used s) |>
  end.

(** ** Queues *)

Definition add_to_queue (s : procs) (q : queue) (process : option nat) : procs :=
  match process with
  | None => s
  | Some p =>
      let s := set_next s p (queue_head s q) in
      let s := match queue_head s q with Some h => set_prev s h (Some p) | None => s end in
      let s := set_prev s p None in
      set_queue s q (Some p)
  end.

Definition remove_from_queue (s : procs) (q : queue) (process : option nat) : procs :=
  match process with
  | None => s
  | Some p =>
      let s := match p_prev (pcb_at s p) with
               | Some pv => set_next s pv (p_next (pcb_at s p))
               | None => set_queue s q (p_next (pcb_at s p))
               end in
      let s := match p_next (pcb_at s p) with
               | Some nx => set_prev s nx (p_prev (pcb_at s p))
               | None => s
               end in
      let s := set_next s p None in
      set_prev s p None
  end.

Definition find_pid_step (s : procs) (pid : Z) (current : option nat) : option nat + option nat :=
  match current with
  | None => inr None
  | Some i => if p_pid (pcb_at s i) =? pid then inr (Some i) else inl (p_next (pcb_at s i))
  end.

(** A queue without a cycle has at most 64 elements, and its end takes one more turn. *)
Definition queue_fuel : nat := 65.

Definition find_process_in_queue (s : procs) (q : option nat) (pid : Z) : option (option nat) :=
  loop queue_fuel (find_pid_step s pid) q.

(** The result is NULL or a slot. *)
Definition process_get_by_pid (s : procs) (pid : Z) : option (option nat) :=
  match match running_process s with
        | Some r => if p_pid (pcb_at s r) =? pid then Some r else None
        | None => None
        end with
  | Some r => Some (Some r)
  | None =>
      process ← find_process_in_queue s (ready_queue s) pid;
      match process with
      | Some _ => Some process
      | None =>
          process ← find_process_in_queue s (blocked_queue s) pid;
          match process with
          | Some _ => Some process
          | None =>
              process ← find_process_in_queue s (terminated_queue s) pid;
              match process with
              | Some _ => Some process
              | None => Some None
              end
          end
      end
  end.

Definition process_get_current (s : procs) : option nat := running_process s.

(** ** Initialisation *)

Definition process_manager_init : Z * procs :=
  let s := MkProcs (replicate (Z.to_nat MAX_PROCESSES) pcb_zero)
             (replicate (Z.to_nat MAX_PROCESSES) false)
             None None None None 0 0 0 0 0 0 in
  let s := s <| next_pid := 1 |> <| max_processes := MAX_PROCESSES |>
             <| time_slice_quantum := DEFAULT_TIME_SLICE |> <| current_tick := 0 |>
             <| scheduler_ticks := 0 |> in
  let '(idle_process, s) := allocate_pcb s in
  match idle_process with
  | None => (PROCESS_ERROR_NO_MEMORY, s)
  | Some i =>
      let s := set_pcb s i (λ b,
        b <| p_pid := 0 |> <| p_name := lit "idle" |> <| p_state := PROCESS_STATE_RUNNING |>
          <| p_priority := PROCESS_PRIORITY_LOW |> <| time_slice := 0 |>
          <| remaining_slice := 0 |>) in
      (PROCESS_SUCCESS, s <| running_process := Some i |> <| process_count := 1 |>)
  end.

(** ** Creation and termination *)

Section allocator.
(** The heap, and the address the linker gives [process_terminate]. *)
Context {H : Type} `{!Allocator H} (process_terminate_addr : Z).

Definition setup_process_stack (s : procs) (h : H) (process : option nat) (entry_point : Z) :
    option (procs * H) :=
  match process with
  | None => Some (s, h)
  | Some p =>
      if entry_point =? 0 then Some (s, h)
      else
        let s := set_pcb s p (λ b, b <| stack_size := DEFAULT_STACK_SIZE |>) in
        '(base, h) ← malloc h (stack_size (pcb_at s p));
        let s := set_pcb s p (λ b, b <| stack_base := base |>) in
        if base =? 0 then Some (s, h)
        else
          let sp := base +w stack_size (pcb_at s p) -w 16 in
          let s := set_pcb s p (λ b, b <| p_context :=
            p_context b <| esp := sp |> <| ebp := sp |> <| eip := entry_point |>
              <| cs := 0x08 |> <| ds := 0x10 |> <| es := 0x10 |> <| seg_fs := 0x10 |>
              <| gs := 0x10 |> <| ss := 0x10 |> <| eflags := 0x202 |> |>) in
          let h := poke32 h sp 0 in
          let h := poke32 h (sp + 4) process_terminate_addr in
          let h := poke32 h (sp + 8) (p_pid (pcb_at s p)) in
          Some (s, h)
  end.

(** The fields [process_create] assigns before it sets the stack up. *)
Definition init_pcb (s : procs) (name : list Z) (priority : Z) (b : pcb) : pcb :=
  b <| p_pid := next_pid s |>
    <| p_name := take (Z.to_nat PROCESS_NAME_MAX) name |>
    <| p_state := PROCESS_STATE_NEW |> <| p_priority := priority |>
    <| time_slice := time_slice_quantum s |> <| remaining_slice := time_slice_quantum s |>
    <| creation_time := current_tick s |> <| last_run_time := 0 |> <| cpu_time := 0 |>
    <| exit_code := 0 |> <| file_count := 0 |>.

Definition process_create (s : procs) (h : H) (name : option (list Z)) (entry_point priority : Z) :
    option (Z * (procs * H)) :=
  match name with
  | None => Some (PROCESS_ERROR_INVALID_PARAM, (s, h))
  | Some name =>
      if entry_point =? 0 then Some (PROCESS_ERROR_INVALID_PARAM, (s, h))
      else if max_processes s <=? process_count s then Some (PROCESS_ERROR_QUEUE_FULL, (s, h))
      else
        match allocate_pcb s with
        | (None, s) => Some (PROCESS_ERROR_NO_MEMORY, (s, h))
        | (Some p, s) =>
            let s := set_pcb s p (init_pcb s name priority) in
            let s := s <| next_pid := next_pid s +w 1 |> in
            '(s, h) ← setup_process_stack s h (Some p) entry_point;
            let s := set_state s p PROCESS_STATE_READY in
            let s := add_to_queue s READY (Some p) in
            let s := s <| process_count := process_count s +w 1 |> in
            Some (s32 (p_pid (pcb_at s p)), (s, h))
        end
  end.

(** ** Scheduling *)

(** Saving and restoring registers is left to assembly code that is not there. *)
Definition process_save_context (s : procs) (p : nat) : procs := s.
Definition process_restore_context (s : procs) (p : nat) : procs := s.

Definition process_switch (s : procs) (new_process : option nat) : procs :=
  match new_process with
  | None => s
  | Some n =>
      let s := match running_process s with
               | Some o => if decide (p_state (pcb_at s o) = PROCESS_STATE_RUNNING)
                           then process_save_context s o else s
               | None => s
               end in
      let s := s <| running_process := Some n |> in
      let s := set_state s n PROCESS_STATE_RUNNING in
      let s := set_pcb s n (λ b, b <| remaining_slice := time_slice b |>) in
      let s := set_pcb s n (λ b, b <| last_run_time := current_tick s |>) in
      process_restore_context s n
  end.

Definition schedule_next_process (s : procs) : option procs :=
  let '(next_process, s) :=
    match ready_queue s with
    | Some r => (Some r, remove_from_queue s READY (Some r))
    | None => (None, s)
    end in
  next_process ← match next_process with
                 | Some _ => Some next_process
                 | None => process_get_by_pid s 0
                 end;
  match next_process with
  | Some _ => Some (process_switch s next_process)
  | None => Some s
  end.

Definition process_scheduler (s : procs) : option procs :=
  let s := s <| scheduler_ticks := scheduler_ticks s +w 1 |> in
  match running_process s with
  | Some r =>
      if remaining_slice (pcb_at s r) <=? 0 then
        let s := if decide (p_state (pcb_at s r) = PROCESS_STATE_RUNNING)
                 then add_to_queue (set_state s r PROCESS_STATE_READY) READY (Some r)
                 else s in
        schedule_next_process s
      else Some s
  | None => Some s
  end.

Definition process_yield (s : procs) : option procs :=
  match running_process s with
  | Some r => process_scheduler (set_pcb s r (λ b, b <| remaining_slice := 0 |>))
  | None => Some s
  end.

Definition process_terminate (s : procs) (h : H) (pid : Z) : option (Z * (procs * H)) :=
  process ← process_get_by_pid s pid;
  match process with
  | None => Some (PROCESS_ERROR_NOT_FOUND, (s, h))
  | Some p =>
      let s := if decide (Some p = running_process s)
               then s <| running_process := None |>
               else
                 let s := remove_from_queue s READY (Some p) in
                 remove_from_queue s BLOCKED (Some p) in
      let s := set_state s p PROCESS_STATE_TERMINATED in
      let s := add_to_queue s TERMINATED (Some p) in
      h ← (if negb (stack_base (pcb_at s p) =? 0)
           then mfree h (stack_base (pcb_at s p)) else Some h);
      h ← (if negb (heap_base (pcb_at s p) =? 0)
           then mfree h (heap_base (pcb_at s p)) else Some h);
      let s := deallocate_pcb s (Some p) in
      let s := s <| process_count := process_count s -w 1 |> in
      s ← (if decide (Some p = running_process s) then schedule_next_process s else Some s);
      Some (PROCESS_SUCCESS, (s, h))
  end.

Definition process_kill (s : procs) (h : H) (pid : Z) : option (Z * (procs * H)) :=
  process_terminate s h pid.
End allocator.

(** ** Queries *)

(** [info] is assumed non-NULL: the block copied into it. *)
Definition process_get_info (s : procs) (pid : Z) : option (Z * option pcb) :=
  process ← process_get_by_pid s pid;
  match process with
  | None => Some (PROCESS_ERROR_NOT_FOUND, None)
  | Some p => Some (PROCESS_SUCCESS, Some (pcb_at s p))
  end.

Definition process_set_priority (s : procs) (pid priority : Z) : option (Z * procs) :=
  process ← process_get_by_pid s pid;
  match process with
  | None => Some (PROCESS_ERROR_NOT_FOUND, s)
  | Some p => Some (PROCESS_SUCCESS, set_pcb s p (λ b, b <| p_priority := priority |>))
  end.

(** The loops of [process_get_list]: at most [room] blocks from [current] on. *)
Fixpoint list_queue (room : nat) (s : procs) (current : option nat) : list pcb :=
  match room, current with
  | S room', Some i => pcb_at s i :: list_queue room' s (p_next (pcb_at s i))
  | _, _ => []
  end.

(** What is stored in [processes] and [count], assumed non-NULL. *)
Definition process_get_list (s : procs) (max_count : Z) : list pcb :=
  let room := Z.to_nat max_count in
  let l := match running_process s with
           | Some r => if 0 <? max_count then [pcb_at s r] else []
           | None => []
           end in
  let l := l ++ list_queue (room - length l) s (ready_queue s) in
  l ++ list_queue (room - length l) s (blocked_queue s).

Definition process_state_to_string (state : process_state) : list Z :=
  match state with
  | PROCESS_STATE_NEW => lit "NEW"
  | PROCESS_STATE_READY => lit "READY"
  | PROCESS_STATE_RUNNING => lit "RUNNING"
  | PROCESS_STATE_BLOCKED => lit "BLOCKED"
  | PROCESS_STATE_TERMINATED => lit "TERMINATED"
  end.

Definition process_priority_to_string (priority : Z) : list Z :=
  match priority with
  | 1 => lit "LOW"
  | 2 => lit "NORMAL"
  | 3 => lit "HIGH"
  | 4 => lit "CRITICAL"
  | _ => lit "UNKNOWN"
  end.

Definition process_print_info (b : pcb) (k : machine) : machine :=
  let k := vga_putstr k (lit "PID: ") in
  let k := vga_puthex k (p_pid b) in
  let k := vga_putstr k (lit " | Name: ") in
  let k := vga_putstr k (p_name b) in
  let k := vga_putstr k (lit " | State: ") in
  let k := vga_putstr k (process_state_to_string (p_state b)) in
  let k := vga_putstr k (lit " | Priority: ") in
  let k := vga_putstr k (process_priority_to_string (p_priority b)) in
  let k := vga_putstr k (lit " | CPU Time: ") in
  let k := vga_puthex k (cpu_time b) in
  vga_putstr k [10].
