(* ===== verification/ProcessCorrect.v ===== *)
(** * Correctness of the process manager

    The queues as lists of slots (doubly linked list segments through the pool),
    the invariant of the manager, and what each operation does to it.  Proved
    against the allocator interface of Alloc.v. *)

From S2P Require Import Prelude Ram CString Vga Memory Heap HeapCorrect Alloc Process.
Set Default Goal Selector "!".

(** ** The pool as a map *)

Definition pool_at (pl : list pcb) (i : nat) : pcb := nth i pl pcb_zero.

Lemma pool_at_alter f i j pl :
  (i < length pl)%nat → pool_at (alter f i pl) j = if decide (j = i) then f (pool_at pl i) else pool_at pl j.
Proof.
  intros Hi. unfold pool_at. rewrite !nth_lookup. case_decide as E.
  - subst j. rewrite list_lookup_alter_eq. by destruct (lookup_lt_is_Some_2 pl i Hi) as [b ->].
  - by rewrite list_lookup_alter_ne.
Qed.

Lemma pool_at_insert b i j pl :
  (i < length pl)%nat → pool_at (<[i := b]> pl) j = if decide (j = i) then b else pool_at pl j.
Proof.
  intros Hi. unfold pool_at. rewrite !nth_lookup. case_decide as E.
  - subst j. by rewrite list_lookup_insert_eq.
  - by rewrite list_lookup_insert_ne.
Qed.

(** Two blocks that differ at most in their queue links. *)
Definition same_data (b b' : pcb) : Prop :=
  b' = b <| p_next := p_next b' |> <| p_prev := p_prev b' |>.

Lemma same_data_refl b : same_data b b.
Proof. by destruct b. Qed.
Lemma same_data_trans b1 b2 b3 : same_data b1 b2 → same_data b2 b3 → same_data b1 b3.
Proof. unfold same_data. destruct b1, b2, b3. cbn. intros [=] [=]. by subst. Qed.
Lemma same_data_next b v : same_data b (b <| p_next := v |>).
Proof. by destruct b. Qed.
Lemma same_data_prev b v : same_data b (b <| p_prev := v |>).
Proof. by destruct b. Qed.

(** The links of the slots in [D] may have changed, nothing else. *)
Definition relinked (pl : list pcb) (D : list nat) (pl' : list pcb) : Prop :=
  length pl' = length pl ∧
  (∀ i, i ∉ D → pool_at pl' i = pool_at pl i) ∧ ∀ i, same_data (pool_at pl i) (pool_at pl' i).

Lemma relinked_refl pl D : relinked pl D pl.
Proof. split; [done|]. split; [done|]. intros i. apply same_data_refl. Qed.

Lemma relinked_trans pl1 pl2 pl3 D :
  relinked pl1 D pl2 → relinked pl2 D pl3 → relinked pl1 D pl3.
Proof.
  intros (H1 & H2 & H3) (H4 & H5 & H6). split; [congruence|]. split.
  - intros i Hi. by rewrite H5, H2.
  - intros i. by eapply same_data_trans.
Qed.

Lemma relinked_mono pl pl' (D D' : list nat) :
  relinked pl D pl' → (∀ i, i ∈ D → i ∈ D') → relinked pl D' pl'.
Proof. intros (H1 & H2 & H3) HD. split; [done|]. split; [|done]. intros i Hi. apply H2. naive_solver. Qed.

Lemma relinked_alter pl i f :
  (∀ b, same_data b (f b)) → relinked pl [i] (alter f i pl).
Proof.
  intros Hf. split; [apply length_alter|].
  destruct (decide (i < length pl)%nat) as [Hi|Hi].
  - split; intros j; [intros Hj%not_elem_of_cons|]; rewrite pool_at_alter by done;
      case_decide; subst; [by destruct Hj|done|apply Hf|apply same_data_refl].
  - assert (alter f i pl = pl) as ->; [|by destruct (relinked_refl pl [i]) as (_ & ? & ?)].
    apply list_eq. intros j. destruct (decide (j = i)) as [->|].
    + rewrite list_lookup_alter_eq, (lookup_ge_None_2 pl i) by lia. done.
    + by rewrite list_lookup_alter_ne.
Qed.

Lemma relinked_alter_in pl (D : list nat) i f :
  i ∈ D → (∀ b, same_data b (f b)) → relinked pl D (alter f i pl).
Proof.
  intros Hi Hf. eapply relinked_mono; [by apply relinked_alter|]. by intros j ->%list_elem_of_singleton.
Qed.
Lemma relinked_set_next pl (D : list nat) i v : i ∈ D → relinked pl D (alter (λ b, b <| p_next := v |>) i pl).
Proof. intros Hi. apply relinked_alter_in; [done|]. intros b. apply same_data_next. Qed.
Lemma relinked_set_prev pl (D : list nat) i v : i ∈ D → relinked pl D (alter (λ b, b <| p_prev := v |>) i pl).
Proof. intros Hi. apply relinked_alter_in; [done|]. intros b. apply same_data_prev. Qed.

(** ** Doubly linked segments *)

(** The slots [l] from the pointer [h] on: [prev] is the block before the first,
    [last] the last block ([prev] if there is none), [nxt] what follows it. *)
Fixpoint dseg (pl : list pcb) (prev h : option nat) (l : list nat) (last nxt : option nat) : Prop :=
  match l with
  | [] => h = nxt ∧ last = prev
  | i :: l' => h = Some i ∧ (i < length pl)%nat ∧ p_prev (pool_at pl i) = prev ∧
               dseg pl (Some i) (p_next (pool_at pl i)) l' last nxt
  end.

(** A whole queue. *)
Definition dll (pl : list pcb) (h : option nat) (l : list nat) : Prop :=
  ∃ last, dseg pl None h l last None.

(** A segment depends on the links of its slots only. *)
Lemma dseg_links pl pl' prev h l last nxt :
  length pl' = length pl →
  (∀ i, i ∈ l → p_next (pool_at pl' i) = p_next (pool_at pl i) ∧
                p_prev (pool_at pl' i) = p_prev (pool_at pl i)) →
  dseg pl prev h l last nxt → dseg pl' prev h l last nxt.
Proof.
  intros Hlen. revert prev h. induction l as [|i l IH]; intros prev h Hl; simpl; [done|].
  intros (-> & Hi & Hp & Hs). destruct (Hl i) as [-> ->]; [by left|]. split_and!; [done|lia|done|].
  apply IH; [|done]. intros j Hj. apply Hl. by right.
Qed.

Lemma dseg_frame pl pl' prev h l last nxt :
  length pl' = length pl → (∀ i, i ∈ l → pool_at pl' i = pool_at pl i) →
  dseg pl prev h l last nxt → dseg pl' prev h l last nxt.
Proof. intros Hlen Hl. apply dseg_links; [done|]. intros i Hi. by rewrite Hl. Qed.

Lemma dseg_app pl prev h l1 l2 last nxt :
  dseg pl prev h (l1 ++ l2) last nxt ↔
  ∃ mid mlast, dseg pl prev h l1 mlast mid ∧ dseg pl mlast mid l2 last nxt.
Proof.
  revert prev h. induction l1 as [|i l1 IH]; intros prev h; simpl.
  - split; [intros H; by exists h, prev|]. by intros (mid & mlast & [-> ->] & H).
  - rewrite IH. naive_solver.
Qed.

Lemma dseg_head pl prev h l last : dseg pl prev h l last None → h = head l.
Proof. destruct l; simpl; naive_solver. Qed.

(** Re-pointing what follows the last block. *)
Lemma dseg_set_next pl prev h l i nxt nxt' :
  NoDup (l ++ [i]) → dseg pl prev h (l ++ [i]) (Some i) nxt →
  dseg (alter (λ b, b <| p_next := nxt' |>) i pl) prev h (l ++ [i]) (Some i) nxt'.
Proof.
  intros Hnd H. apply dseg_app in H as (mid & mlast & H1 & H2). simpl in H2.
  destruct H2 as (-> & Hi & Hp & _). apply dseg_app. exists (Some i), mlast. split.
  - eapply dseg_frame; [apply length_alter| |exact H1]. intros j Hj.
    rewrite pool_at_alter by done. rewrite decide_False; [done|]. intros ->.
    apply NoDup_app in Hnd as (_ & Hnd & _). apply (Hnd i Hj). by left.
  - simpl. rewrite length_alter, pool_at_alter, decide_True by done. done.
Qed.

(** Re-pointing what precedes the first block. *)
Lemma dseg_set_prev pl prev prev' i l last nxt h :
  NoDup (i :: l) → dseg pl prev h (i :: l) last nxt →
  dseg (alter (λ b, b <| p_prev := prev' |>) i pl) prev' h (i :: l) last nxt.
Proof.
  intros Hnd (-> & Hi & Hp & H). inversion_clear Hnd as [|? ? Hnin _]. simpl.
  rewrite length_alter, pool_at_alter, decide_True by done. split_and!; try done.
  eapply dseg_frame; [apply length_alter| |exact H]. intros j Hj.
  rewrite pool_at_alter by done. rewrite decide_False; [done|]. by intros ->.
Qed.

Lemma dseg_slots pl prev h l last nxt : dseg pl prev h l last nxt → Forall (λ i, (i < length pl)%nat) l.
Proof.
  revert prev h. induction l as [|i l IH]; intros prev h; simpl; [constructor|].
  intros (_ & Hi & _ & H). constructor; [done|by eapply IH].
Qed.

(** ** The queue operations *)

(** Only the pool differs. *)
Definition with_pool (s : procs) (pl : list pcb) : procs := s <| pool := pl |>.

Lemma with_pool_id s : with_pool s (pool s) = s.
Proof. by destruct s. Qed.

Lemma add_to_queue_ok s q p l :
  dll (pool s) (queue_head s q) l → NoDup l → (p ∉ l) → (p < length (pool s))%nat →
  ∃ pl, add_to_queue s q (Some p) = set_queue (with_pool s pl) q (Some p) ∧
    relinked (pool s) (p :: l) pl ∧ dll pl (Some p) (p :: l).
Proof.
  intros [last Hl] Hnd Hp Hlt. unfold add_to_queue.
  set (pl1 := alter (λ b, b <| p_next := queue_head s q |>) p (pool s)).
  change (set_next s p (queue_head s q)) with (with_pool s pl1).
  assert (length pl1 = length (pool s)) as Hlen1 by apply length_alter.
  assert (relinked (pool s) (p :: l) pl1) as Hr1 by (apply relinked_set_next; by left).
  assert (queue_head (with_pool s pl1) q = queue_head s q) as -> by (by destruct q).
  assert (dseg pl1 None (queue_head s q) l last None) as Hl1.
  { eapply dseg_frame; [apply length_alter| |exact Hl]. intros i Hi.
    unfold pl1. rewrite pool_at_alter, decide_False by (done || by intros ->). done. }
  destruct l as [|h l].
  - destruct Hl1 as [Hh ->]. rewrite Hh in *.
    set (pl2 := alter (λ b, b <| p_prev := None |>) p pl1).
    exists pl2. split; [done|]. split.
    + eapply relinked_trans; [exact Hr1|]. apply relinked_set_prev. by left.
    + exists (Some p). simpl. unfold pl2. rewrite length_alter, pool_at_alter, decide_True by (done || lia).
      unfold pl1. rewrite pool_at_alter, decide_True by done. split_and!; try done. by rewrite length_alter.
  - pose proof Hl1 as (Hh & _). rewrite Hh in *.
    set (pl2 := alter (λ b, b <| p_prev := Some p |>) h pl1).
    set (pl3 := alter (λ b, b <| p_prev := None |>) p pl2).
    exists pl3. split; [done|]. split.
    + eapply relinked_trans; [exact Hr1|].
      eapply relinked_trans; apply relinked_set_prev; [right; by left|by left].
    + pose proof (dseg_set_prev _ _ (Some p) _ _ _ _ _ Hnd Hl1) as Hl2. change (alter _ h pl1) with pl2 in Hl2.
      assert (length pl2 = length (pool s)) as Hlen2 by (unfold pl2, pl1; by rewrite !length_alter).
      assert (p ≠ h) as Hne by (intros ->; apply Hp; by left).
      exists last. change (p :: h :: l) with ([p] ++ h :: l). apply dseg_app.
      exists (Some h), (Some p). split.
      * simpl. unfold pl3. rewrite length_alter, pool_at_alter, decide_True by (done || lia).
        split_and!; [done|lia|done| |done]. simpl. unfold pl2.
        destruct Hl1 as (_ & Hh1 & _). rewrite pool_at_alter, decide_False by done.
        unfold pl1. by rewrite pool_at_alter, decide_True.
      * eapply dseg_frame; [apply length_alter| |exact Hl2]. intros i Hi.
        unfold pl3. rewrite pool_at_alter, decide_False; [done|by intros ->|lia].
Qed.

(** Both links of a slot outside the segment. *)
Lemma dseg_clear pl prev h l last nxt p f :
  (p < length pl)%nat → (p ∉ l) → dseg pl prev h l last nxt → dseg (alter f p pl) prev h l last nxt.
Proof.
  intros Hp Hnin. apply dseg_frame; [apply length_alter|]. intros i Hi.
  rewrite pool_at_alter, decide_False; [done|by intros ->|done].
Qed.

(** Unlinking the left neighbour of [p], if any. *)
Lemma unlink_left pl h l1 lastp p nxt :
  NoDup l1 → (p ∉ l1) → dseg pl None h l1 lastp (Some p) →
  ∃ pl' h', match lastp with
            | Some pv => pl' = alter (λ b, b <| p_next := nxt |>) pv pl ∧ h' = h
            | None => pl' = pl ∧ h' = nxt
            end ∧
    relinked pl l1 pl' ∧ dseg pl' None h' l1 lastp nxt.
Proof.
  intros Hnd Hp H. destruct l1 as [|x l1 _] using rev_ind.
  - destruct H as [-> ->]. exists pl, nxt. split; [done|]. split; [apply relinked_refl|done].
  - assert (lastp = Some x) as ->.
    { apply dseg_app in H as (mid & ml & _ & Hx). simpl in Hx. by destruct Hx as (_ & _ & _ & _ & ->). }
    exists (alter (λ b, b <| p_next := nxt |>) x pl), h. split; [done|]. split.
    + apply relinked_set_next. apply elem_of_app. right. by left.
    + by eapply dseg_set_next.
Qed.

Lemma unlink_right pl prev p n l2 last :
  NoDup l2 → dseg pl (Some p) n l2 last None →
  ∃ pl' last', match n with
               | Some nx => pl' = alter (λ b, b <| p_prev := prev |>) nx pl
               | None => pl' = pl
               end ∧
    relinked pl l2 pl' ∧ dseg pl' prev n l2 last' None.
Proof.
  intros Hnd H. destruct l2 as [|x l2].
  - destruct H as [-> ->]. exists pl, prev. split; [done|]. split; [apply relinked_refl|done].
  - pose proof H as (-> & _). exists (alter (λ b, b <| p_prev := prev |>) x pl), last.
    split; [done|]. split; [apply relinked_set_prev; by left|]. by eapply dseg_set_prev.
Qed.

Lemma remove_from_queue_ok s q p l1 l2 :
  dll (pool s) (queue_head s q) (l1 ++ p :: l2) → NoDup (l1 ++ p :: l2) →
  ∃ pl, remove_from_queue s q (Some p) = set_queue (with_pool s pl) q (head (l1 ++ l2)) ∧
    relinked (pool s) (l1 ++ p :: l2) pl ∧ dll pl (head (l1 ++ l2)) (l1 ++ l2) ∧
    p_next (pool_at pl p) = None ∧ p_prev (pool_at pl p) = None.
Proof.
  intros [last Hl] Hnd.
  apply dseg_app in Hl as (mid & lastp & H1 & H2). simpl in H2. destruct H2 as (-> & Hp & Hprev & H2).
  apply NoDup_app in Hnd as (Hnd1 & Hdis & Hnd2). inversion_clear Hnd2 as [|? ? Hp2 Hnd2'].
  assert (p ∉ l1) as Hp1 by (intros Hin; apply (Hdis p Hin); by left).
  set (n := p_next (pool_at (pool s) p)) in *.
  destruct (unlink_left (pool s) (queue_head s q) l1 lastp p n Hnd1 Hp1 H1) as (pl1 & h1 & Hpl1 & Hr1 & Hs1).
  assert (pool_at pl1 p = pool_at (pool s) p) as Hat1 by (by apply Hr1).
  assert (dseg pl1 (Some p) n l2 last None) as H2'.
  { eapply dseg_frame; [apply Hr1| |exact H2]. intros i Hi. apply Hr1. intros Hi1.
    apply (Hdis i Hi1). by right. }
  destruct (unlink_right pl1 lastp p n l2 last Hnd2' H2') as (pl2 & last2 & Hpl2 & Hr2 & Hs2).
  assert (dseg pl2 None h1 l1 lastp n) as Hs1'.
  { eapply dseg_frame; [apply Hr2| |exact Hs1]. intros i Hi. apply Hr2. intros Hi2.
    apply (Hdis i Hi). by right. }
  assert (pool_at pl2 p = pool_at (pool s) p) as Hat2 by (rewrite <- Hat1; by apply Hr2).
  set (pl3 := alter (λ b, b <| p_next := None |>) p pl2).
  set (pl4 := alter (λ b, b <| p_prev := None |>) p pl3).
  assert (length pl2 = length (pool s)) as Hlen2 by (destruct Hr1, Hr2; congruence).
  assert (length pl3 = length (pool s)) as Hlen3 by (unfold pl3; rewrite length_alter; done).
  assert (p ∉ l1 ++ l2) as Hp12 by (rewrite elem_of_app; tauto).
  assert (dll pl4 h1 (l1 ++ l2)) as Hdll.
  { exists last2. unfold pl4, pl3. apply dseg_clear; [rewrite length_alter; lia|done|].
    apply dseg_clear; [lia|done|]. apply dseg_app. by exists n, lastp. }
  assert (h1 = head (l1 ++ l2)) as Hh1 by (destruct Hdll as [? Hd]; by apply dseg_head in Hd).
  exists pl4. split_and!.
  - unfold remove_from_queue. change (pcb_at s p) with (pool_at (pool s) p). rewrite Hprev.
    change (p_next (pool_at (pool s) p)) with n. rewrite <- Hh1.
    assert (match lastp with Some pv => set_next s pv n | None => set_queue s q n end
            = set_queue (with_pool s pl1) q h1) as ->.
    { destruct lastp; destruct Hpl1 as [-> ->]; [|by rewrite with_pool_id]. by destruct q, s. }
    change (pcb_at (set_queue (with_pool s pl1) q h1) p) with
      (pool_at (pool (set_queue (with_pool s pl1) q h1)) p).
    assert (pool (set_queue (with_pool s pl1) q h1) = pl1) as -> by (by destruct q).
    rewrite Hat1, Hprev. change (p_next (pool_at (pool s) p)) with n.
    assert (match n with Some nx => set_prev (set_queue (with_pool s pl1) q h1) nx lastp
            | None => set_queue (with_pool s pl1) q h1 end = set_queue (with_pool s pl2) q h1) as ->.
    { destruct n; rewrite Hpl2; [by destruct q|done]. }
    by destruct q.
  - eapply relinked_trans; [eapply relinked_mono; [exact Hr1|intros i Hi; apply elem_of_app; by left]|].
    eapply relinked_trans; [eapply relinked_mono; [exact Hr2|intros i Hi; apply elem_of_app; right; by right]|].
    assert (p ∈ l1 ++ p :: l2) as Hin by (apply elem_of_app; right; by left).
    eapply relinked_trans; [by apply relinked_set_next|by apply relinked_set_prev].
  - by rewrite <- Hh1.
  - unfold pl4, pl3. rewrite pool_at_alter, decide_True, pool_at_alter, decide_True by (done || lia || rewrite length_alter; lia). done.
  - unfold pl4. rewrite pool_at_alter, decide_True by (done || lia). done.
Qed.

(** ** The invariant of the manager *)

(** The slots of the processes that are neither free nor terminated. *)
Definition live (s : procs) (ready : list nat) : list nat :=
  match running_process s with Some r => r :: ready | None => ready end.

Definition slot_used (s : procs) (i : nat) : bool := nth i (pool_used s) true.

(** [ready] and [term] are the slots in the ready and terminated queues. *)
Record pm_inv (s : procs) (ready term : list nat) : Prop := {
  pi_len : length (pool s) = 64%nat;
  pi_used_len : length (pool_used s) = 64%nat;
  pi_ready : dll (pool s) (ready_queue s) ready;
  pi_blocked : blocked_queue s = None;
  pi_term : dll (pool s) (terminated_queue s) term;
  pi_nodup : NoDup (live s ready ++ term);
  pi_running : ∀ r, running_process s = Some r →
    (r < 64)%nat ∧ p_state (pool_at (pool s) r) = PROCESS_STATE_RUNNING;
  pi_states : ∀ i, i ∈ ready → p_state (pool_at (pool s) i) = PROCESS_STATE_READY;
  pi_used : ∀ i, (i < 64)%nat → slot_used s i = true ↔ i ∈ live s ready;
  pi_count : process_count s = Z.of_nat (length (live s ready));
  pi_pids : ∀ i j, i ∈ live s ready → j ∈ live s ready →
    p_pid (pool_at (pool s) i) = p_pid (pool_at (pool s) j) → i = j;
  pi_next : 0 < next_pid s ∧ ∀ i, i ∈ live s ready → 0 <= p_pid (pool_at (pool s) i) < next_pid s;
  pi_max : max_processes s = MAX_PROCESSES;
}.

Lemma live_slot s ready term i : pm_inv s ready term → i ∈ live s ready ++ term → (i < 64)%nat.
Proof.
  intros Hs Hi. rewrite <- (pi_len _ _ _ Hs).
  assert (∀ h l, dll (pool s) h l → i ∈ l → (i < length (pool s))%nat) as Hd.
  { intros h l [last Hl] Hin. pose proof (dseg_slots _ _ _ _ _ _ Hl) as Hf.
    rewrite Forall_forall in Hf. by apply Hf. }
  apply elem_of_app in Hi as [Hi|Hi]; [|by eapply Hd, Hi; apply Hs].
  unfold live in Hi. destruct (running_process s) as [r|] eqn:Er; [|by eapply Hd, Hi; apply Hs].
  apply elem_of_cons in Hi as [->|Hi]; [|by eapply Hd, Hi; apply Hs].
  rewrite (pi_len _ _ _ Hs). by apply (pi_running _ _ _ Hs).
Qed.

Lemma live_ready s ready term : pm_inv s ready term → NoDup ready ∧ NoDup term ∧
  (∀ i, i ∈ ready → i ∈ live s ready) ∧ (∀ i, i ∈ live s ready → i ∉ term).
Proof.
  intros Hs. pose proof (pi_nodup _ _ _ Hs) as Hnd. apply NoDup_app in Hnd as (H1 & H2 & H3).
  unfold live in *. destruct (running_process s); [|by split_and!].
  split; [by inversion H1|]. split_and!; [done| |done]. intros i Hi. by right.
Qed.

Lemma slots_length l : NoDup l → (∀ i, i ∈ l → (i < 64)%nat) → (length l <= 64)%nat.
Proof.
  intros Hnd Hl. assert (l ⊆+ seq 0 64) as Hsub.
  { apply NoDup_submseteq; [done|]. intros x Hx. apply elem_of_seq. specialize (Hl x Hx). lia. }
  apply submseteq_length in Hsub. by rewrite length_seq in Hsub.
Qed.

(** ** Looking a process up *)

Definition find_pid (pl : list pcb) (l : list nat) (pid : Z) : option nat :=
  head (filter (λ i, p_pid (pool_at pl i) = pid) l).

Lemma find_pid_cons pl i l pid :
  find_pid pl (i :: l) pid = if p_pid (pool_at pl i) =? pid then Some i else find_pid pl l pid.
Proof.
  unfold find_pid. rewrite filter_cons. case_decide as H.
  - by rewrite (proj2 (Z.eqb_eq _ _) H).
  - by rewrite (proj2 (Z.eqb_neq _ _) H).
Qed.

Lemma find_pid_app pl l1 l2 pid :
  find_pid pl (l1 ++ l2) pid =
    match find_pid pl l1 pid with Some i => Some i | None => find_pid pl l2 pid end.
Proof.
  induction l1 as [|i l1 IH]; [done|]. simpl. rewrite !find_pid_cons, IH. by destruct (_ =? _).
Qed.

Lemma find_pid_Some pl l pid i : find_pid pl l pid = Some i → i ∈ l ∧ p_pid (pool_at pl i) = pid.
Proof.
  induction l as [|j l IH]; [done|]. rewrite find_pid_cons.
  destruct (Z.eqb_spec (p_pid (pool_at pl j)) pid).
  - intros [= <-]. split; [by left|done].
  - intros [H1 H2]%IH. split; [by right|done].
Qed.

Lemma find_pid_None pl l pid : find_pid pl l pid = None ↔ ∀ i, i ∈ l → p_pid (pool_at pl i) ≠ pid.
Proof.
  induction l as [|j l IH]; [split; [intros _ i Hi; by apply not_elem_of_nil in Hi|done]|].
  rewrite find_pid_cons. destruct (Z.eqb_spec (p_pid (pool_at pl j)) pid) as [E|E].
  - split; [done|]. intros H. by destruct (H j ltac:(by left)).
  - rewrite IH. split; [intros H i [->|Hi]%elem_of_cons; [done|by apply H]|].
    intros H i Hi. apply H. by right.
Qed.

Lemma find_in_queue_loop s pid prev h l last fuel :
  dseg (pool s) prev h l last None → (length l < fuel)%nat →
  loop fuel (find_pid_step s pid) h = Some (find_pid (pool s) l pid).
Proof.
  revert prev h fuel. induction l as [|i l IH]; intros prev h fuel Hl Hf;
    (destruct fuel as [|f]; [simpl in Hf; lia|]); cbn [loop].
  - destruct Hl as [-> _]. done.
  - destruct Hl as (-> & _ & _ & Hl). cbn [find_pid_step]. rewrite find_pid_cons.
    change (pcb_at s i) with (pool_at (pool s) i).
    destruct (_ =? pid); [done|]. eapply IH; [exact Hl|]. simpl in Hf. lia.
Qed.

Lemma find_process_in_queue_ok s ready term h l pid :
  pm_inv s ready term → (l = ready ∨ l = term) → dll (pool s) h l →
  find_process_in_queue s h pid = Some (find_pid (pool s) l pid).
Proof.
  intros Hs Hl [last Hd]. eapply find_in_queue_loop; [exact Hd|].
  destruct (live_ready s ready term Hs) as (H1 & H2 & H3 & _).
  apply (Nat.lt_le_trans _ (S 64)); [|done]. apply Nat.lt_succ_r. apply slots_length.
  - by destruct Hl as [->| ->].
  - intros i Hi. apply (live_slot s ready term); [done|]. apply elem_of_app.
    destruct Hl as [->| ->]; [left; by apply H3|by right].
Qed.

Lemma get_by_pid_ok s ready term pid :
  pm_inv s ready term →
  process_get_by_pid s pid = Some (find_pid (pool s) (live s ready ++ term) pid).
Proof.
  intros Hs. rewrite find_pid_app. unfold process_get_by_pid.
  rewrite (find_process_in_queue_ok s ready term _ ready pid Hs (or_introl eq_refl) (pi_ready _ _ _ Hs)).
  rewrite (find_process_in_queue_ok s ready term _ term pid Hs (or_intror eq_refl) (pi_term _ _ _ Hs)).
  rewrite (pi_blocked _ _ _ Hs). unfold find_process_in_queue. cbn [mbind option_bind].
  change (loop queue_fuel (find_pid_step s pid) None) with (Some (@None nat)).
  unfold live. destruct (running_process s) as [r|] eqn:Er.
  - rewrite find_pid_cons. change (pcb_at s r) with (pool_at (pool s) r).
    destruct (_ =? pid); [done|]. destruct (find_pid (pool s) ready pid); [done|].
    by destruct (find_pid (pool s) term pid).
  - destruct (find_pid (pool s) ready pid); [done|]. by destruct (find_pid (pool s) term pid).
Qed.

(** ** Scheduling *)

Lemma same_data_fields b b' :
  same_data b b' →
  p_pid b' = p_pid b ∧ p_state b' = p_state b ∧ stack_base b' = stack_base b ∧
  heap_base b' = heap_base b ∧ time_slice b' = time_slice b.
Proof. unfold same_data. intros ->. done. Qed.

Lemma dll_relinked pl D pl' h l :
  relinked pl D pl' → (∀ i, i ∈ l → i ∉ D) → dll pl h l → dll pl' h l.
Proof.
  intros (Hlen & Hout & _) Hl [last H]. exists last. eapply dseg_frame; [done| |done].
  intros i Hi. by apply Hout, Hl.
Qed.

(** Changing the data of one block, not its links. *)
Lemma dll_set_data pl h l p f :
  (∀ b, p_next (f b) = p_next b ∧ p_prev (f b) = p_prev b) →
  dll pl h l → dll (alter f p pl) h l.
Proof.
  intros Hf [last H]. exists last. eapply dseg_links; [apply length_alter| |done].
  intros i Hi. destruct (decide (p < length pl)%nat) as [Hp|Hp].
  - rewrite pool_at_alter by done. case_decide; [subst; apply Hf|done].
  - assert (alter f p pl = pl) as ->; [|done]. apply list_eq. intros j.
    destruct (decide (j = p)) as [->|]; [|by rewrite list_lookup_alter_ne].
    rewrite list_lookup_alter_eq, (lookup_ge_None_2 pl p) by lia. done.
Qed.

(** The invariant depends on the fields below only. *)
Lemma pm_inv_same s s' ready term :
  pm_inv s ready term →
  length (pool s') = length (pool s) → pool_used s' = pool_used s →
  running_process s' = running_process s → blocked_queue s' = blocked_queue s →
  next_pid s' = next_pid s → process_count s' = process_count s → max_processes s' = max_processes s →
  dll (pool s') (ready_queue s') ready → dll (pool s') (terminated_queue s') term →
  (∀ i, i ∈ live s ready → p_pid (pool_at (pool s') i) = p_pid (pool_at (pool s) i) ∧
                          p_state (pool_at (pool s') i) = p_state (pool_at (pool s) i)) →
  pm_inv s' ready term.
Proof.
  intros [I1 I2 I3 I4 I5 I6 I7 I8 I9 I10 I11 I12 I13] El Eu Er Eb En Ec Em Hr Ht Hd.
  assert (live s' ready = live s ready) as Elive by (unfold live; by rewrite Er).
  assert (∀ i, i ∈ ready → i ∈ live s ready) as Hin.
  { intros i Hi. unfold live. destruct (running_process s); [by right|done]. }
  split; rewrite ?El, ?Eu, ?Er, ?Eb, ?En, ?Ec, ?Em, ?Elive; try done.
  - intros r Hrun. destruct (I7 r Hrun) as [H1 H2]. split; [done|].
    destruct (Hd r) as [_ ->]; [|done]. unfold live. rewrite Hrun. by left.
  - intros i Hi. destruct (Hd i (Hin i Hi)) as [_ ->]. by apply I8.
  - intros i Hi. unfold slot_used. rewrite Eu. by apply I9.
  - intros i j Hi Hj. destruct (Hd i Hi) as [-> _], (Hd j Hj) as [-> _]. by apply I11.
  - split; [apply I12|]. intros i Hi. destruct (Hd i Hi) as [-> _]. by apply I12.
Qed.

Lemma process_switch_ok s n :
  (n < length (pool s))%nat →
  ∃ pl, process_switch s (Some n) = with_pool s pl <| running_process := Some n |> ∧
    length pl = length (pool s) ∧
    (∀ h l, dll (pool s) h l → dll pl h l) ∧
    ∀ i, pool_at pl i =
      if decide (i = n)
      then pool_at (pool s) n <| p_state := PROCESS_STATE_RUNNING |>
             <| remaining_slice := time_slice (pool_at (pool s) n) |>
             <| last_run_time := current_tick s |>
      else pool_at (pool s) i.
Proof.
  intros Hn.
  set (pl1 := alter (λ b, b <| p_state := PROCESS_STATE_RUNNING |>) n (pool s)).
  set (pl2 := alter (λ b, b <| remaining_slice := time_slice b |>) n pl1).
  set (pl3 := alter (λ b, b <| last_run_time := current_tick s |>) n pl2).
  assert (length pl1 = length (pool s)) as L1 by apply length_alter.
  assert (length pl2 = length (pool s)) as L2 by (unfold pl2; by rewrite length_alter).
  exists pl3. split.
  { unfold process_switch.
    assert (match running_process s with
            | Some o => if decide (p_state (pcb_at s o) = PROCESS_STATE_RUNNING)
                        then process_save_context s o else s
            | None => s end = s) as -> by (destruct (running_process s); [by destruct (decide _)|done]).
    by destruct s. }
  split; [unfold pl3; by rewrite length_alter|]. split.
  - intros h l Hl. unfold pl3, pl2, pl1. by repeat apply dll_set_data.
  - intros i. unfold pl3. rewrite pool_at_alter by lia. unfold pl2. rewrite !pool_at_alter by lia.
    unfold pl1. rewrite !pool_at_alter by lia. destruct (decide (i = n)) as [->|]; [|done].
    by rewrite !decide_True by done.
Qed.

(** Putting the running process at the head of the ready queue and taking the
    head again: the same process runs on. *)
Lemma reschedule_ok s ready term r :
  pm_inv s ready term → running_process s = Some r → remaining_slice (pool_at (pool s) r) <= 0 →
  ∃ s', process_scheduler s = Some s' ∧ pm_inv s' ready term ∧ running_process s' = Some r ∧
    scheduler_ticks s' = scheduler_ticks s +w 1 ∧
    (∀ i, i ≠ r → same_data (pool_at (pool s) i) (pool_at (pool s') i)) ∧
    remaining_slice (pool_at (pool s') r) = time_slice (pool_at (pool s) r) ∧
    last_run_time (pool_at (pool s') r) = current_tick s ∧
    stack_base (pool_at (pool s') r) = stack_base (pool_at (pool s) r) ∧
    heap_base (pool_at (pool s') r) = heap_base (pool_at (pool s) r).
Proof.
  intros Hs Hr Hrem.
  pose proof (pi_nodup _ _ _ Hs) as Hnd. unfold live in Hnd. rewrite Hr in Hnd.
  apply NoDup_app in Hnd as (Hnd & Hdis & _). inversion_clear Hnd as [|? ? Hrr Hnd'].
  destruct (pi_running _ _ _ Hs r Hr) as [Hr64 Hst]. pose proof (pi_len _ _ _ Hs) as Hlen.
  unfold process_scheduler. set (s0 := s <| scheduler_ticks := _ |>).
  change (running_process s0) with (running_process s). rewrite Hr.
  change (pcb_at s0 r) with (pool_at (pool s) r).
  rewrite (proj2 (Z.leb_le _ _) Hrem), decide_True by done.
  set (s1 := set_state s0 r PROCESS_STATE_READY).
  assert (pool s1 = alter (λ b, b <| p_state := PROCESS_STATE_READY |>) r (pool s)) as Hpl1 by done.
  assert (∀ h l, dll (pool s) h l → dll (pool s1) h l) as Hd1.
  { intros h l Hl. rewrite Hpl1. by apply dll_set_data. }
  assert (length (pool s1) = 64%nat) as Hlen1 by (rewrite Hpl1; by rewrite length_alter).
  assert (∀ i, pool_at (pool s1) i = if decide (i = r)
    then pool_at (pool s) r <| p_state := PROCESS_STATE_READY |> else pool_at (pool s) i) as Hat1.
  { intros i. rewrite Hpl1. by rewrite pool_at_alter by lia. }
  destruct (add_to_queue_ok s1 READY r ready) as (pl2 & -> & Hr2 & Hl2); [apply Hd1, Hs|done|done|lia|].
  set (s2 := set_queue _ _ _).
  unfold schedule_next_process. change (ready_queue s2) with (Some r). cbv iota.
  destruct (remove_from_queue_ok s2 READY r [] ready) as (pl3 & -> & Hr3 & Hl3 & _); [exact Hl2|by constructor|].
  cbn [app mbind option_bind]. set (s3 := set_queue _ _ _).
  change (pool s2) with pl2 in Hr3.
  destruct Hr2 as (Hlen2 & Hout2 & Hdat2), Hr3 as (Hlen3 & Hout3 & Hdat3).
  destruct (process_switch_ok s3 r) as (pl4 & -> & Hlen4 & Hd4 & Hat4); [change (pool s3) with pl3; lia|].
  change (pool s3) with pl3 in *.
  assert (relinked (pool s1) (r :: ready) pl3) as Hr13 by (eapply relinked_trans; by split).
  assert (∀ i, same_data (pool_at (pool s1) i) (pool_at pl3 i)) as Hdat13 by apply Hr13.
  eexists. split; [done|].
  assert (∀ i, i ≠ r → same_data (pool_at (pool s) i) (pool_at pl4 i)) as Hother.
  { intros i Hi. rewrite Hat4, decide_False by done. specialize (Hdat13 i).
    by rewrite Hat1, decide_False in Hdat13 by done. }
  assert (∀ i, i ∈ live s ready → p_pid (pool_at pl4 i) = p_pid (pool_at (pool s) i) ∧
                p_state (pool_at pl4 i) = p_state (pool_at (pool s) i)) as Hsame.
  { intros i _. destruct (decide (i = r)) as [->|Hi].
    - rewrite Hat4, decide_True by done. specialize (Hdat13 r). apply same_data_fields in Hdat13 as (E & _).
      rewrite Hat1, decide_True in E by done. rewrite Hst. cbn. rewrite E. done.
    - destruct (same_data_fields _ _ (Hother i Hi)) as (? & ? & _). done. }
  set (s4 := with_pool s3 pl4 <| running_process := Some r |>). change (pool s4) with pl4.
  split.
  { eapply pm_inv_same; [exact Hs|..]; try done; change (pool s4) with pl4; [lia|..].
    - by apply Hd4.
    - apply Hd4. eapply dll_relinked; [exact Hr13| |apply Hd1, Hs].
      intros i Hi Hin. by apply (Hdis i Hin). }
  split; [done|]. split; [done|]. split; [exact Hother|].
  rewrite Hat4, decide_True by done.
  cbn [remaining_slice last_run_time stack_base heap_base set_field eta_pcb].
  specialize (Hdat13 r). apply same_data_fields in Hdat13 as (_ & _ & E1 & E2 & E).
  rewrite Hat1, decide_True in E, E1, E2 by done. split; [by rewrite E|]. by split.
Qed.

(** ** Creating a process *)

Lemma allocate_pcb_ok s :
  (∃ i, (i < 64)%nat ∧ slot_used s i = false ∧ (∀ j, (j < i)%nat → slot_used s j = true) ∧
     allocate_pcb s = (Some i, s <| pool_used := <[i := true]> (pool_used s) |>
                                 <| pool := <[i := pcb_zero]> (pool s) |>)) ∨
  (allocate_pcb s = (None, s) ∧ ∀ i, (i < 64)%nat → slot_used s i = true).
Proof.
  unfold allocate_pcb. destruct (for_first _ _ _) as [i|] eqn:E; [left|right].
  - apply for_first_Some in E as (j & Hj & Ht & Hk). change (Z.of_nat (Z.to_nat MAX_PROCESSES)) with 64 in Hj.
    destruct (nth (Z.to_nat j) (pool_used s) true) eqn:Hu; [done|]. cbn [negb] in Ht. injection Ht as <-.
    exists (Z.to_nat j). split; [lia|]. split; [done|]. split; [|done].
    intros k Hlt. specialize (Hk (Z.of_nat k) ltac:(lia)). rewrite Nat2Z.id in Hk.
    unfold slot_used. by destruct (nth k (pool_used s) true).
  - split; [done|]. rewrite for_first_None in E. intros i Hi.
    specialize (E (Z.of_nat i)). rewrite Nat2Z.id in E. change (Z.of_nat (Z.to_nat MAX_PROCESSES)) with 64 in E.
    unfold slot_used. destruct (nth i (pool_used s) true); [done|]. discriminate E. lia.
Qed.

Lemma live_length_bound s ready term :
  pm_inv s ready term → (∀ i, (i < 64)%nat → slot_used s i = true) → 64 <= process_count s.
Proof.
  intros Hs Hall. rewrite (pi_count _ _ _ Hs).
  assert (seq 0 64 ⊆+ live s ready) as Hsub.
  { apply NoDup_submseteq; [apply NoDup_seq|]. intros i Hi%elem_of_seq. apply (pi_used _ _ _ Hs); [lia|].
    apply Hall. lia. }
  apply submseteq_length in Hsub. rewrite length_seq in Hsub. lia.
Qed.

(** Adding the process in slot [i] to the ready queue. *)
Lemma live_cons s s' ready i :
  running_process s' = running_process s → live s' (i :: ready) ≡ₚ i :: live s ready.
Proof. intros E. unfold live. rewrite E. destruct (running_process s); [apply perm_swap|done]. Qed.

Lemma slot_used_insert s s' i b j :
  length (pool_used s) = 64%nat → (i < 64)%nat → pool_used s' = <[i := b]> (pool_used s) →
  slot_used s' j = if decide (j = i) then b else slot_used s j.
Proof.
  intros Hl Hi E. unfold slot_used. rewrite E, !nth_lookup. case_decide as Hj.
  - subst. by rewrite list_lookup_insert_eq by lia.
  - by rewrite list_lookup_insert_ne.
Qed.

Lemma create_inv s s' ready term i :
  pm_inv s ready term → (i < 64)%nat → slot_used s i = false → (i ∉ term) →
  length (pool s') = length (pool s) → pool_used s' = <[i := true]> (pool_used s) →
  running_process s' = running_process s → blocked_queue s' = blocked_queue s →
  next_pid s' = next_pid s + 1 → process_count s' = process_count s + 1 →
  max_processes s' = max_processes s →
  dll (pool s') (ready_queue s') (i :: ready) → dll (pool s') (terminated_queue s') term →
  (∀ j, j ∈ live s ready → p_pid (pool_at (pool s') j) = p_pid (pool_at (pool s) j) ∧
                          p_state (pool_at (pool s') j) = p_state (pool_at (pool s) j)) →
  p_pid (pool_at (pool s') i) = next_pid s → p_state (pool_at (pool s') i) = PROCESS_STATE_READY →
  pm_inv s' (i :: ready) term.
Proof.
  intros [I1 I2 I3 I4 I5 I6 I7 I8 I9 I10 I11 I12 I13] Hi Hu Hit El Eu Er Eb En Ec Em Hr Ht Hd Hpid Hst.
  pose proof (live_cons s s' ready i Er) as Hperm.
  assert (i ∉ live s ready) as Hil by (intros Hin; apply I9 in Hin; [congruence|done]).
  assert (∀ j, j ∈ live s' (i :: ready) ↔ j = i ∨ j ∈ live s ready) as Hin.
  { intros j. by rewrite Hperm, elem_of_cons. }
  assert (∀ j, j ∈ ready → j ∈ live s ready) as Hready.
  { intros j Hj. unfold live. destruct (running_process s); [by right|done]. }
  assert (∀ j, j ∈ live s' (i :: ready) → j ≠ i → j ∈ live s ready) as Hold by (intros j Hj; apply Hin in Hj; tauto).
  split; rewrite ?El, ?Eu, ?Er, ?Eb, ?En, ?Ec, ?Em; try done.
  - by rewrite length_insert.
  - rewrite Hperm. simpl. constructor; [|done]. rewrite elem_of_app. tauto.
  - intros r Hrun. destruct (I7 r Hrun) as [H1 H2]. split; [done|].
    destruct (Hd r) as [_ ->]; [|done]. unfold live. rewrite Hrun. by left.
  - intros j [->|Hj]%elem_of_cons; [done|]. destruct (Hd j (Hready j Hj)) as [_ ->]. by apply I8.
  - intros j Hj. rewrite (slot_used_insert s s' i true j I2 Hi Eu), Hin. case_decide; [tauto|].
    rewrite I9 by done. tauto.
  - rewrite Hperm, I10. simpl. lia.
  - intros j k Hj Hk. destruct (decide (j = i)) as [->|Hji], (decide (k = i)) as [->|Hki]; [done|..].
    + rewrite Hpid. destruct (Hd k (Hold k Hk Hki)) as [-> _]. destruct I12 as [_ Hb].
      specialize (Hb k (Hold k Hk Hki)). lia.
    + rewrite Hpid. destruct (Hd j (Hold j Hj Hji)) as [-> _]. destruct I12 as [_ Hb].
      specialize (Hb j (Hold j Hj Hji)). lia.
    + destruct (Hd j (Hold j Hj Hji)) as [-> _], (Hd k (Hold k Hk Hki)) as [-> _]. apply I11; by apply Hold.
  - destruct I12 as [Hn Hb]. split; [lia|]. intros j Hj. destruct (decide (j = i)) as [->|Hji].
    + rewrite Hpid. lia.
    + destruct (Hd j (Hold j Hj Hji)) as [-> _]. specialize (Hb j (Hold j Hj Hji)). lia.
Qed.

(** ** Retiring a process *)

Lemma retire_inv s s' ready ready' term i :
  pm_inv s ready term → live s ready ≡ₚ i :: live s' ready' →
  (∀ r, running_process s' = Some r → running_process s = Some r) → (∀ j, j ∈ ready' → j ∈ ready) →
  length (pool s') = length (pool s) → pool_used s' = <[i := false]> (pool_used s) →
  blocked_queue s' = blocked_queue s → next_pid s' = next_pid s →
  process_count s' = process_count s - 1 → max_processes s' = max_processes s →
  dll (pool s') (ready_queue s') ready' → dll (pool s') (terminated_queue s') (i :: term) →
  (∀ j, j ∈ live s' ready' → p_pid (pool_at (pool s') j) = p_pid (pool_at (pool s) j) ∧
                           p_state (pool_at (pool s') j) = p_state (pool_at (pool s) j)) →
  pm_inv s' ready' (i :: term).
Proof.
  intros Hs Hperm Hrun Hsub El Eu Eb En Ec Em Hr Ht Hd.
  pose proof Hs as [I1 I2 I3 I4 I5 I6 I7 I8 I9 I10 I11 I12 I13].
  assert (i < 64)%nat as Hi.
  { apply (live_slot s ready term); [done|]. apply elem_of_app. left. rewrite Hperm. by left. }
  assert (∀ j, j ∈ live s ready ↔ j = i ∨ j ∈ live s' ready') as Hin by (intros j; by rewrite Hperm, elem_of_cons).
  assert (NoDup (i :: live s' ready' ++ term)) as Hnd.
  { rewrite Hperm in I6. exact I6. }
  inversion_clear Hnd as [|? ? Hnin Hnd'].
  assert (∀ r, running_process s' = Some r → r ∈ live s' ready') as Hrl.
  { intros r Er. unfold live. rewrite Er. by left. }
  assert (∀ j, j ∈ ready' → j ∈ live s' ready') as Hready.
  { intros j Hj. unfold live. destruct (running_process s'); [by right|done]. }
  split; rewrite ?El, ?Eb, ?En, ?Ec, ?Em; try done.
  - by rewrite Eu, length_insert.
  - rewrite <- Permutation_middle. by constructor.
  - intros r Er. destruct (I7 r (Hrun r Er)) as [H1 H2]. split; [done|].
    destruct (Hd r (Hrl r Er)) as [_ ->]. done.
  - intros j Hj. destruct (Hd j (Hready j Hj)) as [_ ->]. by apply I8, Hsub.
  - intros j Hj. rewrite (slot_used_insert s s' i false j I2 Hi Eu). case_decide as Hji.
    + split; [done|]. intros Hl. exfalso. apply Hnin. apply elem_of_app. left. by rewrite <- Hji.
    + rewrite I9, Hin by done. tauto.
  - rewrite I10, Hperm. simpl. lia.
  - intros j k Hj Hk. destruct (Hd j Hj) as [-> _], (Hd k Hk) as [-> _]. apply I11; apply Hin; by right.
  - split; [apply I12|]. intros j Hj. destruct (Hd j Hj) as [-> _]. apply I12. apply Hin. by right.
Qed.

(** The part of [process_terminate] that does not depend on the queue left. *)
Definition retire (s : procs) (p : nat) : procs :=
  let s := add_to_queue (set_state s p PROCESS_STATE_TERMINATED) TERMINATED (Some p) in
  deallocate_pcb s (Some p) <| process_count := process_count s -w 1 |>.

Lemma retire_ok s p term :
  dll (pool s) (terminated_queue s) term → NoDup term → (p ∉ term) → (p < length (pool s))%nat →
  ∃ pl, add_to_queue (set_state s p PROCESS_STATE_TERMINATED) TERMINATED (Some p) =
          with_pool s pl <| terminated_queue := Some p |> ∧
    length pl = length (pool s) ∧ dll pl (Some p) (p :: term) ∧
    (∀ i, (i ∉ p :: term) → pool_at pl i = pool_at (pool s) i) ∧
    (∀ i, i ≠ p → same_data (pool_at (pool s) i) (pool_at pl i)) ∧
    stack_base (pool_at pl p) = stack_base (pool_at (pool s) p) ∧
    heap_base (pool_at pl p) = heap_base (pool_at (pool s) p) ∧
    p_pid (pool_at pl p) = p_pid (pool_at (pool s) p).
Proof.
  intros Hd Hnd Hp Hlt. set (pl1 := alter (λ b, b <| p_state := PROCESS_STATE_TERMINATED |>) p (pool s)).
  change (set_state s p PROCESS_STATE_TERMINATED) with (with_pool s pl1).
  assert (length pl1 = length (pool s)) as L1 by apply length_alter.
  destruct (add_to_queue_ok (with_pool s pl1) TERMINATED p term) as (pl & -> & (L2 & O2 & S2) & D2);
    [by apply dll_set_data|done|done|change (pool (with_pool s pl1)) with pl1; lia|].
  change (pool (with_pool s pl1)) with pl1 in *.
  assert (∀ i, pool_at pl1 i = if decide (i = p) then pool_at (pool s) p <| p_state := PROCESS_STATE_TERMINATED |>
                               else pool_at (pool s) i) as A1 by (intros i; by apply pool_at_alter).
  exists pl. split; [done|]. split; [lia|]. split; [done|]. split.
  { intros i Hi. rewrite O2 by done. rewrite A1, decide_False; [done|]. intros ->. apply Hi. by left. }
  split.
  { intros i Hi. specialize (S2 i). by rewrite A1, decide_False in S2. }
  specialize (S2 p). rewrite A1, decide_True in S2 by done.
  destruct (same_data_fields _ _ S2) as (? & _ & ? & ? & _). done.
Qed.

(** Removing an unlinked block from an empty queue. *)
Lemma remove_isolated_ok s q p :
  p_next (pool_at (pool s) p) = None → p_prev (pool_at (pool s) p) = None → queue_head s q = None →
  ∃ pl, remove_from_queue s q (Some p) = with_pool s pl ∧
    length pl = length (pool s) ∧ ∀ i, pool_at pl i = pool_at (pool s) i.
Proof.
  intros Hn Hp Hq. unfold remove_from_queue. change (pcb_at s p) with (pool_at (pool s) p).
  rewrite Hp, Hn. assert (set_queue s q None = s) as -> by (destruct q, s; cbn in *; by subst).
  change (pcb_at s p) with (pool_at (pool s) p). rewrite Hn.
  set (pl1 := alter (λ b, b <| p_next := None |>) p (pool s)).
  exists (alter (λ b, b <| p_prev := None |>) p pl1). split; [done|].
  assert (length pl1 = length (pool s)) as L1 by apply length_alter.
  split; [by rewrite length_alter|]. intros i.
  destruct (decide (p < length (pool s))%nat) as [Hlt|Hge].
  - rewrite pool_at_alter by lia. unfold pl1. rewrite !pool_at_alter by lia.
    rewrite (decide_True (P := p = p)) by done. case_decide; [subst|done].
    destruct (pool_at (pool s) p). cbn in *. by subst.
  - unfold pool_at. rewrite !nth_lookup. unfold pl1. destruct (decide (i = p)) as [->|].
    + by rewrite !list_lookup_alter_eq, (lookup_ge_None_2 (pool s)) by lia.
    + by rewrite !list_lookup_alter_ne.
Qed.

Lemma find_live s ready term i :
  pm_inv s ready term → i ∈ live s ready →
  process_get_by_pid s (p_pid (pool_at (pool s) i)) = Some (Some i).
Proof.
  intros Hs Hi. rewrite (get_by_pid_ok s ready term) by done. rewrite find_pid_app.
  destruct (find_pid (pool s) (live s ready) _) as [j|] eqn:E.
  - apply find_pid_Some in E as [Hj E]. by rewrite (pi_pids _ _ _ Hs j i Hj Hi E).
  - rewrite find_pid_None in E. by destruct (E i Hi).
Qed.

(** The live processes after one has gone. *)
Lemma live_gone s ready term l i :
  pm_inv s ready term → live s ready ≡ₚ i :: l → ∀ j, j ∈ l → j ∈ live s ready ∧ j ≠ i.
Proof.
  intros Hs Hperm j Hj. split; [rewrite Hperm; by right|]. intros ->.
  pose proof (pi_nodup _ _ _ Hs) as Hnd. rewrite Hperm in Hnd.
  inversion_clear Hnd as [|? ? Hnin _]. apply Hnin. apply elem_of_app. by left.
Qed.

Lemma count_minus_one s ready term l i :
  pm_inv s ready term → live s ready ≡ₚ i :: l → process_count s -w 1 = process_count s - 1.
Proof.
  intros Hs Hperm. apply u32_small.
  assert (length (live s ready) <= 64)%nat as Hb.
  { apply slots_length.
    - pose proof (pi_nodup _ _ _ Hs) as Hnd. by apply NoDup_app in Hnd as (? & _).
    - intros j Hj. eapply (live_slot s ready term); [done|]. apply elem_of_app. by left. }
  rewrite (pi_count _ _ _ Hs). rewrite Hperm in Hb |- *. simpl in *. unfold is_u32. lia.
Qed.

Section with_allocator.
Context {H : Type} `{AllocatorLaws H} (process_terminate_addr : Z).

(** The stacks of the processes in [l]: distinct blocks of the heap. *)
Record stacks_inv (h : H) (pl : list pcb) (l : list nat) : Prop := {
  si_heap : ∀ i, i ∈ l → heap_base (pool_at pl i) = 0;
  si_owned : ∀ i, i ∈ l → stack_base (pool_at pl i) ≠ 0 →
    ∃ t, DEFAULT_STACK_SIZE <= t ∧ owns h (stack_base (pool_at pl i)) t;
  si_distinct : ∀ i j, i ∈ l → j ∈ l → i ≠ j →
    stack_base (pool_at pl i) = stack_base (pool_at pl j) → stack_base (pool_at pl i) = 0;
}.

(** The stack of a new process: none when the heap is exhausted, otherwise a new
    block with the three words at its top. *)
Definition new_stack (h h' : H) (b : pcb) (entry_point : Z) : Prop :=
  (stack_base b = 0 ∧ h' = h) ∨
  ∃ t, stack_base b ≠ 0 ∧ DEFAULT_STACK_SIZE <= t ∧ heap_ok h' ∧ heap_frame h h' ∧
    (∀ q u, owns h' q u ↔ owns h q u ∨ q = stack_base b ∧ u = t) ∧
    (∀ u, ¬ owns h (stack_base b) u) ∧
    esp (p_context b) = stack_base b + DEFAULT_STACK_SIZE - 16 ∧ eip (p_context b) = entry_point ∧
    peek32 h' (esp (p_context b)) = 0 ∧
    peek32 h' (esp (p_context b) + 4) = u32 process_terminate_addr ∧
    peek32 h' (esp (p_context b) + 8) = u32 (p_pid b).

(** Everything but the stack fields is as before. *)
Definition same_but_stack (b b' : pcb) : Prop :=
  p_pid b' = p_pid b ∧ p_name b' = p_name b ∧ p_priority b' = p_priority b ∧
  heap_base b' = heap_base b ∧ time_slice b' = time_slice b ∧ remaining_slice b' = remaining_slice b.

(** The three words at the top of a fresh stack. *)
Lemma stack_words_ok h base t sp pid :
  heap_ok h → owns h base t → base <= sp → sp + 12 <= base + t →
  let h' := poke32 (poke32 (poke32 h sp 0) (sp + 4) process_terminate_addr) (sp + 8) pid in
  heap_ok h' ∧ heap_frame h h' ∧ (∀ q u, owns h' q u ↔ owns h q u) ∧
  peek32 h' sp = 0 ∧ peek32 h' (sp + 4) = u32 process_terminate_addr ∧ peek32 h' (sp + 8) = u32 pid.
Proof.
  intros Hh Ho Hlo Hhi h'. subst h'.
  destruct (poke_spec h base t sp 0 Hh Ho) as (K1 & G1 & W1 & R1 & F1); [lia..|].
  set (h2 := poke32 h sp 0) in *. assert (owns h2 base t) as Ho2 by (by apply W1).
  destruct (poke_spec h2 base t (sp + 4) process_terminate_addr K1 Ho2) as (K2 & G2 & W2 & R2 & F2); [lia..|].
  set (h3 := poke32 h2 _ _) in *. assert (owns h3 base t) as Ho3 by (by apply W2).
  destruct (poke_spec h3 base t (sp + 8) pid K2 Ho3) as (K3 & G3 & W3 & R3 & F3); [lia..|].
  split; [done|]. split; [|split; [intros q u; by rewrite W3, W2, W1|split; [|split]]].
  - eapply heap_frame_trans; [exact G1|]. by eapply heap_frame_trans.
  - rewrite F3, F2 by lia. exact R1.
  - rewrite F3 by lia. exact R2.
  - exact R3.
Qed.

Lemma setup_process_stack_ok s h p entry_point :
  heap_ok h → (p < length (pool s))%nat → entry_point ≠ 0 →
  stack_base (pool_at (pool s) p) = 0 →
  ∃ pl h', setup_process_stack process_terminate_addr s h (Some p) entry_point =
      Some (with_pool s pl, h') ∧
    length pl = length (pool s) ∧ (∀ i, i ≠ p → pool_at pl i = pool_at (pool s) i) ∧
    same_but_stack (pool_at (pool s) p) (pool_at pl p) ∧
    heap_ok h' ∧ new_stack h h' (pool_at pl p) entry_point.
Proof.
  intros Hh Hp He Hb. unfold setup_process_stack. rewrite (proj2 (Z.eqb_neq _ _) He).
  set (pl1 := alter (λ b, b <| stack_size := DEFAULT_STACK_SIZE |>) p (pool s)).
  change (set_pcb s p _) with (with_pool s pl1).
  assert (length pl1 = length (pool s)) as L1 by apply length_alter.
  assert (pool_at pl1 p = pool_at (pool s) p <| stack_size := DEFAULT_STACK_SIZE |>) as A1.
  { unfold pl1. by rewrite pool_at_alter, decide_True. }
  change (pcb_at (with_pool s pl1) p) with (pool_at pl1 p). rewrite A1.
  change (stack_size (_ <| stack_size := DEFAULT_STACK_SIZE |>)) with 4096.
  destruct (malloc_spec h 4096 Hh) as [->|(base & t & h1 & -> & Hh1 & Hfr1 & Hb0 & Ht & Hown & Hnew)]; [lia|..];
    cbn [mbind option_bind].
  - rewrite Z.eqb_refl.
    exists (alter (λ b, b <| stack_base := 0 |>) p pl1), h. split; [done|].
    split; [by rewrite length_alter|]. rewrite !pool_at_alter, decide_True by (done || lia).
    split; [|rewrite A1; split; [by destruct (pool_at (pool s) p)|split; [done|by left]]].
    intros i Hi. rewrite pool_at_alter, decide_False by (done || lia). unfold pl1.
    by rewrite pool_at_alter, decide_False.
  - rewrite (proj2 (Z.eqb_neq _ _) Hb0).
    set (pl2 := alter (λ b, b <| stack_base := base |>) p pl1).
    change (set_pcb (with_pool s pl1) p _) with (with_pool s pl2).
    assert (length pl2 = length (pool s)) as L2 by (unfold pl2; by rewrite length_alter).
    assert (pool_at pl2 p = pool_at (pool s) p <| stack_size := DEFAULT_STACK_SIZE |>
              <| stack_base := base |>) as A2.
    { unfold pl2. by rewrite pool_at_alter, decide_True, A1 by (done || lia). }
    change (pcb_at (with_pool s pl2) p) with (pool_at pl2 p). rewrite A2.
    change (stack_size (_ <| stack_base := base |>)) with 4096.
    assert (owns h1 base t) as Ho by (apply Hown; by right).
    destruct (owns_range h1 base t Hh1 Ho) as (Hb1 & _ & Hb2).
    assert (base +w 4096 -w 16 = base + 4080) as -> by (rewrite (u32_small (base + 4096)) by word_lia; rewrite u32_small by word_lia; lia).
    set (sp := base + 4080).
    match goal with |- context [set_pcb (with_pool s pl2) p ?f] => set (pl3 := alter f p pl2) end.
    change (set_pcb (with_pool s pl2) p _) with (with_pool s pl3).
    assert (length pl3 = length (pool s)) as L3 by (unfold pl3; by rewrite length_alter).
    change (pcb_at (with_pool s pl3) p) with (pool_at pl3 p).
    destruct (stack_words_ok h1 base t sp (p_pid (pool_at pl3 p)) Hh1 Ho)
      as (K & G & W & R1 & R2 & R3); [unfold sp; lia..|].
    set (h4 := poke32 _ (sp + 8) _) in *.
    exists pl3, h4. split; [done|]. split; [done|]. split.
    { intros i Hi. unfold pl3. rewrite pool_at_alter, decide_False by (done || lia).
      unfold pl2. rewrite pool_at_alter, decide_False by (done || lia).
      unfold pl1. by rewrite pool_at_alter, decide_False. }
    assert (p_pid (pool_at pl3 p) = p_pid (pool_at (pool s) p) ∧
      stack_base (pool_at pl3 p) = base ∧ esp (p_context (pool_at pl3 p)) = sp ∧
      eip (p_context (pool_at pl3 p)) = entry_point ∧
      same_but_stack (pool_at (pool s) p) (pool_at pl3 p)) as (Epid & Ebase & Eesp & Eeip & Esame).
    { unfold pl3. rewrite pool_at_alter, decide_True, A2 by (done || lia). done. }
    split; [exact Esame|]. split; [done|]. right. exists t. rewrite Ebase, Eesp, Eeip.
    split; [done|]. split; [exact Ht|]. split; [done|]. split; [by eapply heap_frame_trans|].
    split; [intros q u; rewrite W; apply Hown|]. split; [exact Hnew|].
    split; [unfold sp, DEFAULT_STACK_SIZE; lia|]. by split.
Qed.

(** The block [process_create] fills, before its links are set. *)
Definition created (s : procs) (name : list Z) (priority : Z) (b : pcb) : Prop :=
  p_pid b = next_pid s ∧ p_name b = take (Z.to_nat PROCESS_NAME_MAX) name ∧
  p_priority b = priority ∧ p_state b = PROCESS_STATE_READY ∧
  remaining_slice b = time_slice_quantum s ∧ time_slice b = time_slice_quantum s.

Lemma process_create_ok s h ready term name entry_point priority i :
  heap_ok h → pm_inv s ready term → entry_point ≠ 0 →
  process_count s < MAX_PROCESSES → next_pid s < 2147483647 →
  (i < 64)%nat → slot_used s i = false → (∀ j, (j < i)%nat → slot_used s j = true) →
  ∃ s' h', process_create process_terminate_addr s h (Some name) entry_point priority =
      Some (next_pid s, (s', h')) ∧
    heap_ok h' ∧ created s name priority (pool_at (pool s') i) ∧
    heap_base (pool_at (pool s') i) = 0 ∧ new_stack h h' (pool_at (pool s') i) entry_point ∧
    (∀ j, j ≠ i → same_data (pool_at (pool s) j) (pool_at (pool s') j)) ∧
    running_process s' = running_process s ∧ ready_queue s' = Some i ∧
    terminated_queue s' = terminated_queue s ∧ next_pid s' = next_pid s + 1 ∧
    ((i ∉ term) → pm_inv s' (i :: ready) term).
Proof.
  intros Hh Hs He Hcount Hpid Hi Hu Hlow. pose proof Hs as [I1 I2 I3 I4 I5 I6 I7 I8 I9 I10 I11 [I12 I12'] I13].
  unfold process_create. rewrite (proj2 (Z.eqb_neq _ _) He), I13.
  rewrite (proj2 (Z.leb_gt _ _) Hcount).
  destruct (allocate_pcb_ok s) as [(i' & Hi' & Hu' & Hlow' & ->)|[_ Hall]]; [|rewrite Hall in Hu; done].
  assert (i' = i) as ->.
  { destruct (Nat.lt_trichotomy i' i) as [Hlt|[?|Hlt]]; [|done|].
    - by rewrite Hlow in Hu'.
    - by rewrite Hlow' in Hu. }
  set (pl1 := <[i := pcb_zero]> (pool s)). set (s1 := _ <| pool := pl1 |>).
  assert (length pl1 = 64%nat) as L1 by (unfold pl1; by rewrite length_insert).
  set (pl2 := alter (init_pcb s1 name priority) i pl1).
  set (s3 := (set_pcb s1 i (init_pcb s1 name priority)) <| next_pid := _ |>).
  assert (length pl2 = 64%nat) as L2 by (unfold pl2; by rewrite length_alter).
  assert (pool_at pl2 i = init_pcb s1 name priority pcb_zero) as A2.
  { unfold pl2. rewrite pool_at_alter, decide_True by (done || lia). unfold pl1.
    by rewrite pool_at_insert, decide_True by (done || lia). }
  destruct (setup_process_stack_ok s3 h i entry_point Hh) as
    (pl3 & h' & -> & L3 & O3 & S3 & Hh' & Hstk); [change (pool s3) with pl2; lia|done| |].
  { change (pool s3) with pl2. by rewrite A2. }
  change (pool s3) with pl2 in *. cbn [mbind option_bind].
  set (pl4 := alter (λ b, b <| p_state := PROCESS_STATE_READY |>) i pl3).
  change (set_state (with_pool s3 pl3) i PROCESS_STATE_READY) with (with_pool s3 pl4).
  set (s4 := with_pool s3 pl4).
  assert (length pl4 = 64%nat) as L4 by (unfold pl4; rewrite length_alter; lia).
  assert (i ∉ live s ready) as Hil by (intros Hin; apply I9 in Hin; [congruence|done]).
  assert (∀ j, j ≠ i → pool_at pl4 j = pool_at (pool s) j) as O4.
  { intros j Hj. unfold pl4. rewrite pool_at_alter, decide_False by (done || lia). rewrite O3 by done.
    unfold pl2. rewrite pool_at_alter, decide_False by (done || lia). unfold pl1.
    by rewrite pool_at_insert, decide_False by (done || lia). }
  assert (∀ h0 l, (i ∉ l) → dll (pool s) h0 l → dll pl4 h0 l) as D4.
  { intros h0 l Hl [last Hd]. exists last. apply (dseg_frame (pool s)); [by rewrite L4| |exact Hd].
    intros j Hj. apply O4. by intros ->. }
  destruct (live_ready s ready term Hs) as (Hndr & Hndt & Hrl & Hlt).
  assert (i ∉ ready) as Hir by (intros Hin; by apply Hil, Hrl).
  destruct (add_to_queue_ok s4 READY i ready) as (pl5 & -> & R5 & D5);
    [by apply D4|done|done|change (pool s4) with pl4; lia|].
  change (pool s4) with pl4 in R5. set (s5 := set_queue _ _ _). set (s' := s5 <| process_count := _ |>).
  change (pcb_at s' i) with (pool_at pl5 i).
  pose proof (proj2 (proj2 R5) i) as Hd5.
  assert (pool_at pl4 i = pool_at pl3 i <| p_state := PROCESS_STATE_READY |>) as A4.
  { unfold pl4. by rewrite pool_at_alter, decide_True by (done || lia). }
  rewrite A4 in Hd5. rewrite A2 in S3. destruct S3 as (P1 & P2 & P3 & P4 & P5 & P6).
  assert (created s name priority (pool_at pl5 i) ∧ heap_base (pool_at pl5 i) = 0 ∧
          new_stack h h' (pool_at pl5 i) entry_point) as (C1 & C2 & C3).
  { rewrite Hd5. split; [|split; [exact P4|exact Hstk]].
    split; [exact P1|]. split; [exact P2|]. split; [exact P3|]. split; [done|]. by split. }
  destruct C1 as (Cpid & Cn & Cp & Cs & Cr & Ct).
  exists s', h'. split.
  { rewrite Cpid, s32_small by lia. done. }
  split; [done|]. split; [done|]. split; [done|]. split; [done|]. split.
  { intros j Hj. change (pool s') with pl5. rewrite <- (O4 j Hj). apply R5. }
  split; [done|]. split; [done|]. split; [done|]. split.
  { change (next_pid s') with (next_pid s +w 1). rewrite u32_small by word_lia. done. }
  intros Hit. eapply (create_inv s s'); try done.
  - change (pool s') with pl5. rewrite I1. destruct R5 as [E _]. rewrite E. exact L4.
  - change (next_pid s') with (next_pid s +w 1). rewrite u32_small by word_lia. done.
  - change (process_count s') with (process_count s +w 1). unfold MAX_PROCESSES in *. rewrite u32_small by word_lia. done.
  - change (pool s') with pl5. change (terminated_queue s') with (terminated_queue s).
    eapply dll_relinked; [exact R5| |by apply D4]. intros j Hj [->|Hjr]%elem_of_cons; [done|].
    by apply (Hlt j); [apply Hrl|].
  - intros j Hj. assert (j ≠ i) as Hji by (by intros ->).
    change (pool s') with pl5. pose proof (proj2 (proj2 R5) j) as E. rewrite O4 in E by done.
    destruct (same_data_fields _ _ E) as (? & ? & _). done.
Qed.

(** Freeing the stack of a process of the invariant. *)
Definition freed (h h' : H) (base : Z) : Prop :=
  heap_ok h' ∧ heap_frame h h' ∧ ∀ q t, owns h' q t ↔ owns h q t ∧ (q ≠ base ∨ base = 0).

Lemma free_stack_ok h pl l i :
  heap_ok h → stacks_inv h pl l → i ∈ l →
  ∃ h', (if negb (stack_base (pool_at pl i) =? 0) then mfree h (stack_base (pool_at pl i)) else Some h)
          = Some h' ∧ freed h h' (stack_base (pool_at pl i)).
Proof.
  intros Hh Hs Hi. destruct (Z.eqb_spec (stack_base (pool_at pl i)) 0) as [E|E]; cbn [negb].
  - exists h. split; [done|]. split; [done|]. split; [apply heap_frame_refl|]. intros q t. tauto.
  - destruct (si_owned _ _ _ Hs i Hi E) as (t & _ & Ho).
    destruct (mfree_spec h _ t Hh Ho) as (h' & -> & Hh' & Hfr & Hw). exists h'. split; [done|].
    split; [done|]. split; [done|]. intros q u. rewrite Hw. tauto.
Qed.

Lemma stacks_after_free h h' pl pl' l l' i :
  stacks_inv h pl l → i ∈ l → freed h h' (stack_base (pool_at pl i)) →
  (∀ j, j ∈ l' → j ∈ l ∧ j ≠ i ∧ stack_base (pool_at pl' j) = stack_base (pool_at pl j) ∧
                heap_base (pool_at pl' j) = heap_base (pool_at pl j)) →
  stacks_inv h' pl' l'.
Proof.
  intros [S1 S2 S3] Hi (_ & _ & Hw) Hl. split.
  - intros j Hj. destruct (Hl j Hj) as (Hjl & _ & _ & ->). by apply S1.
  - intros j Hj. destruct (Hl j Hj) as (Hjl & Hji & -> & _). intros Hne.
    destruct (S2 j Hjl Hne) as (t & Ht & Ho). exists t. split; [done|]. apply Hw. split; [done|].
    left. intros E. by apply Hne, (S3 j i).
  - intros j k Hj Hk Hjk. destruct (Hl j Hj) as (Hjl & _ & -> & _), (Hl k Hk) as (Hkl & _ & -> & _).
    by apply S3.
Qed.

(** [process_terminate] once the process has left its queue: the common tail. *)
Lemma terminate_tail_ok s0 s h p ready term :
  heap_ok h → stacks_inv h (pool s0) (live s0 ready) → p ∈ live s0 ready →
  process_get_by_pid s0 (p_pid (pool_at (pool s0) p)) = Some (Some p) →
  (if decide (Some p = running_process s0) then s0 <| running_process := None |>
   else remove_from_queue (remove_from_queue s0 READY (Some p)) BLOCKED (Some p)) = s →
  (∀ i, same_data (pool_at (pool s0) i) (pool_at (pool s) i)) → running_process s ≠ Some p →
  dll (pool s) (terminated_queue s) term → NoDup term → (p ∉ term) → (p < length (pool s))%nat →
  ∃ pl h',
    process_terminate s0 h (p_pid (pool_at (pool s0) p)) =
      Some (PROCESS_SUCCESS,
        (with_pool s pl <| terminated_queue := Some p |>
           <| pool_used := <[p := false]> (pool_used s) |>
           <| process_count := process_count s -w 1 |>, h')) ∧
    length pl = length (pool s) ∧ dll pl (Some p) (p :: term) ∧
    (∀ i, (i ∉ p :: term) → pool_at pl i = pool_at (pool s) i) ∧
    (∀ i, i ≠ p → same_data (pool_at (pool s0) i) (pool_at pl i)) ∧
    p_pid (pool_at pl p) = p_pid (pool_at (pool s0) p) ∧
    freed h h' (stack_base (pool_at (pool s0) p)).
Proof.
  intros Hh Hst Hp Hget Hs Hsd Hrun Hd Hnd Hpt Hlt.
  unfold process_terminate. rewrite Hget. cbn [mbind option_bind]. rewrite Hs.
  destruct (retire_ok s p term Hd Hnd Hpt Hlt) as (pl & -> & Hlen & Hdl & Ho & Hsd' & Hsb & Hhb & Hpid).
  set (s1 := with_pool s pl <| terminated_queue := Some p |>).
  change (pcb_at s1 p) with (pool_at pl p).
  destruct (same_data_fields _ _ (Hsd p)) as (Epid & _ & Estk & Ehp & _).
  assert (stack_base (pool_at pl p) = stack_base (pool_at (pool s0) p)) as -> by congruence.
  assert (heap_base (pool_at pl p) = 0) as ->.
  { rewrite Hhb, Ehp. by apply (si_heap _ _ _ Hst). }
  destruct (free_stack_ok h (pool s0) (live s0 ready) p Hh Hst Hp) as (h' & -> & Hfree).
  cbn [mbind option_bind]. rewrite Z.eqb_refl. cbn [negb deallocate_pcb].
  rewrite decide_False by (intros E; by apply Hrun).
  exists pl, h'. split; [done|]. split; [done|]. split; [done|]. split; [done|].
  split; [|by split; [congruence|]]. intros i Hi. eapply same_data_trans; [apply Hsd|by apply Hsd'].
Qed.

(** A process in the ready queue, taken out of it. *)
Lemma terminate_ready_ok s h l1 i l2 term :
  heap_ok h → pm_inv s (l1 ++ i :: l2) term → stacks_inv h (pool s) (live s (l1 ++ i :: l2)) →
  ∃ s' h', process_terminate s h (p_pid (pool_at (pool s) i)) = Some (PROCESS_SUCCESS, (s', h')) ∧
    pm_inv s' (l1 ++ l2) (i :: term) ∧ running_process s' = running_process s ∧
    stacks_inv h' (pool s') (live s' (l1 ++ l2)) ∧ freed h h' (stack_base (pool_at (pool s) i)) ∧
    (∀ j, j ≠ i → same_data (pool_at (pool s) j) (pool_at (pool s') j)).
Proof.
  intros Hh Hs Hst. set (ready := l1 ++ i :: l2) in *.
  destruct (live_ready s ready term Hs) as (Hndr & Hndt & Hrl & Hlt).
  assert (i ∈ ready) as Hir by (apply elem_of_app; right; by left).
  assert (i ∈ live s ready) as Hil by (by apply Hrl).
  assert (Some i ≠ running_process s) as Hne.
  { intros E. pose proof (pi_nodup _ _ _ Hs) as Hnd. unfold live in Hnd. rewrite <- E in Hnd.
    apply NoDup_app in Hnd as (Hnd & _). inversion Hnd. contradiction. }
  assert (length (pool s) = 64%nat) as Hlen by apply Hs.
  assert (i < 64)%nat as Hi64 by (eapply (live_slot s ready term); [done|apply elem_of_app; by left]).
  destruct (remove_from_queue_ok s READY i l1 l2 (pi_ready _ _ _ Hs) Hndr)
    as (pl1 & Es1 & (L1 & O1 & S1) & D1 & N1 & P1).
  set (s1 := set_queue (with_pool s pl1) READY (head (l1 ++ l2))) in *.
  destruct (remove_isolated_ok s1 BLOCKED i N1 P1 (pi_blocked _ _ _ Hs)) as (pl2 & Es2 & L2 & A2).
  change (pool s1) with pl1 in *. set (s2 := with_pool s1 pl2) in *.
  destruct (terminate_tail_ok s s2 h i ready term Hh Hst Hil) as
    (pl & h' & -> & Hl & Hd & Ho & Hsd & Hpid & Hfree).
  - by apply (find_live s ready term).
  - by rewrite decide_False, Es1, Es2.
  - intros j. change (pool s2) with pl2. rewrite A2. apply S1.
  - intros E. by apply Hne.
  - change (pool s2) with pl2. destruct (pi_term _ _ _ Hs) as [last Ht]. exists last.
    eapply dseg_frame; [|intros j Hj; rewrite A2; apply O1|exact Ht]; [lia|].
    intros Hjr. by apply (Hlt j); [apply Hrl|].
  - done.
  - by apply Hlt.
  - change (pool s2) with pl2. lia.
  - set (s' := with_pool s2 pl <| terminated_queue := Some i |> <| pool_used := _ |> <| process_count := _ |>).
    assert (live s ready ≡ₚ i :: live s' (l1 ++ l2)) as Hperm.
    { unfold live. change (running_process s') with (running_process s). unfold ready.
      destruct (running_process s); rewrite <- Permutation_middle; [apply perm_swap|done]. }
    pose proof (live_gone s ready term _ i Hs Hperm) as Hsub.
    change (pool s2) with pl2 in *.
    exists s', h'. split; [done|]. split; [|split; [done|split; [|split; [done|done]]]].
    + eapply (retire_inv s s' ready (l1 ++ l2) term i); try done.
      * intros j. unfold ready. rewrite !elem_of_app, elem_of_cons. tauto.
      * change (pool s') with pl. lia.
      * exact (count_minus_one s ready term _ i Hs Hperm).
      * change (pool s') with pl. change (ready_queue s') with (head (l1 ++ l2)).
        destruct D1 as [last D1]. exists last.
        eapply dseg_frame; [|intros j Hj; rewrite Ho; [apply A2|]|exact D1]; [lia|].
        assert (j ∈ ready) as Hjr by (unfold ready; rewrite elem_of_app, elem_of_cons; apply elem_of_app in Hj; tauto).
        intros [->|Hjt]%elem_of_cons; [|by apply (Hlt j); [apply Hrl|]].
        apply NoDup_app in Hndr as (Hn1 & Hn2 & Hn3). inversion_clear Hn3.
        apply elem_of_app in Hj as [Hj|Hj]; [|done]. apply (Hn2 i Hj). by left.
      * intros j Hj. destruct (Hsub j Hj) as [_ Hji].
        destruct (same_data_fields _ _ (Hsd j Hji)) as (? & ? & _). done.
    + eapply stacks_after_free; [exact Hst|exact Hil|exact Hfree|].
      intros j Hj. destruct (Hsub j Hj) as [Hjl Hji].
      destruct (same_data_fields _ _ (Hsd j Hji)) as (_ & _ & ? & ? & _). done.
Qed.

(** The running process: nothing runs afterwards. *)
Lemma terminate_running_ok s h i ready term :
  heap_ok h → pm_inv s ready term → stacks_inv h (pool s) (live s ready) → running_process s = Some i →
  ∃ s' h', process_terminate s h (p_pid (pool_at (pool s) i)) = Some (PROCESS_SUCCESS, (s', h')) ∧
    pm_inv s' ready (i :: term) ∧ running_process s' = None ∧
    stacks_inv h' (pool s') (live s' ready) ∧ freed h h' (stack_base (pool_at (pool s) i)).
Proof.
  intros Hh Hs Hst Hrun.
  destruct (live_ready s ready term Hs) as (Hndr & Hndt & Hrl & Hlt).
  assert (live s ready = i :: ready) as El by (unfold live; by rewrite Hrun).
  assert (i ∈ live s ready) as Hil by (rewrite El; by left).
  set (s1 := s <| running_process := None |>).
  destruct (terminate_tail_ok s s1 h i ready term Hh Hst Hil) as
    (pl & h' & -> & Hl & Hd & Ho & Hsd & Hpid & Hfree).
  - by apply (find_live s ready term).
  - by rewrite decide_True.
  - intros j. apply same_data_refl.
  - done.
  - apply Hs.
  - done.
  - by apply Hlt.
  - change (pool s1) with (pool s). rewrite (pi_len _ _ _ Hs). eapply (live_slot s ready term); [done|].
    apply elem_of_app. by left.
  - set (s' := with_pool s1 pl <| terminated_queue := Some i |> <| pool_used := _ |> <| process_count := _ |>).
    assert (live s ready ≡ₚ i :: live s' ready) as Hperm by (by rewrite El).
    pose proof (live_gone s ready term _ i Hs Hperm) as Hsub.
    change (pool s1) with (pool s) in *.
    exists s', h'. split; [done|]. split; [|split; [done|split; [|done]]].
    + eapply (retire_inv s s' ready ready term i); try done.
      * exact (count_minus_one s ready term _ i Hs Hperm).
      * change (pool s') with pl. destruct (pi_ready _ _ _ Hs) as [last D1]. exists last.
        eapply dseg_frame; [done|intros j Hj; apply Ho|exact D1].
        intros [->|Hjt]%elem_of_cons; [by apply (Hsub i)|by apply (Hlt j); [apply Hrl|]].
      * intros j Hj. destruct (Hsub j Hj) as [_ Hji].
        destruct (same_data_fields _ _ (Hsd j Hji)) as (? & ? & _). done.
    + eapply stacks_after_free; [exact Hst|exact Hil|exact Hfree|].
      intros j Hj. destruct (Hsub j Hj) as [Hjl Hji].
      destruct (same_data_fields _ _ (Hsd j Hji)) as (_ & _ & ? & ? & _). done.
Qed.

(** A new process keeps the stacks apart. *)
Lemma stacks_create h h' s s' ready i entry_point :
  heap_ok h → stacks_inv h (pool s) (live s ready) → (i ∉ live s ready) →
  running_process s' = running_process s →
  new_stack h h' (pool_at (pool s') i) entry_point → heap_base (pool_at (pool s') i) = 0 →
  (∀ j, j ≠ i → same_data (pool_at (pool s) j) (pool_at (pool s') j)) →
  stacks_inv h' (pool s') (live s' (i :: ready)).
Proof.
  intros Hh [S1 S2 S3] Hi Hrun Hnew Hhb Hsd.
  assert (∀ j, j ∈ live s' (i :: ready) → j ≠ i → j ∈ live s ready ∧
    stack_base (pool_at (pool s') j) = stack_base (pool_at (pool s) j) ∧
    heap_base (pool_at (pool s') j) = heap_base (pool_at (pool s) j)) as Hold.
  { intros j Hj Hji. rewrite (live_cons s s' ready i Hrun) in Hj. apply elem_of_cons in Hj as [?|Hj]; [done|].
    split; [done|]. destruct (same_data_fields _ _ (Hsd j Hji)) as (_ & _ & ? & ? & _). done. }
  assert (∀ j, j ∈ live s ready → stack_base (pool_at (pool s) j) ≠ 0 →
    stack_base (pool_at (pool s) j) ≠ stack_base (pool_at (pool s') i)) as Hfresh.
  { intros j Hj Hne E. destruct (S2 j Hj Hne) as (t & _ & Ho). rewrite E in *.
    destruct Hnew as [[E0 _]|(t' & _ & _ & _ & _ & _ & Hno & _)]; [done|by apply (Hno t)]. }
  split.
  - intros j Hj. destruct (decide (j = i)) as [->|Hji]; [done|].
    destruct (Hold j Hj Hji) as (Hjl & _ & ->). by apply S1.
  - intros j Hj Hne. destruct (decide (j = i)) as [->|Hji].
    + destruct Hnew as [[E0 _]|(t' & _ & Ht & _ & _ & Ho & _)]; [done|]. exists t'. split; [done|].
      apply Ho. by right.
    + destruct (Hold j Hj Hji) as (Hjl & E & _). rewrite E in *. destruct (S2 j Hjl Hne) as (t & Ht & Ho).
      exists t. split; [done|].
      destruct Hnew as [[_ ->]|(t' & _ & _ & _ & _ & Ho' & _)]; [done|]. apply Ho'. by left.
  - intros j k Hj Hk Hjk. destruct (decide (j = i)) as [->|Hji], (decide (k = i)) as [->|Hki]; [done|..].
    + destruct (Hold k Hk Hki) as (Hkl & -> & _). intros E. destruct (decide (stack_base (pool_at (pool s) k) = 0)); [congruence|].
      by destruct (Hfresh k Hkl).
    + destruct (Hold j Hj Hji) as (Hjl & -> & _). intros E. destruct (decide (stack_base (pool_at (pool s) j) = 0)); [congruence|].
      by destruct (Hfresh j Hjl).
    + destruct (Hold j Hj Hji) as (Hjl & -> & _), (Hold k Hk Hki) as (Hkl & -> & _). by apply S3.
Qed.
End with_allocator.

(** ** Terminating a process twice *)

Lemma pool_at_set_pcb s p f q :
  (p < length (pool s))%nat →
  pool_at (pool (set_pcb s p f)) q = if decide (q = p) then f (pool_at (pool s) p) else pool_at (pool s) q.
Proof. apply pool_at_alter. Qed.

Lemma remove_head_ok s q p n :
  (p < length (pool s))%nat → p_prev (pool_at (pool s) p) = None → p_next (pool_at (pool s) p) = n →
  n ≠ Some p →
  ∃ pl, remove_from_queue s q (Some p) = set_queue (with_pool s pl) q n ∧ length pl = length (pool s) ∧
    pool_at pl p = pool_at (pool s) p <| p_next := None |> <| p_prev := None |>.
Proof.
  intros Hp Hprev Hnext Hn. unfold remove_from_queue. change (pcb_at s p) with (pool_at (pool s) p).
  rewrite Hprev, Hnext.
  assert (pcb_at (set_queue s q n) p = pool_at (pool s) p) as -> by (by destruct q).
  rewrite Hprev, Hnext.
  assert (∀ pl1, length pl1 = length (pool s) → pool_at pl1 p = pool_at (pool s) p →
    ∃ pl, set_prev (set_next (set_queue (with_pool s pl1) q n) p None) p None = set_queue (with_pool s pl) q n ∧
      length pl = length (pool s) ∧
      pool_at pl p = pool_at (pool s) p <| p_next := None |> <| p_prev := None |>) as Hclear.
  { intros pl1 L1 E1. set (pl2 := alter (λ b, b <| p_next := None |>) p pl1).
    exists (alter (λ b, b <| p_prev := None |>) p pl2). split; [by destruct q|].
    assert (length pl2 = length (pool s)) as L2 by (unfold pl2; by rewrite length_alter).
    split; [by rewrite length_alter|]. rewrite pool_at_alter, decide_True by (done || lia).
    unfold pl2. rewrite pool_at_alter, decide_True, E1 by (done || lia). done. }
  destruct n as [nx|].
  - set (pl1 := alter (λ b, b <| p_prev := None |>) nx (pool s)).
    assert (set_prev (set_queue s q (Some nx)) nx None = set_queue (with_pool s pl1) q (Some nx)) as ->
      by (by destruct q).
    assert (relinked (pool s) [nx] pl1) as (L1 & O1 & _) by (apply relinked_set_prev; by left).
    apply Hclear; [exact L1|]. apply O1. intros ->%list_elem_of_singleton. done.
  - destruct (Hclear (pool s) eq_refl eq_refl) as (pl & E & H). exists pl. split; [|exact H].
    rewrite with_pool_id in E. exact E.
Qed.

(** Adding the head of a queue to the queue again links the block to itself. *)
Lemma add_head_again_ok s q p :
  (p < length (pool s))%nat → queue_head s q = Some p →
  ∃ pl, add_to_queue s q (Some p) = with_pool s pl ∧ length pl = length (pool s) ∧
    pool_at pl p = pool_at (pool s) p <| p_next := Some p |> <| p_prev := None |>.
Proof.
  intros Hp Hq. unfold add_to_queue.
  set (pl1 := alter (λ b, b <| p_next := queue_head s q |>) p (pool s)).
  change (set_next s p (queue_head s q)) with (with_pool s pl1).
  assert (queue_head (with_pool s pl1) q = Some p) as -> by (by destruct q).
  set (pl2 := alter (λ b, b <| p_prev := Some p |>) p pl1).
  set (pl3 := alter (λ b, b <| p_prev := None |>) p pl2).
  assert (length pl1 = length (pool s)) as L1 by (unfold pl1; by rewrite length_alter).
  assert (length pl2 = length (pool s)) as L2 by (unfold pl2; by rewrite length_alter).
  exists pl3. split; [destruct q, s; cbn in *; by rewrite Hq|]. split; [unfold pl3; by rewrite length_alter|].
  unfold pl3. rewrite pool_at_alter, decide_True by (done || lia).
  unfold pl2. rewrite pool_at_alter, decide_True by (done || lia).
  unfold pl1. rewrite pool_at_alter, decide_True by (done || lia). by rewrite Hq.
Qed.

(** ** Properties *)

Lemma init_ok :
  process_manager_init.1 = PROCESS_SUCCESS ∧ pm_inv process_manager_init.2 [] [] ∧
  running_process process_manager_init.2 = Some 0%nat ∧
  pool_at (pool process_manager_init.2) 0 =
    pcb_zero <| p_name := lit "idle" |> <| p_state := PROCESS_STATE_RUNNING |>
             <| p_priority := PROCESS_PRIORITY_LOW |>.
Proof.
  split; [done|]. split; [|by split]. set (s := process_manager_init.2).
  assert (live s [] = [0%nat]) as El by done.
  split; rewrite ?El; try done.
  - by exists None.
  - by exists None.
  - by apply NoDup_singleton.
  - intros r [= <-]. split; [lia|done].
  - by intros i Hi%not_elem_of_nil.
  - intros i Hi. rewrite list_elem_of_singleton.
    assert (slot_used s i = bool_decide (i = 0%nat)) as ->; [|apply bool_decide_eq_true].
    do 64 (destruct i as [|i]; [done|]). lia.
  - intros i j ->%list_elem_of_singleton ->%list_elem_of_singleton. done.
  - split; [done|]. intros i ->%list_elem_of_singleton. done.
Qed.

(** [process_manager_init] succeeds and establishes the invariant: the idle
    process, pid 0, runs in slot 0; both queues are empty; no process owns a
    stack. *)
Theorem process_manager_init_establishes {H : Type} `{AllocatorLaws H} (h : H) :
  ∃ s, process_manager_init = (PROCESS_SUCCESS, s) ∧ pm_inv s [] [] ∧
    running_process s = Some 0%nat ∧ p_pid (pool_at (pool s) 0) = 0 ∧
    stacks_inv h (pool s) (live s []) ∧ process_get_by_pid s 0 = Some (Some 0%nat).
Proof.
  destruct init_ok as (E1 & E2 & E3 & E4).
  exists process_manager_init.2. split; [by rewrite <- E1; destruct process_manager_init|].
  split; [done|]. split; [done|]. rewrite E4. split; [done|]. split; [|done].
  assert (live process_manager_init.2 [] = [0%nat]) as El by (unfold live; by rewrite E3).
  split; rewrite El.
  - intros i ->%list_elem_of_singleton. by rewrite E4.
  - intros i ->%list_elem_of_singleton. by rewrite E4.
  - by intros i j ->%list_elem_of_singleton ->%list_elem_of_singleton.
Qed.

(** The slot of a process that was terminated last is free. *)
Lemma dead_slot_free s ready i term : pm_inv s ready (i :: term) → slot_used s i = false.
Proof.
  intros Hinv.
  destruct (live_ready _ _ _ Hinv) as (_ & _ & _ & Hdis).
  assert (i < 64)%nat as Hi.
  { apply (live_slot s ready (i :: term)); [done|]. apply elem_of_app. right. by left. }
  destruct (slot_used s i) eqn:Eu; [|done]. apply (pi_used _ _ _ Hinv i Hi) in Eu.
  destruct (Hdis i Eu). by left.
Qed.

(** C22: [process_create] of an entry point other than NULL, with room left and pids below 2^31-1,
    takes the lowest free slot and a fresh pid, queues the new process at the head
    of the ready queue with the whole time slice, and gives it a stack that is a heap
    block of its own with the exit frame at its top (or, when the heap is exhausted,
    no stack at all, without an error).  No other process changes, and the terminated queue
    keeps its head; the invariant holds afterwards unless the slot is one that is
    still linked in the terminated queue. *)
Theorem process_create_correct {H : Type} `{AllocatorLaws H} addr s (h : H) ready term name
    entry_point priority :
  heap_ok h → pm_inv s ready term → stacks_inv h (pool s) (live s ready) → entry_point ≠ 0 →
  process_count s < MAX_PROCESSES → next_pid s < 2147483647 →
  ∃ i s' h', process_create addr s h (Some name) entry_point priority =
      Some (next_pid s, (s', h')) ∧
    (i < 64)%nat ∧ slot_used s i = false ∧ (∀ j, (j < i)%nat → slot_used s j = true) ∧
    created s name priority (pool_at (pool s') i) ∧
    new_stack addr h h' (pool_at (pool s') i) entry_point ∧ heap_ok h' ∧
    stacks_inv h' (pool s') (live s' (i :: ready)) ∧
    (∀ j, j ≠ i → same_data (pool_at (pool s) j) (pool_at (pool s') j)) ∧
    running_process s' = running_process s ∧ ready_queue s' = Some i ∧
    terminated_queue s' = terminated_queue s ∧ ((i ∉ term) → pm_inv s' (i :: ready) term).
Proof.
  intros Hh Hs Hst He Hc Hp.
  destruct (allocate_pcb_ok s) as [(i & Hi & Hu & Hlow & _)|[_ Hall]].
  2:{ pose proof (live_length_bound s ready term Hs Hall). unfold MAX_PROCESSES in *. lia. }
  destruct (process_create_ok addr s h ready term name entry_point priority i Hh Hs He Hc Hp Hi Hu Hlow)
    as (s' & h' & E & Hh' & Hcr & Hhb & Hstk & Hsd & Hrun & Hrq & Htq & _ & Hinv).
  assert (i ∉ live s ready) as Hil.
  { intros Hin. apply (pi_used _ _ _ Hs) in Hin; [congruence|done]. }
  exists i, s', h'. split; [exact E|]. split_and!; try done.
  by eapply (stacks_create addr h h' s s').
Qed.

(** The heap and the process manager as the kernel starts them. *)
Definition demo_h : mm_state * ram := (demo_heap.1, mem demo_heap.2).
Lemma demo_h_ok : heap_ok demo_h.
Proof. exists fresh_heap. exact demo_heap_inv. Qed.
Lemma demo_procs : pm_inv process_manager_init.2 [] [] ∧
  stacks_inv demo_h (pool process_manager_init.2) (live process_manager_init.2 []).
Proof.
  destruct init_ok as (_ & H2 & H3 & H4). split; [done|].
  assert (live process_manager_init.2 [] = [0%nat]) as El by (unfold live; by rewrite H3).
  split; rewrite El.
  - intros i ->%list_elem_of_singleton. by rewrite H4.
  - intros i ->%list_elem_of_singleton. by rewrite H4.
  - by intros i j ->%list_elem_of_singleton ->%list_elem_of_singleton.
Qed.

Lemma process_create_correct_witness :
  ∃ i s' h', process_create 0x9000 process_manager_init.2 demo_h (Some (lit "shell")) 0x8000 2 =
    Some (1, (s', h')) ∧ pm_inv s' [i] [].
Proof.
  destruct (process_create_correct 0x9000 process_manager_init.2 demo_h [] [] (lit "shell") 0x8000 2
    demo_h_ok (proj1 demo_procs) (proj2 demo_procs)) as (i & s' & h' & E & H).
  - discriminate.
  - reflexivity.
  - reflexivity.
  - exists i, s', h'. split; [exact E|]. apply H. by intros Hi%not_elem_of_nil.
Defined.

(** C18: [process_terminate] of a process in the ready queue takes it out of the queue,
    wherever it stands, frees its slot and exactly its stack, and keeps the
    invariant for the others, whose blocks do not change. *)
Theorem process_terminate_ready {H : Type} `{AllocatorLaws H} s (h : H) l1 i l2 term :
  heap_ok h → pm_inv s (l1 ++ i :: l2) term → stacks_inv h (pool s) (live s (l1 ++ i :: l2)) →
  ∃ s' h', process_terminate s h (p_pid (pool_at (pool s) i)) = Some (PROCESS_SUCCESS, (s', h')) ∧
    pm_inv s' (l1 ++ l2) (i :: term) ∧ running_process s' = running_process s ∧
    slot_used s' i = false ∧
    stacks_inv h' (pool s') (live s' (l1 ++ l2)) ∧ freed h h' (stack_base (pool_at (pool s) i)) ∧
    (∀ j, j ≠ i → same_data (pool_at (pool s) j) (pool_at (pool s') j)).
Proof.
  intros Hh Hs Hst. destruct (terminate_ready_ok s h l1 i l2 term Hh Hs Hst)
    as (s' & h' & E & Hinv & Hrun & Hst' & Hf & Hsd).
  exists s', h'. split_and!; try done.
  by apply (dead_slot_free s' (l1 ++ l2) i term).
Qed.

(** One process besides the idle one. *)
Lemma demo_created :
  ∃ i s' h', pm_inv s' [i] [] ∧ heap_ok (h' : mm_state * ram) ∧ stacks_inv h' (pool s') (live s' [i]) ∧
    running_process s' = Some 0%nat ∧ process_count s' = 2.
Proof.
  destruct (allocate_pcb_ok process_manager_init.2) as [(i & Hi & Hu & Hlow & _)|[_ Hall]].
  2:{ pose proof (Hall 1%nat ltac:(lia)) as E. discriminate E. }
  assert (0x8000 ≠ 0) as Hentry by discriminate.
  destruct (process_create_ok 0x9000 process_manager_init.2 demo_h [] [] (lit "shell") 0x8000 2 i
    demo_h_ok (proj1 demo_procs) Hentry eq_refl eq_refl Hi Hu Hlow)
    as (s' & h' & E & Hh' & Hcr & Hhb & Hstk & Hsd & Hrun & Hrq & Htq & _ & Hinv).
  assert (pm_inv s' [i] []) as Hs' by (apply Hinv; by intros H0%not_elem_of_nil).
  exists i, s', h'. split; [exact Hs'|]. split; [done|]. split; [|split; [by rewrite Hrun|]].
  - assert (i ∉ live process_manager_init.2 []) as Hil.
    { intros Hin. apply (pi_used _ _ _ (proj1 demo_procs) i Hi) in Hin. by rewrite Hu in Hin. }
    exact (stacks_create 0x9000 demo_h h' process_manager_init.2 s' [] i 0x8000 demo_h_ok
             (proj2 demo_procs) Hil Hrun Hstk Hhb Hsd).
  - rewrite (pi_count _ _ _ Hs'). unfold live. by rewrite Hrun.
Qed.

Lemma process_terminate_ready_witness :
  ∃ i s s' h', process_terminate s h' (p_pid (pool_at (pool s) i)) = Some (PROCESS_SUCCESS, s') ∧
    process_count s = 2 ∧ slot_used s'.1 i = false ∧ heap_ok (h' : mm_state * ram).
Proof.
  destruct demo_created as (i & s & h & Hs & Hh & Hst & _ & Hc).
  destruct (process_terminate_ready s h [] i [] [] Hh Hs Hst) as (s' & h' & E & _ & _ & Hu & _).
  exists i, s, (s', h'), h. split; [exact E|]. split; [exact Hc|]. split; [exact Hu|exact Hh].
Defined.

(** C8: [process_terminate] of the running process frees its slot and its stack and
    leaves no process running: it clears [running_process] before it compares
    with it, so the process it should schedule next is never chosen, and the
    scheduler does nothing from then on, whatever waits in the ready queue. *)
Theorem process_terminate_running {H : Type} `{AllocatorLaws H} s (h : H) i ready term :
  heap_ok h → pm_inv s ready term → stacks_inv h (pool s) (live s ready) → running_process s = Some i →
  ∃ s' h', process_terminate s h (p_pid (pool_at (pool s) i)) = Some (PROCESS_SUCCESS, (s', h')) ∧
    pm_inv s' ready (i :: term) ∧ running_process s' = None ∧
    stacks_inv h' (pool s') (live s' ready) ∧ freed h h' (stack_base (pool_at (pool s) i)) ∧
    process_scheduler s' = Some (s' <| scheduler_ticks := scheduler_ticks s' +w 1 |>) ∧
    process_yield s' = Some s'.
Proof.
  intros Hh Hs Hst Hrun.
  destruct (terminate_running_ok s h i ready term Hh Hs Hst Hrun) as (s' & h' & E & Hinv & Hn & Hst' & Hf).
  exists s', h'. split_and!; try done.
  - unfold process_scheduler. set (s1 := s' <| scheduler_ticks := _ |>).
    change (running_process s1) with (running_process s'). by rewrite Hn.
  - unfold process_yield. by rewrite Hn.
Qed.

Lemma process_terminate_running_witness :
  ∃ s' (h' : mm_state * ram), process_terminate process_manager_init.2 demo_h 0 =
    Some (PROCESS_SUCCESS, (s', h')) ∧ running_process s' = None ∧ process_yield s' = Some s'.
Proof.
  destruct (process_terminate_running process_manager_init.2 demo_h 0%nat [] [] demo_h_ok (proj1 demo_procs)
    (proj2 demo_procs) (proj1 (proj2 (proj2 init_ok)))) as (s' & h' & E & _ & Hr & _ & _ & _ & Hy).
  exists s', h'. split; [exact E|]. split; [exact Hr|exact Hy].
Defined.

(** [process_yield] in full: the stack fields of the caller do not change either. *)
Lemma yield_ok s ready term r :
  pm_inv s ready term → running_process s = Some r →
  ∃ s', process_yield s = Some s' ∧ pm_inv s' ready term ∧ running_process s' = Some r ∧
    remaining_slice (pool_at (pool s') r) = time_slice (pool_at (pool s) r) ∧
    last_run_time (pool_at (pool s') r) = current_tick s ∧
    scheduler_ticks s' = scheduler_ticks s +w 1 ∧
    (∀ i, i ≠ r → same_data (pool_at (pool s) i) (pool_at (pool s') i)) ∧
    stack_base (pool_at (pool s') r) = stack_base (pool_at (pool s) r) ∧
    heap_base (pool_at (pool s') r) = heap_base (pool_at (pool s) r).
Proof.
  intros Hs Hr. unfold process_yield. rewrite Hr.
  set (pl := alter (λ b, b <| remaining_slice := 0 |>) r (pool s)).
  change (set_pcb s r _) with (with_pool s pl). set (s1 := with_pool s pl).
  assert (r < length (pool s))%nat as Hlt by (rewrite (pi_len _ _ _ Hs); by apply (pi_running _ _ _ Hs)).
  assert (∀ i, pool_at pl i = if decide (i = r) then pool_at (pool s) r <| remaining_slice := 0 |>
                              else pool_at (pool s) i) as A by (intros i; by apply pool_at_alter).
  assert (pm_inv s1 ready term) as Hs1.
  { eapply (pm_inv_same s s1); try done; change (pool s1) with pl.
    - by apply length_alter.
    - by apply dll_set_data; [|apply Hs].
    - by apply dll_set_data; [|apply Hs].
    - intros i _. rewrite A. by case_decide; [subst|]. }
  destruct (reschedule_ok s1 ready term r Hs1 Hr) as (s' & E & Hinv & Hrun & Htick & Hsd & Hrem & Hlast & Hsb & Hhb).
  { change (pool s1) with pl. rewrite A, decide_True by done. done. }
  change (pool s1) with pl in *. rewrite A, decide_True in Hrem, Hsb, Hhb by done.
  exists s'. split_and!; try done. intros i Hi. specialize (Hsd i Hi). by rewrite A, decide_False in Hsd.
Qed.

(** C31: the scheduler never hands the processor over: the running process is put at the
    head of the ready queue and the head is what is taken next, so after
    [process_yield], and after [process_scheduler] with an exhausted time slice,
    the same process runs, with a full slice, and the ready queue is as it was,
    however many processes wait in it. *)
Theorem process_yield_resumes_caller s ready term r :
  pm_inv s ready term → running_process s = Some r →
  ∃ s', process_yield s = Some s' ∧ pm_inv s' ready term ∧ running_process s' = Some r ∧
    remaining_slice (pool_at (pool s') r) = time_slice (pool_at (pool s) r) ∧
    last_run_time (pool_at (pool s') r) = current_tick s ∧
    scheduler_ticks s' = scheduler_ticks s +w 1 ∧
    (∀ i, i ≠ r → same_data (pool_at (pool s) i) (pool_at (pool s') i)).
Proof.
  intros Hs Hr. destruct (yield_ok s ready term r Hs Hr) as (s' & ? & ? & ? & ? & ? & ? & ? & _).
  by exists s'.
Qed.

Lemma process_yield_resumes_caller_witness :
  ∃ i s s', process_count s = 2 ∧ process_yield s = Some s' ∧ pm_inv s' [i] [] ∧
    running_process s' = Some 0%nat.
Proof.
  destruct demo_created as (i & s & h & Hs & _ & _ & Hrun & Hc).
  destruct (process_yield_resumes_caller s [i] [] 0 Hs Hrun) as (s' & E & Hs' & Hr & _).
  exists i, s, s'. split; [exact Hc|]. split; [exact E|]. split; [exact Hs'|exact Hr].
Defined.

(** The blocks [process_get_list] copies from a queue. *)
Lemma list_queue_ok s room prev h l last :
  dseg (pool s) prev h l last None → list_queue room s h = take room (pool_at (pool s) <$> l).
Proof.
  revert room prev h. induction l as [|i l IH]; intros room prev h; simpl.
  - intros [-> _]. by destruct room.
  - intros (-> & _ & _ & Hd). destruct room as [|room]; [done|]. simpl. f_equal.
    by eapply IH.
Qed.

(** The queries agree with the queues: [process_get_by_pid] of the pid of a live
    process finds that process, and finds nothing only when no live or
    terminated process has the pid; [process_get_list] is the running process
    followed by the ready queue, cut to the caller's room. *)
Theorem process_queries_correct s ready term :
  pm_inv s ready term →
  (∀ i, i ∈ live s ready → process_get_by_pid s (p_pid (pool_at (pool s) i)) = Some (Some i)) ∧
  (∀ pid, ∃ r, process_get_by_pid s pid = Some r ∧
     match r with
     | Some i => i ∈ live s ready ++ term ∧ p_pid (pool_at (pool s) i) = pid
     | None => ∀ i, i ∈ live s ready ++ term → p_pid (pool_at (pool s) i) ≠ pid
     end) ∧
  ∀ n, 0 <= n → process_get_list s n = take (Z.to_nat n) (pool_at (pool s) <$> live s ready).
Proof.
  intros Hs. split; [intros i Hi; by apply (find_live s ready term)|]. split.
  - intros pid. rewrite (get_by_pid_ok s ready term pid Hs). eexists. split; [reflexivity|].
    destruct (find_pid (pool s) (live s ready ++ term) pid) as [i|] eqn:E.
    + by apply find_pid_Some in E.
    + by apply find_pid_None.
  - intros n Hn. unfold process_get_list. rewrite (pi_blocked _ _ _ Hs).
    destruct (pi_ready _ _ _ Hs) as [last Hd].
    rewrite !(list_queue_ok s _ _ _ _ _ Hd). unfold live.
    assert (∀ room, list_queue room s None = []) as Hnone by (by intros []).
    rewrite Hnone, app_nil_r. destruct (running_process s) as [r|]; [|by rewrite Nat.sub_0_r].
    change (pcb_at s r) with (pool_at (pool s) r).
    destruct (Z.ltb_spec 0 n).
    + destruct (Z.to_nat n) as [|m] eqn:Em; [lia|]. simpl. by rewrite Nat.sub_0_r.
    + by replace n with 0 by lia.
Qed.

Lemma process_queries_correct_witness :
  process_get_list process_manager_init.2 5 = [pool_at (pool process_manager_init.2) 0].
Proof.
  destruct (process_queries_correct process_manager_init.2 [] [] (proj1 demo_procs)) as (_ & _ & Hl).
  rewrite Hl; [reflexivity|discriminate].
Defined.

(** C40: terminating twice the process that was terminated last (the head of the terminated
    queue) is not refused: when no live process has its pid, it has no heap block and the second free of
    its stack returns, a second [process_terminate] succeeds, replaces the ready queue by the rest of the terminated
    queue, so every ready process is lost, decrements the process count again,
    and links the block to itself: from then on the search of the terminated queue for any
    other pid, hence [process_get_by_pid] of an unknown one, never ends. *)
Theorem process_terminate_twice {H : Type} `{AllocatorLaws H} s (h h' : H) i ready term :
  pm_inv s ready (i :: term) →
  (∀ j, j ∈ live s ready → p_pid (pool_at (pool s) j) ≠ p_pid (pool_at (pool s) i)) →
  heap_base (pool_at (pool s) i) = 0 →
  (if negb (stack_base (pool_at (pool s) i) =? 0) then mfree h (stack_base (pool_at (pool s) i))
   else Some h) = Some h' →
  ∃ s', process_terminate s h (p_pid (pool_at (pool s) i)) = Some (PROCESS_SUCCESS, (s', h')) ∧
    ready_queue s' = head term ∧ process_count s' = process_count s -w 1 ∧
    ∀ pid fuel, pid ≠ p_pid (pool_at (pool s) i) →
      loop fuel (find_pid_step s' pid) (terminated_queue s') = None.
Proof.
  intros Hs Hpid Hhb Hfree.
  assert (process_get_by_pid s (p_pid (pool_at (pool s) i)) = Some (Some i)) as Hget.
  { rewrite (get_by_pid_ok s ready (i :: term)) by done. rewrite find_pid_app.
    rewrite (proj2 (find_pid_None _ (live s ready) _)) by done. by rewrite find_pid_cons, Z.eqb_refl. }
  destruct (live_ready _ _ _ Hs) as (_ & Hnt & _ & Hdis). inversion_clear Hnt as [|? ? Hit Hnt'].
  assert (Some i ≠ running_process s) as Hne.
  { intros E. apply (Hdis i); [|by left]. unfold live. rewrite <- E. by left. }
  destruct (pi_term _ _ _ Hs) as [last Ht]. pose proof Ht as (Htq & Hlt & Hprev & Hrest).
  apply dseg_head in Hrest as Hnext.
  destruct (remove_head_ok s READY i (head term) Hlt Hprev Hnext) as (pl1 & Er1 & L1 & A1).
  { destruct term as [|x term]; [done|]. intros [= ->]. apply Hit. by left. }
  set (s1 := set_queue (with_pool s pl1) READY (head term)) in *.
  destruct (remove_head_ok s1 BLOCKED i None) as (pl2 & Er2 & L2 & A2);
    [change (pool s1) with pl1; lia|change (pool s1) with pl1; by rewrite A1..|done|].
  change (pool s1) with pl1 in *. set (s2 := set_queue (with_pool s1 pl2) BLOCKED None) in *.
  set (pl3 := alter (λ b, b <| p_state := PROCESS_STATE_TERMINATED |>) i pl2).
  set (s3 := with_pool s2 pl3). assert (length pl3 = length (pool s)) as L3 by (unfold pl3; rewrite length_alter; lia).
  assert (pool_at pl3 i = pool_at pl2 i <| p_state := PROCESS_STATE_TERMINATED |>) as A3.
  { unfold pl3. by rewrite pool_at_alter, decide_True by (done || lia). }
  destruct (add_head_again_ok s3 TERMINATED i) as (pl4 & Er4 & L4 & A4);
    [change (pool s3) with pl3; lia|exact Htq|].
  change (pool s3) with pl3 in *. rewrite A3, A2, A1 in A4.
  unfold process_terminate. rewrite Hget. cbn [mbind option_bind].
  rewrite (decide_False (P := Some i = running_process s)) by exact Hne. rewrite Er1, Er2.
  change (set_state s2 i PROCESS_STATE_TERMINATED) with s3.
  rewrite Er4. change (pcb_at (with_pool s3 pl4) i) with (pool_at pl4 i).
  assert (stack_base (pool_at pl4 i) = stack_base (pool_at (pool s) i)) as -> by (by rewrite A4).
  assert (heap_base (pool_at pl4 i) = 0) as -> by (by rewrite A4).
  rewrite Hfree. cbn [mbind option_bind]. rewrite Z.eqb_refl. cbn [negb deallocate_pcb].
  rewrite decide_False by exact Hne. eexists. split; [done|]. split; [done|]. split; [done|].
  intros pid fuel Hne'. apply (loop_diverges _ (λ c, c = Some i)); [|exact Htq].
  intros c ->. exists (Some i). split; [|done]. unfold find_pid_step.
  match goal with |- context [pcb_at ?st i] => change (pcb_at st i) with (pool_at pl4 i) end.
  rewrite A4. cbn. by rewrite (proj2 (Z.eqb_neq _ _)).
Qed.

(** The manager after the idle process, which has no stack, was terminated. *)
Lemma demo_terminated (h : mm_state * ram) :
  ∃ s, process_terminate process_manager_init.2 h 0 = Some (PROCESS_SUCCESS, (s, h)) ∧
    stack_base (pool_at (pool s) 0) = 0 ∧ heap_base (pool_at (pool s) 0) = 0 ∧
    p_pid (pool_at (pool s) 0) = 0.
Proof. eexists. split; [vm_compute; reflexivity|]. vm_compute. done. Qed.

Lemma process_terminate_twice_witness :
  ∃ s s' : procs, process_terminate s demo_h 0 = Some (PROCESS_SUCCESS, (s', demo_h)) ∧
    process_count s' = process_count s -w 1 ∧
    ∀ fuel, loop fuel (find_pid_step s' 7) (terminated_queue s') = None.
Proof.
  destruct (terminate_running_ok process_manager_init.2 demo_h 0%nat [] [] demo_h_ok (proj1 demo_procs)
    (proj2 demo_procs) (proj1 (proj2 (proj2 init_ok)))) as (s & h' & E & Hs & Hrun & _).
  destruct (demo_terminated demo_h) as (s2 & E2 & Hsb & Hhb & Hpid).
  assert (p_pid (pool_at (pool process_manager_init.2) 0) = 0) as Hp0
    by (by rewrite (proj2 (proj2 (proj2 init_ok)))).
  rewrite Hp0, E2 in E. apply (f_equal (λ r, default s (fst ∘ snd <$> r))) in E. cbn in E. subst s2.
  destruct (process_terminate_twice s demo_h demo_h 0%nat [] [] Hs) as (s' & E' & _ & Hc & Hl).
  - intros j Hj. unfold live in Hj. rewrite Hrun in Hj. destruct (not_elem_of_nil _ Hj).
  - exact Hhb.
  - rewrite Hsb. reflexivity.
  - exists s, s'. rewrite Hpid in E'. split; [exact E'|]. split; [exact Hc|].
    intros fuel. apply Hl. rewrite Hpid. discriminate.
Defined.
