(* ===== verification/ProcessSteps.v ===== *)
(** * The process manager keeps its invariant

    For every operation that a system call or a shell command runs on the process
    manager: it returns, and [procs_ok] (the queues, the pool and the stacks are
    consistent) and the heap's invariant hold again afterwards; the heap is the
    only memory touched. *)

From S2P Require Import Prelude Ram CString Vga Alloc Process ProcessCorrect.
Set Default Goal Selector "!".

Section steps.
Context {H : Type} `{AllocatorLaws H} (process_terminate_addr : Z).
Implicit Types (s : procs) (h : H).

Definition procs_ok s h : Prop :=
  ∃ ready term, pm_inv s ready term ∧ stacks_inv h (pool s) (live s ready).

(** What an operation leaves. *)
Definition procs_step h s' h' : Prop := procs_ok s' h' ∧ heap_ok h' ∧ heap_frame h h'.

Lemma procs_step_refl s h : heap_ok h → procs_ok s h → procs_step h s h.
Proof. split; [done|]. split; [done|apply heap_frame_refl]. Qed.

(** Only the blocks owned matter. *)
Lemma stacks_inv_owns h h' pl l :
  (∀ q t, owns h q t → owns h' q t) → stacks_inv h pl l → stacks_inv h' pl l.
Proof.
  intros Ho [S1 S2 S3]. split; [done| |done]. intros i Hi Hne.
  destruct (S2 i Hi Hne) as (t & Ht & Hw). exists t. split; [done|by apply Ho].
Qed.

Lemma procs_ok_owns s h h' :
  (∀ q t, owns h q t → owns h' q t) → procs_ok s h → procs_ok s h'.
Proof.
  intros Ho (ready & term & Hs & Hst). exists ready, term. split; [done|].
  by eapply stacks_inv_owns.
Qed.

(** Blocks whose stack fields are the same. *)
Lemma stacks_inv_fields h pl pl' l :
  (∀ i, i ∈ l → stack_base (pool_at pl' i) = stack_base (pool_at pl i) ∧
                heap_base (pool_at pl' i) = heap_base (pool_at pl i)) →
  stacks_inv h pl l → stacks_inv h pl' l.
Proof.
  intros E [S1 S2 S3]. split.
  - intros i Hi. destruct (E i Hi) as [_ ->]. by apply S1.
  - intros i Hi. destruct (E i Hi) as [-> _]. by apply S2.
  - intros i j Hi Hj. destruct (E i Hi) as [-> _], (E j Hj) as [-> _]. by apply S3.
Qed.

(** Assigning a field that the invariant does not mention. *)
Lemma set_pcb_inv s h p f ready term :
  (∀ b, p_next (f b) = p_next b ∧ p_prev (f b) = p_prev b ∧ p_pid (f b) = p_pid b ∧
        p_state (f b) = p_state b ∧ stack_base (f b) = stack_base b ∧ heap_base (f b) = heap_base b) →
  pm_inv s ready term → stacks_inv h (pool s) (live s ready) →
  pm_inv (set_pcb s p f) ready term ∧
  stacks_inv h (pool (set_pcb s p f)) (live (set_pcb s p f) ready).
Proof.
  intros Hf Hs Hst.
  assert (∀ i, p_pid (pool_at (alter f p (pool s)) i) = p_pid (pool_at (pool s) i) ∧
    p_state (pool_at (alter f p (pool s)) i) = p_state (pool_at (pool s) i) ∧
    stack_base (pool_at (alter f p (pool s)) i) = stack_base (pool_at (pool s) i) ∧
    heap_base (pool_at (alter f p (pool s)) i) = heap_base (pool_at (pool s) i)) as Hat.
  { intros i. destruct (decide (p < length (pool s))%nat) as [Hp|Hp].
    - rewrite pool_at_alter by done. case_decide as E; [subst i|done].
      by destruct (Hf (pool_at (pool s) p)) as (_ & _ & ? & ? & ? & ?).
    - assert (alter f p (pool s) = pool s) as ->; [|done]. apply list_eq. intros j.
      destruct (decide (j = p)) as [->|]; [|by rewrite list_lookup_alter_ne].
      by rewrite list_lookup_alter_eq, (lookup_ge_None_2 (pool s) p) by lia. }
  assert (∀ hd l, dll (pool s) hd l → dll (alter f p (pool s)) hd l) as Hd.
  { intros hd l. apply dll_set_data. intros b. by destruct (Hf b) as (? & ? & _). }
  split.
  - eapply (pm_inv_same s); try done; [by apply length_alter|apply Hd, Hs|apply Hd, Hs|].
    intros i _. by destruct (Hat i) as (? & ? & _).
  - apply (stacks_inv_fields h (pool s)); [|exact Hst]. intros i _. by destruct (Hat i) as (_ & _ & ? & ?).
Qed.

Lemma set_pcb_step s h p f :
  (∀ b, p_next (f b) = p_next b ∧ p_prev (f b) = p_prev b ∧ p_pid (f b) = p_pid b ∧
        p_state (f b) = p_state b ∧ stack_base (f b) = stack_base b ∧ heap_base (f b) = heap_base b) →
  procs_ok s h → procs_ok (set_pcb s p f) h.
Proof. intros Hf (ready & term & Hs & Hst). exists ready, term. by apply set_pcb_inv. Qed.

Lemma process_yield_step s h :
  procs_ok s h → ∃ s', process_yield s = Some s' ∧ procs_ok s' h.
Proof.
  intros (ready & term & Hs & Hst). destruct (running_process s) as [r|] eqn:Er.
  - destruct (yield_ok s ready term r Hs Er) as (s' & E & Hs' & Hr & _ & _ & _ & Hsd & Hsb & Hhb).
    exists s'. split; [exact E|]. exists ready, term. split; [exact Hs'|].
    assert (live s' ready = live s ready) as -> by (unfold live; by rewrite Hr, Er).
    apply (stacks_inv_fields h (pool s)); [|exact Hst]. intros i _.
    destruct (decide (i = r)) as [->|Hi]; [done|].
    by destruct (same_data_fields _ _ (Hsd i Hi)) as (_ & _ & ? & ? & _).
  - exists s. unfold process_yield. rewrite Er. split; [done|]. by exists ready, term.
Qed.

Lemma process_set_priority_step s h pid priority :
  procs_ok s h → ∃ r s', process_set_priority s pid priority = Some (r, s') ∧ procs_ok s' h.
Proof.
  intros Hok. pose proof Hok as (ready & term & Hs & _). unfold process_set_priority.
  rewrite (get_by_pid_ok s ready term pid Hs). cbn [mbind option_bind].
  destruct (find_pid _ _ _) as [p|]; eexists _, _; (split; [reflexivity|]); [|exact Hok].
  by apply set_pcb_step.
Qed.

(** A new process; its slot must not be linked in the terminated queue still, which
    holds when nothing has terminated yet. *)
Lemma process_create_step s h name entry_point priority :
  heap_ok h → procs_ok s h →
  entry_point = 0 ∨ terminated_queue s = None ∧ next_pid s < 2147483647 →
  ∃ r s' h', process_create process_terminate_addr s h (Some name) entry_point priority =
    Some (r, (s', h')) ∧ procs_step h s' h'.
Proof.
  intros Hh Hok Hc. pose proof Hok as (ready & term & Hs & Hst).
  destruct (decide (entry_point = 0)) as [->|He].
  { exists PROCESS_ERROR_INVALID_PARAM, s, h. split; [done|by apply procs_step_refl]. }
  destruct Hc as [?|[Ht Hp]]; [done|].
  destruct (decide (process_count s < MAX_PROCESSES)) as [Hlt|Hge].
  2:{ exists PROCESS_ERROR_QUEUE_FULL, s, h. split; [|by apply procs_step_refl].
      unfold process_create. rewrite (proj2 (Z.eqb_neq _ _) He), (pi_max _ _ _ Hs).
      by rewrite (proj2 (Z.leb_le _ _)) by lia. }
  destruct (allocate_pcb_ok s) as [(i & Hi & Hu & Hlow & _)|[_ Hall]].
  2:{ pose proof (live_length_bound s ready term Hs Hall). unfold MAX_PROCESSES in *. lia. }
  destruct (process_create_ok process_terminate_addr s h ready term name entry_point priority i
    Hh Hs He Hlt Hp Hi Hu Hlow) as (s' & h' & E & Hh' & _ & Hhb & Hstk & Hsd & Hrun & _ & _ & _ & Hinv).
  exists (next_pid s), s', h'. split; [exact E|].
  assert (i ∉ live s ready) as Hil by (intros Hin; apply (pi_used _ _ _ Hs) in Hin; congruence).
  split; [|split; [exact Hh'|]].
  - exists (i :: ready), term. split.
    + apply Hinv. destruct (pi_term _ _ _ Hs) as [last Hd]. rewrite (dseg_head _ _ _ _ _ Hd) in Ht.
      destruct term; [|done]. by intros Hin%not_elem_of_nil.
    + by eapply (stacks_create process_terminate_addr h h' s s').
  - destruct Hstk as [[_ ->]|(t & _ & _ & _ & Hfr & _)]; [apply heap_frame_refl|exact Hfr].
Qed.

(** Terminating a process that has not terminated before, or an unknown one. *)
Lemma process_terminate_step s h pid :
  heap_ok h → procs_ok s h →
  (∀ i, process_get_by_pid s pid = Some (Some i) → slot_used s i = true) →
  ∃ r s' h', process_terminate s h pid = Some (r, (s', h')) ∧ procs_step h s' h'.
Proof.
  intros Hh Hok Hlive. pose proof Hok as (ready & term & Hs & Hst).
  pose proof (get_by_pid_ok s ready term pid Hs) as Hget.
  destruct (find_pid _ _ _) as [i|] eqn:Ef.
  2:{ exists PROCESS_ERROR_NOT_FOUND, s, h. split; [|by apply procs_step_refl].
      unfold process_terminate. by rewrite Hget. }
  apply find_pid_Some in Ef as [Hi <-].
  assert (i < 64)%nat as Hi64 by (by apply (live_slot s ready term)).
  apply Hlive, (pi_used _ _ _ Hs) in Hget as Hil; [|done].
  unfold live in Hil. destruct (running_process s) as [r|] eqn:Er;
    [apply elem_of_cons in Hil as [->|Hil]|].
  - destruct (terminate_running_ok s h r ready term Hh Hs Hst Er) as (s' & h' & E & Hs' & _ & Hst' & Hf).
    exists PROCESS_SUCCESS, s', h'. split; [exact E|]. split; [by exists ready, (r :: term)|].
    split; apply Hf.
  - apply list_elem_of_split in Hil as (l1 & l2 & ->).
    destruct (terminate_ready_ok s h l1 i l2 term Hh Hs Hst) as (s' & h' & E & Hs' & _ & Hst' & Hf & _).
    exists PROCESS_SUCCESS, s', h'. split; [exact E|]. split; [by exists (l1 ++ l2), (i :: term)|].
    split; apply Hf.
  - apply list_elem_of_split in Hil as (l1 & l2 & ->).
    destruct (terminate_ready_ok s h l1 i l2 term Hh Hs Hst) as (s' & h' & E & Hs' & _ & Hst' & Hf & _).
    exists PROCESS_SUCCESS, s', h'. split; [exact E|]. split; [by exists (l1 ++ l2), (i :: term)|].
    split; apply Hf.
Qed.
End steps.
