(* ===== verification/SysTable.v ===== *)
(** * The system call table (kernel/syscall.c, first half)

    The table of 64 entries, registration and lookup.  A handler is a function
    pointer in the source; here it is the name of the function, and Syscall.v
    says what each of them does.  The proofs show the table to be a finite map
    from call numbers to entries and relate it to the numbers of
    kernel/syscall.h. *)

From S2P Require Import Prelude Ram CString Vga.
Set Default Goal Selector "!".

(** ** Data *)

Definition MAX_SYSCALLS : Z := 64.

Definition SYSCALL_SUCCESS : Z := 0.
Definition SYSCALL_ERROR : Z := -1.
Definition SYSCALL_INVALID : Z := -2.

Definition SYS_EXIT : Z := 1.
Definition SYS_FORK : Z := 2.
Definition SYS_EXEC : Z := 3.
Definition SYS_WAIT : Z := 4.
Definition SYS_GETPID : Z := 5.
Definition SYS_GETPPID : Z := 6.
Definition SYS_KILL : Z := 7.
Definition SYS_YIELD : Z := 8.
Definition SYS_OPEN : Z := 10.
Definition SYS_CLOSE : Z := 11.
Definition SYS_READ : Z := 12.
Definition SYS_WRITE : Z := 13.
Definition SYS_SEEK : Z := 14.
Definition SYS_TELL : Z := 15.
Definition SYS_CREATE : Z := 16.
Definition SYS_DELETE : Z := 17.
Definition SYS_RENAME : Z := 18.
Definition SYS_MKDIR : Z := 19.
Definition SYS_RMDIR : Z := 20.
Definition SYS_CHDIR : Z := 21.
Definition SYS_GETCWD : Z := 22.
Definition SYS_LISTDIR : Z := 23.
Definition SYS_MALLOC : Z := 30.
Definition SYS_FREE : Z := 31.
Definition SYS_MMAP : Z := 32.
Definition SYS_MUNMAP : Z := 33.
Definition SYS_PS : Z := 40.
Definition SYS_SETPRIORITY : Z := 41.
Definition SYS_GETINFO : Z := 42.

(** The functions a [syscall_handler_t] can designate. *)
Inductive sys_fun : Set :=
| fn_exit | fn_fork | fn_exec | fn_wait | fn_getpid | fn_getppid | fn_kill | fn_yield
| fn_open | fn_close | fn_read | fn_write | fn_seek | fn_tell | fn_create | fn_delete
| fn_rename | fn_mkdir | fn_rmdir | fn_chdir | fn_getcwd | fn_listdir
| fn_malloc | fn_free | fn_mmap | fn_munmap
| fn_ps | fn_setpriority | fn_getinfo.
#[export] Instance sys_fun_eq_dec : EqDecision sys_fun.
Proof. solve_decision. Defined.

(** [syscall_entry_t]; the handler is [None] for NULL, and a NULL string, which
    is never read, is the empty one. *)
Record syscall_entry := MkEntry {
  e_handler : option sys_fun;
  e_name : list Z;
  e_description : list Z;
}.
#[export] Instance eta_syscall_entry : Eta syscall_entry := λ r,
  MkEntry (e_handler r) (e_name r) (e_description r).

(** [syscall_args_t] *)
Record syscall_args := MkArgs {
  a_num : Z; a_arg1 : Z; a_arg2 : Z; a_arg3 : Z; a_arg4 : Z; a_arg5 : Z;
}.

(** The static variables of syscall.c. *)
Record syscalls := MkSyscalls {
  syscall_table : list syscall_entry;
  syscall_count : Z;
  current_syscall_args : syscall_args;
}.
#[export] Instance eta_syscalls : Eta syscalls := λ r,
  MkSyscalls (syscall_table r) (syscall_count r) (current_syscall_args r).

(** ** Operations *)

Definition entry_zero : syscall_entry := MkEntry None [] [].
Definition table_entry (t : syscalls) (n : Z) : syscall_entry :=
  nth (Z.to_nat n) (syscall_table t) entry_zero.

Definition syscall_register (t : syscalls) (syscall_num : Z) (handler : option sys_fun)
    (name description : list Z) : Z * syscalls :=
  if (MAX_SYSCALLS <=? syscall_num) || bool_decide (handler = None) then (SYSCALL_ERROR, t)
  else if bool_decide (e_handler (table_entry t syscall_num) ≠ None) then (SYSCALL_ERROR, t)
  else
    let t := t <| syscall_table :=
      <[Z.to_nat syscall_num := MkEntry handler name description]> (syscall_table t) |> in
    let t := if syscall_count t <=? syscall_num
             then t <| syscall_count := syscall_num +w 1 |> else t in
    (SYSCALL_SUCCESS, t).

(** [None] is NULL; otherwise the entry pointed to. *)
Definition syscall_find (t : syscalls) (syscall_num : Z) : option syscall_entry :=
  if MAX_SYSCALLS <=? syscall_num then None
  else if bool_decide (e_handler (table_entry t syscall_num) = None) then None
  else Some (table_entry t syscall_num).

(** The calls of [syscall_register] in [syscall_init], in program order. *)
Definition registrations : list (Z * (sys_fun * (string * string))) := [
  (SYS_EXIT, (fn_exit, ("exit", "Terminate current process")));
  (SYS_FORK, (fn_fork, ("fork", "Create new process")));
  (SYS_EXEC, (fn_exec, ("exec", "Execute program")));
  (SYS_WAIT, (fn_wait, ("wait", "Wait for child process")));
  (SYS_GETPID, (fn_getpid, ("getpid", "Get process ID")));
  (SYS_GETPPID, (fn_getppid, ("getppid", "Get parent process ID")));
  (SYS_KILL, (fn_kill, ("kill", "Send signal to process")));
  (SYS_YIELD, (fn_yield, ("yield", "Yield CPU to other process")));
  (SYS_OPEN, (fn_open, ("open", "Open file")));
  (SYS_CLOSE, (fn_close, ("close", "Close file")));
  (SYS_READ, (fn_read, ("read", "Read from file")));
  (SYS_WRITE, (fn_write, ("write", "Write to file")));
  (SYS_SEEK, (fn_seek, ("seek", "Seek file position")));
  (SYS_TELL, (fn_tell, ("tell", "Get file position")));
  (SYS_CREATE, (fn_create, ("create", "Create file")));
  (SYS_DELETE, (fn_delete, ("delete", "Delete file")));
  (SYS_RENAME, (fn_rename, ("rename", "Rename file")));
  (SYS_MKDIR, (fn_mkdir, ("mkdir", "Create directory")));
  (SYS_RMDIR, (fn_rmdir, ("rmdir", "Remove directory")));
  (SYS_CHDIR, (fn_chdir, ("chdir", "Change directory")));
  (SYS_GETCWD, (fn_getcwd, ("getcwd", "Get current directory")));
  (SYS_LISTDIR, (fn_listdir, ("listdir", "List directory contents")));
  (SYS_MALLOC, (fn_malloc, ("malloc", "Allocate memory")));
  (SYS_FREE, (fn_free, ("free", "Free memory")));
  (SYS_MMAP, (fn_mmap, ("mmap", "Map memory")));
  (SYS_MUNMAP, (fn_munmap, ("munmap", "Unmap memory")));
  (SYS_PS, (fn_ps, ("ps", "List processes")));
  (SYS_SETPRIORITY, (fn_setpriority, ("setpriority", "Set process priority")));
  (SYS_GETINFO, (fn_getinfo, ("getinfo", "Get system information")))].

(** The part of [syscall_init] that fills the table. *)
Definition syscall_init_table (t : syscalls) : syscalls :=
  let t := t <| syscall_table := replicate (Z.to_nat MAX_SYSCALLS) entry_zero |> in
  let t := t <| syscall_count := 0 |> in
  foldl (λ t '(n, (f, (name, description))),
    (syscall_register t n (Some f) (lit name) (lit description)).2) t registrations.

(** The [n] spaces of a padding loop. *)
Definition pad_to (k : machine) (len width : Z) : machine :=
  for_z (Z.to_nat (width - len)) len (λ _ k, vga_putstr k (lit " ")) k.

Definition syscall_list (t : syscalls) (k : machine) : machine :=
  let k := vga_putstr k (lit "System Calls:" ++ [10]) in
  let k := vga_putstr k (lit "Num | Name                | Description" ++ [10]) in
  let k := vga_putstr k (lit "----|---------------------|----------------------------------------" ++ [10]) in
  for_z (Z.to_nat (syscall_count t)) 0 (λ i k,
    if bool_decide (e_handler (table_entry t i) ≠ None) then
      let k := vga_putstr k (lit " ") in
      let k := vga_puthex k i in
      let k := vga_putstr k (lit "  | ") in
      let name := take 19 (e_name (table_entry t i)) in
      let k := vga_putstr k name in
      let k := pad_to k (Str.strlen name) 19 in
      let k := vga_putstr k (lit " | ") in
      let k := vga_putstr k (e_description (table_entry t i)) in
      vga_putstr k [10]
    else k) k.

(** ** The table as a finite map *)

(** 64 entries, and [syscall_count] is above every number in use. *)
Record table_inv (t : syscalls) : Prop := {
  ti_len : length (syscall_table t) = 64%nat;
  ti_count : 0 <= syscall_count t <= MAX_SYSCALLS;
  ti_bound : ∀ n, 0 <= n < MAX_SYSCALLS → e_handler (table_entry t n) ≠ None → n < syscall_count t;
}.

Lemma table_entry_set t n m e :
  length (syscall_table t) = 64%nat → 0 <= n < MAX_SYSCALLS → 0 <= m →
  table_entry (t <| syscall_table := <[Z.to_nat n := e]> (syscall_table t) |>) m =
    if m =? n then e else table_entry t m.
Proof.
  intros Hl Hn Hm. unfold table_entry. cbn. rewrite !nth_lookup. destruct (Z.eqb_spec m n) as [->|].
  - rewrite list_lookup_insert_eq; [done|]. rewrite Hl. unfold MAX_SYSCALLS in Hn. lia.
  - by rewrite list_lookup_insert_ne by lia.
Qed.

(** Which function kernel/syscall.h gives each number to. *)
Definition handler_of (n : Z) : option sys_fun :=
  match n with
  | 1 => Some fn_exit | 2 => Some fn_fork | 3 => Some fn_exec | 4 => Some fn_wait
  | 5 => Some fn_getpid | 6 => Some fn_getppid | 7 => Some fn_kill | 8 => Some fn_yield
  | 10 => Some fn_open | 11 => Some fn_close | 12 => Some fn_read | 13 => Some fn_write
  | 14 => Some fn_seek | 15 => Some fn_tell | 16 => Some fn_create | 17 => Some fn_delete
  | 18 => Some fn_rename | 19 => Some fn_mkdir | 20 => Some fn_rmdir | 21 => Some fn_chdir
  | 22 => Some fn_getcwd | 23 => Some fn_listdir
  | 30 => Some fn_malloc | 31 => Some fn_free | 32 => Some fn_mmap | 33 => Some fn_munmap
  | 40 => Some fn_ps | 41 => Some fn_setpriority | 42 => Some fn_getinfo
  | _ => None
  end.

Lemma syscall_find_handler t n :
  syscall_find t n ≫= e_handler = if MAX_SYSCALLS <=? n then None else e_handler (table_entry t n).
Proof.
  unfold syscall_find. destruct (_ <=? _); [done|]. case_bool_decide as E; [by rewrite E|done].
Qed.

Lemma handler_of_range n : 0 <= n → handler_of n ≠ None → n < MAX_SYSCALLS.
Proof.
  intros Hn Hh. unfold MAX_SYSCALLS. destruct (Z.lt_ge_cases n 64) as [?|Hge]; [done|].
  destruct Hh. unfold handler_of. destruct n as [|p|]; [done| |done].
  do 6 (destruct p as [p|p|]; try reflexivity; try lia).
Qed.

Lemma init_table_entries t n :
  0 <= n < MAX_SYSCALLS → e_handler (table_entry (syscall_init_table t) n) = handler_of n.
Proof.
  intros Hn. assert (forallb (λ n, bool_decide (e_handler (table_entry (syscall_init_table t) n) = handler_of n))
    (seqZ 0 64) = true) as H by (vm_compute; reflexivity).
  rewrite forallb_forall in H. eapply bool_decide_eq_true, H. apply list_elem_of_In, elem_of_seqZ.
  unfold MAX_SYSCALLS in Hn. lia.
Qed.

Lemma init_table_handler t n :
  0 <= n → syscall_find (syscall_init_table t) n ≫= e_handler = handler_of n.
Proof.
  intros Hn. rewrite syscall_find_handler. destruct (Z.leb_spec MAX_SYSCALLS n).
  - destruct (handler_of n) eqn:E; [|done].
    assert (n < MAX_SYSCALLS) by (apply handler_of_range; congruence). lia.
  - by apply init_table_entries.
Qed.

(** C33: registering a system call succeeds exactly when the number is below 64, the
    handler is not NULL and the number is free; then looking up that number finds
    the new entry and every other number finds what it did, and [syscall_count] stays
    above every number in use; otherwise nothing changes. *)
Theorem syscall_register_correct t n f name description :
  table_inv t → is_u32 n →
  let '(r, t') := syscall_register t n f name description in
  table_inv t' ∧
  (r = SYSCALL_SUCCESS ↔ n < MAX_SYSCALLS ∧ f ≠ None ∧ syscall_find t n = None) ∧
  (r = SYSCALL_SUCCESS ∨ r = SYSCALL_ERROR ∧ t' = t) ∧
  (r = SYSCALL_SUCCESS → ∀ m, is_u32 m → syscall_find t' m =
     if m =? n then Some (MkEntry f name description) else syscall_find t m).
Proof.
  intros Hinv Hn. unfold syscall_register, syscall_find.
  assert (SYSCALL_ERROR = SYSCALL_SUCCESS ↔ False) as Hne by done.
  destruct (Z.leb_spec MAX_SYSCALLS n) as [Hge|Hlt]; cbn [orb].
  { split; [done|]. split; [split; [done|lia]|]. split; [by right|done]. }
  destruct f as [f|]; cbn [bool_decide].
  2:{ rewrite bool_decide_eq_true_2 by done. split; [done|].
      split; [split; [done|by intros (_ & ? & _)]|]. split; [by right|done]. }
  rewrite (bool_decide_eq_false_2 (Some f = None)) by done.
  case_bool_decide as E1; case_bool_decide as E2; try done.
  { split; [done|]. split; [split; [done|by intros (_ & _ & ?)]|]. split; [by right|done]. }
  clear E1. destruct Hinv as [Hl Hc Hb]. set (e := MkEntry _ _ _).
  set (t1 := t <| syscall_table := _ |>). set (t2 := if _ <=? _ then _ else _).
  assert (∀ m, 0 <= m → table_entry t2 m = if m =? n then e else table_entry t m) as Hget.
  { intros m Hm. assert (table_entry t2 m = table_entry t1 m) as ->.
    { unfold t2. by destruct (_ <=? _). }
    apply table_entry_set; [done|split; [apply Hn|done]|done]. }
  split; [|split; [|split; [by left|]]].
  - assert (n < syscall_count t2 ∧ syscall_count t <= syscall_count t2 <= MAX_SYSCALLS) as [Hcn Hct].
    { unfold t2. change (syscall_count t1) with (syscall_count t). unfold MAX_SYSCALLS in *.
      destruct (Z.leb_spec (syscall_count t) n); [|change (syscall_count t1) with (syscall_count t); lia].
      cbn. unfold is_u32 in Hn. rewrite u32_small by word_lia. lia. }
    split; [|lia|].
    + unfold t2. destruct (_ <=? _); cbn; by rewrite length_insert.
    + intros m Hm. rewrite Hget by lia. destruct (Z.eqb_spec m n) as [->|]; [done|].
      intros Hh. specialize (Hb m Hm Hh). lia.
  - split; [done|]. intros _. done.
  - intros _ m Hm. rewrite Hget by apply Hm. destruct (Z.eqb_spec m n) as [->|]; [|done].
    destruct (Z.leb_spec MAX_SYSCALLS n); [lia|]. by rewrite bool_decide_eq_false_2.
Qed.

Lemma syscall_register_correct_witness :
  ∃ t, syscall_register (MkSyscalls (replicate 64 entry_zero) 0 (MkArgs 0 0 0 0 0 0)) 5 (Some fn_getpid)
    (lit "getpid") [] = (SYSCALL_SUCCESS, t) ∧ syscall_find t 5 = Some (MkEntry (Some fn_getpid) (lit "getpid") []) ∧
    syscall_find t 6 = None.
Proof.
  set (t0 := MkSyscalls _ _ _).
  assert (table_inv t0) as H0.
  { split; [done|done|]. intros n _ H. destruct H. unfold table_entry. rewrite nth_lookup.
    change (syscall_table t0) with (replicate 64 entry_zero).
    destruct (replicate 64 entry_zero !! Z.to_nat n) as [e|] eqn:Ee; [|done].
    by apply lookup_replicate in Ee as [-> _]. }
  pose proof (syscall_register_correct t0 5 (Some fn_getpid) (lit "getpid") [] H0 ltac:(done)) as H.
  destruct (syscall_register _ _ _ _ _) as [r t]. destruct H as (_ & Hr & _ & Hf).
  assert (r = SYSCALL_SUCCESS) as ->.
  { apply Hr. split; [reflexivity|]. split; [discriminate|reflexivity]. }
  exists t. split; [reflexivity|]. split; [apply (Hf eq_refl 5); done|apply (Hf eq_refl 6); done].
Defined.
