(* ===== verification/Layout.v ===== *)
(** * Structures in user-visible memory

    The byte layout, under the i386 ABI, of the three structures that system
    calls read or write through a caller's pointer: [fs_file_t] (a file
    descriptor is the address of one), [fs_dirent_info_t] and [pcb_t]. *)

From S2P Require Import Prelude Ram CString Fs FsCorrect Process.
Set Default Goal Selector "!".

(** ** [fs_file_t]: 28 bytes *)

Definition sizeof_fs_file : Z := 28.

Definition load_file (m : ram) (p : Z) : fs_file :=
  MkFile (rd32 m p) (rd32 m (p + 4)) (rd32 m (p + 8)) (rd8 m (p + 12))
    (negb (rd8 m (p + 13) =? 0)) (c_string (rd_bytes m (p + 14) 12)).

Definition set_file_offset (m : ram) (p v : Z) : ram := wr32 m (p + 4) v.
Definition set_file_size (m : ram) (p v : Z) : ram := wr32 m (p + 8) v.
Definition set_file_valid (m : ram) (p : Z) (v : bool) : ram := wr8 m (p + 13) (if v then 1 else 0).

(** All the assignments of a successful [fs_open]; [strcpy] into [name] stores
    the whole string and its zero, whatever the length. *)
Definition store_file (m : ram) (p : Z) (f : fs_file) : ram :=
  let m := wr32 m p (f_cluster f) in
  let m := set_file_offset m p (f_offset f) in
  let m := set_file_size m p (f_size f) in
  let m := wr8 m (p + 12) (f_mode f) in
  let m := set_file_valid m p (f_valid f) in
  wr_bytes m (p + 14) (f_name f ++ [0]).

(** ** Little-endian words *)

Definition le32 (v : Z) : list Z :=
  [u8 v; u8 (v / 256); u8 (v / 65536); u8 (v / 16777216)].

(** ** [fs_dirent_info_t]: 28 bytes *)

Definition sizeof_dirent_info : Z := 28.

Definition fs_file_type_code (t : fs_file_type) : Z :=
  match t with FS_TYPE_FILE => 0 | FS_TYPE_DIRECTORY => 1 | FS_TYPE_VOLUME => 2 end.

(** [junk]: what the structure held before, which shows after the end of a
    short name and in the padding. *)
Definition encode_info (junk : list Z) (i : dirent_info) : list Z :=
  take 12 (i_name i ++ [0] ++ junk ++ replicate 12 0) ++
  le32 (fs_file_type_code (i_type i)) ++ le32 (i_size i) ++ le32 (i_cluster i) ++
  [u8 (i_attr i)] ++ take 3 (junk ++ replicate 3 0).

(** ** [pcb_t]: 236 bytes *)

Definition sizeof_pcb : Z := 236.

Definition process_state_code (s : process_state) : Z :=
  match s with
  | PROCESS_STATE_NEW => 0
  | PROCESS_STATE_READY => 1
  | PROCESS_STATE_RUNNING => 2
  | PROCESS_STATE_BLOCKED => 3
  | PROCESS_STATE_TERMINATED => 4
  end.

(** A [pcb_t *] in memory, the pool being at [pool_addr]. *)
Definition pcb_ptr (pool_addr : Z) (p : option nat) : Z :=
  match p with None => 0 | Some i => pool_addr + sizeof_pcb * Z.of_nat i end.

Definition encode_context (c : context) : list Z :=
  le32 (eax c) ++ le32 (ebx c) ++ le32 (ecx c) ++ le32 (edx c) ++ le32 (esi c) ++
  le32 (edi c) ++ le32 (esp c) ++ le32 (ebp c) ++ le32 (eip c) ++ le32 (eflags c) ++
  le32 (cs c) ++ le32 (ds c) ++ le32 (es c) ++ le32 (seg_fs c) ++ le32 (gs c) ++ le32 (ss c).

(** The name is kept zero-padded: the block is cleared when it is allocated and
    [strncpy] pads with zeros. *)
Definition encode_pcb (pool_addr : Z) (b : pcb) : list Z :=
  le32 (p_pid b) ++ take 32 (p_name b ++ replicate 32 0) ++
  le32 (process_state_code (p_state b)) ++ le32 (p_priority b) ++
  encode_context (p_context b) ++
  le32 (stack_base b) ++ le32 (stack_size b) ++ le32 (heap_base b) ++ le32 (heap_size b) ++
  le32 (cpu_time b) ++ le32 (creation_time b) ++ le32 (last_run_time b) ++
  le32 (time_slice b) ++ le32 (remaining_slice b) ++
  le32 (pcb_ptr pool_addr (p_next b)) ++ le32 (pcb_ptr pool_addr (p_prev b)) ++
  le32 (pcb_ptr pool_addr (p_parent b)) ++ le32 (pcb_ptr pool_addr (p_children b)) ++
  le32 (pcb_ptr pool_addr (p_sibling b)) ++
  le32 (exit_code b) ++ mjoin (le32 <$> take 16 (open_files b ++ replicate 16 0)) ++
  le32 (file_count b).

(** An array of structures: [p\[i\] = l\[i\]] for every [i]. *)
Fixpoint store_array (m : ram) (p size : Z) (l : list (list Z)) : ram :=
  match l with
  | [] => m
  | bytes :: l' => store_array (wr_bytes m p bytes) (p + size) size l'
  end.
