(* ===== verification/Kernel.v ===== *)
(** * The state of the kernel

    All static variables of the program, one field per compilation unit, with
    RAM, screen and ports inside [machine]; and what the code is linked with or
    finds on its stack, which is the same throughout a run: [env]. *)

From S2P Require Import Prelude Ram CString Vga Memory Keyboard Interrupt Fs Process SysTable.
Set Default Goal Selector "!".

Record kernel := MkKernel {
  k_mm : mm_state;
  k_con : machine;
  k_kbd : keyboard;
  k_idt : idt_state;
  k_fs : fs;
  k_procs : procs;
  k_sys : syscalls;
}.
#[export] Instance eta_kernel : Eta kernel := λ r,
  MkKernel (k_mm r) (k_con r) (k_kbd r) (k_idt r) (k_fs r) (k_procs r) (k_sys r).

(** Addresses of functions and objects, and the contents of local arrays that
    are used before they are written. *)
Record env := MkEnv {
  handler_addr : handler → Z;
  process_terminate_addr : Z;
  process_pool_addr : Z;
  file_addr : Z;
  dir_junk : list dirent;
  sector_junk : nat → Z → Z;
  info_junk : nat → list Z;
  path_junk : list Z;
  user_fuel : nat;
}.

Definition ram_of (k : kernel) : ram := mem (k_con k).
Definition set_ram (k : kernel) (m : ram) : kernel := k <| k_con := k_con k <| mem := m |> |>.

(** Running an operation of a component on its part of the state. *)
Definition on_con (f : machine → machine) (k : kernel) : kernel := k <| k_con := f (k_con k) |>.
Definition heap_of (k : kernel) : mm_state * ram := (k_mm k, ram_of k).
Definition set_heap (k : kernel) (h : mm_state * ram) : kernel := set_ram (k <| k_mm := h.1 |>) h.2.
