(* ===== verification/KernelInv.v ===== *)
(** * The invariant of the whole kernel

    What holds of the state between two system calls or two shell commands: each
    component's invariant, that the components' regions of memory do not overlap,
    and that nothing but initialisation changes the memory map, the interrupt
    table or the system call table.  The lemmas say which changes of which part keep
    it. *)

From S2P Require Import Prelude Ram CString Vga Memory Heap HeapCorrect Alloc PhysPages Paging.
From S2P Require Import PagingCorrect Keyboard Interrupt FsNames Fs FsCorrect FsPreserve Process ProcessCorrect ProcessSteps.
From S2P Require Import SysTable Kernel.
Set Default Goal Selector "!".

(** ** Memory *)

(** The bytes the memory manager keeps for itself: heap, page bitmap, page tables. *)
Definition heap_cells : Z → Prop := span KERNEL_HEAP_START KERNEL_HEAP_SIZE.
Definition managed (a : Z) : Prop := heap_cells a ∨ bitmap_cells a ∨ paging_cells a.

Record mem_ok (mm : mm_state) (m : ram) : Prop := {
  mo_heap : kheap_ok (mm, m);
  mo_bitmap : bitmap_inv mm;
  mo_pages : ∀ q, 0 <= q < MAX_PAGES → page_used mm m q = (q <? 1536);
  mo_tables : pt_inv mm m;
  mo_map : ∀ vpn, is_vpn vpn → mapping mm m vpn = boot_mapping vpn;
}.

Ltac region_lia :=
  unfold managed, heap_cells, bitmap_cells, paging_cells, framebuffer, span, PT_BASE, PD_BASE in *;
  vga_consts; heap_consts; lia.

Lemma kheap_owns_frame mm m m' P q t :
  kheap_owns (mm, m) q t → only m P m' → (∀ a, P a → ¬ heap_cells a) → kheap_owns (mm, m') q t.
Proof.
  intros (l & Hl & Hq) Ho HP. exists l. split; [|exact Hq].
  by eapply (heap_inv_frame mm m m' l P).
Qed.

Lemma mem_ok_write mm m m' P :
  mem_ok mm m → only m P m' → (∀ a, P a → ¬ managed a) → mem_ok mm m'.
Proof.
  intros [[l Hl] Hb Hp Ht Hm] Ho HP.
  destruct (pt_frame mm m m' P Ht Ho) as [Ht' Hm']; [intros a Ha Hc; apply (HP a Ha); by right; right|].
  split; [|done| |done|].
  - exists l. eapply (heap_inv_frame mm m m' l P); [exact Hl|exact Ho|].
    intros a Ha Hc. apply (HP a Ha). by left.
  - intros q Hq. rewrite <- Hp by done. eapply page_used_frame; [done|done|done|exact Ho|].
    intros a Ha Hc. apply (HP a Ha). by right; left.
  - intros vpn Hv. by rewrite Hm', Hm.
Qed.

Lemma mem_ok_heap mm m h' :
  mem_ok mm m → kheap_ok h' → kheap_frame (mm, m) h' → mem_ok h'.1 h'.2.
Proof.
  destruct h' as [mm' m']. intros [_ Hb Hp Ht Hm] Hh [[st E] Ho]. cbn [fst snd] in *. subst mm'.
  set (mm' := mm <| mm_stats := st |>) in *.
  destruct (pt_frame mm m m' _ Ht Ho) as [Ht' Hm']; [intros a; region_lia|].
  split; [exact Hh|by destruct Hb| | |].
  - intros q Hq. rewrite <- Hp by done. eapply page_used_frame; [done|done|done|exact Ho|].
    intros a. region_lia.
  - by eapply (pt_inv_ext mm m').
  - intros vpn Hv. rewrite <- Hm, <- Hm' by done. by apply mapping_dir.
Qed.

(** ** The kernel *)

(** Addresses the linker gives, and a stack outside the managed memory. *)
Record env_ok (E : env) : Prop := {
  eo_addr : ∀ h, is_u32 (handler_addr E h);
  eo_file : 0 < file_addr E < 2147483648;
  eo_stack : ∀ a, span (file_addr E) 272 a → ¬ managed a;
}.

(** The table that [syscall_init] builds. *)
Definition boot_table : syscalls := syscall_init_table (MkSyscalls [] 0 (MkArgs 0 0 0 0 0 0)).

#[global] Opaque boot_table.

(** The interrupt gates: those of [idt_init] but for the system call vector. *)
Definition kernel_gates (E : env) (v : Z) : Z * (Z * Z) :=
  if v =? 0x80 then (handler_addr E syscall_handler, (0x08, user_trap))
  else boot_gate (handler_addr E) v.

Record kernel_ok (E : env) (k : kernel) : Prop := {
  ko_con : term_ok (k_con k);
  ko_mem : mem_ok (k_mm k) (ram_of k);
  ko_kbd : kbd_inv (k_kbd k);
  ko_fs : fs_ok (k_fs k);
  ko_procs : procs_ok (k_procs k) (heap_of k);
  ko_gates : ∀ v, 0 <= v < 256 → gate_of <$> idt (k_idt k) !! Z.to_nat v = Some (kernel_gates E v);
  ko_table : syscall_table (k_sys k) = syscall_table boot_table;
  ko_count : syscall_count (k_sys k) = syscall_count boot_table;
}.

(** Split [kernel_ok] into its fields and close those that did not change. *)
Ltac kernel_split :=
  match goal with
  | Hk : kernel_ok _ _ |- _ =>
      destruct Hk as [H1 H2 H3 H4 H5 H6 H7 H8]; split;
      first [exact H1 | exact H2 | exact H3 | exact H4 | exact H5 | exact H6 | exact H7 | exact H8
            | assumption | idtac]
  end.

Section changes.
Context (E : env) (k : kernel) (Hk : kernel_ok E k).

Lemma kernel_heap_ok : heap_ok (heap_of k).
Proof. exact (mo_heap _ _ (ko_mem _ _ Hk)). Qed.

Lemma kernel_ok_ram m P :
  only (ram_of k) P m → (∀ a, P a → ¬ managed a) → kernel_ok E (set_ram k m).
Proof.
  intros Ho HP. kernel_split.
  - by eapply mem_ok_write.
  - eapply procs_ok_owns; [|exact H5]. intros q t Hq. eapply kheap_owns_frame; [exact Hq|exact Ho|].
    intros a Ha Hc. apply (HP a Ha). by left.
Qed.

Lemma kernel_ok_con con :
  console_step (k_con k) con → kernel_ok E (k <| k_con := con |>).
Proof.
  intros [Ht Ho]. kernel_split.
  - eapply mem_ok_write; [exact H2|exact Ho|]. intros a. region_lia.
  - eapply procs_ok_owns; [|exact H5]. intros q t Hq. eapply kheap_owns_frame; [exact Hq|exact Ho|].
    intros a. region_lia.
Qed.

Lemma kernel_ok_fs s : fs_ok s → kernel_ok E (k <| k_fs := s |>).
Proof. intros Hs. kernel_split. Qed.

Lemma kernel_ok_kbd kb : kbd_inv kb → kernel_ok E (k <| k_kbd := kb |>).
Proof. intros Hs. kernel_split. Qed.

Lemma kernel_ok_args a : kernel_ok E (k <| k_sys := k_sys k <| current_syscall_args := a |> |>).
Proof. kernel_split. Qed.

Lemma kernel_ok_set_procs s : procs_ok s (heap_of k) → kernel_ok E (k <| k_procs := s |>).
Proof. intros Hs. kernel_split. Qed.

Lemma kernel_ok_procs s h : procs_step (heap_of k) s h → kernel_ok E (set_heap k h <| k_procs := s |>).
Proof.
  intros (Hs & Hh & Hf). kernel_split.
  - by apply (mem_ok_heap (k_mm k) (ram_of k)).
  - by destruct h.
Qed.

(** A change of the heap that keeps every block the processes use. *)
Lemma kernel_ok_heap h :
  kheap_ok h → kheap_frame (heap_of k) h → procs_ok (k_procs k) h → kernel_ok E (set_heap k h).
Proof.
  intros Hh Hf Hs. kernel_split.
  - by apply (mem_ok_heap (k_mm k) (ram_of k)).
  - by destruct h.
Qed.

(** ** What system calls and commands run *)

Lemma kernel_malloc size :
  0 <= size <= 0xFFFFFFFC →
  ∃ ptr h, kmalloc (k_mm k) (ram_of k) size = Some (ptr, h) ∧ kernel_ok E (set_heap k h).
Proof.
  intros Hsz. destruct (mo_heap _ _ (ko_mem E k Hk)) as [l Hl]. cbn [fst snd] in Hl.
  destruct (kheap_malloc (k_mm k) (ram_of k) l size Hl Hsz)
    as [->|(p & s & h' & -> & Hh & Hf & Hp & _ & Ho & _)]; eexists _, _; (split; [reflexivity|]).
  - apply kernel_ok_heap; [by exists l|apply kheap_frame_refl|apply Hk].
  - apply kernel_ok_heap; [done|exact Hf|]. eapply procs_ok_owns; [|apply Hk].
    intros q t Hq. apply Ho. by left.
Qed.

(** A block that is allocated and is no process's stack. *)
Definition freeable (ptr : Z) : Prop :=
  ∃ t, owns (heap_of k) ptr t ∧
    ∀ i, slot_used (k_procs k) i = true → stack_base (pool_at (pool (k_procs k)) i) ≠ ptr.

Lemma kernel_free ptr :
  freeable ptr → ∃ h, kfree (k_mm k) (ram_of k) ptr = Some h ∧ kernel_ok E (set_heap k h).
Proof.
  intros (t & Ho & Hst). destruct (mo_heap _ _ (ko_mem E k Hk)) as [l Hl]. cbn [fst snd] in Hl.
  destruct (kheap_free (k_mm k) (ram_of k) l ptr t Hl Ho) as (h' & -> & Hh & Hf & Hw).
  eexists. split; [reflexivity|]. apply kernel_ok_heap; [done|exact Hf|].
  destruct (ko_procs E k Hk) as (ready & term & Hs & [S1 S2 S3]). exists ready, term. split; [done|].
  split; [done| |done]. intros i Hi Hb. destruct (S2 i Hi Hb) as (u & Hu & Hou). exists u. split; [done|].
  apply Hw. split; [done|]. apply Hst. apply (pi_used _ _ _ Hs); [|done].
  apply (live_slot (k_procs k) ready term); [done|]. apply elem_of_app. by left.
Qed.

(** No process of this pid has terminated. *)
Definition killable (pid : Z) : Prop :=
  ∀ i, process_get_by_pid (k_procs k) pid = Some (Some i) → slot_used (k_procs k) i = true.

Lemma kernel_kill pid :
  killable pid →
  ∃ r s h, process_kill (k_procs k) (heap_of k) pid = Some (r, (s, h)) ∧
    kernel_ok E (set_heap k h <| k_procs := s |>).
Proof.
  intros Hc. destruct (process_terminate_step (k_procs k) (heap_of k) pid kernel_heap_ok (ko_procs E k Hk) Hc)
    as (r & s' & h' & E' & Hst).
  exists r, s', h'. split; [exact E'|]. by apply kernel_ok_procs.
Qed.

Lemma kernel_set_priority pid priority :
  ∃ r s, process_set_priority (k_procs k) pid priority = Some (r, s) ∧
    kernel_ok E (k <| k_procs := s |>).
Proof.
  destruct (process_set_priority_step (k_procs k) (heap_of k) pid priority (ko_procs E k Hk))
    as (r & s' & E' & Hs).
  exists r, s'. split; [exact E'|]. by apply kernel_ok_set_procs.
Qed.
End changes.
