(* ===== verification/Syscall.v ===== *)
(** * System calls (kernel/syscall.c, second half)

    One definition per [sys_*] function, [syscall_init] and [syscall_execute].
    Arguments are 32-bit words and pointers are addresses in RAM, so a handler
    maps a kernel state to the [int32_t] it returns and the state afterwards;
    [None] as the whole result is a call that never returns.  A local array of
    a handler is an array of its own, at offset 0, except the handle of
    [sys_open], whose address escapes. *)

From S2P Require Import Prelude Ram CString Vga Memory Heap Alloc Interrupt Fat FsNames Fs.
From S2P Require Import Process SysTable Layout Kernel.
Set Default Goal Selector "!".

Definition SYSCALL_INT_NUM : Z := 0x80.
Definition KERNEL_BUF_SIZE : Z := 1024.

Section syscalls.
Context (E : env).
Implicit Types (k : kernel) (m : ram).

(** ** Strings from the caller *)

(** The NULL test, the length test and [strcpy(path, user_path)]: [Some None]
    is the error return. *)
Definition user_path m (path_ptr : Z) : option (option (list Z)) :=
  if path_ptr =? 0 then Some None
  else
    len ← strlen (user_fuel E) m path_ptr;
    if FS_MAX_PATH <=? len then Some None
    else Some (Some (rd_bytes m path_ptr (Z.to_nat len))).

(** ** Processes *)

Definition sys_exit k (exit_code_arg : Z) : option (Z * kernel) :=
  match process_get_current (k_procs k) with
  | Some current =>
      let s := set_pcb (k_procs k) current (λ b, b <| exit_code := s32 exit_code_arg |>) in
      '(_, (s, h)) ← process_terminate s (heap_of k) (p_pid (pcb_at s current));
      Some (SYSCALL_SUCCESS, set_heap k h <| k_procs := s |>)
  | None => Some (SYSCALL_SUCCESS, k)
  end.

Definition sys_fork k : option (Z * kernel) :=
  match process_get_current (k_procs k) with
  | None => Some (SYSCALL_ERROR, k)
  | Some current =>
      let b := pcb_at (k_procs k) current in
      '(result, (s, h)) ← process_create (process_terminate_addr E) (k_procs k) (heap_of k)
        (Some (lit "forked_process")) (eip (p_context b)) (p_priority b);
      let k := set_heap k h <| k_procs := s |> in
      if result <? 0 then Some (SYSCALL_ERROR, k) else Some (result, k)
  end.

Definition sys_exec k : option (Z * kernel) := Some (SYSCALL_ERROR, k).
Definition sys_wait k : option (Z * kernel) := Some (SYSCALL_SUCCESS, k).

Definition sys_getpid k : option (Z * kernel) :=
  match process_get_current (k_procs k) with
  | None => Some (SYSCALL_ERROR, k)
  | Some current => Some (s32 (p_pid (pcb_at (k_procs k) current)), k)
  end.

Definition sys_getppid k : option (Z * kernel) :=
  match process_get_current (k_procs k) with
  | None => Some (SYSCALL_ERROR, k)
  | Some current =>
      match p_parent (pcb_at (k_procs k) current) with
      | None => Some (SYSCALL_ERROR, k)
      | Some parent => Some (s32 (p_pid (pcb_at (k_procs k) parent)), k)
      end
  end.

Definition sys_kill k (pid : Z) : option (Z * kernel) :=
  '(result, (s, h)) ← process_kill (k_procs k) (heap_of k) pid;
  let k := set_heap k h <| k_procs := s |> in
  if negb (result =? PROCESS_SUCCESS) then Some (SYSCALL_ERROR, k) else Some (SYSCALL_SUCCESS, k).

Definition sys_yield k : option (Z * kernel) :=
  s ← process_yield (k_procs k);
  Some (SYSCALL_SUCCESS, k <| k_procs := s |>).

(** ** Files *)

Definition sys_open k (path_ptr flags : Z) : option (Z * kernel) :=
  path ← user_path (ram_of k) path_ptr;
  match path with
  | None => Some (SYSCALL_ERROR, k)
  | Some path =>
      '(result, (file, (s, con))) ← fs_open (k_fs k) (k_con k) (dir_junk E) (Some path) (u8 flags)
        (Some (load_file (ram_of k) (file_addr E)));
      let k := k <| k_con := con |> <| k_fs := s |> in
      if negb (result =? FS_SUCCESS) then Some (SYSCALL_ERROR, k)
      else
        match file with
        | None => Some (SYSCALL_ERROR, k)
        | Some f => Some (s32 (file_addr E), set_ram k (store_file (ram_of k) (file_addr E) f))
        end
  end.

(** The handle a descriptor designates, NULL for 0. *)
Definition handle m (fd : Z) : option fs_file := if fd =? 0 then None else Some (load_file m fd).

Definition sys_close k (fd : Z) : option (Z * kernel) :=
  match handle (ram_of k) fd with
  | None => Some (SYSCALL_ERROR, k)
  | Some f =>
      let '(result, _) := fs_close (Some f) in
      if negb (result =? FS_SUCCESS) then Some (SYSCALL_ERROR, k)
      else Some (SYSCALL_SUCCESS, set_ram k (set_file_valid (ram_of k) fd false))
  end.

(** The size of one transfer. *)
Definition clamp (count : Z) : Z := if KERNEL_BUF_SIZE <? count then KERNEL_BUF_SIZE else count.

Definition sys_read k (fd buf_ptr count : Z) : option (Z * kernel) :=
  if (fd =? 0) || (buf_ptr =? 0) then Some (SYSCALL_ERROR, k)
  else
    '(result, (file, kernel_buf)) ←
      fs_read (sector_junk E) (k_fs k) ∅ (handle (ram_of k) fd) 0 (clamp count);
    let f := default (load_file (ram_of k) fd) file in
    let k := set_ram k (set_file_offset (ram_of k) fd (f_offset f)) in
    if result <? 0 then Some (SYSCALL_ERROR, k)
    else
      Some (result, set_ram k (wr_bytes (ram_of k) buf_ptr (rd_bytes kernel_buf 0 (Z.to_nat result)))).

Definition sys_write k (fd buf_ptr count : Z) : option (Z * kernel) :=
  if (fd =? 0) || (buf_ptr =? 0) then Some (SYSCALL_ERROR, k)
  else
    let n := clamp count in
    let kernel_buf := wr_bytes ∅ 0 (rd_bytes (ram_of k) buf_ptr (Z.to_nat n)) in
    '(result, (file, s)) ←
      fs_write (sector_junk E) (k_fs k) kernel_buf (handle (ram_of k) fd) 0 n;
    let f := default (load_file (ram_of k) fd) file in
    let m := set_file_size (set_file_offset (ram_of k) fd (f_offset f)) fd (f_size f) in
    let k := set_ram k m <| k_fs := s |> in
    if result <? 0 then Some (SYSCALL_ERROR, k) else Some (result, k).

Definition sys_seek k (fd offset whence : Z) : option (Z * kernel) :=
  match handle (ram_of k) fd with
  | None => Some (SYSCALL_ERROR, k)
  | Some f =>
      let '(result, file) := fs_seek (Some f) (s32 offset) (s32 whence) in
      let k := set_ram k (set_file_offset (ram_of k) fd (f_offset (default f file))) in
      if result <? 0 then Some (SYSCALL_ERROR, k) else Some (result, k)
  end.

Definition sys_tell k (fd : Z) : option (Z * kernel) :=
  match handle (ram_of k) fd with
  | None => Some (SYSCALL_ERROR, k)
  | Some f =>
      let result := fs_tell (Some f) in
      if result <? 0 then Some (SYSCALL_ERROR, k) else Some (result, k)
  end.

(** ** Paths *)

(** How the calls that take one path go on once it is copied: [op] is the file
    system operation, [SYSCALL_ERROR] unless it succeeds. *)
Definition path_call k (path_ptr : Z) (op : list Z → option (Z * (fs * machine))) :
    option (Z * kernel) :=
  path ← user_path (ram_of k) path_ptr;
  match path with
  | None => Some (SYSCALL_ERROR, k)
  | Some path =>
      '(result, (s, con)) ← op path;
      let k := k <| k_con := con |> <| k_fs := s |> in
      if negb (result =? FS_SUCCESS) then Some (SYSCALL_ERROR, k) else Some (SYSCALL_SUCCESS, k)
  end.

(** An operation that does not print. *)
Definition quiet (con : machine) (r : option (Z * fs)) : option (Z * (fs * machine)) :=
  '(result, s) ← r; Some (result, (s, con)).

Definition sys_create k (path_ptr : Z) : option (Z * kernel) :=
  path_call k path_ptr (λ path, fs_create (k_fs k) (k_con k) (dir_junk E) (Some path)).
Definition sys_delete k (path_ptr : Z) : option (Z * kernel) :=
  path_call k path_ptr (λ path, quiet (k_con k) (fs_delete (k_fs k) (Some path))).
Definition sys_mkdir k (path_ptr : Z) : option (Z * kernel) :=
  path_call k path_ptr (λ path, quiet (k_con k) (fs_mkdir (k_fs k) (dir_junk E) (Some path))).
Definition sys_rmdir k (path_ptr : Z) : option (Z * kernel) :=
  path_call k path_ptr (λ path, quiet (k_con k) (fs_rmdir (k_fs k) (Some path))).
Definition sys_chdir k (path_ptr : Z) : option (Z * kernel) :=
  path_call k path_ptr (λ path, quiet (k_con k) (Some (fs_chdir (k_fs k) (Some path)))).

Definition sys_rename k (old_path_ptr new_path_ptr : Z) : option (Z * kernel) :=
  if (old_path_ptr =? 0) || (new_path_ptr =? 0) then Some (SYSCALL_ERROR, k)
  else
    old_path ← user_path (ram_of k) old_path_ptr;
    match old_path with
    | None => Some (SYSCALL_ERROR, k)
    | Some old_path =>
        path_call k new_path_ptr (λ new_path,
          quiet (k_con k) (Some (fs_rename (k_fs k) (Some old_path) (Some new_path))))
    end.

Definition sys_getcwd k (buf_ptr size : Z) : option (Z * kernel) :=
  if (buf_ptr =? 0) || (size =? 0) then Some (SYSCALL_ERROR, k)
  else
    match fs_get_cwd (k_fs k) FS_MAX_PATH with
    | Err _ => Some (SYSCALL_ERROR, k)
    | Ok kernel_buf =>
        let len := Str.strlen kernel_buf in
        if size <=? len then Some (SYSCALL_ERROR, k)
        else Some (len, set_ram k (wr_bytes (ram_of k) buf_ptr (kernel_buf ++ [0])))
    end.

Definition sys_listdir k (path_ptr entries_ptr max_entries count_ptr : Z) : option (Z * kernel) :=
  if (path_ptr =? 0) || (entries_ptr =? 0) || (count_ptr =? 0) then Some (SYSCALL_ERROR, k)
  else
    path ← user_path (ram_of k) path_ptr;
    match path with
    | None => Some (SYSCALL_ERROR, k)
    | Some path =>
        match fs_listdir (k_fs k) (dir_junk E) (Some path) 32 with
        | Err _ => Some (SYSCALL_ERROR, k)
        | Ok kernel_entries =>
            let count := Z.of_nat (length kernel_entries) in
            let copy_count := if max_entries <? count then max_entries else count in
            let m := store_array (ram_of k) entries_ptr sizeof_dirent_info
              (take (Z.to_nat copy_count)
                 (imap (λ i e, encode_info (info_junk E i) e) kernel_entries)) in
            Some (copy_count, set_ram k (wr32 m count_ptr copy_count))
        end
    end.

(** ** Memory *)

Definition sys_malloc k (size : Z) : option (Z * kernel) :=
  if size =? 0 then Some (SYSCALL_ERROR, k)
  else
    '(ptr, h) ← kmalloc (k_mm k) (ram_of k) size;
    let k := set_heap k h in
    if ptr =? 0 then Some (SYSCALL_ERROR, k) else Some (s32 ptr, k).

Definition sys_free k (ptr : Z) : option (Z * kernel) :=
  if ptr =? 0 then Some (SYSCALL_ERROR, k)
  else
    h ← kfree (k_mm k) (ram_of k) ptr;
    Some (SYSCALL_SUCCESS, set_heap k h).

Definition sys_mmap k : option (Z * kernel) := Some (SYSCALL_ERROR, k).
Definition sys_munmap k : option (Z * kernel) := Some (SYSCALL_ERROR, k).

(** ** Process management *)

Definition sys_ps k (processes_ptr max_count count_ptr : Z) : option (Z * kernel) :=
  if (processes_ptr =? 0) || (count_ptr =? 0) then Some (SYSCALL_ERROR, k)
  else
    let kernel_processes := process_get_list (k_procs k) MAX_PROCESSES in
    let count := Z.of_nat (length kernel_processes) in
    let copy_count := if max_count <? count then max_count else count in
    let m := store_array (ram_of k) processes_ptr sizeof_pcb
      (take (Z.to_nat copy_count) (encode_pcb (process_pool_addr E) <$> kernel_processes)) in
    Some (copy_count, set_ram k (wr32 m count_ptr copy_count)).

Definition sys_setpriority k (pid priority : Z) : option (Z * kernel) :=
  if (priority <? 1) || (4 <? priority) then Some (SYSCALL_ERROR, k)
  else
    '(result, s) ← process_set_priority (k_procs k) pid priority;
    let k := k <| k_procs := s |> in
    if negb (result =? PROCESS_SUCCESS) then Some (SYSCALL_ERROR, k)
    else Some (SYSCALL_SUCCESS, k).

Definition sys_getinfo k (info_ptr : Z) : option (Z * kernel) :=
  if info_ptr =? 0 then Some (SYSCALL_ERROR, k)
  else
    match process_get_current (k_procs k) with
    | None => Some (SYSCALL_ERROR, k)
    | Some current =>
        Some (SYSCALL_SUCCESS, set_ram k (wr_bytes (ram_of k) info_ptr
          (encode_pcb (process_pool_addr E) (pcb_at (k_procs k) current))))
    end.

(** ** Dispatch *)

(** Calling through the handler pointer. *)
Definition call_handler k (f : sys_fun) (a : syscall_args) : option (Z * kernel) :=
  let 'MkArgs _ arg1 arg2 arg3 arg4 _ := a in
  match f with
  | fn_exit => sys_exit k arg1
  | fn_fork => sys_fork k
  | fn_exec => sys_exec k
  | fn_wait => sys_wait k
  | fn_getpid => sys_getpid k
  | fn_getppid => sys_getppid k
  | fn_kill => sys_kill k arg1
  | fn_yield => sys_yield k
  | fn_open => sys_open k arg1 arg2
  | fn_close => sys_close k arg1
  | fn_read => sys_read k arg1 arg2 arg3
  | fn_write => sys_write k arg1 arg2 arg3
  | fn_seek => sys_seek k arg1 arg2 arg3
  | fn_tell => sys_tell k arg1
  | fn_create => sys_create k arg1
  | fn_delete => sys_delete k arg1
  | fn_rename => sys_rename k arg1 arg2
  | fn_mkdir => sys_mkdir k arg1
  | fn_rmdir => sys_rmdir k arg1
  | fn_chdir => sys_chdir k arg1
  | fn_getcwd => sys_getcwd k arg1 arg2
  | fn_listdir => sys_listdir k arg1 arg2 arg3 arg4
  | fn_malloc => sys_malloc k arg1
  | fn_free => sys_free k arg1
  | fn_mmap => sys_mmap k
  | fn_munmap => sys_munmap k
  | fn_ps => sys_ps k arg1 arg2 arg3
  | fn_setpriority => sys_setpriority k arg1 arg2
  | fn_getinfo => sys_getinfo k arg1
  end.

Definition syscall_execute k (a : syscall_args) : option (Z * kernel) :=
  match syscall_find (k_sys k) (a_num a) with
  | None => Some (SYSCALL_INVALID, k)
  | Some entry =>
      let k := k <| k_sys := k_sys k <| current_syscall_args := a |> |> in
      match e_handler entry with
      | None => None
      | Some f => call_handler k f a
      end
  end.

Definition syscall_init k : kernel :=
  let k := k <| k_sys := syscall_init_table (k_sys k) |> in
  k <| k_idt := idt_set_entry (k_idt k) SYSCALL_INT_NUM (handler_addr E syscall_handler) 0x08
         user_trap |>.
End syscalls.
