(* ===== verification/Shell.v ===== *)
(** * The shell (kernel/kernel.c)

    Reading a line from the keyboard, cutting it into words, the command table and
    every command, as functions on the kernel state; [None] is a command that never
    returns.  Local arrays hold values; the texts are those of the source. *)

From S2P Require Import Prelude Ram CString Vga Memory Heap Alloc PhysPages Paging Keyboard Interrupt.
From S2P Require Import Fat FsNames Fs Process SysTable Layout Kernel Syscall.
Set Default Goal Selector "!".

Definition MAX_COMMAND_LENGTH : Z := 64.
Definition MAX_ARGS : Z := 8.

(** ** Output in colour *)

(** [vga_putstr] of a line and its newline, on the kernel. *)
Definition say (text : list Z) (k : kernel) : kernel := on_con (λ c, vga_putstr c text) k.
Definition say_hex (num : Z) (k : kernel) : kernel := on_con (λ c, vga_puthex c (u32 num)) k.
Definition color (fg : Z) (k : kernel) : kernel := on_con (λ c, vga_set_color c fg VGA_COLOR_BLACK) k.
Definition line (text : string) : list Z := lit text ++ [10].

Definition print_success (message : list Z) (k : kernel) : kernel :=
  color VGA_COLOR_LIGHT_GREY (say message (color VGA_COLOR_LIGHT_GREEN k)).
Definition print_error (message : list Z) (k : kernel) : kernel :=
  color VGA_COLOR_LIGHT_GREY (say message (color VGA_COLOR_LIGHT_RED k)).
Definition print_warning (message : list Z) (k : kernel) : kernel :=
  color VGA_COLOR_LIGHT_GREY (say message (color VGA_COLOR_YELLOW k)).
Definition print_info (message : list Z) (k : kernel) : kernel :=
  color VGA_COLOR_LIGHT_GREY (say message (color VGA_COLOR_LIGHT_CYAN k)).

(** ** The prompt and the line *)

Definition shell_prompt (k : kernel) : kernel :=
  let k := color VGA_COLOR_LIGHT_GREEN k in
  let k := say (lit "PXOS@os:") k in
  let k := match fs_get_cwd (k_fs k) FS_MAX_PATH with
           | Ok cwd => if Str.strcmp cwd (lit "/") =? 0 then say (lit "~") k else say cwd k
           | Err _ => say (lit "/") k
           end in
  let k := say (lit "$ ") k in
  color VGA_COLOR_WHITE k.

Definition shell_init (k : kernel) : kernel :=
  let k := say (line "OS Kernel Shell v1.0") k in
  let k := say (line "Type 'help' to see available commands.") k in
  let k := say (line "Keyboard input enabled!" ++ [10]) k in
  shell_prompt k.

(** A keyboard interrupt; [status] and [scancode] are what the two ports read. *)
Definition irq (k : kernel) (status scancode : Z) : kernel :=
  let '(kb, con) := keyboard_handler (k_kbd k) status scancode (k_con k) in
  k <| k_kbd := kb |> <| k_con := con |>.

(** Where [shell_read_input] stands between two accesses to what it shares with the
    interrupt handler. *)
Inductive read_pc :=
| At_test                          (* the loop test and keyboard_has_input() *)
| At_get                           (* entering keyboard_get_char() *)
| Got_count (count : Z)            (* buffer_count loaded, and not 0 *)
| Got_char (count : Z) (ch : Z)    (* the character loaded *)
| Moved_head (count : Z) (ch : Z)  (* buffer_head stored *)
| Has_char (ch : Z)                (* buffer_count stored, ch returned *)
| At_hlt                           (* keyboard_has_input() was false *)
| Asleep                           (* in hlt *)
| At_end.                          (* out of the loop *)
#[export] Instance read_pc_eq_dec : EqDecision read_pc.
Proof. solve_decision. Defined.

(** The characters before [pos] are [r_buf]; the rest of the buffer is zero. *)
Record reader := MkReader {
  r_kernel : kernel;
  r_buf : list Z;
  r_pc : read_pc;
}.
#[export] Instance eta_reader : Eta reader := λ t, MkReader (r_kernel t) (r_buf t) (r_pc t).

(** The body of the loop once it has [ch]. *)
Definition take_char (ch : Z) (t : reader) : reader :=
  let 'MkReader k buf _ := t in
  if (ch =? 13) || (ch =? 10) then MkReader (on_con (λ c, vga_putchar c 10) k) buf At_end
  else if (ch =? 8) || (ch =? 127) then
    if 0 <? Str.strlen buf
    then MkReader (on_con (λ c, vga_putchar c 8) k) (removelast buf) At_test
    else MkReader k buf At_test
  else if (32 <=? ch) && (ch <=? 126)
  then MkReader (on_con (λ c, vga_putchar c ch) k) (buf ++ [ch]) At_test
  else MkReader k buf At_test.

Definition set_kbd (kb : keyboard) (t : reader) : reader :=
  t <| r_kernel := r_kernel t <| k_kbd := kb |> |>.

(** One step of the processor in [shell_read_input]. *)
Definition input_step (max_length : Z) (t : reader) : reader :=
  let kb := k_kbd (r_kernel t) in
  match r_pc t with
  | At_test =>
      t <| r_pc := if Str.strlen (r_buf t) <? max_length - 1
                   then if keyboard_has_input kb then At_get else At_hlt
                   else At_end |>
  | At_get => t <| r_pc := if buffer_count kb =? 0 then Has_char 0 else Got_count (buffer_count kb) |>
  | Got_count count => t <| r_pc := Got_char count (load_char kb) |>
  | Got_char count ch => set_kbd (advance_head kb) t <| r_pc := Moved_head count ch |>
  | Moved_head count ch => set_kbd (store_count count kb) t <| r_pc := Has_char ch |>
  | Has_char ch => take_char ch t
  | At_hlt => t <| r_pc := Asleep |>
  | Asleep | At_end => t
  end.

(** A keyboard interrupt at any moment; it ends the sleep, and the loop tests again. *)
Definition input_irq (status scancode : Z) (t : reader) : reader :=
  t <| r_kernel := irq (r_kernel t) status scancode |>
    <| r_pc := match r_pc t with Asleep => At_test | pc => pc end |>.

(** What happens next: a step of the processor or a keyboard interrupt. *)
Inductive event := Cpu | Irq (status scancode : Z).

Definition input_event (max_length : Z) (e : event) (t : reader) : reader :=
  match e with
  | Cpu => input_step max_length t
  | Irq status scancode => input_irq status scancode t
  end.

(** Reading a line under a schedule of events; no result when the schedule is over
    before the line is. *)
Fixpoint input_loop (max_length : Z) (t : reader) (sched : list event) :
    option (kernel * list Z * list event) :=
  match r_pc t, sched with
  | At_end, _ => Some (r_kernel t, r_buf t, sched)
  | _, [] => None
  | _, e :: sched => input_loop max_length (input_event max_length e t) sched
  end.

Definition shell_read_input (k : kernel) (max_length : Z) (sched : list event) :
    option (kernel * list Z * list event) :=
  input_loop max_length (MkReader k [] At_test) sched.

(** ** Cutting the line into words *)

Definition is_space (c : Z) : bool := (c =? 32) || (c =? 9).

Fixpoint skip_space (s : list Z) : list Z :=
  match s with
  | c :: s' => if is_space c then skip_space s' else s
  | [] => []
  end.

(** The characters of one argument, at most [room], and what is left. *)
Fixpoint take_arg (room : nat) (s : list Z) : list Z * list Z :=
  match room, s with
  | S room', c :: s' =>
      if is_space c then ([], s) else let '(arg, rest) := take_arg room' s' in (c :: arg, rest)
  | _, _ => ([], s)
  end.

(** The loop that fills [args], with room for [n] more. *)
Fixpoint parse_args (n : nat) (s : list Z) : list (list Z) :=
  match n with
  | O => []
  | S n' =>
      match skip_space s with
      | [] => []
      | s' => let '(arg, rest) := take_arg (Z.to_nat (MAX_COMMAND_LENGTH - 1)) s' in
              arg :: parse_args n' rest
      end
  end.

(** The decimal loop of [malloc], [kill], [priority] and [syscall]. *)
Fixpoint parse_dec (value : Z) (s : list Z) : option Z :=
  match s with
  | [] => Some value
  | c :: s' => if is_digit c then parse_dec (u32 (value * 10) +w (c - chr "0")) s' else None
  end.

Definition hex_nibble (c : Z) : option Z :=
  if is_digit c then Some (c - chr "0")
  else if (chr "a" <=? c) && (c <=? chr "f") then Some (c - chr "a" + 10)
  else if (chr "A" <=? c) && (c <=? chr "F") then Some (c - chr "A" + 10)
  else None.

(** The hexadecimal loop of [free] and [syscall]. *)
Fixpoint parse_hex (value : Z) (s : list Z) : option Z :=
  match s with
  | [] => Some value
  | c :: s' => d ← hex_nibble c; parse_hex (u32 (Z.shiftl value 4) +w d) s'
  end.

Definition has_0x (s : list Z) : bool := (Str.peek s =? chr "0") && (Str.peek (tail s) =? chr "x").

(** ** The commands *)

(** [argv\[i\]], for [i] below [argc]. *)
Definition arg (argv : list (list Z)) (i : nat) : list Z := nth i argv [].
Definition argc (argv : list (list Z)) : Z := Z.of_nat (length argv).

(** The commands of the table. *)
Inductive command_fun : Set :=
| cmd_help | cmd_clear | cmd_info | cmd_memory | cmd_malloc | cmd_free | cmd_paging
| cmd_memmap | cmd_ls | cmd_cat | cmd_touch | cmd_rm | cmd_mkdir | cmd_rmdir
| cmd_cd | cmd_pwd | cmd_fs_info | cmd_ps | cmd_kill | cmd_priority | cmd_syscall.
#[export] Instance command_fun_eq_dec : EqDecision command_fun.
Proof. solve_decision. Defined.

(** [commands], without its end marker. *)
Definition commands : list (string * (command_fun * string)) := [
  ("help", (cmd_help, "Show all available commands."));
  ("clear", (cmd_clear, "Clear the screen."));
  ("info", (cmd_info, "Show System information."));
  ("memory", (cmd_memory, "Show memory information and statistics."));
  ("malloc", (cmd_malloc, "Allocate memory (usage: malloc <size>)."));
  ("free", (cmd_free, "Free allocated memory (usage: free <address>)."));
  ("paging", (cmd_paging, "Show paging information."));
  ("memmap", (cmd_memmap, "Show memory map."));
  ("ls", (cmd_ls, "List directory contents."));
  ("cat", (cmd_cat, "Display file contents (usage: cat <filename>)."));
  ("touch", (cmd_touch, "Create empty file (usage: touch <filename>)."));
  ("rm", (cmd_rm, "Remove file (usage: rm <filename>)."));
  ("mkdir", (cmd_mkdir, "Create directory (usage: mkdir <dirname>)."));
  ("rmdir", (cmd_rmdir, "Remove directory (usage: rmdir <dirname>)."));
  ("cd", (cmd_cd, "Change directory (usage: cd <dirname>)."));
  ("pwd", (cmd_pwd, "Print current working directory."));
  ("fsinfo", (cmd_fs_info, "Show filesystem information."));
  ("ps", (cmd_ps, "List all processes."));
  ("kill", (cmd_kill, "Kill a process (usage: kill <pid>)."));
  ("priority", (cmd_priority, "Set process priority (usage: priority <pid> <level>)."));
  ("syscall", (cmd_syscall, "System call interface (usage: syscall <num> [args...])."))].

Section shell.
Context (E : env).
Implicit Types (k : kernel) (argv : list (list Z)).

Definition shell_help k : kernel :=
  let k := say (line "Available commands:") k in
  foldl (λ k '(name, (_, description)),
    let k := say (lit "  ") k in
    let k := say (lit name) k in
    let k := say (lit " - ") k in
    let k := say (lit description) k in
    on_con (λ c, vga_putchar c 10) k) k commands.

Definition shell_clear k : kernel := on_con vga_clear k.

Definition shell_info k : kernel :=
  let k := say (line "=== System Information ===") k in
  let k := say (line "Kernel Version: PXOS Kernel v1.0") k in
  let k := say (line "Architecture: x86-32") k in
  let k := say (line "Memory: Virtual Memory Management Enabled") k in
  let k := say (line "Display: VGA text mode 80x25") k in
  say (line "Shell: Enhanced command line interface") k.

Definition shell_memory k : kernel := on_con (print_memory_info (k_mm k)) k.

Definition shell_malloc k argv : option kernel :=
  if argc argv <? 2 then Some (say (line "Usage: malloc <size_in_bytes>") k)
  else
    match parse_dec 0 (arg argv 1) with
    | None => Some (say (line "Invalid size format!") k)
    | Some size =>
        if size =? 0 then Some (say (line "Size must be greater than 0!") k)
        else
          '(ptr, h) ← kmalloc (k_mm k) (ram_of k) size;
          let k := set_heap k h in
          Some (if negb (ptr =? 0) then
                  let k := say (lit "Allocated ") k in
                  let k := say_hex size k in
                  let k := say (lit " bytes at address: ") k in
                  let k := say_hex ptr k in
                  say [10] k
                else say (line "Memory allocation failed!") k)
    end.

Definition shell_free k argv : option kernel :=
  if argc argv <? 2 then Some (say (line "Usage: free <address>") k)
  else
    let str := arg argv 1 in
    let str := if has_0x str then drop 2 str else str in
    match parse_hex 0 str with
    | None => Some (say (line "Invalid address format!") k)
    | Some addr =>
        h ← kfree (k_mm k) (ram_of k) addr;
        let k := set_heap k h in
        let k := say (lit "Freed memory at address: 0x") k in
        let k := say_hex addr k in
        Some (say [10] k)
    end.

Definition shell_paging k : kernel :=
  let k := say (line "=== Paging Information ===") k in
  let k := say (line "Page Size: 4KB") k in
  let k := say (line "Page Directory Entries: 1024") k in
  let k := say (line "Page Table Entries: 1024") k in
  say (line "Paging system initialized.") k.

Definition shell_memmap k : option kernel :=
  con ← print_memory_map (k_mm k) (k_con k); Some (k <| k_con := con |>).

(** *** Files *)

(** [strcpy(full_path, "/"); strcat(full_path, argv\[1\])]. *)
Definition full_path argv : list Z := lit "/" ++ arg argv 1.

Definition ls_entry k (e : dirent_info) : kernel :=
  let k := say (i_name e) k in
  let k := say [9; 9] k in
  let k := match i_type e with
           | FS_TYPE_DIRECTORY => say (lit "DIR" ++ [9; 9]) k
           | _ => say (lit "FILE" ++ [9; 9]) k
           end in
  let k := say_hex (i_size e) k in
  say [10] k.

Definition shell_ls k : kernel :=
  let current_path := match fs_get_cwd (k_fs k) FS_MAX_PATH with Ok p => p | Err _ => path_junk E end in
  match fs_listdir (k_fs k) (dir_junk E) (Some current_path) 32 with
  | Err _ => print_error (line "Failed to list directory") k
  | Ok entries =>
      let k := print_info (line "Directory listing:") k in
      let k := print_info (lit "Name" ++ [9; 9] ++ lit "Type" ++ [9; 9] ++ line "Size") k in
      let k := print_info (line "----------------------------------------") k in
      foldl ls_entry k entries
  end.

(** One turn of the loop of [shell_cat]; [i] numbers the calls of [fs_read], each
    of which finds its own sector buffer on the stack. *)
Definition cat_step (st : kernel * fs_file * nat) : kernel * fs_file * nat + option (kernel * fs_file) :=
  let '(k, file, i) := st in
  match fs_read (λ j, sector_junk E (256 * i + j)) (k_fs k) ∅ (Some file) 0 255 with
  | None => inr None
  | Some (bytes_read, (file', buffer)) =>
      let file := default file file' in
      if 0 <? bytes_read
      then inl (say (c_string (rd_bytes buffer 0 (Z.to_nat bytes_read))) k, file, S i)
      else inr (Some (k, file))
  end.

Definition shell_cat k argv : option kernel :=
  if argc argv <? 2 then Some (say (line "Usage: cat <filename>") k)
  else
    '(result, (file, (s, con))) ← fs_open (k_fs k) (k_con k) (dir_junk E) (Some (full_path argv))
      FS_MODE_READ (Some (MkFile 0 0 0 0 false []));
    let k := k <| k_con := con |> <| k_fs := s |> in
    if negb (result =? FS_SUCCESS) then Some (print_error (line "Failed to open file") k)
    else
      file ← file;
      r ← loop (S (Z.to_nat (f_size file))) cat_step (k, file, O);
      '(k, file) ← r;
      let _ := fs_close (Some file) in
      Some k.

(** What [touch], [rm], [mkdir] and [rmdir] have in common: one file system
    operation on the path, and a message. *)
Definition file_command (op : fs → machine → list Z → option (Z * (fs * machine)))
    (usage success failure : string) k argv : option kernel :=
  if argc argv <? 2 then Some (say (line usage) k)
  else
    '(result, (s, con)) ← op (k_fs k) (k_con k) (full_path argv);
    let k := k <| k_con := con |> <| k_fs := s |> in
    Some (if result =? FS_SUCCESS then print_success (line success) k
          else print_error (line failure) k).

Definition shell_touch : kernel → list (list Z) → option kernel :=
  file_command (λ s con path, fs_create s con (dir_junk E) (Some path))
    "Usage: touch <filename>" "File created successfully" "Failed to create file".
Definition shell_rm : kernel → list (list Z) → option kernel :=
  file_command (λ s con path, quiet con (fs_delete s (Some path)))
    "Usage: rm <filename>" "File deleted successfully" "Failed to delete file".
Definition shell_mkdir : kernel → list (list Z) → option kernel :=
  file_command (λ s con path, quiet con (fs_mkdir s (dir_junk E) (Some path)))
    "Usage: mkdir <dirname>" "Directory created successfully" "Failed to create directory".
Definition shell_rmdir : kernel → list (list Z) → option kernel :=
  file_command (λ s con path, quiet con (fs_rmdir s (Some path)))
    "Usage: rmdir <dirname>" "Directory removed successfully" "Failed to remove directory".

Definition shell_cd k argv : kernel :=
  if argc argv <? 2 then say (line "Usage: cd <dirname>") k
  else
    let dir := arg argv 1 in
    let at_root := match fs_get_cwd (k_fs k) FS_MAX_PATH with
                   | Ok cwd => Str.strcmp cwd (lit "/") =? 0 | Err _ => false end in
    if (Str.strcmp dir (lit "..") =? 0) && at_root
    then print_warning (line "Already at root directory.") k
    else
      let path := if (Str.strcmp dir (lit "..") =? 0) || (Str.strcmp dir (lit ".") =? 0)
                     || (Str.strcmp dir (lit "/") =? 0) then dir else full_path argv in
      let '(result, s) := fs_chdir (k_fs k) (Some path) in
      let k := k <| k_fs := s |> in
      if result =? FS_SUCCESS then print_success (line "Changed directory successfully") k
      else print_error (line "Failed to change directory") k.

Definition shell_pwd k : kernel :=
  match fs_get_cwd (k_fs k) FS_MAX_PATH with
  | Ok cwd =>
      let k := say (lit "Current directory: ") k in
      let k := if Str.strcmp cwd (lit "/") =? 0 then say (lit "~") k else say cwd k in
      say [10] k
  | Err _ => say (line "Failed to get current directory") k
  end.

(** A caption, a number and a newline. *)
Definition report (caption : string) (num : Z) k : kernel :=
  say [10] (say_hex num (say (lit caption) k)).

Definition shell_fs_info k : kernel :=
  let '(result, s) := fs_get_stats (k_fs k) in
  let k := k <| k_fs := s |> in
  match result with
  | Err _ => say (line "Failed to get filesystem information") k
  | Ok st =>
      let k := say (line "=== Filesystem Information ===") k in
      let k := report "Total Sectors: " (total_sectors st) k in
      let k := report "Free Sectors: " (free_sectors st) k in
      let k := report "Used Sectors: " (used_sectors st) k in
      let k := report "Total Files: " (total_files st) k in
      let k := report "Total Directories: " (total_dirs st) k in
      match fs_get_free_space (k_fs k) with
      | Ok free_bytes =>
          let k := say (lit "Free Space: ") k in
          let k := say_hex free_bytes k in
          say (line " bytes") k
      | Err _ => k
      end
  end.

(** *** Processes *)

(** A text and the spaces that fill its column, and the bar after it. *)
Definition column (text : list Z) (width : Z) k : kernel :=
  let k := say text k in
  let k := on_con (λ c, pad_to c (Str.strlen text) width) k in
  say (lit " | ") k.

Definition ps_entry k (b : pcb) : kernel :=
  let k := say (lit " ") k in
  let k := say_hex (p_pid b) k in
  let k := say (lit "  | ") k in
  let k := column (take 20 (p_name b)) 20 k in
  let k := column (process_state_to_string (p_state b)) 9 k in
  let k := column (process_priority_to_string (p_priority b)) 9 k in
  let k := say_hex (cpu_time b) k in
  say [10] k.

Definition shell_ps k : kernel :=
  let processes := process_get_list (k_procs k) MAX_PROCESSES in
  let k := print_info (line "Process List:") k in
  let k := say (line "PID | Name                | State     | Priority  | CPU Time") k in
  let k := say (line "----|---------------------|-----------|-----------|---------") k in
  let k := foldl ps_entry k processes in
  report "Total processes: " (Z.of_nat (length processes)) k.

Definition shell_kill k argv : option kernel :=
  if argc argv <? 2 then Some (print_error (line "Usage: kill <pid>") k)
  else
    match parse_dec 0 (arg argv 1) with
    | None => Some (print_error (line "Invalid PID format") k)
    | Some pid =>
        if pid =? 0 then Some (print_error (line "Cannot kill idle process (PID 0)") k)
        else
          '(result, (s, h)) ← process_kill (k_procs k) (heap_of k) pid;
          let k := set_heap k h <| k_procs := s |> in
          Some (if result =? PROCESS_SUCCESS
                then print_success (line "Process killed successfully") k
                else if result =? PROCESS_ERROR_NOT_FOUND
                then print_error (line "Process not found") k
                else print_error (line "Failed to kill process") k)
    end.

Definition shell_priority k argv : option kernel :=
  if argc argv <? 3 then
    let k := print_error (line "Usage: priority <pid> <level>") k in
    Some (print_info (line "Levels: 1=Low, 2=Normal, 3=High, 4=Critical") k)
  else
    match parse_dec 0 (arg argv 1) with
    | None => Some (print_error (line "Invalid PID format") k)
    | Some pid =>
        match parse_dec 0 (arg argv 2) with
        | None => Some (print_error (line "Invalid priority level format") k)
        | Some priority =>
            if (priority <? 1) || (4 <? priority)
            then Some (print_error (line "Priority level must be 1-4") k)
            else
              '(result, s) ← process_set_priority (k_procs k) pid priority;
              let k := k <| k_procs := s |> in
              Some (if result =? PROCESS_SUCCESS
                    then print_success (line "Process priority updated successfully") k
                    else if result =? PROCESS_ERROR_NOT_FOUND
                    then print_error (line "Process not found") k
                    else print_error (line "Failed to update process priority") k)
        end
    end.

(** *** System calls *)

(** The value of one argument, or the complaint about it. *)
Definition parse_value (s : list Z) : list Z + Z :=
  if has_0x s then
    match parse_hex 0 (drop 2 s) with
    | Some v => inr v
    | None => inl (line "Invalid hex format")
    end
  else
    match parse_dec 0 s with
    | Some v => inr v
    | None => inl (line "Invalid decimal format")
    end.

(** The first bad argument ends the loop. *)
Fixpoint parse_values (l : list (list Z)) : list Z + list Z :=
  match l with
  | [] => inr []
  | s :: l' =>
      match parse_value s with
      | inl e => inl e
      | inr v => match parse_values l' with inl e => inl e | inr vs => inr (v :: vs) end
      end
  end.

Definition shell_syscall k argv : option kernel :=
  if argc argv <? 2 then
    let k := say (line "Usage: syscall <num> [arg1] [arg2] [arg3] [arg4] [arg5]") k in
    Some (say (line "Use 'syscall list' to see available system calls.") k)
  else if Str.strcmp (arg argv 1) (lit "list") =? 0
  then Some (on_con (syscall_list (k_sys k)) k)
  else
    match parse_dec 0 (arg argv 1) with
    | None => Some (print_error (line "Invalid system call number format") k)
    | Some syscall_num =>
        match parse_values (take 5 (drop 2 argv)) with
        | inl complaint => Some (print_error complaint k)
        | inr args =>
            let a i := nth i args 0 in
            '(result, k) ← syscall_execute E k (MkArgs syscall_num (a 0%nat) (a 1%nat) (a 2%nat) (a 3%nat) (a 4%nat));
            let k := say (lit "System call result: ") k in
            let k := say_hex result k in
            Some (say [10] k)
        end
    end.

(** ** Executing a line *)

(** Calling through the [func] pointer. *)
Definition run_command k (f : command_fun) argv : option kernel :=
  match f with
  | cmd_help => Some (shell_help k)
  | cmd_clear => Some (shell_clear k)
  | cmd_info => Some (shell_info k)
  | cmd_memory => Some (shell_memory k)
  | cmd_malloc => shell_malloc k argv
  | cmd_free => shell_free k argv
  | cmd_paging => Some (shell_paging k)
  | cmd_memmap => shell_memmap k
  | cmd_ls => Some (shell_ls k)
  | cmd_cat => shell_cat k argv
  | cmd_touch => shell_touch k argv
  | cmd_rm => shell_rm k argv
  | cmd_mkdir => shell_mkdir k argv
  | cmd_rmdir => shell_rmdir k argv
  | cmd_cd => Some (shell_cd k argv)
  | cmd_pwd => Some (shell_pwd k)
  | cmd_fs_info => Some (shell_fs_info k)
  | cmd_ps => Some (shell_ps k)
  | cmd_kill => shell_kill k argv
  | cmd_priority => shell_priority k argv
  | cmd_syscall => shell_syscall k argv
  end.

(** The search of the command table. *)
Fixpoint find_command (name : list Z) (table : list (string * (command_fun * string))) :
    option command_fun :=
  match table with
  | [] => None
  | (n, (f, _)) :: table' =>
      if Str.strcmp name (lit n) =? 0 then Some f else find_command name table'
  end.

Definition shell_execute_command k (input : list Z) : option kernel :=
  match skip_space input with
  | [] => Some (shell_prompt k)
  | s =>
      match parse_args (Z.to_nat MAX_ARGS) s with
      | [] => Some (shell_prompt k)
      | (name :: _) as args =>
          match find_command name commands with
          | Some f =>
              k ← run_command k f args;
              let k := on_con (λ c, vga_putchar c 10) k in
              let k := color VGA_COLOR_LIGHT_GREY k in
              Some (shell_prompt k)
          | None =>
              let k := color VGA_COLOR_LIGHT_RED k in
              let k := say (lit "Command not found: ") k in
              let k := say name k in
              let k := on_con (λ c, vga_putchar c 10) k in
              let k := color VGA_COLOR_LIGHT_GREY k in
              Some (shell_prompt k)
          end
      end
  end.

(** One step of the processor in [shell_run]: in [shell_read_input] until the line is
    complete, and then the whole of [shell_execute_command]; nothing there looks at the
    keyboard, so that an interrupt during a command may be taken just before it. *)
Definition shell_step (t : reader) : option reader :=
  match r_pc t with
  | At_end => k ← shell_execute_command (r_kernel t) (r_buf t); Some (MkReader k [] At_test)
  | _ => Some (input_step MAX_COMMAND_LENGTH t)
  end.

Definition shell_event (e : event) (t : reader) : option reader :=
  match e with
  | Cpu => shell_step t
  | Irq status scancode => Some (input_irq status scancode t)
  end.

(** The loop of [shell_run] under a schedule of events. *)
Fixpoint shell_loop (t : reader) (sched : list event) : option reader :=
  match sched with
  | [] => Some t
  | e :: sched => t ← shell_event e t; shell_loop t sched
  end.

Definition shell_run k (sched : list event) : option reader :=
  shell_loop (MkReader (shell_prompt k) [] At_test) sched.
End shell.

(** ** What printing leaves unchanged *)

(** Only the console differs. *)
Definition prints (k k' : kernel) : Prop :=
  ∃ con, k' = k <| k_con := con |> ∧ console_step (k_con k) con.

Create HintDb prints.

Section prints.
Implicit Types (k : kernel).

Lemma prints_refl k : term_ok (k_con k) → prints k k.
Proof. intros Hk. exists (k_con k). split; [by destruct k|by apply console_step_refl]. Qed.

Lemma prints_trans k1 k2 k3 : prints k1 k2 → prints k2 k3 → prints k1 k3.
Proof.
  intros (c2 & -> & H2) (c3 & -> & H3). exists c3. split; [done|]. by eapply console_step_trans.
Qed.

Lemma on_con_prints k k' f :
  (∀ c, term_ok c → console_step c (f c)) → prints k k' → prints k (on_con f k').
Proof.
  intros Hf (c & -> & Hc). exists (f c). split; [done|].
  eapply console_step_trans; [exact Hc|]. apply Hf, Hc.
Qed.

Lemma say_prints k k' text : prints k k' → prints k (say text k').
Proof. apply on_con_prints. auto with console. Qed.
Lemma say_hex_prints k k' num : prints k k' → prints k (say_hex num k').
Proof. apply on_con_prints. auto with console. Qed.
Lemma color_prints k k' fg : prints k k' → prints k (color fg k').
Proof. apply on_con_prints. auto with console. Qed.
Lemma putchar_prints k k' c : prints k k' → prints k (on_con (λ con, vga_putchar con c) k').
Proof. apply on_con_prints. auto with console. Qed.
Lemma clear_prints k k' : prints k k' → prints k (on_con vga_clear k').
Proof. apply on_con_prints. auto with console. Qed.
#[local] Hint Resolve say_prints say_hex_prints color_prints putchar_prints clear_prints : prints.

Lemma print_success_prints k k' text : prints k k' → prints k (print_success text k').
Proof. unfold print_success. auto with prints. Qed.
Lemma print_error_prints k k' text : prints k k' → prints k (print_error text k').
Proof. unfold print_error. auto with prints. Qed.
Lemma print_warning_prints k k' text : prints k k' → prints k (print_warning text k').
Proof. unfold print_warning. auto with prints. Qed.
Lemma print_info_prints k k' text : prints k k' → prints k (print_info text k').
Proof. unfold print_info. auto with prints. Qed.
Lemma report_prints k k' caption num : prints k k' → prints k (report caption num k').
Proof. unfold report. auto with prints. Qed.
Lemma shell_prompt_prints k k' : prints k k' → prints k (shell_prompt k').
Proof.
  intros H. unfold shell_prompt. destruct (fs_get_cwd _ _); [destruct (_ =? 0)|]; auto 8 with prints.
Qed.
Lemma shell_init_prints k k' : prints k k' → prints k (shell_init k').
Proof. intros H. unfold shell_init. apply shell_prompt_prints. auto with prints. Qed.
End prints.
#[export] Hint Resolve prints_refl say_prints say_hex_prints color_prints putchar_prints clear_prints
  print_success_prints print_error_prints print_warning_prints print_info_prints report_prints
  shell_prompt_prints shell_init_prints : prints.
