(* ===== verification/ShellFrame.v ===== *)
(** * What commands and system calls do not touch

    Only the line input of the shell and the keyboard interrupt use the keyboard driver:
    every command and every system call does the same whatever the state of the keyboard,
    and leaves that state as it is.  So an interrupt during a command is an interrupt
    before it. *)

From S2P Require Import Prelude Ram CString Vga Memory Heap Alloc PhysPages Paging Keyboard Interrupt.
From S2P Require Import Fat FsNames Fs Process SysTable Layout Kernel Syscall Shell.
Set Default Goal Selector "!".

Definition with_kbd (kb : keyboard) (k : kernel) : kernel := k <| k_kbd := kb |>.

(** An operation that ignores the keyboard, alone, with a result, and with a result and a
    call that may not return. *)
Definition blind (f : kernel → kernel) : Prop := ∀ kb k, f (with_kbd kb k) = with_kbd kb (f k).
Definition blind_option (f : kernel → option kernel) : Prop :=
  ∀ kb k, f (with_kbd kb k) = with_kbd kb <$> f k.
Definition blind_call (f : kernel → option (Z * kernel)) : Prop :=
  ∀ kb k, f (with_kbd kb k) = prod_map id (with_kbd kb) <$> f k.

#[local] Opaque vga_putstr vga_putchar vga_puthex vga_set_color vga_clear lit.

(** Projections of [with_kbd] other than the keyboard compute away; what is left is case
    analysis on what the components return. *)
Ltac blind_cases :=
  unfold with_kbd, set_heap, set_ram, heap_of, ram_of, say, say_hex, color, on_con;
  cbn [k_mm k_con k_kbd k_idt k_fs k_procs k_sys set_field eta_kernel];
  unfold mbind, option_bind, fmap, option_fmap, option_map;
  try reflexivity; repeat (case_match; try reflexivity).

(** ** System calls *)

Lemma call_handler_blind E f a : blind_call (λ k, call_handler E k f a).
Proof.
  intros kb k. destruct a, f; cbn [call_handler];
    unfold sys_exit, sys_fork, sys_exec, sys_wait, sys_getpid, sys_getppid, sys_kill, sys_yield,
      sys_open, sys_close, sys_read, sys_write, sys_seek, sys_tell, sys_create, sys_delete,
      sys_rename, sys_mkdir, sys_rmdir, sys_chdir, path_call, sys_getcwd, sys_listdir, sys_malloc,
      sys_free, sys_mmap, sys_munmap, sys_ps, sys_setpriority, sys_getinfo; blind_cases.
Qed.

Lemma syscall_execute_blind E a : blind_call (λ k, syscall_execute E k a).
Proof.
  intros kb k. unfold syscall_execute. change (k_sys (with_kbd kb k)) with (k_sys k).
  destruct (syscall_find _ _) as [e|]; [|reflexivity]. destruct (e_handler e) as [f|]; [|reflexivity].
  exact (call_handler_blind E f a kb (k <| k_sys := k_sys k <| current_syscall_args := a |> |>)).
Qed.

(** ** Commands *)

Lemma say_blind text : blind (say text).
Proof. intros kb k. reflexivity. Qed.
Lemma say_hex_blind num : blind (say_hex num).
Proof. intros kb k. reflexivity. Qed.
Lemma color_blind fg : blind (color fg).
Proof. intros kb k. reflexivity. Qed.
Lemma on_con_blind f : blind (on_con f).
Proof. intros kb k. reflexivity. Qed.

Lemma foldl_blind {A} (f : kernel → A → kernel) (l : list A) :
  (∀ x, blind (λ k, f k x)) → blind (λ k, foldl f k l).
Proof.
  intros Hf kb. induction l as [|x l IH]; intros k; [reflexivity|]. cbn [foldl].
  rewrite (Hf x kb k). apply IH.
Qed.

Lemma shell_prompt_blind : blind shell_prompt.
Proof. intros kb k. unfold shell_prompt. blind_cases. Qed.

Section commands.
Context (E : env) (argv : list (list Z)).

Lemma shell_help_blind : blind shell_help.
Proof.
  intros kb k. unfold shell_help. rewrite say_blind. generalize (say (line "Available commands:") k) commands.
  intros k1 l. cbv zeta. refine (foldl_blind _ l _ kb k1). intros [name [f text]] kb' k'. reflexivity.
Qed.

Lemma print_info_blind text : blind (print_info text).
Proof. intros kb k. reflexivity. Qed.

Lemma report_blind caption num : blind (report caption num).
Proof. intros kb k. reflexivity. Qed.

Lemma shell_ls_blind : blind (shell_ls E).
Proof.
  intros kb k. unfold shell_ls. change (k_fs (with_kbd kb k)) with (k_fs k).
  destruct (fs_listdir _ _ _ _); [|reflexivity]. cbv zeta. rewrite !print_info_blind.
  refine (foldl_blind ls_entry _ _ kb _). intros e kb' k'. unfold ls_entry. blind_cases.
Qed.

Lemma shell_ps_blind : blind shell_ps.
Proof.
  intros kb k. unfold shell_ps, report. change (k_procs (with_kbd kb k)) with (k_procs k). cbv zeta.
  set (l := process_get_list _ _). clearbody l. rewrite print_info_blind, !say_blind.
  rewrite (foldl_blind ps_entry); [|intros e kb' k'; reflexivity].
  by rewrite say_blind, say_hex_blind, say_blind.
Qed.

(** The loop of [cat]. *)
Lemma cat_loop_blind fuel kb k file i :
  loop fuel (cat_step E) (with_kbd kb k, file, i) =
    fmap (M := option) (prod_map (with_kbd kb) id) <$> loop fuel (cat_step E) (k, file, i).
Proof.
  revert k file i. induction fuel as [|fuel IH]; intros k file i; [reflexivity|]. cbn [loop].
  unfold cat_step at 1 3. change (k_fs (with_kbd kb k)) with (k_fs k).
  destruct (fs_read _ _ _ _ _ _) as [[n [f b]]|]; [|reflexivity]. cbv zeta.
  destruct (0 <? n); [|reflexivity]. rewrite say_blind. apply IH.
Qed.

Lemma shell_cat_blind : blind_option (λ k, shell_cat E k argv).
Proof.
  intros kb k. unfold shell_cat.
  change (k_fs (with_kbd kb k)) with (k_fs k). change (k_con (with_kbd kb k)) with (k_con k).
  destruct (argc argv <? 2); [reflexivity|]. destruct (fs_open _ _ _ _ _ _) as [[r [f [s con]]]|]; [|reflexivity].
  cbn [mbind option_bind]. destruct (negb _); [reflexivity|]. destruct f as [f|]; [|reflexivity].
  cbn [mbind option_bind].
  change (with_kbd kb k <| k_con := con |> <| k_fs := s |>) with (with_kbd kb (k <| k_con := con |> <| k_fs := s |>)).
  rewrite cat_loop_blind.
  destruct (loop _ _ _) as [[[k' f']|]|]; reflexivity.
Qed.

Lemma file_command_blind op usage success failure : blind_option (λ k, file_command op usage success failure k argv).
Proof. intros kb k. unfold file_command. blind_cases. Qed.

Lemma shell_cd_blind : blind (λ k, shell_cd k argv).
Proof. intros kb k. unfold shell_cd. blind_cases. Qed.
Lemma shell_pwd_blind : blind shell_pwd.
Proof. intros kb k. unfold shell_pwd. blind_cases. Qed.
Lemma shell_fs_info_blind : blind shell_fs_info.
Proof.
  intros kb k. unfold shell_fs_info. change (k_fs (with_kbd kb k)) with (k_fs k).
  destruct (fs_get_stats (k_fs k)) as [[st|e] s]; cbv zeta;
    change (with_kbd kb k <| k_fs := s |>) with (with_kbd kb (k <| k_fs := s |>)); [|apply say_blind].
  rewrite say_blind, !report_blind. set (k1 := report "Total Directories: " _ _). clearbody k1.
  change (k_fs (with_kbd kb k1)) with (k_fs k1). destruct (fs_get_free_space _); [|reflexivity].
  by rewrite say_blind, say_hex_blind, say_blind.
Qed.
Lemma shell_kill_blind : blind_option (λ k, shell_kill k argv).
Proof. intros kb k. unfold shell_kill. blind_cases. Qed.
Lemma shell_priority_blind : blind_option (λ k, shell_priority k argv).
Proof. intros kb k. unfold shell_priority. blind_cases. Qed.
Lemma shell_malloc_blind : blind_option (λ k, shell_malloc k argv).
Proof. intros kb k. unfold shell_malloc. blind_cases. Qed.
Lemma shell_free_blind : blind_option (λ k, shell_free k argv).
Proof. intros kb k. unfold shell_free. blind_cases. Qed.

Lemma shell_syscall_blind : blind_option (λ k, shell_syscall E k argv).
Proof.
  intros kb k. unfold shell_syscall. change (k_sys (with_kbd kb k)) with (k_sys k).
  destruct (_ <? 2); [reflexivity|]. destruct (_ =? 0); [reflexivity|].
  destruct (parse_dec 0 _) as [num|]; [|reflexivity].
  destruct (parse_values _) as [|args]; [reflexivity|]. cbv zeta. rewrite syscall_execute_blind.
  destruct (syscall_execute _ _ _) as [[r k']|]; reflexivity.
Qed.
End commands.

Lemma run_command_blind E f argv : blind_option (λ k, run_command E k f argv).
Proof.
  intros kb k. destruct f; cbn [run_command].
  5: apply shell_malloc_blind.
  5: apply shell_free_blind.
  6: { unfold shell_memmap. blind_cases. }
  7: apply shell_cat_blind.
  7, 8, 9, 10: apply file_command_blind.
  11: apply shell_kill_blind.
  11: apply shell_priority_blind.
  11: apply shell_syscall_blind.
  - by rewrite shell_help_blind.
  - reflexivity.
  - reflexivity.
  - reflexivity.
  - reflexivity.
  - by rewrite shell_ls_blind.
  - by rewrite shell_cd_blind.
  - by rewrite shell_pwd_blind.
  - by rewrite shell_fs_info_blind.
  - by rewrite shell_ps_blind.
Qed.

(** A whole command line. *)
Lemma execute_command_blind E line : blind_option (λ k, shell_execute_command E k line).
Proof.
  intros kb k. unfold shell_execute_command.
  destruct (skip_space line); [by rewrite shell_prompt_blind|].
  destruct (parse_args _ _) as [|name args]; [by rewrite shell_prompt_blind|].
  destruct (find_command _ _) as [f|].
  - rewrite run_command_blind. destruct (run_command _ _ _ _) as [k'|]; [|reflexivity].
    cbn [fmap option_fmap option_map mbind option_bind]. cbv zeta.
    by rewrite on_con_blind, color_blind, shell_prompt_blind.
  - cbv zeta. by rewrite !color_blind, !say_blind, on_con_blind, color_blind, shell_prompt_blind.
Qed.
