(* ===== verification/Boot.v ===== *)
(** * Booting (kernel/kernel.c, [kmain])

    The static variables as they are linked, [kmain] step by step, and the theorem
    that the kernel it hands over to the shell is well formed.  The memory the
    kernel starts on is arbitrary. *)

From S2P Require Import Prelude Ram CString Vga Memory Heap HeapCorrect Alloc PhysPages Paging.
From S2P Require Import PagingCorrect Keyboard Interrupt Fat FsNames Fs FsCorrect FsPreserve Process ProcessCorrect.
From S2P Require Import ProcessSteps SysTable Layout Kernel KernelInv Syscall Shell.
Set Default Goal Selector "!".

(** ** The static variables *)

(** Zero but for the initialisers of vga.c, memory.c and filesystem.c. *)
Definition kernel_image (m : ram) : kernel :=
  MkKernel mm_boot (Machine m 0 0 0x07 [])
    (MkKeyboard (MkKeyboardState false false false false false false) (replicate 256 0) 0 0 0)
    (MkIdt (replicate 256 (MkIdtEntry 0 0 0 0 0)) 0 (replicate 256 0) 0)
    (MkFs false false ∅ zero_root (MkStats 0 0 0 0 0) (lit "/"))
    (MkProcs (replicate 64 pcb_zero) (replicate 64 false) None None None None 0 0 0 0 0 0)
    (MkSyscalls (replicate 64 entry_zero) 0 (MkArgs 0 0 0 0 0 0)).

(** ** [kmain] *)

Section kmain.
Context (E : env).
Implicit Types (k : kernel).

Definition step1_interrupts k : kernel :=
  let k := say (line "Step 1: Initializing interrupts...") k in
  let '(i, con) := idt_init (handler_addr E) (k_idt k) (k_con k) in
  let k := k <| k_idt := i |> <| k_con := con |> in
  say (line "Step 1: Interrupts initialized.") k.

Definition step2_keyboard k : kernel :=
  let k := say (line "Step 2: Initializing keyboard...") k in
  let k := k <| k_kbd := keyboard_init (k_kbd k) |> in
  say (line "Step 2: Keyboard initialized.") k.

Definition step3_memory k : kernel :=
  let k := say (line "Step 3: Initializing memory...") k in
  let '(mm, con) := memory_init (k_mm k) (k_con k) in
  let k := k <| k_mm := mm |> <| k_con := con |> in
  say (line "Step 3: Memory initialized.") k.

Definition step4_filesystem k : kernel :=
  let k := say (line "Step 4: Initializing filesystem...") k in
  let '(fs_result, (s, con)) := fs_init (k_fs k) (k_con k) in
  let k := k <| k_fs := s |> <| k_con := con |> in
  if fs_result =? FS_SUCCESS
  then say (line "Step 4: Filesystem initialized successfully") k
  else report "Step 4: Filesystem initialization failed with code: " fs_result k.

Definition step5_processes k : kernel :=
  let k := say (line "Step 5: Initializing process manager...") k in
  let '(process_result, s) := process_manager_init in
  let k := k <| k_procs := s |> in
  if process_result =? PROCESS_SUCCESS
  then say (line "Step 5: Process manager initialized successfully") k
  else report "Step 5: Process manager initialization failed with code: " process_result k.

Definition step6_syscalls k : kernel :=
  let k := say (line "Step 6: Initializing system calls...") k in
  let k := syscall_init E k in
  say (line "Step 6: System calls initialized successfully") k.

Definition step7_shell k : kernel :=
  let k := say (line "Step 7: Initializing shell...") k in
  let k := shell_init k in
  say (line "Step 7: Shell initialized.") k.

(** Up to the call of [shell_run]; [sti] does not change the state. *)
Definition kmain k : kernel :=
  let k := on_con vga_init k in
  let k := color VGA_COLOR_LIGHT_CYAN k in
  let k := say (line "=== PXOS Kernel v1.0 ===") k in
  let k := color VGA_COLOR_LIGHT_GREEN k in
  let k := say (line "Initializing Kernel...") k in
  let k := step7_shell (step6_syscalls (step5_processes (step4_filesystem (step3_memory
             (step2_keyboard (step1_interrupts k)))))) in
  let k := say (line "Enabling interrupts...") k in
  let k := say (line "Interrupts enabled.") k in
  let k := say (line "Kernel initialized successfully!") k in
  on_con vga_clear k.
End kmain.

(** ** Each step *)

(** The gate that [syscall_init] sets. *)
Lemma trap_gate_set i a v :
  length (idt i) = 256%nat → is_u32 a → 0 <= v < 256 →
  gate_of <$> idt (idt_set_entry i SYSCALL_INT_NUM a 0x08 user_trap) !! Z.to_nat v =
    if v =? 0x80 then Some (a, (0x08, user_trap)) else gate_of <$> idt i !! Z.to_nat v.
Proof.
  intros Hidt Hadr Hv. unfold SYSCALL_INT_NUM. rewrite idt_set_entry_lookup by lia.
  destruct (v =? 128); [|done].
  cbn [fmap option_fmap option_map]. unfold gate_of, entry_offset. cbn. by rewrite entry_offset_split.
Qed.

#[local] Arguments vga_putstr : simpl never.
#[local] Arguments vga_clear : simpl never.

Section steps.
Context (E : env).
Implicit Types (k : kernel).

Lemma term_ok_pic c : term_ok c → console_step c (pic_init c).
Proof. intros Hc. split; [exact Hc|apply only_refl]. Qed.

Lemma step1_ok k :
  (∀ h, is_u32 (handler_addr E h)) → term_ok (k_con k) →
  length (idt (k_idt k)) = 256%nat → length (interrupt_handlers (k_idt k)) = 256%nat →
  ∃ i, prints (k <| k_idt := i |>) (step1_interrupts E k) ∧ length (idt i) = 256%nat ∧
    ∀ v, 0 <= v < 256 → gate_of <$> idt i !! Z.to_nat v = Some (boot_gate (handler_addr E) v).
Proof.
  intros Ha Hk H1 H2. unfold step1_interrupts.
  destruct (say_prints k k (line "Step 1: Initializing interrupts...") (prints_refl k Hk)) as (c & -> & Hc).
  pose proof (idt_init_ok (handler_addr E) (k_idt k) c H1 H2 Ha) as H.
  change (k_idt (k <| k_con := c |>)) with (k_idt k). change (k_con (k <| k_con := c |>)) with c.
  destruct (idt_init (handler_addr E) (k_idt k) c) as [i c']. destruct H as (Hl & Hg & _ & ->).
  exists i. split; [|done]. apply say_prints. exists (pic_init c). split; [done|].
  eapply console_step_trans; [exact Hc|]. apply term_ok_pic, Hc.
Qed.

Lemma step2_ok k :
  term_ok (k_con k) → prints (k <| k_kbd := keyboard_init (k_kbd k) |>) (step2_keyboard k).
Proof.
  intros Hk. unfold step2_keyboard. apply say_prints.
  destruct (say_prints k k (line "Step 2: Initializing keyboard...") (prints_refl k Hk)) as (c & -> & Hc).
  by exists c.
Qed.

Lemma step3_ok k :
  term_ok (k_con k) → next_page_table_addr (k_mm k) = PT_BASE →
  ∃ mm con, step3_memory k = k <| k_mm := mm |> <| k_con := con |> ∧ term_ok con ∧
    mem_ok mm (mem con) ∧ heap_inv mm (mem con) fresh_heap ∧ only (ram_of k) boot_cells (mem con).
Proof.
  intros Hk Hn. unfold step3_memory.
  destruct (say_prints k k (line "Step 3: Initializing memory...") (prints_refl k Hk))
    as (c & -> & [Hc Ho]).
  change (k_mm (k <| k_con := c |>)) with (k_mm k). change (k_con (k <| k_con := c |>)) with c.
  destruct (memory_init (k_mm k) c) as [mm c2] eqn:Em.
  destruct (memory_init_ok _ _ _ _ Em Hc Hn) as ([Hb _ Hh] & Hp & Hpt & Hm & Hc2 & Ho2).
  set (k2 := _ <| k_mm := mm |> <| k_con := c2 |>).
  destruct (say_prints k2 k2 (line "Step 3: Memory initialized.") (prints_refl k2 Hc2))
    as (c3 & -> & [Hc3 Ho3]).
  change (mem (k_con k2)) with (mem c2) in Ho3.
  assert (mem_ok mm (mem c2)) as Hok2.
  { split; [exists fresh_heap; exact Hh|exact Hb|exact Hp|exact Hpt|exact Hm]. }
  exists mm, c3. split; [reflexivity|]. split; [exact Hc3|].
  split; [|split].
  - eapply mem_ok_write; [exact Hok2|exact Ho3|]. intros a. region_lia.
  - eapply heap_inv_frame; [exact Hh|exact Ho3|]. intros a. region_lia.
  - eapply only_trans; [eapply only_mono; [exact Ho|by left]|].
    eapply only_trans; [exact Ho2|]. eapply only_mono; [exact Ho3|by left].
Qed.

Lemma step4_ok k :
  term_ok (k_con k) →
  ∃ s, prints (k <| k_fs := s |>) (step4_filesystem k) ∧ fs_inv s ∧
    ((∀ nm, dir_lookup s nm = None) ∧ root_dir s = zero_root ∧
     (∀ c, is_cluster c → fat_get (fat_table s) c = 0)) ∧
    current_directory s = current_directory (k_fs k).
Proof.
  intros Hk. unfold step4_filesystem.
  destruct (say_prints k k (line "Step 4: Initializing filesystem...") (prints_refl k Hk)) as (c & -> & Hc).
  change (k_fs (k <| k_con := c |>)) with (k_fs k). change (k_con (k <| k_con := c |>)) with c.
  destruct (fs_init_ok (k_fs k) c) as (s & c2 & -> & Hs & Hd & Hf & _ & Hcwd & Hr & Hc2).
  rewrite Z.eqb_refl. exists s. split; [|done]. apply say_prints. exists c2. split; [done|].
  eapply console_step_trans; [exact Hc|]. apply Hc2, Hc.
Qed.

Lemma step5_ok k :
  term_ok (k_con k) → prints (k <| k_procs := process_manager_init.2 |>) (step5_processes k).
Proof.
  intros Hk. unfold step5_processes.
  destruct (say_prints k k (line "Step 5: Initializing process manager...") (prints_refl k Hk)) as (c & -> & Hc).
  destruct init_ok as [H _]. destruct process_manager_init as [r s]. cbn [fst] in H. subst r.
  rewrite Z.eqb_refl. apply say_prints. by exists c.
Qed.

Lemma step6_ok k : term_ok (k_con k) → prints (syscall_init E k) (step6_syscalls E k).
Proof.
  intros Hk. unfold step6_syscalls. apply say_prints.
  destruct (say_prints k k (line "Step 6: Initializing system calls...") (prints_refl k Hk)) as (c & -> & Hc).
  by exists c.
Qed.

Lemma step7_ok k : term_ok (k_con k) → prints k (step7_shell k).
Proof. intros Hk. unfold step7_shell. auto with prints. Qed.

End steps.

(** ** Properties *)

(** What holds of the kernel that [kmain] hands to the shell. *)
Record booted (E : env) (m : ram) (k : kernel) : Prop := {
  bt_ok : kernel_ok E k;
  bt_heap : heap_inv (k_mm k) (ram_of k) fresh_heap;
  bt_dir : (∀ nm, dir_lookup (k_fs k) nm = None) ∧ root_dir (k_fs k) = zero_root ∧
    (∀ c, is_cluster c → fat_get (fat_table (k_fs k)) c = 0);
  bt_cwd : current_directory (k_fs k) = lit "/";
  bt_keys : kbd_queue (k_kbd k) = [];
  bt_procs : k_procs k = process_manager_init.2;
  bt_only : only m (λ a, framebuffer a ∨ managed a) (ram_of k);
}.

Lemma init_procs_ok (h : mm_state * ram) : procs_ok process_manager_init.2 h.
Proof.
  destruct (process_manager_init_establishes h) as (s & E & Hs & _ & _ & Hst & _).
  rewrite E. by exists [], [].
Qed.

Lemma kmain_booted E m : env_ok E → booted E m (kmain E (kernel_image m)).
Proof.
  intros HE. unfold kmain. set (k0 := kernel_image m).
  set (kp := say (line "Initializing Kernel...") _).
  assert (prints k0 kp) as (c0 & -> & [Hc0 Ho0]).
  { unfold kp. do 4 first [apply say_prints | apply color_prints].
    exists (vga_init (k_con k0)). split; [reflexivity|apply vga_init_ok]. }
  set (k1 := k0 <| k_con := c0 |>).
  destruct (step1_ok E k1 (eo_addr E HE) Hc0 eq_refl eq_refl)
    as (i & (c1 & -> & [Hc1 Ho1]) & Hi & Hg).
  match goal with |- context [step2_keyboard ?k] => destruct (step2_ok k Hc1) as (c2 & -> & [Hc2 Ho2]) end.
  match goal with |- context [step3_memory ?k] =>
    destruct (step3_ok k Hc2 eq_refl) as (mm & c3 & -> & Hc3 & Hm3 & Hh3 & Ho3) end.
  match goal with |- context [step4_filesystem ?k] =>
    destruct (step4_ok k Hc3) as (s & (c4 & -> & [Hc4 Ho4]) & Hs & Hd & Hcwd) end.
  match goal with |- context [step5_processes ?k] => destruct (step5_ok k Hc4) as (c5 & -> & [Hc5 Ho5]) end.
  match goal with |- context [step6_syscalls E ?k] => destruct (step6_ok E k Hc5) as (c6 & -> & [Hc6 Ho6]) end.
  match goal with |- context [step7_shell ?k] => set (k6 := k) in *;
    destruct (step7_ok k6 Hc6) as (c7 & -> & [Hc7 Ho7]) end.
  set (k7 := k6 <| k_con := c7 |>).
  destruct (clear_prints k7 _ (say_prints _ _ (line "Kernel initialized successfully!")
    (say_prints _ _ (line "Interrupts enabled.")
    (say_prints _ _ (line "Enabling interrupts...") (prints_refl k7 Hc7)))))
    as (c8 & -> & [Hc8 Ho8]).
  assert (only (mem c3) framebuffer (mem c8)) as Ho.
  { eapply only_trans; [exact Ho4|]. eapply only_trans; [exact Ho5|]. eapply only_trans; [exact Ho6|].
    eapply only_trans; [exact Ho7|]. exact Ho8. }
  assert (only m boot_cells (mem c3)) as Hom.
  { eapply only_trans; [eapply only_mono; [exact Ho0|by left]|].
    eapply only_trans; [eapply only_mono; [exact Ho1|by left]|].
    eapply only_trans; [eapply only_mono; [exact Ho2|by left]|]. exact Ho3. }
  assert (mem_ok mm (mem c8)) as Hm8 by (eapply mem_ok_write; [exact Hm3|exact Ho|intros a; region_lia]).
  assert (heap_inv mm (mem c8) fresh_heap) as Hh8.
  { eapply heap_inv_frame; [exact Hh3|exact Ho|intros a; region_lia]. }
  clear Hc0 Hc1 Hc2 Hc3 Hc4 Hc5 Hc6 Hc7 Ho0 Ho1 Ho2 Ho3 Ho4 Ho5 Ho6 Ho7 Ho8 Hm3 Hh3.
  split; [split|exact Hh8|exact Hd|exact Hcwd|apply keyboard_init_ok|reflexivity|].
  - exact Hc8.
  - exact Hm8.
  - apply keyboard_init_ok.
  - split; [exact Hs|]. change (current_directory _) with (current_directory s). rewrite Hcwd.
    split; [repeat constructor; done|]. split; [done|].
    unfold sizes_zero. change (root_dir _) with (root_dir s). rewrite (proj1 (proj2 Hd)).
    by apply Forall_replicate.
  - exact (init_procs_ok (mm, mem c8)).
  - intros v Hv.
    change (k_idt _) with (idt_set_entry i SYSCALL_INT_NUM (handler_addr E syscall_handler) 0x08 user_trap).
    rewrite (trap_gate_set i _ v Hi (eo_addr E HE _) Hv).
    unfold kernel_gates. destruct (v =? 0x80); [reflexivity|]. by apply Hg.
  - vm_compute. reflexivity.
  - vm_compute. reflexivity.
  - eapply only_trans; eapply only_mono; [exact Hom| |exact Ho|by left].
    unfold boot_cells, managed, heap_cells. tauto.
Qed.

(** Linked below 1 MB, with the stack at 0x90000. *)
Definition demo_env : env :=
  MkEnv (λ _, 0x10000) 0x11000 0x20000 0x8F000 [] (λ _ _, 65) (λ _, []) [] 4096.
Lemma demo_env_ok : env_ok demo_env.
Proof. split; [done|done|]. intros a. unfold file_addr, demo_env. region_lia. Qed.

Definition demo_kernel : kernel := kmain demo_env (kernel_image ∅).
Lemma demo_kernel_booted : booted demo_env ∅ demo_kernel.
Proof. apply kmain_booted, demo_env_ok. Qed.
Lemma demo_kernel_ok : kernel_ok demo_env demo_kernel.
Proof. apply demo_kernel_booted. Qed.
#[global] Opaque demo_kernel.

(** C5: booting: started on any memory contents with its static variables as linked,
    [kmain] brings every part of the kernel up (the whole invariant [kernel_ok] holds),
    with the heap one free block, an empty directory, the root as current directory,
    no typed characters waiting and the idle process, pid 0, alone and running; and it
    has written to nothing but the screen and the memory it manages, so not to its own
    image, its stack or the caller's data. *)
Theorem kmain_boots E m :
  env_ok E →
  let k := kmain E (kernel_image m) in
  kernel_ok E k ∧ heap_inv (k_mm k) (ram_of k) fresh_heap ∧
  (∀ nm, dir_lookup (k_fs k) nm = None) ∧ current_directory (k_fs k) = lit "/" ∧
  kbd_queue (k_kbd k) = [] ∧
  running_process (k_procs k) = Some 0%nat ∧ p_pid (pcb_at (k_procs k) 0) = 0 ∧
  length (process_get_list (k_procs k) MAX_PROCESSES) = 1%nat ∧
  only m (λ a, framebuffer a ∨ managed a) (ram_of k).
Proof.
  intros HE k. destruct (kmain_booted E m HE) as [H1 H2 H3 H4 H5 H6 H7]. fold k in H1, H2, H3, H4, H5, H6, H7.
  split; [exact H1|]. split; [exact H2|]. split; [apply H3|]. split; [exact H4|]. split; [exact H5|].
  rewrite H6. split; [done|]. split; [done|]. split; [done|exact H7].
Qed.

Lemma kmain_boots_witness : kernel_ok demo_env (kmain demo_env (kernel_image ∅)).
Proof. exact (proj1 (kmain_boots demo_env ∅ demo_env_ok)). Defined.
