(* ===== verification/SyscallCorrect.v ===== *)
(** * Correctness of the system calls

    Dispatch against the numbers of kernel/syscall.h; the invariant of the whole kernel
    across every call whose pointers are the caller's own; and what the calls that
    move data do. *)

From S2P Require Import Prelude Ram CString Vga Memory Heap HeapCorrect Alloc PhysPages Paging.
From S2P Require Import PagingCorrect Keyboard Interrupt Fat FsNames Fs FsCorrect FsPreserve FsTotal Process ProcessCorrect.
From S2P Require Import ProcessSteps SysTable Layout Kernel KernelInv Syscall Shell Boot.
Set Default Goal Selector "!".

(** ** Strings from the caller *)

Lemma strlen_cstr fuel m p len :
  strlen fuel m p = Some len → is_u32 len ∧ cstr m p (rd_bytes m p (Z.to_nat len)).
Proof.
  unfold strlen. set (step := λ len : Z, _).
  assert (∀ n k, is_u32 k → (∀ j, 0 <= j < k → rd8 m (p + j) ≠ 0) → loop n step k = Some len →
    is_u32 len ∧ (∀ j, 0 <= j < len → rd8 m (p + j) ≠ 0) ∧ rd8 m (p + len) = 0) as Hgen.
  { induction n as [|n IH]; intros k Hk Hnz; [done|]. cbn [loop]. unfold step at 1.
    destruct (Z.eqb_spec (rd8 m (p + k)) 0) as [E|E]; [intros [= <-]; done|].
    apply IH; [apply u32_range|]. intros j Hj.
    destruct (Z.eq_dec j k) as [->|]; [done|]. apply Hnz. word_lia. }
  intros Hl. destruct (Hgen fuel 0 ltac:(done) ltac:(lia) Hl) as (Hr & Hnz & Hz).
  split; [done|]. clear Hl Hgen. unfold is_u32 in Hr.
  replace len with (Z.of_nat (Z.to_nat len)) in Hnz, Hz by lia.
  revert Hnz Hz. generalize (Z.to_nat len) as n. clear. intros n. revert p.
  induction n as [|n IH]; intros p Hnz Hz; cbn [rd_bytes cstr].
  - by rewrite Z.add_0_r in Hz.
  - split; [done|]. split; [rewrite <- (Z.add_0_r p); apply Hnz; lia|]. apply IH.
    + intros j Hj. replace (p + 1 + j) with (p + (j + 1)) by lia. apply Hnz. lia.
    + by replace (p + 1 + Z.of_nat n) with (p + Z.of_nat (S n)) by lia.
Qed.

(** The path is the string in memory, and fits a buffer of 256 bytes. *)
Lemma user_path_Some E m p s :
  user_path E m p = Some (Some s) → cstr m p s ∧ str_ok s ∧ Str.strlen s < FS_MAX_PATH.
Proof.
  unfold user_path. destruct (p =? 0); [done|].
  destruct (strlen _ _ _) as [len|] eqn:El; [|done]. cbn [mbind option_bind].
  destruct (Z.leb_spec FS_MAX_PATH len); [done|]. intros [= <-].
  apply strlen_cstr in El as [Hr Hc]. split; [done|]. split; [by eapply cstr_nonzero|].
  unfold Str.strlen. rewrite length_rd_bytes. unfold is_u32 in Hr. lia.
Qed.

(** A string that fits is copied, one that does not is refused. *)
Lemma user_path_ok E m p s :
  p ≠ 0 → cstr m p s → (length s < user_fuel E)%nat → is_u32 (Str.strlen s) →
  user_path E m p = Some (if FS_MAX_PATH <=? Str.strlen s then None else Some s).
Proof.
  intros Hp Hs Hf Hr. unfold user_path. rewrite (proj2 (Z.eqb_neq _ _) Hp).
  rewrite (strlen_ok m p s) by done. cbn [mbind option_bind].
  destruct (_ <=? _); [done|]. do 2 f_equal.
  unfold Str.strlen. rewrite Nat2Z.id. clear -Hs. revert p Hs.
  induction s as [|c s IH]; intros p; cbn [cstr rd_bytes length]; [done|].
  intros (<- & _ & Hs). f_equal. by apply IH.
Qed.

(** A path argument that can be read: NULL, or the address of a string that ends. *)
Definition readable (E : env) (m : ram) (p : Z) : Prop :=
  p = 0 ∨ ∃ s, cstr m p s ∧ (length s < user_fuel E)%nat ∧ is_u32 (Str.strlen s).

Lemma user_path_returns E m p : readable E m p → ∃ r, user_path E m p = Some r.
Proof.
  intros [->|(s & Hs & Hf & Hr)]; [by eexists|].
  destruct (decide (p = 0)) as [->|Hp]; [by eexists|]. rewrite (user_path_ok E m p s) by done. by eexists.
Qed.

(** ** Dispatch *)

Lemma boot_table_find t n :
  syscall_table t = syscall_table boot_table → 0 <= n → syscall_find t n ≫= e_handler = handler_of n.
Proof.
  intros Ht Hn. rewrite syscall_find_handler.
  assert (table_entry t n = table_entry boot_table n) as -> by (unfold table_entry; by rewrite Ht).
  rewrite <- syscall_find_handler. exact (init_table_handler _ n Hn).
Qed.

Lemma execute_handler E k a :
  syscall_table (k_sys k) = syscall_table boot_table → 0 <= a_num a →
  syscall_execute E k a =
    match handler_of (a_num a) with
    | Some f => call_handler E (k <| k_sys := k_sys k <| current_syscall_args := a |> |>) f a
    | None => Some (SYSCALL_INVALID, k)
    end.
Proof.
  intros Ht Ha. rewrite <- (boot_table_find (k_sys k) _ Ht Ha). clear Ht. unfold syscall_execute.
  pose proof (syscall_find_handler (k_sys k) (a_num a)) as H.
  unfold syscall_find in *. destruct (MAX_SYSCALLS <=? _); [done|].
  case_bool_decide as E1; [done|]. cbn [mbind option_bind] in *.
  by destruct (e_handler _).
Qed.

(** ** Calls whose pointers are the caller's own *)

Definition safe_span (p n : Z) : Prop := ∀ a, span p n a → ¬ managed a.

(** The conditions under which a call cannot damage the kernel: buffers and
    handles outside the managed memory, [free] of a block that is allocated and is no
    process's stack, [kill] of a process that has not terminated, [fork] with no
    slot still linked in the terminated queue. *)
Definition harmless (k : kernel) (a : syscall_args) : Prop :=
  match handler_of (a_num a) with
  | Some fn_kill => killable k (a_arg1 a)
  | Some fn_fork => ∀ i, running_process (k_procs k) = Some i →
      eip (p_context (pool_at (pool (k_procs k)) i)) = 0 ∨
      terminated_queue (k_procs k) = None ∧ next_pid (k_procs k) < 2147483647
  | Some fn_close | Some fn_seek => safe_span (a_arg1 a) sizeof_fs_file
  | Some fn_read => safe_span (a_arg1 a) sizeof_fs_file ∧ safe_span (a_arg2 a) KERNEL_BUF_SIZE
  | Some fn_write => safe_span (a_arg1 a) sizeof_fs_file
  | Some fn_getcwd => safe_span (a_arg1 a) (a_arg2 a)
  | Some fn_listdir => safe_span (a_arg2 a) (sizeof_dirent_info * a_arg3 a) ∧ safe_span (a_arg4 a) 4
  | Some fn_malloc => a_arg1 a <= 0xFFFFFFFC
  | Some fn_free => a_arg1 a ≠ 0 → freeable k (a_arg1 a)
  | Some fn_ps => safe_span (a_arg1 a) (sizeof_pcb * a_arg2 a) ∧ safe_span (a_arg3 a) 4
  | Some fn_getinfo => safe_span (a_arg1 a) sizeof_pcb
  | _ => True
  end.

Lemma safe_span_mono p n q l : safe_span p n → p <= q → q + l <= p + n → safe_span q l.
Proof. unfold safe_span, span. intros H ?? a ?. apply H. lia. Qed.

(** ** Layout lemmas *)

Lemma store_file_only m p f :
  only m (span p (15 + Z.of_nat (length (f_name f)))) (store_file m p f).
Proof.
  unfold store_file, set_file_offset, set_file_size, set_file_valid.
  repeat (eapply only_trans; [|eapply only_mono; [first [apply only_wr_bytes|apply only_wr8|apply only_wr32]|]]);
    [apply only_refl|..]; rewrite ?length_app; unfold span; simpl; lia.
Qed.

Lemma store_array_only m p size l :
  Forall (λ b, Z.of_nat (length b) = size) l →
  only m (span p (size * Z.of_nat (length l))) (store_array m p size l).
Proof.
  intros Hl. revert m p. induction Hl as [|b l Hb Hl IH]; intros m p; cbn [store_array]; [apply only_refl|].
  assert (0 <= size) by lia.
  eapply only_trans; eapply only_mono; [apply only_wr_bytes| |apply IH|]; unfold span; simpl length; nia.
Qed.

Lemma length_le32 v : length (le32 v) = 4%nat.
Proof. done. Qed.

Lemma length_encode_info junk i : Z.of_nat (length (encode_info junk i)) = sizeof_dirent_info.
Proof.
  unfold encode_info. rewrite !length_app, !length_take, !length_app, !length_replicate, !length_le32.
  simpl length. unfold sizeof_dirent_info. lia.
Qed.

Lemma length_words l : length (mjoin (le32 <$> l)) = (4 * length l)%nat.
Proof.
  induction l as [|v l IH]; [done|]. rewrite fmap_cons.
  change (length (le32 v ++ mjoin (le32 <$> l)) = (4 * S (length l))%nat).
  rewrite length_app, IH, length_le32. lia.
Qed.

Lemma length_encode_pcb pool_addr b : Z.of_nat (length (encode_pcb pool_addr b)) = sizeof_pcb.
Proof.
  unfold encode_pcb, encode_context.
  rewrite !length_app, length_words, !length_take, !length_app, !length_replicate, !length_le32.
  unfold sizeof_pcb. lia.
Qed.

(** Reading through any handle, well formed or not: the call returns, and at most
    [size] bytes are transferred. *)
Lemma read_step_bound junk s buffer n r :
  0 <= rs_read r <= n →
  match read_step junk s buffer n r with
  | inl r' => 0 <= rs_read r' <= n ∧ 0 <= n - rs_read r' < n - rs_read r
  | inr (res, _) => res = FS_ERROR_IO_ERROR ∨ 0 <= res <= n
  end.
Proof.
  intros Hr. unfold read_step. destruct (Z.ltb_spec (rs_read r) n); [|by right].
  unfold fs_read_sector. change (FS_SUCCESS =? FS_SUCCESS) with true. cbn [negb].
  set (left := FS_SECTOR_SIZE - _). set (chunk := if n - rs_read r <? left then _ else _).
  assert (0 < chunk <= n - rs_read r) as Hc.
  { assert (0 < left) by (unfold left, FS_SECTOR_SIZE; word_lia).
    unfold chunk. destruct (Z.ltb_spec (n - rs_read r) left); lia. }
  clearbody chunk. clear left.
  destruct (_ mod FS_SECTOR_SIZE =? 0); [|cbn; lia]. destruct (_ mod 2 =? 0); [|cbn; lia].
  destruct (read_fat s _); [|by left]. destruct (_ <=? _); [right; lia|cbn; lia].
Qed.

Lemma fs_read_bound junk s m f buffer size :
  is_u32 (f_offset f) → is_u32 (f_size f) → 0 <= size < 2147483648 →
  ∃ r f' m', fs_read junk s m (Some f) buffer size = Some (r, (Some f', m')) ∧
    r <= size ∧ f' = f <| f_offset := f_offset f' |>.
Proof.
  intros Ho Hz Hsz. unfold fs_read.
  destruct (_ || _).
  { exists FS_ERROR_IO_ERROR, f, m. split; [done|]. split; [unfold FS_ERROR_IO_ERROR; lia|by destruct f]. }
  destruct (Z.leb_spec (f_size f) (f_offset f)).
  { exists 0, f, m. split; [done|]. split; [lia|by destruct f]. }
  set (n := if _ <? _ then _ else size).
  assert (0 <= n <= size) as Hn.
  { unfold n. destruct (Z.ltb_spec (f_size f) (f_offset f +w size)); word_lia. }
  clearbody n. set (r0 := MkRead _ _ _ _ _ _).
  destruct (loop_total (read_step junk s buffer n) (λ r, 0 <= rs_read r <= n)
    (λ res, res.1 = FS_ERROR_IO_ERROR ∨ 0 <= res.1 <= n) (λ r, n - rs_read r)) with
    (fuel := S (Z.to_nat n)) (s := r0) as ([r [off m']] & -> & Hres).
  { intros r Hr. pose proof (read_step_bound junk s buffer n r Hr) as Hst.
    destruct (read_step _ _ _ _ r) as [r'|[? ?]]; [done|exact Hst]. }
  { unfold r0. cbn. lia. }
  { unfold r0. cbn. lia. }
  { unfold r0. cbn. lia. }
  cbn [mbind option_bind]. eexists _, _, _. split; [reflexivity|]. split; [|done].
  cbn [fst] in Hres. destruct Hres as [->|Hr]; [change (s32 FS_ERROR_IO_ERROR) with (-7); lia|].
  rewrite s32_small by lia. lia.
Qed.

Lemma clamp_range count : 0 <= count → 0 <= clamp count <= 1024 ∧ clamp count <= count.
Proof. intros. unfold clamp, KERNEL_BUF_SIZE. destruct (Z.ltb_spec 1024 count); lia. Qed.

Lemma load_file_words m p : is_u32 (f_offset (load_file m p)) ∧ is_u32 (f_size (load_file m p)).
Proof. split; apply rd32_range. Qed.

(** ** Every handler keeps the invariant *)

Section handlers.
Context (E : env) (HE : env_ok E) (k : kernel) (Hk : kernel_ok E k).

Lemma safe_write m p n :
  only (ram_of k) (span p n) m → safe_span p n → kernel_ok E (set_ram k m).
Proof. intros Ho Hs. by eapply kernel_ok_ram. Qed.

Lemma sys_exit_ok c : ∃ r k', sys_exit k c = Some (r, k') ∧ kernel_ok E k'.
Proof.
  unfold sys_exit, process_get_current. destruct (running_process (k_procs k)) as [p|] eqn:Ep.
  2:{ eexists _, _. split; [reflexivity|exact Hk]. }
  set (s := set_pcb _ _ _).
  assert (procs_ok s (heap_of k)) as Hs by (apply set_pcb_step; [done|apply Hk]).
  destruct (process_terminate_step s (heap_of k) (p_pid (pcb_at s p)) (kernel_heap_ok E k Hk) Hs)
    as (r & s' & h' & -> & Hst).
  { destruct Hs as (ready & term & Hs & _). intros i Hi.
    assert (running_process s = Some p) as Er by exact Ep.
    assert (p ∈ live s ready) as Hl by (unfold live; rewrite Er; by left).
    change (pcb_at s p) with (pool_at (pool s) p) in Hi.
    rewrite (find_live s ready term p Hs Hl) in Hi. injection Hi as <-.
    apply (pi_used _ _ _ Hs); [|done]. by apply (pi_running _ _ _ Hs). }
  cbn [mbind option_bind]. eexists _, _. split; [reflexivity|]. by apply kernel_ok_procs.
Qed.

Lemma sys_fork_ok :
  (∀ i, running_process (k_procs k) = Some i →
     eip (p_context (pool_at (pool (k_procs k)) i)) = 0 ∨
     terminated_queue (k_procs k) = None ∧ next_pid (k_procs k) < 2147483647) →
  ∃ r k', sys_fork E k = Some (r, k') ∧ kernel_ok E k'.
Proof.
  intros Hc. unfold sys_fork, process_get_current.
  destruct (running_process (k_procs k)) as [p|]; [|by eexists _, _].
  specialize (Hc p eq_refl). change (pcb_at (k_procs k) p) with (pool_at (pool (k_procs k)) p).
  destruct (process_create_step (process_terminate_addr E) (k_procs k) (heap_of k) (lit "forked_process")
    (eip (p_context (pool_at (pool (k_procs k)) p))) (p_priority (pool_at (pool (k_procs k)) p))
    (kernel_heap_ok E k Hk) (ko_procs E k Hk) Hc) as (r & s' & h' & -> & Hst).
  cbn [mbind option_bind]. pose proof (kernel_ok_procs E k Hk s' h' Hst) as Hok.
  destruct (r <? 0); by eexists _, _.
Qed.

Lemma sys_kill_ok pid : killable k pid → ∃ r k', sys_kill k pid = Some (r, k') ∧ kernel_ok E k'.
Proof.
  intros Hc. unfold sys_kill. destruct (kernel_kill E k Hk pid Hc) as (r & s' & h' & -> & Hok).
  cbn [mbind option_bind]. destruct (negb _); by eexists _, _.
Qed.

Lemma sys_yield_ok : ∃ r k', sys_yield k = Some (r, k') ∧ kernel_ok E k'.
Proof.
  unfold sys_yield. destruct (process_yield_step (k_procs k) (heap_of k) (ko_procs E k Hk)) as (s' & -> & Hs).
  cbn [mbind option_bind]. eexists _, _. split; [reflexivity|]. by apply kernel_ok_set_procs.
Qed.

Lemma sys_setpriority_ok pid priority :
  ∃ r k', sys_setpriority k pid priority = Some (r, k') ∧ kernel_ok E k'.
Proof.
  unfold sys_setpriority. destruct (_ || _); [by eexists _, _|].
  destruct (kernel_set_priority E k Hk pid priority) as (r & s' & -> & Hok).
  cbn [mbind option_bind]. destruct (negb _); by eexists _, _.
Qed.

Lemma sys_malloc_ok size :
  0 <= size <= 0xFFFFFFFC → ∃ r k', sys_malloc k size = Some (r, k') ∧ kernel_ok E k'.
Proof.
  intros Hsz. unfold sys_malloc. destruct (size =? 0); [by eexists _, _|].
  destruct (kernel_malloc E k Hk size Hsz) as (p & h & -> & Hok). cbn [mbind option_bind].
  destruct (p =? 0); by eexists _, _.
Qed.

Lemma sys_free_ok ptr :
  (ptr ≠ 0 → freeable k ptr) → ∃ r k', sys_free k ptr = Some (r, k') ∧ kernel_ok E k'.
Proof.
  intros Hc. unfold sys_free. destruct (Z.eqb_spec ptr 0) as [|Hne]; [by eexists _, _|].
  destruct (kernel_free E k Hk ptr (Hc Hne)) as (h' & -> & Hok). by eexists _, _.
Qed.

Lemma sys_close_ok fd :
  safe_span fd sizeof_fs_file → ∃ r k', sys_close k fd = Some (r, k') ∧ kernel_ok E k'.
Proof.
  intros Hs. unfold sys_close. destruct (handle _ _) as [f|]; [|by eexists _, _].
  destruct (fs_close _) as [r f']. destruct (negb _); [by eexists _, _|].
  eexists _, _. split; [reflexivity|]. eapply safe_write; [apply only_wr8|].
  eapply safe_span_mono; [exact Hs|unfold sizeof_fs_file; lia..].
Qed.

Lemma set_offset_ok fd v :
  safe_span fd sizeof_fs_file → kernel_ok E (set_ram k (set_file_offset (ram_of k) fd v)).
Proof.
  intros Hs. eapply safe_write; [apply only_wr32|].
  eapply safe_span_mono; [exact Hs|unfold sizeof_fs_file; lia..].
Qed.

Lemma sys_seek_ok fd offset whence :
  safe_span fd sizeof_fs_file → ∃ r k', sys_seek k fd offset whence = Some (r, k') ∧ kernel_ok E k'.
Proof.
  intros Hs. unfold sys_seek. destruct (handle _ _) as [f|]; [|by eexists _, _].
  destruct (fs_seek _ _ _) as [r f']. pose proof (set_offset_ok fd (f_offset (default f f')) Hs).
  destruct (r <? 0); by eexists _, _.
Qed.

Lemma sys_tell_ok fd : ∃ r k', sys_tell k fd = Some (r, k') ∧ kernel_ok E k'.
Proof. unfold sys_tell. destruct (handle _ _); [destruct (_ <? 0)|]; by eexists _, _. Qed.

Lemma sys_getcwd_ok buf size :
  safe_span buf size → ∃ r k', sys_getcwd k buf size = Some (r, k') ∧ kernel_ok E k'.
Proof.
  intros Hs. unfold sys_getcwd. destruct (_ || _); [by eexists _, _|].
  destruct (fs_get_cwd _ _) as [d|]; [|by eexists _, _].
  destruct (Z.leb_spec size (Str.strlen d)); [by eexists _, _|].
  eexists _, _. split; [reflexivity|]. eapply safe_write; [apply only_wr_bytes|].
  eapply safe_span_mono; [exact Hs|lia|]. rewrite length_app. unfold Str.strlen in *. simpl. lia.
Qed.

Lemma sys_getinfo_ok p :
  safe_span p sizeof_pcb → ∃ r k', sys_getinfo E k p = Some (r, k') ∧ kernel_ok E k'.
Proof.
  intros Hs. unfold sys_getinfo. destruct (p =? 0); [by eexists _, _|].
  destruct (process_get_current _) as [i|]; [|by eexists _, _].
  eexists _, _. split; [reflexivity|]. eapply safe_write; [apply only_wr_bytes|].
  by rewrite length_encode_pcb.
Qed.

Lemma sys_read_ok fd buf count r k' :
  0 <= count → safe_span fd sizeof_fs_file → safe_span buf KERNEL_BUF_SIZE →
  sys_read E k fd buf count = Some (r, k') → kernel_ok E k'.
Proof.
  intros Hc Hf Hb. unfold sys_read. destruct (Z.eqb_spec fd 0); [by intros [= _ <-]|].
  destruct (buf =? 0); [by intros [= _ <-]|]. cbn [orb]. unfold handle.
  rewrite (proj2 (Z.eqb_neq fd 0)) by done. destruct (clamp_range count Hc) as [Hcl _].
  destruct (load_file_words (ram_of k) fd) as [Ho Hz].
  destruct (fs_read_bound (sector_junk E) (k_fs k) ∅ (load_file (ram_of k) fd) 0 (clamp count) Ho Hz)
    as (r0 & f' & m' & -> & Hr & _); [lia|]. cbn [mbind option_bind default].
  pose proof (set_offset_ok fd (f_offset (id f')) Hf) as Hk1.
  destruct (Z.ltb_spec r0 0); [by intros [= _ <-]|]. intros [= _ <-].
  eapply kernel_ok_ram; [exact Hk1|apply only_wr_bytes|]. rewrite length_rd_bytes.
  eapply safe_span_mono; [exact Hb|lia|unfold KERNEL_BUF_SIZE; lia].
Qed.

Lemma sys_write_ok fd buf count r k' :
  safe_span fd sizeof_fs_file → sys_write E k fd buf count = Some (r, k') → kernel_ok E k'.
Proof.
  intros Hf. unfold sys_write. destruct (Z.eqb_spec fd 0); [by intros [= _ <-]|].
  destruct (buf =? 0); [by intros [= _ <-]|]. cbn [orb]. unfold handle.
  rewrite (proj2 (Z.eqb_neq fd 0)) by done.
  destruct (fs_write _ _ _ _ _ _) as [[r0 [f' s']]|] eqn:Ew; [|done]. cbn [mbind option_bind].
  pose proof (fs_write_step _ _ _ _ _ _ _ _ _ (proj1 (ko_fs E k Hk)) Ew) as Hs.
  set (f := default _ f'). clearbody f. set (m := set_file_size _ _ _).
  assert (kernel_ok E (set_ram k m)) as Hk1.
  { eapply safe_write; [|eapply safe_span_mono; [exact Hf|apply Z.le_refl|apply Z.le_refl]].
    unfold m, set_file_size, set_file_offset.
    eapply only_trans; eapply only_mono; [apply only_wr32| |apply only_wr32|];
      unfold span, sizeof_fs_file; lia. }
  assert (kernel_ok E (set_ram k m <| k_fs := s' |>)) as Hk2.
  { apply kernel_ok_fs; [exact Hk1|]. exact (fs_step_ok _ _ (ko_fs E k Hk) Hs). }
  destruct (r0 <? 0); by intros [= _ <-].
Qed.

Lemma sys_open_ok path flags r k' :
  sys_open E k path flags = Some (r, k') → kernel_ok E k'.
Proof.
  unfold sys_open. destruct (user_path E _ path) as [[p|]|] eqn:Ep; [|by intros [= _ <-]|done].
  apply user_path_Some in Ep as (_ & Hp & Hlen). cbn [mbind option_bind].
  destruct (fs_open _ _ _ _ _ _) as [[r0 [f' [s' con']]]|] eqn:Eo; [|done]. cbn [mbind option_bind].
  destruct (fs_open_step _ _ _ _ _ _ _ _ _ _ (proj1 (ko_fs E k Hk)) (ko_con E k Hk) Hp Eo)
    as (Hs & Hcon & g & -> & Hg).
  assert (kernel_ok E (k <| k_con := con' |> <| k_fs := s' |>)) as Hk1.
  { apply kernel_ok_fs; [by apply kernel_ok_con|]. exact (fs_step_ok _ _ (ko_fs E k Hk) Hs). }
  destruct (Z.eqb_spec r0 FS_SUCCESS) as [->|]; cbn [negb]; [|by intros [= _ <-]].
  intros [= _ <-]. eapply kernel_ok_ram; [exact Hk1|apply store_file_only|].
  rewrite (proj1 (Hg eq_refl)). intros a Ha. apply (eo_stack E HE). unfold span, Str.strlen, FS_MAX_PATH in *. lia.
Qed.

(** The calls with one path. *)
Lemma path_call_ok path_ptr op r k' :
  (∀ p r0 s con, str_ok p → Str.strlen p < FS_MAX_PATH → op p = Some (r0, (s, con)) →
     fs_ok s ∧ console_step (k_con k) con) →
  path_call E k path_ptr op = Some (r, k') → kernel_ok E k'.
Proof.
  intros Hop. unfold path_call. destruct (user_path E _ path_ptr) as [[p|]|] eqn:Ep; [|by intros [= _ <-]|done].
  apply user_path_Some in Ep as (_ & Hp & Hlen). cbn [mbind option_bind].
  destruct (op p) as [[r0 [s con]]|] eqn:Eo; [|done]. cbn [mbind option_bind].
  destruct (Hop p r0 s con Hp Hlen Eo) as [Hs Hcon].
  assert (kernel_ok E (k <| k_con := con |> <| k_fs := s |>)) as Hk1.
  { apply kernel_ok_fs; [by apply kernel_ok_con|done]. }
  destruct (negb _); by intros [= _ <-].
Qed.

(** An operation of the file system that does not print. *)
Lemma quiet_ok r r0 s con :
  (∀ r1 s1, r = Some (r1, s1) → fs_step (k_fs k) s1) →
  quiet (k_con k) r = Some (r0, (s, con)) → fs_ok s ∧ console_step (k_con k) con.
Proof.
  intros Hr. unfold quiet. destruct r as [[r1 s1]|]; [|done]. cbn [mbind option_bind].
  intros [= <- <- <-]. split; [|apply console_step_refl; apply Hk].
  exact (fs_step_ok _ _ (ko_fs E k Hk) (Hr _ _ eq_refl)).
Qed.

Lemma sys_create_ok p r k' : sys_create E k p = Some (r, k') → kernel_ok E k'.
Proof.
  apply path_call_ok. intros path r0 s con Hp _ Ec.
  destruct (fs_create_step _ _ _ _ _ _ _ (proj1 (ko_fs E k Hk)) (ko_con E k Hk) Hp Ec) as [Hs Hc].
  split; [exact (fs_step_ok _ _ (ko_fs E k Hk) Hs)|done].
Qed.
Lemma sys_delete_ok p r k' : sys_delete E k p = Some (r, k') → kernel_ok E k'.
Proof.
  apply path_call_ok. intros path r0 s con Hp _. apply quiet_ok. intros r1 s1 H.
  eapply fs_delete_step; [apply Hk|exact Hp|exact H].
Qed.
Lemma sys_mkdir_ok p r k' : sys_mkdir E k p = Some (r, k') → kernel_ok E k'.
Proof.
  apply path_call_ok. intros path r0 s con Hp _. apply quiet_ok. intros r1 s1 H.
  eapply fs_mkdir_step; [apply Hk|exact Hp|exact H].
Qed.
Lemma sys_rmdir_ok p r k' : sys_rmdir E k p = Some (r, k') → kernel_ok E k'.
Proof.
  apply path_call_ok. intros path r0 s con Hp _. apply quiet_ok. intros r1 s1 H.
  eapply fs_rmdir_step; [apply Hk|exact Hp|exact H].
Qed.
Lemma sys_rename_ok p q r k' : sys_rename E k p q = Some (r, k') → kernel_ok E k'.
Proof.
  unfold sys_rename. destruct (_ || _); [by intros [= _ <-]|].
  destruct (user_path E _ p) as [[path|]|]; [|by intros [= _ <-]|done]. cbn [mbind option_bind].
  apply path_call_ok. intros path' r0 s con Hp _. apply quiet_ok. intros r1 s1 [= H].
  eapply fs_rename_step; [apply Hk|exact Hp|exact H].
Qed.
Lemma sys_chdir_ok p r k' : sys_chdir E k p = Some (r, k') → kernel_ok E k'.
Proof.
  apply path_call_ok. intros path r0 s con Hp Hl. unfold quiet.
  destruct (fs_chdir (k_fs k) (Some path)) as [r1 s1] eqn:Ec. cbn [mbind option_bind].
  intros [= <- <- <-]. split; [|apply console_step_refl; apply Hk].
  exact (fs_chdir_ok _ _ _ _ (ko_fs E k Hk) Hp Hl Ec).
Qed.

(** The calls that fill an array of the caller: [n] structures at most, and the count. *)
Lemma array_write_ok p size max l cp n :
  Forall (λ b, Z.of_nat (length b) = size) l → 0 <= size → Z.of_nat (length l) <= max →
  safe_span p (size * max) → safe_span cp 4 →
  kernel_ok E (set_ram k (wr32 (store_array (ram_of k) p size l) cp n)).
Proof.
  intros Hl Hsz Hmax Hp Hcp.
  assert (kernel_ok E (set_ram k (store_array (ram_of k) p size l))) as Hk1.
  { eapply safe_write; [by apply store_array_only|]. eapply safe_span_mono; [exact Hp|lia|nia]. }
  exact (kernel_ok_ram E _ Hk1 _ _ (only_wr32 _ _ _) Hcp).
Qed.

Lemma sys_ps_ok p max cp r k' :
  0 <= max → safe_span p (sizeof_pcb * max) → safe_span cp 4 →
  sys_ps E k p max cp = Some (r, k') → kernel_ok E k'.
Proof.
  intros Hmax Hp Hcp. unfold sys_ps. destruct (_ || _); [by intros [= _ <-]|].
  intros [= _ <-]. apply array_write_ok with (max := max); [|done| |done|done].
  - apply Forall_take, Forall_fmap, Forall_forall. intros b _. apply length_encode_pcb.
  - rewrite length_take, length_fmap. destruct (Z.ltb_spec max (Z.of_nat (length (process_get_list (k_procs k) MAX_PROCESSES)))); lia.
Qed.

Lemma sys_listdir_ok path p max cp r k' :
  0 <= max → safe_span p (sizeof_dirent_info * max) → safe_span cp 4 →
  sys_listdir E k path p max cp = Some (r, k') → kernel_ok E k'.
Proof.
  intros Hmax Hp Hcp. unfold sys_listdir. destruct (_ || _ || _); [by intros [= _ <-]|].
  destruct (user_path E _ path) as [[s|]|]; [|by intros [= _ <-]|done]. cbn [mbind option_bind].
  destruct (fs_listdir _ _ _ _) as [l|]; [|by intros [= _ <-]].
  intros [= _ <-]. apply array_write_ok with (max := max); [|done| |done|done].
  - apply Forall_take, Forall_forall. intros b (i & e & -> & _)%elem_of_lookup_imap.
    apply length_encode_info.
  - rewrite length_take, length_imap. destruct (Z.ltb_spec max (Z.of_nat (length l))); lia.
Qed.
End handlers.

(** ** Handles in memory *)

Lemma c_string_ok l : str_ok l → c_string l = l.
Proof.
  induction 1 as [|c l Hc _ IH]; [done|]. cbn [c_string].
  rewrite (proj2 (Z.eqb_neq c 0)) by lia. by rewrite IH.
Qed.

Lemma c_string_app_zero l l' : str_ok l → c_string (l ++ 0 :: l') = l.
Proof.
  induction 1 as [|c l Hc _ IH]; [done|]. cbn [c_string app].
  rewrite (proj2 (Z.eqb_neq c 0)) by lia. by rewrite IH.
Qed.

Lemma rd_bytes_app m p n n' : rd_bytes m p (n + n') = rd_bytes m p n ++ rd_bytes m (p + Z.of_nat n) n'.
Proof.
  revert p. induction n as [|n IH]; intros p; cbn [Nat.add rd_bytes app]; [by rewrite Z.add_0_r|].
  rewrite IH. do 3 f_equal. lia.
Qed.

Lemma rd_bytes_cstr m p s n :
  cstr m p s → c_string (rd_bytes m p n) = take n s.
Proof.
  intros Hs. revert p n Hs. induction s as [|c s IH]; intros p [|n]; cbn [cstr rd_bytes c_string take];
    [done|by intros ->|done|]. intros (<- & Hc & Hs).
  rewrite (proj2 (Z.eqb_neq _ 0)) by done. by rewrite (IH _ n Hs).
Qed.

(** What the handle holds once it went through memory; of the name, the twelve bytes the
    field has. *)
Definition stored (f : fs_file) : fs_file :=
  MkFile (u32 (f_cluster f)) (u32 (f_offset f)) (u32 (f_size f)) (u8 (f_mode f)) (f_valid f) (take 12 (f_name f)).

(** What [sys_open] stores is what the next call on the descriptor loads. *)
Lemma load_store_file m p f : str_ok (f_name f) → load_file (store_file m p f) p = stored f.
Proof.
  intros Hn. unfold store_file, set_file_offset, set_file_size, set_file_valid.
  set (m1 := wr32 m p _). set (m2 := wr32 m1 (p + 4) _). set (m3 := wr32 m2 _ _). set (m4 := wr8 m3 _ _).
  set (m5 := wr8 m4 _ _). set (m6 := wr_bytes m5 _ _).
  assert (∀ a, a < p + 14 → rd8 m6 a = rd8 m5 a) as H8.
  { intros a Ha. apply (only_rd8 _ _ _ _ (only_wr_bytes _ _ _)). unfold span. lia. }
  assert (∀ a, a + 4 <= p + 12 → rd32 m6 a = rd32 m3 a) as H32.
  { intros a Ha. unfold rd32, rd16. rewrite !H8 by lia. unfold m5, m4. by rewrite !rd8_wr8_ne by lia. }
  unfold load_file, stored. rewrite !H32 by lia. f_equal.
  - unfold m3, m2. rewrite !rd32_wr32_ne by lia. apply rd32_wr32_eq.
  - unfold m3. rewrite rd32_wr32_ne by lia. apply rd32_wr32_eq.
  - apply rd32_wr32_eq.
  - rewrite H8 by lia. unfold m5. rewrite rd8_wr8_ne by lia. apply rd8_wr8_eq.
  - rewrite H8 by lia. unfold m5. rewrite rd8_wr8_eq. by destruct (f_valid f).
  - apply rd_bytes_cstr. by apply cstr_wr_bytes.
Qed.

(** ** Properties *)

(** C14: after [syscall_init], whatever the state before, a system call runs the function
    that kernel/syscall.h gives its number to, on exactly the arguments passed, which are
    recorded; a number without a function returns [SYSCALL_INVALID] and changes
    nothing.  The gate of vector 0x80 is replaced by one to [syscall_handler], an
    empty C function, and every other gate stays. *)
Theorem syscall_dispatch E k0 a v :
  0 <= a_num a → length (idt (k_idt k0)) = 256%nat → is_u32 (handler_addr E syscall_handler) →
  0 <= v < 256 →
  let k := syscall_init E k0 in
  syscall_execute E k a =
    match handler_of (a_num a) with
    | Some f => call_handler E (k <| k_sys := k_sys k <| current_syscall_args := a |> |>) f a
    | None => Some (SYSCALL_INVALID, k)
    end ∧
  gate_of <$> idt (k_idt k) !! Z.to_nat v =
    if v =? 0x80 then Some (handler_addr E syscall_handler, (0x08, user_trap))
    else gate_of <$> idt (k_idt k0) !! Z.to_nat v.
Proof.
  intros Ha Hidt Hadr Hv. cbv zeta. split.
  - apply execute_handler; [|exact Ha]. vm_compute. reflexivity.
  - by apply trap_gate_set.
Qed.

Lemma syscall_dispatch_witness :
  syscall_execute demo_env (syscall_init demo_env (kernel_image ∅)) (MkArgs 9 1 2 3 4 5) =
    Some (SYSCALL_INVALID, syscall_init demo_env (kernel_image ∅)).
Proof.
  destruct (syscall_dispatch demo_env (kernel_image ∅) (MkArgs 9 1 2 3 4 5) 0x80) as [H _];
    [done|reflexivity|done|done|]. exact H.
Defined.

(** When a call returns: the paths it reads end, and the clusters of what it deletes
    form a chain.  All the other calls return always. *)
Definition ends (E : env) (k : kernel) (a : syscall_args) : Prop :=
  match handler_of (a_num a) with
  | Some fn_open | Some fn_create | Some fn_mkdir | Some fn_chdir | Some fn_listdir =>
      readable E (ram_of k) (a_arg1 a)
  | Some fn_rename => readable E (ram_of k) (a_arg1 a) ∧ readable E (ram_of k) (a_arg2 a)
  | Some fn_delete | Some fn_rmdir =>
      readable E (ram_of k) (a_arg1 a) ∧ ∀ p, cstr (ram_of k) (a_arg1 a) p → erasable (k_fs k) p
  | _ => True
  end.

Definition args_ok (a : syscall_args) : Prop :=
  0 <= a_num a ∧ is_u32 (a_arg1 a) ∧ is_u32 (a_arg2 a) ∧ is_u32 (a_arg3 a) ∧ is_u32 (a_arg4 a).

Lemma sys_read_returns E k fd buf count :
  0 <= count → ∃ r k', sys_read E k fd buf count = Some (r, k').
Proof.
  intros Hc. unfold sys_read. destruct (Z.eqb_spec fd 0); [by eexists _, _|].
  destruct (buf =? 0); [by eexists _, _|]. cbn [orb]. unfold handle.
  rewrite (proj2 (Z.eqb_neq fd 0)) by done. destruct (clamp_range count Hc) as [Hcl _].
  destruct (load_file_words (ram_of k) fd) as [Ho Hz].
  destruct (fs_read_bound (sector_junk E) (k_fs k) ∅ (load_file (ram_of k) fd) 0 (clamp count) Ho Hz)
    as (r0 & f' & m' & -> & _); [lia|]. cbn [mbind option_bind].
  destruct (r0 <? 0); by eexists _, _.
Qed.

Section returns.
Context (E : env) (k : kernel) (Hi : initialized (k_fs k) = true).

Lemma sys_open_returns p flags :
  readable E (ram_of k) p → ∃ r k', sys_open E k p flags = Some (r, k').
Proof.
  intros Hp. unfold sys_open. destruct (user_path_returns E _ p Hp) as ([path|] & ->);
    cbn [mbind option_bind]; [|by eexists _, _].
  destruct (fs_open_returns (k_fs k) (k_con k) (dir_junk E) (Some path) (u8 flags)
    (Some (load_file (ram_of k) (file_addr E))) Hi) as (r & f & s & c & ->). cbn [mbind option_bind].
  destruct (negb _); [by eexists _, _|]. destruct f; by eexists _, _.
Qed.

Lemma sys_write_returns fd buf count :
  0 <= count → ∃ r k', sys_write E k fd buf count = Some (r, k').
Proof.
  intros Hc. unfold sys_write. destruct (_ || _); [by eexists _, _|].
  destruct (fs_write_returns (sector_junk E) (k_fs k)
    (wr_bytes ∅ 0 (rd_bytes (ram_of k) buf (Z.to_nat (clamp count)))) (handle (ram_of k) fd) 0 (clamp count) Hi)
    as (r & f & s & ->); [apply clamp_range, Hc|]. cbn [mbind option_bind].
  destruct (r <? 0); by eexists _, _.
Qed.

Lemma path_call_returns p op :
  readable E (ram_of k) p →
  (∀ path, cstr (ram_of k) p path → ∃ r s c, op path = Some (r, (s, c))) →
  ∃ r k', path_call E k p op = Some (r, k').
Proof.
  intros Hp Hop. unfold path_call. destruct (user_path_returns E _ p Hp) as ([path|] & Eu);
    rewrite Eu; cbn [mbind option_bind]; [|by eexists _, _].
  apply user_path_Some in Eu as (Hs & _). destruct (Hop path Hs) as (r & s & c & ->). cbn [mbind option_bind].
  destruct (negb _); by eexists _, _.
Qed.

Lemma quiet_returns c r : (∃ x s, r = Some (x, s)) → ∃ x s c', quiet c r = Some (x, (s, c')).
Proof. intros (x & s & ->). by eexists _, _, _. Qed.

Lemma sys_create_returns p : readable E (ram_of k) p → ∃ r k', sys_create E k p = Some (r, k').
Proof. intros Hp. apply path_call_returns; [done|]. intros path _. by apply fs_create_returns. Qed.

Lemma sys_mkdir_returns p : readable E (ram_of k) p → ∃ r k', sys_mkdir E k p = Some (r, k').
Proof.
  intros Hp. apply path_call_returns; [done|]. intros path _. by apply quiet_returns, fs_mkdir_returns.
Qed.

Lemma sys_delete_returns p :
  readable E (ram_of k) p ∧ (∀ path, cstr (ram_of k) p path → erasable (k_fs k) path) →
  ∃ r k', sys_delete E k p = Some (r, k').
Proof.
  intros [Hp He]. apply path_call_returns; [done|]. intros path Hc.
  apply quiet_returns, fs_delete_returns; [done|by apply He].
Qed.

Lemma sys_rmdir_returns p :
  readable E (ram_of k) p ∧ (∀ path, cstr (ram_of k) p path → erasable (k_fs k) path) →
  ∃ r k', sys_rmdir E k p = Some (r, k').
Proof.
  intros [Hp He]. apply path_call_returns; [done|]. intros path Hc.
  apply quiet_returns, fs_rmdir_returns; [done|by apply He].
Qed.

Lemma sys_chdir_returns p : readable E (ram_of k) p → ∃ r k', sys_chdir E k p = Some (r, k').
Proof.
  intros Hp. apply path_call_returns; [done|]. intros path _. apply quiet_returns.
  destruct (fs_chdir _ _). by eexists _, _.
Qed.

Lemma sys_rename_returns p q :
  readable E (ram_of k) p ∧ readable E (ram_of k) q → ∃ r k', sys_rename E k p q = Some (r, k').
Proof.
  intros [Hp Hq]. unfold sys_rename. destruct (_ || _); [by eexists _, _|].
  destruct (user_path_returns E _ p Hp) as ([path|] & ->); cbn [mbind option_bind]; [|by eexists _, _].
  apply path_call_returns; [done|]. intros path' _. apply quiet_returns.
  destruct (fs_rename _ _ _). by eexists _, _.
Qed.

Lemma sys_listdir_returns p entries max count :
  readable E (ram_of k) p → ∃ r k', sys_listdir E k p entries max count = Some (r, k').
Proof.
  intros Hp. unfold sys_listdir. destruct (_ || _ || _); [by eexists _, _|].
  destruct (user_path_returns E _ p Hp) as ([path|] & ->); cbn [mbind option_bind]; [|by eexists _, _].
  destruct (fs_listdir _ _ _ _); by eexists _, _.
Qed.
End returns.

(** A call that returns, and keeps the invariant, does both. *)
Lemma ok_split E (res : option (Z * kernel)) (P : Prop) :
  (∃ r k', res = Some (r, k') ∧ kernel_ok E k') →
  (∀ r k', res = Some (r, k') → kernel_ok E k') ∧ (P → ∃ r k', res = Some (r, k')).
Proof. intros (r & k' & -> & Hk). split; [by intros ?? [= _ <-]|by eexists _, _]. Qed.

(** Every call that returns keeps the invariant, and those that end return. *)
Lemma execute_ok E k a :
  env_ok E → kernel_ok E k → args_ok a → harmless k a →
  (∀ r k', syscall_execute E k a = Some (r, k') → kernel_ok E k') ∧
  (ends E k a → ∃ r k', syscall_execute E k a = Some (r, k')).
Proof.
  intros HE Hk (Hn & H1 & H2 & H3 & H4) Hh.
  rewrite (execute_handler E k a (ko_table E k Hk) Hn). unfold harmless in Hh. unfold ends.
  pose proof (kernel_ok_args E k Hk a) as Hk'. set (k1 := k <| k_sys := _ |>) in *.
  change (killable k) with (killable k1) in Hh. change (freeable k) with (freeable k1) in Hh.
  change (k_procs k) with (k_procs k1) in Hh.
  change (ram_of k) with (ram_of k1). change (k_fs k) with (k_fs k1).
  clearbody k1. destruct (handler_of (a_num a)) as [f|];
    [|apply ok_split; by eexists _, _].
  pose proof (fi_init _ (proj1 (ko_fs E k1 Hk'))) as Hi.
  destruct a as [n a1 a2 a3 a4 a5]. cbn [a_arg1 a_arg2 a_arg3 a_arg4] in *. unfold is_u32 in *.
  destruct f; cbn [call_handler] in *;
    try (apply ok_split; first
      [ by apply sys_exit_ok | by apply sys_fork_ok | by apply sys_kill_ok | by apply sys_yield_ok
      | by apply sys_close_ok | by apply sys_seek_ok | by apply sys_tell_ok | by apply sys_getcwd_ok
      | by apply sys_getinfo_ok | by apply sys_setpriority_ok | by apply sys_free_ok
      | apply sys_malloc_ok; [done|lia] | by eexists _, _
      | unfold sys_getpid; destruct (process_get_current _); by eexists _, _
      | unfold sys_getppid; destruct (process_get_current _); [destruct (p_parent _)|]; by eexists _, _ ]);
    split.
  - intros r k'. eapply sys_open_ok; eassumption.
  - by apply sys_open_returns.
  - intros r k'. apply (sys_read_ok E k1 Hk'); [lia|apply Hh..].
  - intros _. apply sys_read_returns. lia.
  - intros r k'. eapply sys_write_ok; eassumption.
  - intros _. apply sys_write_returns; [done|lia].
  - intros r k'. eapply sys_create_ok; eassumption.
  - by apply sys_create_returns.
  - intros r k'. eapply sys_delete_ok; eassumption.
  - by apply sys_delete_returns.
  - intros r k'. eapply sys_rename_ok; eassumption.
  - by apply sys_rename_returns.
  - intros r k'. eapply sys_mkdir_ok; eassumption.
  - by apply sys_mkdir_returns.
  - intros r k'. eapply sys_rmdir_ok; eassumption.
  - by apply sys_rmdir_returns.
  - intros r k'. eapply sys_chdir_ok; eassumption.
  - by apply sys_chdir_returns.
  - intros r k'. apply (sys_listdir_ok E k1 Hk'); [lia|apply Hh..].
  - by apply sys_listdir_returns.
  - intros r k'. apply (sys_ps_ok E k1 Hk'); [lia|apply Hh..].
  - intros _. unfold sys_ps. destruct (_ || _); by eexists _, _.
Qed.

(** C2: no harmless system call damages the kernel: whatever the call and whatever its
    outcome, the heap, the page bitmap, the page tables, the file system, the process
    manager with its stacks, the keyboard buffer, the interrupt table and the system call
    table are all well formed afterwards, and the memory map is the one set up at
    boot; and every call returns, those that read a path when the path ends, and
    those that delete when the clusters of the file form a chain. *)
Theorem syscall_preserves_invariant E k a :
  env_ok E → kernel_ok E k → args_ok a → harmless k a →
  (∀ r k', syscall_execute E k a = Some (r, k') → kernel_ok E k') ∧
  (ends E k a → ∃ r k', syscall_execute E k a = Some (r, k')).
Proof. apply execute_ok. Qed.

(** [SYS_GETINFO] into memory of the caller at 0x30000. *)
Lemma demo_span p n : 0x20000 <= p → p + n <= 0x80000 → safe_span p n.
Proof. intros ?? a. region_lia. Qed.

Lemma syscall_preserves_invariant_witness :
  ∃ r k', syscall_execute demo_env demo_kernel (MkArgs SYS_GETINFO 0x30000 0 0 0 0) = Some (r, k') ∧
    kernel_ok demo_env k'.
Proof.
  destruct (syscall_preserves_invariant demo_env demo_kernel (MkArgs SYS_GETINFO 0x30000 0 0 0 0)
    demo_env_ok demo_kernel_ok) as [H1 H2].
  - by repeat split.
  - apply demo_span; unfold sizeof_pcb; cbn [a_arg1]; lia.
  - destruct (H2 I) as (r & k' & E). exists r, k'. split; [exact E|]. exact (H1 r k' E).
Defined.

(** C17: memory allocated by system call and freed again: on a well-formed kernel
    [SYS_MALLOC] of at most 2^32-4 bytes returns -1 and leaves the heap as it was, or
    the address of a block of at least that size, inside the heap, that no one owned
    before; then [SYS_FREE] of the address returns 0 and the heap has exactly the blocks
    it had before both calls. *)
Theorem sys_malloc_free_roundtrip E k size l :
  kernel_ok E k → 0 < size <= 0xFFFFFFFC → heap_inv (k_mm k) (ram_of k) l →
  ∃ r k1, syscall_execute E k (MkArgs SYS_MALLOC size 0 0 0 0) = Some (r, k1) ∧ kernel_ok E k1 ∧
    (r = SYSCALL_ERROR ∧ heap_of k1 = heap_of k ∨
     KERNEL_HEAP_START < r < KERNEL_HEAP_START + KERNEL_HEAP_SIZE ∧
     (∃ s, size <= s ∧ owns (heap_of k1) r s ∧ ∀ t, ¬ owns (heap_of k) r t) ∧
     ∃ k2, syscall_execute E k1 (MkArgs SYS_FREE r 0 0 0 0) = Some (SYSCALL_SUCCESS, k2) ∧
       heap_inv (k_mm k2) (ram_of k2) l).
Proof.
  intros Hk Hsz Hl. rewrite (execute_handler E k _ (ko_table E k Hk)) by done.
  change (handler_of (a_num _)) with (Some fn_malloc). cbn [call_handler].
  pose proof (kernel_ok_args E k Hk (MkArgs SYS_MALLOC size 0 0 0 0)) as Hk1.
  set (k0 := k <| k_sys := _ |>) in *. change (heap_of k) with (heap_of k0).
  change (heap_inv (k_mm k0) (ram_of k0) l) in Hl. clearbody k0. clear k Hk.
  destruct (sys_malloc_ok E k0 Hk1 size ltac:(lia)) as (r & k1 & Em & Hok). exists r, k1.
  split; [exact Em|]. split; [exact Hok|]. unfold sys_malloc in Em.
  rewrite (proj2 (Z.eqb_neq size 0)) in Em by lia.
  destruct (kmalloc_then_free (k_mm k0) (ram_of k0) l size Hl Hsz)
    as [Hkm|(p & l' & m' & s & Hkm & Hl' & Hf & Hp & Hs & Ho & Hn)];
    rewrite Hkm in Em; cbn [mbind option_bind] in Em.
  { left. rewrite Z.eqb_refl in Em. injection Em as <- <-. split; [done|].
    by destruct k0 as [? [] ? ? ? ? ?]. }
  right. rewrite (proj2 (Z.eqb_neq p 0)) in Em by (heap_consts; lia). injection Em as Er Ek.
  rewrite s32_small in Er by (heap_consts; lia). subst r k1. split; [exact Hp|]. split.
  { exists s. split; [lia|]. by split. }
  rewrite (execute_handler E _ _ (ko_table E _ Hok)) by done.
  change (handler_of (a_num _)) with (Some fn_free). cbn [call_handler]. unfold sys_free.
  rewrite (proj2 (Z.eqb_neq p 0)) by (heap_consts; lia).
  destruct (kfree_ok _ _ _ _ _ Hl' Hf) as (m2 & Hkf & Hl2 & _).
  match goal with |- context [kfree ?a ?b p] => change (kfree a b p) with (kfree (with_heap_stats (k_mm k0) l') m' p) end.
  rewrite Hkf. cbn [mbind option_bind]. eexists. split; [reflexivity|]. exact Hl2.
Qed.

Lemma sys_malloc_free_roundtrip_witness :
  ∃ r k1, syscall_execute demo_env demo_kernel (MkArgs SYS_MALLOC 100 0 0 0 0) = Some (r, k1) ∧
    kernel_ok demo_env k1.
Proof.
  destruct (sys_malloc_free_roundtrip demo_env demo_kernel 100 fresh_heap demo_kernel_ok
    ltac:(lia) (bt_heap _ _ _ demo_kernel_booted)) as (r & k1 & E & Hk & _).
  exists r, k1. split; [exact E|exact Hk].
Defined.
