(* ===== verification/SyscallProps.v ===== *)
(** * What particular system calls do

    The calls through memory of the caller: reading into a buffer, descriptors, the current
    directory as a string; and the end of a process. *)

From S2P Require Import Prelude Ram CString Vga Memory Heap HeapCorrect Alloc PhysPages Paging.
From S2P Require Import PagingCorrect Keyboard Interrupt Fat FsNames Fs FsCorrect FsPreserve Process ProcessCorrect.
From S2P Require Import ProcessSteps SysTable Layout Kernel KernelInv Syscall Shell Boot SyscallCorrect.
Set Default Goal Selector "!".

(** ** Descriptors *)

(** A successful [fs_open] hands out what the entry under its path says. *)
Lemma fs_open_success s k junk p mode f0 f s' k' :
  initialized s = true → fs_open s k junk (Some p) mode (Some f0) = Some (FS_SUCCESS, (f, (s', k'))) →
  ∃ e, find_directory_entry s' (Some p) = Ok e ∧ f = Some (MkFile (d_cluster e) 0 (d_size e) mode true p).
Proof.
  intros Hi. unfold fs_open. rewrite Hi. cbn [negb default]. change (id p) with p.
  destruct (negb (_ =? FS_SUCCESS)); [intros [=]|].
  destruct (open_entry s k junk p mode) as [[r [s1 k1]]|] eqn:Eo; [|intros [=]]. cbn [mbind option_bind].
  revert Eo. unfold open_entry. destruct (find_directory_entry s (Some p)) as [e|x0] eqn:Ef.
  { intros [= <- <- <-]. destruct (_ && _); [intros [=]|]. intros [= <- <- <-]. by exists e. }
  destruct (_ =? 0); [intros [= <- <- <-] [=]|].
  destruct (allocate_cluster s) as [[c|x] s2]; [|intros [= <- <- <-] [=]].
  destruct (add_directory_entry_to_dir _ _ _ _ _ _ _) as [[u|x] s3].
  - destruct (find_directory_entry s3 (Some p)) as [e|x3] eqn:Ef3; intros [= <- <- <-]; [|intros [=]].
    destruct (_ && _); [intros [=]|]. intros [= <- <- <-]. by exists e.
  - destruct (free_cluster_chain _ _) as [[u' s4]|]; [|intros [=]]. cbn [mbind option_bind]. intros [= <- <- <-] [=].
Qed.

(** What a successful [sys_open] leaves. *)
Lemma sys_open_success E k path_ptr flags d k' :
  env_ok E → kernel_ok E k → sys_open E k path_ptr flags = Some (d, k') → d ≠ SYSCALL_ERROR →
  ∃ path e, cstr (ram_of k) path_ptr path ∧ d = file_addr E ∧
    find_directory_entry (k_fs k') (Some path) = Ok e ∧
    load_file (ram_of k') d = stored (MkFile (d_cluster e) 0 (d_size e) (u8 flags) true path).
Proof.
  intros HE Hk. unfold sys_open.
  destruct (user_path E _ path_ptr) as [[p|]|] eqn:Ep; cbn [mbind option_bind]; [|by intros [= <- _]|intros [=]].
  apply user_path_Some in Ep as (Hc & Hp & _).
  destruct (fs_open _ _ _ _ _ _) as [[r0 [f' [s' con']]]|] eqn:Eo; cbn [mbind option_bind]; [|intros [=]].
  destruct (Z.eqb_spec r0 FS_SUCCESS) as [->|]; cbn [negb]; [|by intros [= <- _]].
  destruct (fs_open_success _ _ _ _ _ _ _ _ _ (fi_init _ (proj1 (ko_fs E k Hk))) Eo) as (e & He & ->).
  set (k1 := k <| k_con := con' |> <| k_fs := s' |>). assert (k_fs k1 = s') as E1 by done. clearbody k1.
  intros [= <- <-] _. pose proof (eo_file E HE). rewrite s32_small by lia. exists p, e.
  split; [exact Hc|]. split; [done|]. split; [change (k_fs _) with (k_fs k1); by rewrite E1|].
  change (ram_of _) with (store_file (ram_of k1) (file_addr E) (MkFile (d_cluster e) 0 (d_size e) (u8 flags) true p)).
  by apply load_store_file.
Qed.

(** ** Properties *)

(** C26: a descriptor is the address of the handle in the frame of [sys_open] itself (a parameter
    of the model, the same for each call): a successful open leaves there, under the address it
    returns, the cluster and the size of the directory entry that the path names
    afterwards, offset 0, the low byte of the flags as mode, the valid mark and the first 12 characters of
    the path; so after a second successful open the descriptor of the first designates, in
    every field, the file opened last. *)
Theorem sys_open_shared_handle E k path1 flags1 d1 k1 path2 flags2 d2 k2 :
  env_ok E → kernel_ok E k →
  sys_open E k path1 flags1 = Some (d1, k1) → d1 ≠ SYSCALL_ERROR →
  sys_open E k1 path2 flags2 = Some (d2, k2) → d2 ≠ SYSCALL_ERROR →
  ∃ name1 e1 name2 e2,
    cstr (ram_of k) path1 name1 ∧ find_directory_entry (k_fs k1) (Some name1) = Ok e1 ∧
    load_file (ram_of k1) d1 = stored (MkFile (d_cluster e1) 0 (d_size e1) (u8 flags1) true name1) ∧
    cstr (ram_of k1) path2 name2 ∧ find_directory_entry (k_fs k2) (Some name2) = Ok e2 ∧
    load_file (ram_of k2) d1 = stored (MkFile (d_cluster e2) 0 (d_size e2) (u8 flags2) true name2).
Proof.
  intros HE Hk E1 H1 E2 H2. pose proof (sys_open_ok E HE k Hk _ _ _ _ E1) as Hk1.
  destruct (sys_open_success E k _ _ _ _ HE Hk E1 H1) as (n1 & e1 & Hc1 & -> & Hf1 & Hl1).
  destruct (sys_open_success E k1 _ _ _ _ HE Hk1 E2 H2) as (n2 & e2 & Hc2 & -> & Hf2 & Hl2).
  by exists n1, e1, n2, e2.
Qed.

(** "/A" and "/B" in memory of the caller; both files are created. *)
Definition demo_user : kernel :=
  set_ram demo_kernel (wr_bytes (ram_of demo_kernel) 0x30000 (lit "/A" ++ [0] ++ lit "/B" ++ [0])).
Lemma demo_user_ok : kernel_ok demo_env demo_user.
Proof.
  eapply kernel_ok_ram; [exact demo_kernel_ok|apply only_wr_bytes|]. apply demo_span; simpl; lia.
Qed.

Definition open_two : option (Z * kernel) * option (Z * kernel) :=
  let r := sys_open demo_env demo_user 0x30000 8 in
  (r, '(_, k) ← r; sys_open demo_env k 0x30003 8).
Lemma open_two_ok : fst <$> open_two.1 = Some 0x8F000 ∧ fst <$> open_two.2 = Some 0x8F000.
Proof. split; vm_compute; reflexivity. Qed.

Lemma sys_open_shared_handle_witness :
  ∃ k1 k2, sys_open demo_env demo_user 0x30000 8 = Some (0x8F000, k1) ∧
    sys_open demo_env k1 0x30003 8 = Some (0x8F000, k2) ∧
    f_offset (load_file (ram_of k2) 0x8F000) = 0 ∧ f_mode (load_file (ram_of k2) 0x8F000) = 8.
Proof.
  destruct open_two_ok as [H1 H2]. unfold open_two in H1, H2. cbn [fst snd] in H1, H2.
  destruct (sys_open demo_env demo_user 0x30000 8) as [[d1 k1]|] eqn:E1; [|discriminate H1].
  cbn [mbind option_bind] in H2. injection H1 as ->.
  destruct (sys_open demo_env k1 0x30003 8) as [[d2 k2]|] eqn:E2; [|discriminate H2]. injection H2 as ->.
  exists k1, k2. split; [reflexivity|]. split; [exact E2|].
  destruct (sys_open_shared_handle demo_env demo_user 0x30000 8 0x8F000 k1 0x30003 8 0x8F000 k2
    demo_env_ok demo_user_ok E1 ltac:(discriminate) E2 ltac:(discriminate)) as (n1 & e1 & n2 & e2 & _ & _ & _ & _ & _ & H).
  rewrite H. split; reflexivity.
Defined.

(** What a successful [fs_chdir] makes the current directory. *)
Lemma chdir_success s path s' :
  str_ok path → path ≠ lit ".." → fs_chdir s (Some path) = (FS_SUCCESS, s') → current_directory s' = path.
Proof.
  intros Hp Hdd. unfold fs_chdir. cbn [default]. change (id path) with path.
  assert (str_ok (lit "/") ∧ str_ok (lit "..")) as [Hr Hd] by (split; by repeat constructor).
  rewrite !strcmp_lit by done. rewrite (bool_decide_false (path = lit "..")) by done.
  destruct (negb (initialized s)); [by intros [= ?]|]. destruct (negb _); [by intros [= ?]|].
  case_bool_decide as E; [intros [= <-]; by rewrite E|].
  destruct (find_entry s (Some path)); [|by intros [= ?]]. destruct (negb _); [by intros [= ?]|].
  by intros [= <-].
Qed.

(** "/" in memory of the caller. *)
Definition demo_root : kernel :=
  set_ram demo_kernel (wr_bytes (ram_of demo_kernel) 0x30000 (lit "/" ++ [0])).
Lemma demo_root_ok : kernel_ok demo_env demo_root.
Proof.
  eapply kernel_ok_ram; [exact demo_kernel_ok|apply only_wr_bytes|]. apply demo_span; simpl; lia.
Qed.
Lemma demo_root_path : cstr (ram_of demo_root) 0x30000 (lit "/").
Proof. apply cstr_wr_bytes. by repeat constructor. Qed.

(** C27: changing directory and asking for it: when [SYS_CHDIR] of a path string other than ".."
    succeeds, [SYS_GETCWD] into any buffer of the caller longer than the path returns its
    length and leaves exactly that string in the buffer, and writes nothing else. *)
Theorem sys_chdir_getcwd_roundtrip E k path_ptr path buf size k1 :
  kernel_ok E k → path_ptr ≠ 0 → cstr (ram_of k) path_ptr path →
  (length path < user_fuel E)%nat → Str.strlen path < size → is_u32 size → path ≠ lit ".." →
  buf ≠ 0 →
  syscall_execute E k (MkArgs SYS_CHDIR path_ptr 0 0 0 0) = Some (SYSCALL_SUCCESS, k1) →
  ∃ k2, syscall_execute E k1 (MkArgs SYS_GETCWD buf size 0 0 0) = Some (Str.strlen path, k2) ∧
    cstr (ram_of k2) buf path ∧ only (ram_of k1) (span buf (Str.strlen path + 1)) (ram_of k2).
Proof.
  intros Hk Hp Hc Hfuel Hlen Hsz Hdd Hbuf. unfold is_u32 in Hsz.
  rewrite (execute_handler E k _ (ko_table E k Hk)) by done.
  change (handler_of (a_num _)) with (Some fn_chdir). cbn [call_handler].
  pose proof (kernel_ok_args E k Hk (MkArgs SYS_CHDIR path_ptr 0 0 0 0)) as Hk0.
  set (k0 := k <| k_sys := _ |>) in *. change (ram_of k) with (ram_of k0) in Hc. clearbody k0.
  unfold sys_chdir, path_call.
  rewrite (user_path_ok E _ _ path) by (done || unfold is_u32, Str.strlen in *; lia). cbn [mbind option_bind].
  destruct (Z.leb_spec FS_MAX_PATH (Str.strlen path)) as [|Hmax]; [by intros [= <-]|]. unfold quiet.
  destruct (fs_chdir (k_fs k0) (Some path)) as [r s] eqn:Ec. cbn [mbind option_bind].
  apply cstr_nonzero in Hc as Hok.
  destruct (Z.eqb_spec r FS_SUCCESS) as [->|]; cbn [negb]; [|by intros [= <-]].
  apply (chdir_success (k_fs k0) path s) in Ec as Hcwd; [|done..].
  pose proof (fs_chdir_ok _ _ _ _ (ko_fs E k0 Hk0) Hok Hmax Ec) as Hs.
  assert (kernel_ok E (k0 <| k_con := k_con k0 |> <| k_fs := s |>)) as Hk2.
  { apply kernel_ok_fs; [|exact Hs]. apply kernel_ok_con; [exact Hk0|]. apply console_step_refl, Hk0. }
  set (k2 := k0 <| k_con := k_con k0 |> <| k_fs := s |>) in *.
  assert (current_directory (k_fs k2) = path) as Hcwd2 by exact Hcwd. clearbody k2. intros [= <-].
  rewrite (execute_handler E k2 _ (ko_table E k2 Hk2)) by done.
  change (handler_of (a_num _)) with (Some fn_getcwd). cbn [call_handler].
  set (k3 := k2 <| k_sys := _ |>). change (k_fs k2) with (k_fs k3) in Hcwd2.
  change (ram_of k2) with (ram_of k3). clearbody k3. unfold sys_getcwd, fs_get_cwd.
  rewrite (proj2 (Z.eqb_neq buf 0)), (proj2 (Z.eqb_neq size 0)) by (done || unfold Str.strlen in *; lia).
  cbn [orb]. change (FS_MAX_PATH =? 0) with false. cbv iota. rewrite Hcwd2.
  rewrite (proj2 (Z.leb_gt FS_MAX_PATH _)) by done. rewrite (proj2 (Z.leb_gt size _)) by done.
  eexists. split; [reflexivity|]. split; [by apply cstr_wr_bytes|].
  eapply only_mono; [apply only_wr_bytes|]. intros a. rewrite length_app. unfold Str.strlen, span. simpl. lia.
Qed.

(** Root of the demo kernel, from a string of the caller. *)
Lemma sys_chdir_getcwd_roundtrip_witness :
  ∃ k1 k2, syscall_execute demo_env demo_root (MkArgs SYS_CHDIR 0x30000 0 0 0 0) = Some (SYSCALL_SUCCESS, k1) ∧
    syscall_execute demo_env k1 (MkArgs SYS_GETCWD 0x40000 2 0 0 0) = Some (1, k2) ∧
    cstr (ram_of k2) 0x40000 (lit "/").
Proof.
  assert (fst <$> syscall_execute demo_env demo_root (MkArgs SYS_CHDIR 0x30000 0 0 0 0) = Some SYSCALL_SUCCESS)
    as H by (vm_compute; reflexivity).
  destruct (syscall_execute demo_env demo_root (MkArgs SYS_CHDIR 0x30000 0 0 0 0)) as [[r k1]|] eqn:E1;
    [|discriminate H].
  injection H as ->. exists k1.
  destruct (sys_chdir_getcwd_roundtrip demo_env demo_root 0x30000 (lit "/") 0x40000 2 k1 demo_root_ok
    ltac:(discriminate) demo_root_path ltac:(apply Nat.ltb_lt; vm_compute; reflexivity) ltac:(reflexivity)
    ltac:(split; [discriminate|reflexivity]) ltac:(discriminate) ltac:(discriminate) E1) as (k2 & E2 & Hc & _).
  exists k2. split; [reflexivity|]. split; [exact E2|exact Hc].
Defined.


(** C34: a transfer never exceeds what was asked: [SYS_READ] on any handle of the caller, well
    formed or not, returns at most [min(count, 1024)], and -1 for an error, and
    changes nothing in the whole kernel but the offset in the handle and as many bytes
    of the buffer as it returns. *)
Theorem sys_read_bounded E k fd buf count :
  is_u32 count →
  ∃ r k', sys_read E k fd buf count = Some (r, k') ∧ -1 <= r <= Z.min count KERNEL_BUF_SIZE ∧
    k' = set_ram k (ram_of k') ∧
    only (ram_of k) (λ a, span (fd + 4) 4 a ∨ span buf r a) (ram_of k').
Proof.
  intros Hc. unfold is_u32 in Hc. destruct (clamp_range count) as [Hcl Hcl']; [lia|].
  assert (∃ r k', Some (SYSCALL_ERROR, k) = Some (r, k') ∧ -1 <= r <= Z.min count KERNEL_BUF_SIZE ∧
    k' = set_ram k (ram_of k') ∧
    only (ram_of k) (λ a, span (fd + 4) 4 a ∨ span buf r a) (ram_of k')) as Herr.
  { exists (-1), k. split; [done|]. split; [unfold KERNEL_BUF_SIZE; lia|]. split; [|apply only_refl].
    by destruct k as [? [] ? ? ? ? ?]. }
  unfold sys_read. destruct (Z.eqb_spec fd 0) as [E0|Hfd]; [exact Herr|].
  destruct (buf =? 0); [exact Herr|]. cbn [orb]. clear Herr.
  unfold handle. rewrite (proj2 (Z.eqb_neq fd 0)) by done.
  destruct (load_file_words (ram_of k) fd) as [Ho Hz].
  destruct (fs_read_bound (sector_junk E) (k_fs k) ∅ (load_file (ram_of k) fd) 0 (clamp count) Ho Hz)
    as (r0 & f' & m' & -> & Hr & _); [lia|]. cbn [mbind option_bind default].
  set (m1 := set_file_offset (ram_of k) fd _).
  assert (∀ P, (∀ a, span (fd + 4) 4 a → P a) → only (ram_of k) P m1) as Ho1.
  { intros P HP. eapply only_mono; [apply only_wr32|exact HP]. }
  destruct (Z.ltb_spec r0 0).
  - exists SYSCALL_ERROR, (set_ram k m1). split; [reflexivity|]. split; [unfold SYSCALL_ERROR, KERNEL_BUF_SIZE; lia|].
    split; [reflexivity|]. apply Ho1. by left.
  - eexists _, _. split; [reflexivity|]. split; [unfold clamp, KERNEL_BUF_SIZE in *; case_match; lia|].
    split; [reflexivity|]. eapply only_trans; [apply Ho1; by left|].
    eapply only_mono; [apply only_wr_bytes|]. intros a. rewrite length_rd_bytes, Z2Nat.id by lia. by right.
Qed.

Lemma sys_read_bounded_witness :
  ∃ r k', sys_read demo_env demo_kernel 0x30000 0x40000 0xFFFFFFFF = Some (r, k') ∧ r <= 1024.
Proof.
  destruct (sys_read_bounded demo_env demo_kernel 0x30000 0x40000 0xFFFFFFFF ltac:(done))
    as (r & k' & E & Hr & _). exists r, k'. split; [exact E|].
  exact (Z.le_trans _ _ _ (proj2 Hr) (Z.le_min_r 0xFFFFFFFF 1024)).
Defined.

(** C35: exit: [SYS_EXIT] of the running process succeeds, frees its slot and exactly its stack
    among the blocks of the heap, leaves the ready queue as it is, and returns to the caller
    with no process running: from then on the caller has no pid, cannot fork and
    yields to nobody, and a second exit has no effect. *)
Theorem sys_exit_stops E k code p :
  kernel_ok E k → running_process (k_procs k) = Some p →
  ∃ k' ready term, sys_exit k code = Some (SYSCALL_SUCCESS, k') ∧ kernel_ok E k' ∧
    pm_inv (k_procs k) ready term ∧ pm_inv (k_procs k') ready (p :: term) ∧
    running_process (k_procs k') = None ∧ slot_used (k_procs k') p = false ∧
    freed (heap_of k) (heap_of k') (stack_base (pool_at (pool (k_procs k)) p)) ∧
    sys_getpid k' = Some (SYSCALL_ERROR, k') ∧ sys_fork E k' = Some (SYSCALL_ERROR, k') ∧
    sys_yield k' = Some (SYSCALL_SUCCESS, k') ∧ sys_exit k' code = Some (SYSCALL_SUCCESS, k').
Proof.
  intros Hk Hrun. destruct (ko_procs E k Hk) as (ready & term & Hs & Hst).
  set (f := λ b, b <| exit_code := s32 code |>). set (s := set_pcb (k_procs k) p f).
  destruct (set_pcb_inv (k_procs k) (heap_of k) p f ready term) as [Hs1 Hst1]; [done|exact Hs|exact Hst|].
  destruct (terminate_running_ok s (heap_of k) p ready term (kernel_heap_ok E k Hk) Hs1 Hst1 Hrun)
    as (s' & h' & Et & Hs' & Hrun' & Hst' & Hf).
  assert (sys_exit k code = Some (SYSCALL_SUCCESS, set_heap k h' <| k_procs := s' |>)) as Ex.
  { unfold sys_exit, process_get_current. rewrite Hrun. fold f. fold s.
    change (pcb_at s p) with (pool_at (pool s) p). by rewrite Et. }
  destruct (sys_exit_ok E k Hk code) as (r & k' & Ex' & Hk'). rewrite Ex in Ex'. injection Ex' as _ Ek.
  exists k', ready, term. rewrite Ex, <- Ek. split; [reflexivity|]. rewrite Ek.
  assert (k_procs k' = s') as Ep by (by rewrite <- Ek).
  assert (running_process (k_procs k') = None) as Hn by (by rewrite Ep).
  split; [exact Hk'|]. split; [exact Hs|]. split; [by rewrite Ep|]. split; [exact Hn|].
  split; [rewrite Ep; by apply (dead_slot_free s' ready p term)|]. split.
  { assert (heap_of k' = h') as -> by (rewrite <- Ek; by destruct h').
    assert (stack_base (pool_at (pool (k_procs k)) p) = stack_base (pool_at (pool s) p)) as ->; [|exact Hf].
    change (pool s) with (alter f p (pool (k_procs k))). rewrite pool_at_alter; [by case_decide|].
    rewrite (pi_len _ _ _ Hs). apply (live_slot (k_procs k) ready term); [done|]. apply elem_of_app. left.
    unfold live. rewrite Hrun. by left. }
  unfold sys_getpid, sys_fork, sys_yield, sys_exit, process_yield, process_get_current. rewrite Hn.
  cbn [mbind option_bind]. split; [done|]. split; [done|]. split; [|done].
  clear. by destruct k'.
Qed.

Lemma sys_exit_stops_witness :
  ∃ k', sys_exit demo_kernel 3 = Some (SYSCALL_SUCCESS, k') ∧ sys_getpid k' = Some (SYSCALL_ERROR, k').
Proof.
  assert (running_process (k_procs demo_kernel) = Some 0%nat) as Hr
    by (by rewrite (bt_procs _ _ _ demo_kernel_booted)).
  destruct (sys_exit_stops demo_env demo_kernel 3 0%nat demo_kernel_ok Hr)
    as (k' & ready & term & E & _ & _ & _ & _ & _ & _ & H & _).
  exists k'. split; [exact E|exact H].
Defined.
