(* ===== verification/ShellInput.v ===== *)
(** * Reading a command line

    [shell_read_input] against a reference editor that knows nothing of interrupts, ring
    buffers or cursors.  Keyboard interrupts come between any two accesses of the loop to
    the variables it shares with the handler; where they do not hit the update of
    [buffer_count] the line depends only on the characters typed, and where they do a
    key is lost. *)

From S2P Require Import Prelude Ram CString Vga Keyboard Interrupt Kernel Shell Boot.
Set Default Goal Selector "!".

(** ** The reference editor *)

(** A text echoed before the rest. *)
Definition echoing (echo : list Z) (r : option (list Z * list Z * list Z)) :
    option (list Z * list Z * list Z) :=
  '(line, echo', rest) ← r; Some (line, echo ++ echo', rest).

(** Edit the line [buf], of at most [max - 1] characters, with the characters typed: the line,
    the characters echoed and those not consumed; [None] if the line is not finished. *)
Fixpoint edit (max : Z) (buf chars : list Z) : option (list Z * list Z * list Z) :=
  if Str.strlen buf <? max - 1 then
    match chars with
    | [] => None
    | c :: chars =>
        if (c =? 13) || (c =? 10) then Some (buf, [10], chars)
        else if (c =? 8) || (c =? 127) then
          if 0 <? Str.strlen buf then echoing [8] (edit max (removelast buf) chars)
          else edit max buf chars
        else if (32 <=? c) && (c <=? 126) then echoing [c] (edit max (buf ++ [c]) chars)
        else edit max buf chars
    end
  else Some (buf, [], chars).

Lemma echoing_nil r : echoing [] r = r.
Proof. by destruct r as [[[? ?] ?]|]. Qed.

Lemma echoing_app e1 e2 r : echoing e1 (echoing e2 r) = echoing (e1 ++ e2) r.
Proof. destruct r as [[[? ?] ?]|]; [|done]. cbn. by rewrite app_assoc. Qed.

Lemma edit_full max buf chars : max - 1 <= Str.strlen buf → edit max buf chars = Some (buf, [], chars).
Proof. intros H. destruct chars; cbn [edit]; by rewrite (proj2 (Z.ltb_ge _ _)). Qed.

(** Characters that come after the end of the line wait. *)
Lemma edit_app max buf chars more line echo rest :
  edit max buf chars = Some (line, echo, rest) →
  edit max buf (chars ++ more) = Some (line, echo, rest ++ more).
Proof.
  revert buf line echo rest. induction chars as [|c chars IH]; intros buf line echo rest;
    destruct (Z.lt_ge_cases (Str.strlen buf) (max - 1)) as [Hb|Hb];
    [|rewrite !edit_full by done; by intros [= <- <- <-]| |rewrite !edit_full by done; by intros [= <- <- <-]].
  { cbn [edit]. by rewrite (proj2 (Z.ltb_lt _ _)). }
  cbn [edit app]. rewrite (proj2 (Z.ltb_lt _ _)) by done.
  assert (∀ buf' e, echoing e (edit max buf' chars) = Some (line, echo, rest) →
    echoing e (edit max buf' (chars ++ more)) = Some (line, echo, rest ++ more)) as Hgo.
  { intros buf' e. destruct (edit max buf' chars) as [[[l e'] r]|] eqn:Ee; [|done].
    rewrite (IH buf' l e' r Ee). cbn. by intros [= <- <- <-]. }
  destruct (_ || _); [by intros [= <- <- <-]|]. destruct (_ || _).
  { destruct (0 <? _); [apply Hgo|apply IH]. }
  destruct (_ && _); [apply Hgo|apply IH].
Qed.

(** ** What the interrupts type *)

(** The characters that interrupts will type, if the ring buffer has room; one whose status
    says that no byte is there types nothing. *)
Fixpoint irq_chars (st : keyboard_state) (sched : list event) : list Z :=
  match sched with
  | [] => []
  | Cpu :: sched => irq_chars st sched
  | Irq status scancode :: sched =>
      if Z.land status KEYBOARD_STATUS_OUTPUT_FULL =? 0 then irq_chars st sched
      else
        let '(st', c) := key_effect st scancode in option_list c ++ irq_chars st' sched
  end.

(** The characters waiting and those to come. *)
Definition input (kb : keyboard) (sched : list event) : list Z :=
  kbd_queue kb ++ irq_chars (kbd_state kb) sched.

(** The character that one interrupt puts into the ring buffer: a full one drops it. *)
Definition taken (kb : keyboard) (status scancode : Z) : list Z :=
  if Z.land status KEYBOARD_STATUS_OUTPUT_FULL =? 0 then []
  else if buffer_count kb <? INPUT_BUFFER_SIZE then option_list (key_effect (kbd_state kb) scancode).2
  else [].

Definition event_ok (e : event) : Prop := match e with Cpu => True | Irq _ scancode => is_u8 scancode end.

Lemma handler_ok kb status scancode :
  kbd_inv kb → is_u8 scancode →
  let kb' := keyboard_interrupt_handler kb status scancode in
  kbd_inv kb' ∧ kbd_queue kb' = kbd_queue kb ++ taken kb status scancode ∧
  kbd_state kb' = if Z.land status KEYBOARD_STATUS_OUTPUT_FULL =? 0 then kbd_state kb
                  else (key_effect (kbd_state kb) scancode).1.
Proof.
  intros Hk Hsc. cbv zeta. unfold keyboard_interrupt_handler, taken.
  destruct (Z.land status _ =? 0); [by rewrite app_nil_r|].
  destruct (process_scancode_ok kb scancode Hk Hsc) as (Hk' & -> & ->). split; [done|]. split; [|done].
  destruct (key_effect _ _).2; cbn; [|by case_match; rewrite app_nil_r].
  unfold queue_put. rewrite length_kbd_queue by apply Hk. case_match; [done|by rewrite app_nil_r].
Qed.

(** ** The reader *)

Definition kbd_of (t : reader) : keyboard := k_kbd (r_kernel t).

(** Between the load of [buffer_count] and its store. *)
Definition racy (pc : read_pc) : bool :=
  match pc with Got_count _ | Got_char _ _ | Moved_head _ _ => true | _ => false end.

(** Inside the loop, with room for a character. *)
Definition busy (pc : read_pc) : bool :=
  match pc with At_test | At_end => false | _ => true end.

Definition printable (c : Z) : Prop := 32 <= c <= 126.

Definition line_ok (max : Z) (t : reader) : Prop :=
  Str.strlen (r_buf t) <= max - 1 ∧ Forall printable (r_buf t) ∧
  (busy (r_pc t) = true → Str.strlen (r_buf t) < max - 1).

(** The ring buffer at each point of the loop, when no interrupt hits the update. *)
Definition ring_ok (t : reader) : Prop :=
  let kb := kbd_of t in
  match r_pc t with
  | At_get => kbd_inv kb ∧ 0 < buffer_count kb
  | Got_count count => kbd_inv kb ∧ count = buffer_count kb ∧ 0 < count
  | Got_char count ch => kbd_inv kb ∧ count = buffer_count kb ∧ 0 < count ∧ ch = load_char kb
  | Moved_head count ch => kbd_inv (store_count count kb)
  | _ => kbd_inv kb
  end.
Definition reader_ok (max : Z) (t : reader) : Prop := line_ok max t ∧ ring_ok t.

(** The characters taken out of the hands of the keyboard and not yet edited. *)
Definition waiting (t : reader) : list Z :=
  match r_pc t with
  | Moved_head count ch => ch :: kbd_queue (store_count count (kbd_of t))
  | Has_char ch => ch :: kbd_queue (kbd_of t)
  | _ => kbd_queue (kbd_of t)
  end.

(** What the editor makes of them and of the characters to come. *)
Definition outcome (max : Z) (t : reader) (chars : list Z) : option (list Z * list Z * list Z) :=
  match r_pc t with
  | At_end => Some (r_buf t, [], waiting t ++ chars)
  | _ => edit max (r_buf t) (waiting t ++ chars)
  end.

Lemma outcome_edit max t chars :
  r_pc t ≠ At_end → outcome max t chars = edit max (r_buf t) (waiting t ++ chars).
Proof. unfold outcome. by destruct (r_pc t). Qed.

(** The kernel after a line was typed on it: another keyboard, and on the screen the echo;
    the log of port writes has the ends of interrupts among the cursor updates. *)
Definition echoed (k : kernel) (echo : list Z) (k' : kernel) : Prop :=
  ∃ con, k' = k <| k_kbd := k_kbd k' |> <| k_con := con |> ∧ con ≡ vga_putstr (k_con k) echo.

Lemma echoed_refl k kb con : con ≡ k_con k → echoed k [] (k <| k_kbd := kb |> <| k_con := con |>).
Proof. intros H. by exists con. Qed.

Lemma echoed_kbd k kb : echoed k [] (k <| k_kbd := kb |>).
Proof. by exists (k_con k). Qed.

Lemma echoed_trans k1 k2 k3 e1 e2 : echoed k1 e1 k2 → echoed k2 e2 k3 → echoed k1 (e1 ++ e2) k3.
Proof.
  intros (c2 & -> & H2) (c3 & -> & H3). exists c3. split; [done|].
  rewrite vga_putstr_app. cbn in H3. by rewrite H3, H2.
Qed.

Lemma get_char_step kb :
  kbd_inv kb → 0 < buffer_count kb →
  let kb' := store_count (buffer_count kb) (advance_head kb) in
  kbd_inv kb' ∧ kbd_state kb' = kbd_state kb ∧ kbd_queue kb = load_char kb :: kbd_queue kb'.
Proof.
  intros Hk Hc. pose proof (get_char_ok kb Hk) as H. rewrite get_char_accesses in H.
  rewrite (proj2 (Z.eqb_neq _ _)) in H by lia. destruct H as (H1 & H2 & H3). cbv zeta.
  split; [exact H1|]. split; [exact H2|].
  destruct (kbd_queue kb) as [|c q] eqn:Eq; [|by destruct H3 as [-> ->]].
  pose proof (length_kbd_queue kb ltac:(lia)) as Hl. rewrite Eq in Hl. simpl in Hl. lia.
Qed.

(** *** A step of the processor *)

Lemma take_char_line max k buf ch :
  Str.strlen buf < max - 1 → Forall printable buf → line_ok max (take_char ch (MkReader k buf (Has_char ch))).
Proof.
  intros Hb Hp. unfold take_char, line_ok.
  destruct (_ || _); [cbn [r_buf r_pc]; repeat split; [lia|done|done]|]. destruct (_ || _).
  { destruct (Z.ltb_spec 0 (Str.strlen buf)); cbn [r_buf r_pc]; [|repeat split; [lia|done|done]].
    destruct buf as [|b buf _] using rev_ind; [done|]. rewrite removelast_last.
    unfold Str.strlen in *. rewrite length_app in Hb. simpl in Hb. apply Forall_app in Hp as [Hp _].
    repeat split; [lia|done|done]. }
  destruct ((32 <=? ch) && (ch <=? 126)) eqn:E; cbn [r_buf r_pc]; [|repeat split; [lia|done|done]].
  unfold Str.strlen in *. rewrite length_app. simpl.
  repeat split; [lia|apply Forall_app; split; [done|repeat constructor; zreflect; lia]|done].
Qed.

Lemma take_char_ok max k buf ch :
  Str.strlen buf < max - 1 → Forall printable buf → kbd_inv (k_kbd k) →
  let t := MkReader k buf (Has_char ch) in
  let t' := take_char ch t in
  reader_ok max t' ∧ k_kbd (r_kernel t') = k_kbd k ∧
  ∃ echo, echoed k echo (r_kernel t') ∧
    ∀ chars, outcome max t chars = echoing echo (outcome max t' chars).
Proof.
  intros Hb Hp Hk. pose proof (take_char_line max k buf ch Hb Hp) as Hline. cbv zeta. revert Hline.
  unfold take_char, outcome, waiting. cbn [r_pc r_buf app]. cbn [edit].
  rewrite (proj2 (Z.ltb_lt (Str.strlen buf) (max - 1))) by done.
  assert (∀ c, echoed k [c] (on_con (λ con, vga_putchar con c) k)) as Hecho.
  { intros c. by exists (vga_putchar (k_con k) c). }
  assert (echoed k [] k) as Hsilent by (by exists (k_con k); destruct k).
  destruct (_ || _); [|destruct (_ || _); [destruct (0 <? _)|destruct (_ && _)]]; intros Hline;
    (split; [by split|]); (split; [done|]); cbn [r_pc r_buf r_kernel].
  - by exists [10].
  - by exists [8].
  - exists []. split; [done|]. intros chars. by rewrite echoing_nil.
  - by exists [ch].
  - exists []. split; [done|]. intros chars. by rewrite echoing_nil.
Qed.

Lemma step_ok max t :
  reader_ok max t →
  let t' := input_step max t in
  reader_ok max t' ∧ kbd_state (kbd_of t') = kbd_state (kbd_of t) ∧
  ∃ echo, echoed (r_kernel t) echo (r_kernel t') ∧
    ∀ chars, outcome max t chars = echoing echo (outcome max t' chars).
Proof.
  destruct t as [k buf pc]. intros [(Hb & Hp & Hroom) Hr]. cbv zeta.
  assert (∃ echo, echoed k echo k ∧ ∀ r, r = echoing echo r) as (e0 & He0 & Hnil).
  { exists []. split; [by exists (k_con k); destruct k|]. intros r. by rewrite echoing_nil. }
  assert (∀ kb, echoed k [] (k <| k_kbd := kb |>)) as Hkb by apply echoed_kbd.
  unfold input_step, set_kbd, reader_ok, line_ok, ring_ok, outcome, waiting, kbd_of in *.
  cbn [r_pc r_buf r_kernel busy racy set_field eta_reader eta_kernel k_kbd] in *.
  destruct pc as [| |n|n ch|n ch|ch| | |]; cbn [r_pc r_buf r_kernel busy racy] in *.
  - destruct (Z.ltb_spec (Str.strlen buf) (max - 1)) as [Hlt|Hge].
    + unfold keyboard_has_input. destruct (Z.ltb_spec 0 (buffer_count (k_kbd k))); cbn [r_pc];
        (split; [|split; [done|by exists e0]]; split; [by split|done]).
    + cbn [r_pc]. split; [done|]. split; [done|]. exists e0. split; [done|].
      intros chars. rewrite edit_full by done. apply Hnil.
  - destruct Hr as [Hk Hc]. rewrite (proj2 (Z.eqb_neq _ _)) by lia. cbn [r_pc].
    split; [split; [by split|done]|]. split; [done|by exists e0].
  - destruct Hr as (Hk & -> & Hc). split; [split; [by split|done]|]. split; [done|by exists e0].
  - destruct Hr as (Hk & -> & Hc & ->). destruct (get_char_step _ Hk Hc) as (Hk' & Hs & Hq).
    split; [split; [by split|exact Hk']|]. split; [done|]. exists []. split; [apply Hkb|].
    intros chars. by rewrite echoing_nil, Hq.
  - split; [split; [by split|exact Hr]|]. split; [done|]. exists []. split; [apply Hkb|].
    intros chars. by rewrite echoing_nil.
  - destruct (take_char_ok max k buf ch (Hroom eq_refl) Hp Hr) as (H1 & H2 & H3).
    split; [exact H1|]. split; [by rewrite H2|exact H3].
  - split; [split; [by split|done]|]. split; [done|by exists e0].
  - split; [split; [by split|done]|]. split; [done|by exists e0].
  - split; [split; [by split|done]|]. split; [done|by exists e0].
Qed.

(** *** An interrupt *)

Lemma handler_count kb status scancode :
  kbd_inv kb → is_u8 scancode → 0 < buffer_count kb →
  0 < buffer_count (keyboard_interrupt_handler kb status scancode).
Proof.
  intros Hk Hsc Hc. destruct (handler_ok kb status scancode Hk Hsc) as (Hk' & Hq & _).
  rewrite <- length_kbd_queue in * by apply Hk || apply Hk'. rewrite Hq, length_app. lia.
Qed.

Lemma irq_ok max t status scancode :
  reader_ok max t → racy (r_pc t) = false → is_u8 scancode →
  let t' := input_irq status scancode t in
  reader_ok max t' ∧ kbd_of t' = keyboard_interrupt_handler (kbd_of t) status scancode ∧
  echoed (r_kernel t) [] (r_kernel t') ∧ waiting t' = waiting t ++ taken (kbd_of t) status scancode ∧
  ∀ chars, outcome max t (taken (kbd_of t) status scancode ++ chars) = outcome max t' chars.
Proof.
  destruct t as [k buf pc]. intros [(Hb & Hp & Hroom) Hr] Hrace Hsc. cbv zeta.
  assert (kbd_inv (k_kbd k)) as Hk by (destruct pc; try done; apply Hr).
  pose proof (handler_ok (k_kbd k) status scancode Hk Hsc) as (Hk' & Hq & _).
  assert (echoed k [] (irq k status scancode)) as He by by apply echoed_refl.
  unfold input_irq, reader_ok, line_ok, ring_ok, outcome, waiting, kbd_of in *.
  cbn [r_pc r_buf r_kernel set_field eta_reader] in *.
  change (k_kbd (irq k status scancode)) with (keyboard_interrupt_handler (k_kbd k) status scancode).
  destruct pc as [| |n|n ch|n ch|ch| | |]; try done; cbn [busy racy app] in *; rewrite Hq;
    (split; [|split; [done|split; [done|split; [done|intros chars; by rewrite <- ?app_assoc]]]]);
    (split; [by split|]); try done.
  split; [done|]. apply handler_count; [done|done|apply Hr].
Qed.

(** *** Schedules *)

Definition next (max : Z) (t : reader) (e : event) : reader := input_event max e t.

(** Every interrupt taken before the end of the line comes where [P] allows it. *)
Fixpoint arrives (P : read_pc → Prop) (max : Z) (t : reader) (sched : list event) : Prop :=
  match r_pc t, sched with
  | At_end, _ | _, [] => True
  | pc, e :: sched =>
      match e with Cpu => True | Irq _ _ => P pc end ∧ arrives P max (next max t e) sched
  end.

(** None hits the update of [buffer_count]. *)
Definition race_free (pc : read_pc) : Prop := racy pc = false.
(** And none comes between the test of [keyboard_has_input] and [hlt]. *)
Definition wakeful (pc : read_pc) : Prop := racy pc = false ∧ pc ≠ At_hlt.

(** The characters that the ring buffer takes before the end of the line. *)
Fixpoint accepted (max : Z) (t : reader) (sched : list event) : list Z :=
  match r_pc t, sched with
  | At_end, _ | _, [] => []
  | _, e :: sched =>
      match e with Cpu => [] | Irq status scancode => taken (kbd_of t) status scancode end ++
      accepted max (next max t e) sched
  end.

(** Unfold one event of a schedule. *)
Lemma arrives_cons P max t e sched :
  r_pc t ≠ At_end →
  arrives P max t (e :: sched) =
    (match e with Cpu => True | Irq _ _ => P (r_pc t) end ∧ arrives P max (next max t e) sched).
Proof. intros H. cbn [arrives]. by destruct (r_pc t). Qed.

Lemma accepted_cons max t e sched :
  r_pc t ≠ At_end →
  accepted max t (e :: sched) =
    match e with Cpu => [] | Irq status scancode => taken (kbd_of t) status scancode end ++
    accepted max (next max t e) sched.
Proof. intros H. cbn [accepted]. by destruct (r_pc t). Qed.

Lemma input_loop_cons max t e sched :
  r_pc t ≠ At_end → input_loop max t (e :: sched) = input_loop max (next max t e) sched.
Proof. intros H. cbn [input_loop]. by destruct (r_pc t). Qed.

Lemma input_loop_end max t sched :
  r_pc t = At_end → input_loop max t sched = Some (r_kernel t, r_buf t, sched) ∧ accepted max t sched = [].
Proof. intros H. destruct sched; cbn [input_loop accepted]; by rewrite H. Qed.

Lemma input_loop_nil max t : r_pc t ≠ At_end → input_loop max t [] = None.
Proof. intros H. cbn [input_loop]. by destruct (r_pc t). Qed.

(** One event, of either kind. *)
Lemma next_ok max t e :
  reader_ok max t → event_ok e → match e with Cpu => True | Irq _ _ => race_free (r_pc t) end →
  let t' := next max t e in
  let chars := match e with Cpu => [] | Irq status scancode => taken (kbd_of t) status scancode end in
  reader_ok max t' ∧
  ∃ echo, echoed (r_kernel t) echo (r_kernel t') ∧
    ∀ more, outcome max t (chars ++ more) = echoing echo (outcome max t' more).
Proof.
  intros Ht He Hp. destruct e as [|status scancode]; cbv zeta; cbn [next input_event].
  - destruct (step_ok max t Ht) as (Ht' & _ & H). split; [exact Ht'|exact H].
  - destruct (irq_ok max t status scancode Ht Hp He) as (Ht' & _ & Hecho & _ & Ho). split; [exact Ht'|].
    exists []. split; [exact Hecho|]. intros more. by rewrite echoing_nil, Ho.
Qed.

(** The result of any schedule is the editor's. *)
Lemma input_loop_edit max t sched :
  reader_ok max t → Forall event_ok sched → arrives race_free max t sched →
  match input_loop max t sched with
  | Some (k', line, _) =>
      kbd_inv (k_kbd k') ∧ Str.strlen line <= max - 1 ∧ Forall printable line ∧
      ∃ echo, echoed (r_kernel t) echo k' ∧
        outcome max t (accepted max t sched) = Some (line, echo, kbd_queue (k_kbd k'))
  | None =>
      let t' := foldl (next max) t sched in
      reader_ok max t' ∧ ∃ echo, ∀ more,
        outcome max t (accepted max t sched ++ more) = echoing echo (outcome max t' more)
  end.
Proof.
  intros Ht He. revert t Ht. induction He as [|e sched He Hsched IH]; intros t Ht Ha.
  all: destruct (decide (r_pc t = At_end)) as [E|E].
  1,3: destruct (input_loop_end max t [] E) as [-> ->] || destruct (input_loop_end max t (e :: sched) E) as [-> ->]; destruct Ht as [(Hb & Hp & _) Hr];
    unfold ring_ok, outcome, waiting in *; rewrite E in *; do 3 (split; [done|]); exists [];
    rewrite app_nil_r; (split; [by exists (k_con (r_kernel t)); destruct (r_kernel t)|done]).
  - rewrite (input_loop_nil max t E). split; [exact Ht|]. exists []. intros more.
    rewrite echoing_nil. cbn [accepted foldl]. by destruct (r_pc t).
  - rewrite arrives_cons in Ha by done. destruct Ha as [Hp Ha].
    destruct (next_ok max t e Ht He Hp) as (Ht' & echo & Hecho & Ho).
    rewrite (input_loop_cons max t e sched E), (accepted_cons max t e sched E). specialize (IH _ Ht' Ha).
    destruct (input_loop _ _ _) as [[[k' line] rest]|].
    + destruct IH as (H1 & H2 & H3 & echo' & Hecho' & Ho'). do 3 (split; [done|]). exists (echo ++ echo').
      split; [by eapply echoed_trans|]. by rewrite Ho, Ho'.
    + destruct IH as (H1 & echo' & Ho'). split; [exact H1|]. exists (echo ++ echo'). intros more.
      by rewrite <- app_assoc, Ho, Ho', echoing_app.
Qed.

(** While the ring buffer cannot overflow, the characters accepted are those typed. *)
Lemma taken_all kb status scancode sched :
  kbd_inv kb → Str.strlen (kbd_queue kb ++ irq_chars (kbd_state kb) (Irq status scancode :: sched)) <= 256 →
  is_u8 scancode →
  irq_chars (kbd_state kb) (Irq status scancode :: sched) =
    taken kb status scancode ++
    irq_chars (kbd_state (keyboard_interrupt_handler kb status scancode)) sched.
Proof.
  intros Hk Hl Hsc. destruct (handler_ok kb status scancode Hk Hsc) as (_ & _ & ->).
  unfold taken. cbn [irq_chars] in *. destruct (Z.land status _ =? 0); [done|].
  destruct (key_effect (kbd_state kb) scancode) as [st' c]. cbn [fst snd].
  destruct (Z.ltb_spec (buffer_count kb) INPUT_BUFFER_SIZE) as [|Hfull]; [done|].
  destruct c as [c|]; [|done]. unfold Str.strlen in Hl. rewrite length_app, Nat2Z.inj_add in Hl.
  rewrite length_kbd_queue in Hl by apply Hk. cbn in Hl. unfold INPUT_BUFFER_SIZE in *. lia.
Qed.

(** A step uses up one character at most. *)
Lemma step_waiting max t :
  reader_ok max t →
  if match r_pc t with Has_char _ => true | _ => false end
  then ∃ ch, waiting t = ch :: waiting (input_step max t)
  else waiting (input_step max t) = waiting t.
Proof.
  destruct t as [k buf pc]. intros [(_ & Hp & Hroom) Hr]. unfold input_step, set_kbd, ring_ok, waiting, kbd_of in *.
  cbn [r_pc r_buf r_kernel set_field eta_reader eta_kernel k_kbd] in *.
  destruct pc as [| |n|n ch|n ch|ch| | |]; cbn [r_pc r_kernel] in *; try done.
  - by destruct (_ <? _); [destruct (keyboard_has_input _)|].
  - by rewrite (proj2 (Z.eqb_neq _ _)) by lia.
  - destruct Hr as (Hk & -> & Hc & ->). by destruct (get_char_step _ Hk Hc) as (_ & _ & ->).
  - exists ch. destruct (take_char_ok max k buf ch (Hroom eq_refl) Hp Hr) as (_ & Hkbd & _).
    unfold take_char in *. destruct (_ || _); [done|]. destruct (_ || _); [by destruct (0 <? _)|].
    by destruct (_ && _).
Qed.

Lemma accepted_all max t sched :
  reader_ok max t → Forall event_ok sched → arrives race_free max t sched →
  Str.strlen (waiting t ++ irq_chars (kbd_state (kbd_of t)) sched) <= 256 →
  match input_loop max t sched with
  | Some (k', _, rest) =>
      irq_chars (kbd_state (kbd_of t)) sched = accepted max t sched ++ irq_chars (kbd_state (k_kbd k')) rest
  | None => irq_chars (kbd_state (kbd_of t)) sched = accepted max t sched
  end.
Proof.
  intros Ht He. revert t Ht. induction He as [|e sched He Hsched IH]; intros t Ht Ha Hl.
  all: destruct (decide (r_pc t = At_end)) as [E|E].
  1,3: by (destruct (input_loop_end max t [] E) as [-> ->] || destruct (input_loop_end max t (e :: sched) E) as [-> ->]).
  - rewrite (input_loop_nil max t E). cbn [accepted]. by destruct (r_pc t).
  - rewrite arrives_cons in Ha by done. destruct Ha as [Hp Ha].
    rewrite (input_loop_cons max t e sched E), (accepted_cons max t e sched E).
    destruct e as [|status scancode]; cbn [next input_event] in *.
    + destruct (step_ok max t Ht) as (Ht' & Hs & _). rewrite <- Hs in Hl |- *. apply (IH _ Ht' Ha).
      pose proof (step_waiting max t Ht) as Hw. unfold Str.strlen in *. rewrite length_app in *.
      destruct (match r_pc t with Has_char _ => true | _ => false end); [|by rewrite Hw].
      destruct Hw as [ch Hw]. rewrite Hw in Hl. cbn [length] in Hl. cbn [irq_chars] in Hl. lia.
    + destruct (irq_ok max t status scancode Ht Hp He) as (Ht' & Hk' & _ & Hw & _).
      assert (kbd_inv (kbd_of t) ∧ Str.strlen (kbd_queue (kbd_of t)) <= Str.strlen (waiting t)) as [Hk Hq].
      { destruct Ht as [_ Hr]. unfold ring_ok, waiting, race_free, Str.strlen in *.
        destruct (r_pc t); try done; cbn [length]; (split; [done || apply Hr|lia]). }
      unfold Str.strlen in *. rewrite length_app in Hl.
      assert (irq_chars (kbd_state (kbd_of t)) (Irq status scancode :: sched) =
        taken (kbd_of t) status scancode ++ irq_chars (kbd_state (kbd_of (input_irq status scancode t))) sched) as Hc.
      { rewrite Hk'. apply taken_all; [done| |done]. unfold Str.strlen. rewrite length_app. lia. }
      rewrite Hc in *. specialize (IH _ Ht' Ha). rewrite Hw, !length_app in IH. rewrite length_app in Hl.
      destruct (input_loop _ _ _) as [[[k' line] rest]|]; rewrite IH by lia; by rewrite ?app_assoc.
Qed.

(** *** The processor alone *)

(** Falls with every step until the reader is done or sleeps. *)
Definition weight (max : Z) (t : reader) : Z :=
  20 * Str.strlen (waiting t) +
  match r_pc t with
  | At_test => if Str.strlen (r_buf t) <? max - 1 then 7 else 9
  | At_end => 8 | At_get => 6 | Got_count _ => 5 | Got_char _ _ => 4 | Moved_head _ _ => 3
  | Has_char _ => 2 | At_hlt => 1 | Asleep => 0
  end.

Lemma weight_nonneg max t : 0 <= weight max t.
Proof.
  unfold weight, Str.strlen.
  destruct (r_pc t); try lia. destruct (_ <? _); lia.
Qed.

Lemma step_weight max t :
  reader_ok max t → r_pc t ≠ Asleep → r_pc t ≠ At_end → weight max (input_step max t) < weight max t.
Proof.
  intros Ht H1 H2. pose proof (step_waiting max t Ht) as Hw. destruct t as [k buf pc].
  destruct Ht as [(Hb & _ & Hroom) Hr]. unfold weight, ring_ok, kbd_of in *.
  cbn [r_pc r_kernel r_buf] in *. destruct pc as [| |n|n ch|n ch|ch| | |]; try done; cbn [busy racy] in *.
  6: { destruct Hw as [ch' ->]. unfold Str.strlen. cbn [length input_step r_pc].
    unfold take_char. repeat (case_match; cbn [r_pc r_buf]); try lia.
  }
  all: rewrite Hw; unfold input_step; cbn [r_pc r_buf r_kernel set_field eta_reader]; try lia.
  - destruct (_ <? _); [destruct (keyboard_has_input _)|]; cbn [r_pc]; lia.
  - destruct (_ =? 0); cbn [r_pc]; lia.
Qed.

(** Asleep, or about to be, with nothing waiting. *)
Definition alert (t : reader) : Prop :=
  r_pc t = At_hlt ∨ r_pc t = Asleep → kbd_queue (kbd_of t) = [].

Lemma next_alert max t e :
  reader_ok max t → alert t → match e with Cpu => True | Irq _ _ => r_pc t ≠ At_hlt end →
  alert (next max t e).
Proof.
  intros [_ Hr] Ha He. destruct t as [k buf pc]. destruct e as [|status scancode];
    unfold alert, ring_ok, next, input_event, input_step, input_irq, set_kbd, kbd_of in *;
    cbn [r_pc r_kernel set_field eta_reader] in *.
  - destruct pc as [| |n|n ch|n ch|ch| | |]; cbn [r_pc]; try (intros [H|H]; discriminate H); auto.
    + destruct (_ <? _); [|intros [H|H]; discriminate H]. rewrite has_input_queue by done.
      case_bool_decide as Hq; [done|intros [H|H]; discriminate H].
    + destruct (_ =? 0); intros [H|H]; discriminate H.
    + unfold take_char. repeat case_match; cbn [r_pc]; intros [?|?]; discriminate.
  - destruct pc as [| |n|n ch|n ch|ch| | |]; cbn [r_pc]; intros [H|H]; done.
Qed.

(** Left alone the reader ends the line or goes to sleep, and it sleeps because no
    character is waiting, unless it had decided to before that came. *)
Lemma cpu_alone max t :
  reader_ok max t →
  ∃ n, (∃ r, input_loop max t (replicate n Cpu) = Some r) ∨
       input_loop max t (replicate n Cpu) = None ∧ r_pc (foldl (next max) t (replicate n Cpu)) = Asleep ∧
       (alert t → edit max (r_buf t) (waiting t) = None).
Proof.
  intros Ht. remember (weight max t) as w eqn:Ew. revert t Ht Ew.
  induction (Z.lt_wf 0 w) as [w _ IH]. intros t Ht ->.
  destruct (decide (r_pc t = At_end)) as [E|E].
  { exists O. left. eexists. by apply input_loop_end. }
  destruct (decide (r_pc t = Asleep)) as [Es|Es].
  { exists O. right. rewrite input_loop_nil by done. split; [done|]. split; [done|]. intros Ha.
    destruct Ht as [(_ & _ & Hroom) _]. rewrite Es in Hroom. specialize (Hroom eq_refl).
    unfold waiting. rewrite Es. rewrite Ha by auto. cbn [edit]. by rewrite (proj2 (Z.ltb_lt _ _)). }
  destruct (step_ok max t Ht) as (Ht' & _ & echo & _ & Ho). pose proof (step_weight max t Ht Es E) as Hw.
  pose proof (weight_nonneg max (input_step max t)).
  destruct (IH (weight max (input_step max t)) ltac:(lia) _ Ht' eq_refl) as [n Hn]. exists (S n).
  cbn [replicate foldl]. rewrite input_loop_cons by done. destruct Hn as [Hn|(H1 & H2 & H3)]; [by left|].
  right. split; [done|]. split; [done|]. intros Ha.
  pose proof (next_alert max t Cpu Ht Ha I) as Ha'. specialize (H3 Ha').
  assert (r_pc (input_step max t) ≠ At_end) as E'.
  { intros E'. destruct (input_loop_end max _ (replicate n Cpu) E') as [E1 _].
    change (next max t Cpu) with (input_step max t) in H1. congruence. }
  specialize (Ho []). rewrite !outcome_edit, !app_nil_r in Ho by done. rewrite Ho. by rewrite H3.
Qed.

Lemma input_loop_app max t s1 s2 :
  input_loop max t s1 = None → input_loop max t (s1 ++ s2) = input_loop max (foldl (next max) t s1) s2.
Proof.
  revert t. induction s1 as [|e s1 IH]; intros t; [done|]. cbn [app foldl].
  destruct (decide (r_pc t = At_end)) as [E|E].
  { by destruct (input_loop_end max t (e :: s1) E) as [-> _]. }
  rewrite !input_loop_cons by done. apply IH.
Qed.

Lemma foldl_alert max t sched :
  reader_ok max t → Forall event_ok sched → arrives wakeful max t sched → alert t →
  input_loop max t sched = None → alert (foldl (next max) t sched).
Proof.
  intros Ht He. revert t Ht. induction He as [|e sched He Hsched IH]; intros t Ht Ha Hal Hn; [done|].
  destruct (decide (r_pc t = At_end)) as [E|E].
  { by destruct (input_loop_end max t (e :: sched) E) as [? _]; congruence. }
  rewrite arrives_cons in Ha by done. rewrite input_loop_cons in Hn by done. destruct Ha as [Hp Ha].
  assert (match e with Cpu => True | Irq _ _ => race_free (r_pc t) end) as Hp' by (destruct e; [done|apply Hp]).
  destruct (next_ok max t e Ht He Hp') as (Ht' & _). apply (IH _ Ht' Ha); [|done].
  apply next_alert; [done..|]. destruct e; [done|apply Hp].
Qed.

(** ** Properties *)

(** A reader that starts a line on [k]. *)
Definition reading (k : kernel) : reader := MkReader k [] At_test.

Lemma reading_ok k : kbd_inv (k_kbd k) → reader_ok MAX_COMMAND_LENGTH (reading k).
Proof. intros Hk. split; [|exact Hk]. by split. Qed.

Lemma arrives_mono (P Q : read_pc → Prop) max t sched :
  (∀ pc, P pc → Q pc) → arrives P max t sched → arrives Q max t sched.
Proof.
  intros HPQ. revert t. induction sched as [|e sched IH]; intros t; cbn [arrives]; [by destruct (r_pc t)|].
  destruct (r_pc t); try done; (intros [He Ha]; split; [destruct e; auto|by apply IH]).
Qed.

(** Given enough steps of the processor a finished line is returned. *)
Lemma input_returns max t sched :
  reader_ok max t → alert t → Forall event_ok sched → arrives wakeful max t sched →
  outcome max t (accepted max t sched) ≠ None →
  ∃ n r, input_loop max t (sched ++ replicate n Cpu) = Some r.
Proof.
  intros Ht Hal He Ha Ho.
  assert (arrives race_free max t sched) as Ha' by (eapply arrives_mono; [|exact Ha]; by intros pc [H _]).
  pose proof (input_loop_edit max t sched Ht He Ha') as Hrun.
  destruct (input_loop max t sched) as [r|] eqn:El.
  { exists O, r. by rewrite app_nil_r. }
  destruct Hrun as (Ht' & echo & Hmore). pose proof (foldl_alert max t sched Ht He Ha Hal El) as Hal'.
  destruct (cpu_alone max _ Ht') as (n & [[r Hr]|(Hn & Hs & Hedit)]).
  { exists n, r. by rewrite (input_loop_app max t sched _ El). }
  exfalso. apply Ho. rewrite <- (app_nil_r (accepted _ _ _)), Hmore.
  destruct (decide (r_pc (foldl (next max) t sched) = At_end)) as [E|E].
  { by destruct (input_loop_end max _ (replicate n Cpu) E) as [E' _]; congruence. }
  by rewrite outcome_edit, app_nil_r, (Hedit Hal').
Qed.

(** C10: reading a line does not depend on timing, but for two windows: let keyboard interrupts
    come between any two accesses of [shell_read_input] and [keyboard_get_char] to
    the variables they share with the handler, except between the load and the store of
    [buffer_count] in [keyboard_get_char].  Whenever the line is returned, it is the one
    that the editor [edit] makes of the characters the ring buffer accepted, at most 63
    printable characters; the screen shows what the editor echoes, the ring buffer holds
    what the editor left, and nothing else in the kernel changes.  While at most 256 characters are
    waiting or to come, the ring buffer accepts all those typed, so that line, echo and rest
    are a function of the keys alone.  And if no interrupt comes between
    [keyboard_has_input] and [hlt] either, a line whose characters are all typed is
    returned after finitely many steps. *)
Theorem read_line_any_interleaving k sched :
  kbd_inv (k_kbd k) → Forall event_ok sched → arrives race_free MAX_COMMAND_LENGTH (reading k) sched →
  let typed := kbd_queue (k_kbd k) ++ accepted MAX_COMMAND_LENGTH (reading k) sched in
  (∀ k' line rest, shell_read_input k MAX_COMMAND_LENGTH sched = Some (k', line, rest) →
     Str.strlen line <= 63 ∧ Forall printable line ∧ kbd_inv (k_kbd k') ∧
     ∃ echo, echoed k echo k' ∧
       edit MAX_COMMAND_LENGTH [] typed = Some (line, echo, kbd_queue (k_kbd k')) ∧
       (Str.strlen (input (k_kbd k) sched) <= 256 →
        edit MAX_COMMAND_LENGTH [] (input (k_kbd k) sched) = Some (line, echo, input (k_kbd k') rest))) ∧
  (edit MAX_COMMAND_LENGTH [] typed ≠ None → arrives wakeful MAX_COMMAND_LENGTH (reading k) sched →
   ∃ n r, shell_read_input k MAX_COMMAND_LENGTH (sched ++ replicate n Cpu) = Some r).
Proof.
  intros Hk He Ha typed. pose proof (reading_ok k Hk) as Ht. split.
  - intros k' line rest Hr. pose proof (input_loop_edit _ _ _ Ht He Ha) as H.
    pose proof (accepted_all _ _ _ Ht He Ha) as Hall. change (input_loop _ _ _) with (shell_read_input k MAX_COMMAND_LENGTH sched) in *.
    rewrite Hr in H, Hall. destruct H as (Hk' & Hl & Hp & echo & Hecho & Ho).
    split; [exact Hl|]. split; [exact Hp|]. split; [exact Hk'|]. exists echo. split; [exact Hecho|]. split; [exact Ho|].
    intros Hlen. specialize (Hall Hlen). unfold input. change (kbd_of (reading k)) with (k_kbd k) in Hall.
    rewrite Hall, !app_assoc.
    apply edit_app. exact Ho.
  - intros Ho Hw. apply input_returns; [exact Ht| |exact He|exact Hw|exact Ho]. by intros [[=]|[=]].
Qed.

(** "sx", backspace, "h", enter, "k", with releases and a spurious interrupt, at various
    moments of the loop. *)
Definition demo_sched : list event :=
  [Irq 1 0x1F; Cpu; Irq 1 0x9F] ++ replicate 5 Cpu ++ [Irq 1 0x2D; Irq 1 0xAD; Irq 0 0x26] ++
  replicate 9 Cpu ++ [Irq 1 0x0E; Cpu; Irq 1 0x8E; Irq 1 0x23; Irq 1 0x1C; Irq 1 0x25] ++ replicate 40 Cpu.

Lemma demo_arrives : arrives race_free MAX_COMMAND_LENGTH (reading (kernel_image ∅)) demo_sched.
Proof. vm_compute. repeat split. Qed.

Lemma read_line_any_interleaving_witness :
  ∃ k' rest, shell_read_input (kernel_image ∅) MAX_COMMAND_LENGTH demo_sched = Some (k', lit "sh", rest).
Proof.
  pose proof (proj1 (keyboard_init_ok (k_kbd (kernel_image ∅)))) as Hk.
  assert (Forall event_ok demo_sched) as He by (repeat constructor; done).
  pose proof (read_line_any_interleaving (kernel_image ∅) demo_sched Hk He demo_arrives) as [H _].
  assert (edit MAX_COMMAND_LENGTH [] (kbd_queue (k_kbd (kernel_image ∅)) ++
    accepted MAX_COMMAND_LENGTH (reading (kernel_image ∅)) demo_sched) =
    Some (lit "sh", lit "sx" ++ [8] ++ lit "h" ++ [10], lit "k")) as E by (vm_compute; reflexivity).
  destruct (shell_read_input (kernel_image ∅) MAX_COMMAND_LENGTH demo_sched) as [[[k' line] rest]|] eqn:Er.
  - destruct (H k' line rest eq_refl) as (_ & _ & _ & echo & _ & Ee & _). rewrite E in Ee. injection Ee as <- _ _.
    by exists k', rest.
  - exfalso. revert Er. vm_compute. discriminate.
Defined.

(** *** The two windows *)

Lemma handler_put kb status scancode c :
  is_u8 scancode → Z.land status KEYBOARD_STATUS_OUTPUT_FULL ≠ 0 →
  (key_effect (kbd_state kb) scancode).2 = Some c →
  keyboard_interrupt_handler kb status scancode = buffer_put kb c.
Proof.
  intros Hsc Hst. unfold keyboard_interrupt_handler, process_scancode, key_effect.
  rewrite (proj2 (Z.eqb_neq (Z.land status _) 0) Hst), key_code_mod, key_released_ltb by done. cbv zeta. rewrite negb_involutive.
  destruct (_ || _); [done|]. destruct (_ =? KEY_LCTRL); [done|]. destruct (_ =? KEY_LALT); [done|].
  destruct (_ =? KEY_CAPS_LOCK); [done|]. cbn [snd]. destruct (scancode <? 128); cbn [negb]; [|done].
  destruct (_ =? KEY_ENTER); [by intros [= <-]|]. destruct (_ =? KEY_BACKSPACE); [by intros [= <-]|].
  cbv zeta. destruct (_ =? 0); [done|]. by intros [= <-].
Qed.

(** The ring buffer when the count that was loaded is stored over that of a key. *)
Lemma lost_put kb c :
  kbd_inv kb → 0 < buffer_count kb < 256 →
  let kb' := store_count (buffer_count kb) (advance_head (buffer_put kb c)) in
  load_char (buffer_put kb c) = load_char kb ∧ kbd_queue kb' = tail (kbd_queue kb) ∧ ¬ kbd_inv kb'.
Proof.
  intros Hk Hc. cbv zeta. pose proof Hk as [Hlen Hhead _ Htail].
  assert (0 <= buffer_tail kb < 256) as Ht by (rewrite Htail; word_lia).
  assert (∀ i, 0 <= i < buffer_count kb →
    nth (Z.to_nat ((buffer_head kb + i) mod 256)) (input_buffer (buffer_put kb c)) 0 = ring_at kb i) as Hold.
  { intros i Hi. unfold buffer_put, INPUT_BUFFER_SIZE. rewrite (proj2 (Z.ltb_lt _ _)) by lia. cbn.
    rewrite nth_insert by lia. rewrite decide_False; [done|]. rewrite Htail. word_lia. }
  assert (buffer_head (buffer_put kb c) = buffer_head kb) as Hh.
  { unfold buffer_put. by destruct (_ <? _). }
  split; [|split].
  - unfold load_char. rewrite Hh. specialize (Hold 0 ltac:(lia)). unfold ring_at in Hold.
    rewrite Z.add_0_r, Z.mod_small in Hold by done. exact Hold.
  - destruct (get_char_step kb Hk ltac:(lia)) as (_ & _ & ->). cbn [tail]. unfold kbd_queue.
     cbn [buffer_count store_count set_field eta_keyboard].
    apply list_fmap_ext. intros j i Hi. apply list_elem_of_lookup_2, elem_of_seqZ in Hi.
    unfold ring_at. cbn. rewrite Hh. unfold INPUT_BUFFER_SIZE. rewrite Z.rem_mod_nonneg, Zplus_mod_idemp_l by lia.
    replace (buffer_head kb + 1 + i) with (buffer_head kb + (i + 1)) by lia. apply Hold. lia.
  - intros [_ _ _ Ht']. revert Ht'. unfold buffer_put, INPUT_BUFFER_SIZE. rewrite (proj2 (Z.ltb_lt _ _)) by lia. cbn.
    unfold INPUT_BUFFER_SIZE. rewrite !Z.rem_mod_nonneg by lia. rewrite Htail. word_lia.
Qed.

(** An Enter that comes between the test and [hlt]: the loop goes to sleep on it. *)
Lemma asleep_forever max t n : r_pc t = Asleep → input_loop max t (replicate n Cpu) = None.
Proof.
  intros E. induction n as [|n IH]; cbn [replicate]; [by rewrite input_loop_nil by congruence|].
  rewrite input_loop_cons by congruence. replace (next max t Cpu) with t; [exact IH|].
  destruct t. simpl in E. by subst.
Qed.

Lemma slept_on max k buf status scancode n :
  let t := MkReader k buf At_hlt in
  let sched := Irq status scancode :: replicate n Cpu in
  input_loop max t sched = None ∧
  foldl (next max) t sched =
    MkReader (irq k status scancode) buf (match n with O => At_hlt | _ => Asleep end).
Proof.
  cbv zeta. rewrite input_loop_cons by done. cbn [foldl].
  change (next max (MkReader k buf At_hlt) (Irq status scancode)) with (MkReader (irq k status scancode) buf At_hlt).
  destruct n as [|n]; [done|]. cbn [replicate foldl]. rewrite input_loop_cons by done.
  change (next max (MkReader (irq k status scancode) buf At_hlt) Cpu) with (MkReader (irq k status scancode) buf Asleep).
  split; [by apply asleep_forever|]. induction n as [|n IH]; [done|]. exact IH.
Qed.

Lemma woken max k buf status scancode status' scancode' n :
  kbd_inv (k_kbd k) → kbd_queue (k_kbd k) = [] → Str.strlen buf < max - 1 → Forall printable buf →
  is_u8 scancode → is_u8 scancode' → taken (k_kbd k) status scancode = [10] →
  ∃ n' k' rest, input_loop max (MkReader k buf At_hlt)
    ((Irq status scancode :: replicate (S n) Cpu) ++ Irq status' scancode' :: replicate n' Cpu) = Some (k', buf, rest).
Proof.
  intros Hk Hq Hb Hp Hs Hs' Hc. set (t := MkReader k buf At_hlt).
  destruct (slept_on max k buf status scancode (S n)) as [Hn Hf]. fold t in Hn, Hf.
  assert (reader_ok max t) as Ht by (split; [split; [cbn; lia|done]|done]).
  destruct (irq_ok max t status scancode Ht eq_refl Hs) as (Ht1 & _ & _ & Hw1 & _).
  set (t1 := MkReader (irq k status scancode) buf Asleep).
  assert (reader_ok max t1) as Ht1' by (split; [split; [cbn; lia|done]|apply Ht1]).
  destruct (irq_ok max t1 status' scancode' Ht1' eq_refl Hs') as (Ht2 & _ & _ & Hw2 & _).
  set (t2 := input_irq status' scancode' t1) in *.
  assert (waiting t2 = 10 :: taken (kbd_of t1) status' scancode') as Hw.
  { rewrite Hw2. change (waiting t1) with (waiting (input_irq status scancode t)). rewrite Hw1.
    change (waiting t) with (kbd_queue (k_kbd k)). change (kbd_of t) with (k_kbd k). by rewrite Hq, Hc. }
  assert (edit max buf (waiting t2) = Some (buf, [10], taken (kbd_of t1) status' scancode')) as Hedit.
  { rewrite Hw. cbn [edit]. by rewrite (proj2 (Z.ltb_lt _ _)). }
  destruct (cpu_alone max t2 Ht2) as (n' & [[[[k' line] rest] Hr]|(_ & _ & Hnone)]).
  - exists n', k', rest. rewrite (input_loop_app _ _ _ _ Hn), Hf, input_loop_cons by done.
    change (next max _ (Irq status' scancode')) with t2. rewrite Hr. do 3 f_equal.
    assert (Forall event_ok (replicate n' Cpu)) as He by by apply Forall_replicate.
    assert (∀ m t0, arrives race_free max t0 (replicate m Cpu)) as Ha.
    { induction m as [|m IH]; intros t0; cbn [replicate arrives]; destruct (r_pc t0); done || by split. }
    assert (∀ m t0, accepted max t0 (replicate m Cpu) = []) as Hacc.
    { induction m as [|m IH]; intros t0; cbn [replicate accepted]; destruct (r_pc t0); done || apply IH. }
    pose proof (input_loop_edit max t2 _ Ht2 He (Ha n' t2)) as H. rewrite Hr, Hacc in H.
    destruct H as (_ & _ & _ & echo & _ & Ho). rewrite outcome_edit, app_nil_r in Ho by done.
    change (r_buf t2) with buf in Ho. rewrite Hedit in Ho. by injection Ho.
  - exfalso. assert (alert t2) as Hal by by intros [[=]|[=]].
    specialize (Hnone Hal). change (r_buf t2) with buf in Hnone. congruence.
Qed.

(** [keyboard_get_char] from the load of the count, without an interrupt. *)
Lemma got_count_steps max k buf n :
  foldl (next max) (MkReader k buf (Got_count n)) [Cpu; Cpu; Cpu] =
    MkReader (k <| k_kbd := store_count n (advance_head (k_kbd k)) |>) buf (Has_char (load_char (k_kbd k))).
Proof. reflexivity. Qed.

Lemma at_get_step max k buf :
  buffer_count (k_kbd k) ≠ 0 →
  next max (MkReader k buf At_get) Cpu = MkReader k buf (Got_count (buffer_count (k_kbd k))).
Proof. intros H. cbn. by rewrite (proj2 (Z.eqb_neq _ _)). Qed.


