(* ===== verification/ShellCorrect.v ===== *)
(** * Correctness of the shell

    Cutting a line into words against a reference splitter, the dispatch of commands,
    reading back the numbers the shell prints, and allocation by hand. *)

From S2P Require Import Prelude Ram CString Vga Memory Heap HeapCorrect Alloc PhysPages Paging.
From S2P Require Import PagingCorrect Keyboard Interrupt Fat FsNames Fs FsCorrect FsPreserve Process ProcessCorrect.
From S2P Require Import ProcessSteps SysTable Layout Kernel KernelInv Syscall Shell Boot SyscallCorrect.
Set Default Goal Selector "!".

(** ** Words *)

(** The pieces of [s] between blanks, empty ones included. *)
Fixpoint split_blank (s : list Z) : list (list Z) :=
  match s with
  | [] => [[]]
  | c :: s' =>
      if is_space c then [] :: split_blank s'
      else match split_blank s' with
           | w :: ws => (c :: w) :: ws
           | [] => [[c]]
           end
  end.

(** The words of a line. *)
Definition words (s : list Z) : list (list Z) := filter (λ w, w ≠ []) (split_blank s).

Lemma split_blank_cons s : ∃ w ws, split_blank s = w :: ws.
Proof.
  induction s as [|c s (w & ws & IH)]; [by exists [], []|]. cbn [split_blank].
  destruct (is_space c); [by eexists _, _|]. rewrite IH. by eexists _, _.
Qed.

Lemma words_skip s : words (skip_space s) = words s.
Proof.
  induction s as [|c s IH]; [done|]. cbn [skip_space]. destruct (is_space c) eqn:Ec; [|done].
  rewrite IH. unfold words. cbn [split_blank]. rewrite Ec. rewrite filter_cons_False; [done|].
  by intros [].
Qed.

Lemma take_arg_words room s w ws rest :
  split_blank s = w :: ws → (length w <= room)%nat → take_arg room s = (w, rest) →
  split_blank rest = [] :: ws.
Proof.
  revert room w rest. induction s as [|c s IH]; intros room w rest; cbn [split_blank].
  { intros [= <- <-]. destruct room; by intros _ [= <-]. }
  destruct (is_space c) eqn:Ec.
  { intros [= <- <-] _. destruct room; cbn [take_arg]; [|rewrite Ec]; intros [= <-]; cbn [split_blank]; by rewrite Ec. }
  destruct (split_blank_cons s) as (w' & ws' & Es). rewrite Es. intros [= <- <-] Hl.
  destruct room as [|room]; [simpl in Hl; lia|]. cbn [take_arg]. rewrite Ec.
  destruct (take_arg room s) as [a r] eqn:Et. intros [= -> <-].
  by apply (IH room w' r Es); [simpl in Hl; lia|].
Qed.

Lemma take_arg_first room s w ws :
  split_blank s = w :: ws → (length w <= room)%nat → (take_arg room s).1 = w.
Proof.
  revert room w. induction s as [|c s IH]; intros room w; cbn [split_blank].
  { intros [= <- <-]. by destruct room. }
  destruct (is_space c) eqn:Ec.
  { intros [= <- <-] _. destruct room; cbn [take_arg]; [done|]. by rewrite Ec. }
  destruct (split_blank_cons s) as (w' & ws' & Es). rewrite Es. intros [= <- <-] Hl.
  destruct room as [|room]; [simpl in Hl; lia|]. cbn [take_arg]. rewrite Ec.
  pose proof (IH room w' Es ltac:(simpl in Hl; lia)) as H. destruct (take_arg room s) as [a r]. cbn in *.
  by rewrite H.
Qed.

Lemma skip_space_head s c s' : skip_space s = c :: s' → is_space c = false.
Proof.
  induction s as [|d s IH]; [done|]. cbn [skip_space]. destruct (is_space d) eqn:Ed; [exact IH|].
  by intros [= <- _].
Qed.

(** [parse_args] keeps the first words, each cut in pieces of at most 63 characters. *)
Lemma parse_args_words n s :
  Forall (λ w, (length w <= 63)%nat) (split_blank s) → parse_args n s = take n (words s).
Proof.
  revert s. induction n as [|n IH]; intros s Hs; [done|]. cbn [parse_args]. rewrite <- words_skip.
  assert (Forall (λ w, (length w <= 63)%nat) (split_blank (skip_space s))) as Hs'.
  { clear IH. induction s as [|c s IHs]; [done|]. cbn [skip_space]. destruct (is_space c) eqn:Ec; [|done].
    apply IHs. cbn [split_blank] in Hs. rewrite Ec in Hs. by inversion Hs. }
  destruct (skip_space s) as [|c s'] eqn:Es; [done|]. apply skip_space_head in Es. clear s Hs.
  change (Z.to_nat (MAX_COMMAND_LENGTH - 1)) with 63%nat.
  destruct (split_blank_cons (c :: s')) as (w & ws & Ew). rewrite Ew in Hs'.
  inversion_clear Hs' as [|? ? Hw Hws].
  pose proof (take_arg_first 63 _ w ws Ew Hw) as H1.
  destruct (take_arg 63 (c :: s')) as [a rest] eqn:Et. cbn [fst] in H1. subst a.
  pose proof (take_arg_words 63 _ w ws rest Ew Hw Et) as Hr.
  rewrite IH by (rewrite Hr; constructor; [simpl; lia|done]).
  unfold words. rewrite Hr, Ew. rewrite (filter_cons_False _ [] ws) by (by intros []).
  rewrite filter_cons_True; [done|]. cbn [split_blank] in Ew. rewrite Es in Ew.
  destruct (split_blank s'); congruence.
Qed.

(** The pieces of a short line are short. *)
Lemma split_blank_length s : Forall (λ w, (length w <= length s)%nat) (split_blank s).
Proof.
  induction s as [|c s IH]; cbn [split_blank]; [by repeat constructor|].
  destruct (is_space c).
  - constructor; [simpl; lia|]. eapply Forall_impl; [exact IH|]. simpl. lia.
  - destruct (split_blank s) as [|w ws]; [apply Forall_singleton; simpl; lia|].
    inversion_clear IH as [|? ? Hw Hws]. constructor; [simpl; lia|].
    eapply Forall_impl; [exact Hws|]. simpl. lia.
Qed.

Lemma split_blank_chars (P : Z → Prop) s : Forall P s → Forall (Forall P) (split_blank s).
Proof.
  induction 1 as [|c s Hc Hs IH]; cbn [split_blank]; [by repeat constructor|].
  destruct (is_space c); [by constructor|].
  destruct (split_blank s) as [|w ws]; [by repeat constructor|].
  inversion_clear IH as [|? ? Hw Hws]. constructor; [by constructor|done].
Qed.

Lemma words_chars (P : Z → Prop) s w : Forall P s → w ∈ words s → Forall P w.
Proof.
  intros Hs Hw. apply list_elem_of_filter in Hw as [_ Hw].
  by eapply Forall_forall in Hw; [|apply split_blank_chars].
Qed.

(** ** Dispatch *)

(** The command table as a map from names. *)
Definition command_map : gmap (list Z) command_fun :=
  list_to_map ((λ '(n, (f, _)), (lit n, f)) <$> commands).

Lemma find_command_map name :
  str_ok name → find_command name commands = command_map !! name.
Proof.
  intros Hn. unfold command_map.
  assert (Forall (λ e : string * (command_fun * string), str_ok (lit e.1)) commands) as Hc.
  { apply Forall_forall. intros e He. apply lit_str_ok. revert e He. apply Forall_forall.
    apply (bool_decide_unpack _). vm_compute. exact I. }
  induction Hc as [|[n [f d]] l Hl Hc IH]; [done|]. cbn [find_command fmap list_fmap list_to_map foldr fst snd].
  cbn [fst] in Hl. rewrite strcmp_lit by done. case_bool_decide as E.
  - subst. by rewrite lookup_insert_eq.
  - rewrite lookup_insert_ne by congruence. exact IH.
Qed.

Lemma say_app s1 s2 k : say (s1 ++ s2) k = say s2 (say s1 k).
Proof. unfold say, on_con. by rewrite vga_putstr_app. Qed.

Lemma execute_line E k line :
  str_ok line → Str.strlen line <= 63 →
  shell_execute_command E k line =
    match take 8 (words line) with
    | [] => Some (shell_prompt k)
    | (name :: _) as args =>
        match command_map !! name with
        | Some f =>
            k ← run_command E k f args;
            Some (shell_prompt (color VGA_COLOR_LIGHT_GREY (say [10] k)))
        | None =>
            Some (shell_prompt (color VGA_COLOR_LIGHT_GREY
              (say (lit "Command not found: " ++ name ++ [10]) (color VGA_COLOR_LIGHT_RED k))))
        end
    end.
Proof.
  intros Hs Hl. unfold shell_execute_command.
  assert (∀ s, Str.strlen s <= 63 → parse_args (Z.to_nat MAX_ARGS) s = take 8 (words s)) as Hp.
  { intros s Hs'. apply parse_args_words. eapply Forall_impl; [apply split_blank_length|].
    unfold Str.strlen in Hs'. simpl. lia. }
  assert (Str.strlen (skip_space line) <= 63) as Hl'.
  { clear -Hl. induction line as [|c s IH]; [done|]. cbn [skip_space]. destruct (is_space c); [|done].
    apply IH. unfold Str.strlen in *. simpl in Hl. lia. }
  rewrite <- words_skip, <- Hp by done. destruct (skip_space line) as [|c s] eqn:Es; [done|].
  destruct (parse_args _ _) as [|name args] eqn:Ea; [done|].
  assert (str_ok name) as Hn.
  { rewrite Hp, <- Es, words_skip in Ea by done.
    apply (words_chars (λ c, 0 < c < 256) line); [done|].
    apply (list_elem_of_lookup_2 _ 0). by rewrite <- (lookup_take_lt _ 8) by lia; rewrite Ea. }
  rewrite find_command_map by done. destruct (command_map !! name); [done|].
  by rewrite !say_app.
Qed.

(** C15: what a command line does: the line is cut at blanks (spaces and tabs) into at most
    eight words, the remaining ones being ignored; a line without words only prints the
    prompt again; otherwise the first word, matched exactly and with case, selects the
    command, which runs with all the words and is followed by a newline and the prompt; any
    other first word is reported in red and nothing but the screen changes. *)
Theorem shell_dispatch E k line :
  str_ok line → Str.strlen line <= 63 →
  shell_execute_command E k line =
    match take 8 (words line) with
    | [] => Some (shell_prompt k)
    | (name :: _) as args =>
        match command_map !! name with
        | Some f =>
            k ← run_command E k f args;
            Some (shell_prompt (color VGA_COLOR_LIGHT_GREY (say [10] k)))
        | None =>
            Some (shell_prompt (color VGA_COLOR_LIGHT_GREY
              (say (lit "Command not found: " ++ name ++ [10]) (color VGA_COLOR_LIGHT_RED k))))
        end
    end.
Proof. apply execute_line. Qed.

Lemma shell_dispatch_witness :
  shell_execute_command demo_env demo_kernel (lit " Help me") =
    Some (shell_prompt (color VGA_COLOR_LIGHT_GREY
      (say (lit "Command not found: " ++ lit "Help" ++ [10]) (color VGA_COLOR_LIGHT_RED demo_kernel)))).
Proof.
  assert (take 8 (words (lit " Help me")) = [lit "Help"; lit "me"]) as E1 by (vm_compute; reflexivity).
  assert (command_map !! lit "Help" = None) as E2 by (vm_compute; reflexivity).
  assert (str_ok (lit " Help me")) as Hs by (apply lit_str_ok; vm_compute; reflexivity).
  pose proof (shell_dispatch demo_env demo_kernel (lit " Help me") Hs ltac:(vm_compute; discriminate)) as H.
  rewrite E1, E2 in H. exact H.
Defined.

#[global] Opaque command_map.

(** ** Numbers *)

Lemma parse_hex_app v s1 s2 : parse_hex v (s1 ++ s2) = parse_hex v s1 ≫= λ v, parse_hex v s2.
Proof.
  revert v. induction s1 as [|c s1 IH]; intros v; [done|]. cbn [app parse_hex].
  destruct (hex_nibble c); [|done]. cbn [mbind option_bind]. apply IH.
Qed.

Lemma hex_nibble_digit d : 0 <= d < 16 → hex_nibble (hex_digit d) = Some d.
Proof.
  intros Hd. assert (forallb (λ d, bool_decide (hex_nibble (hex_digit d) = Some d)) (seqZ 0 16) = true) as H
    by (vm_compute; reflexivity).
  rewrite forallb_forall in H. eapply bool_decide_eq_true, H. apply list_elem_of_In, elem_of_seqZ. lia.
Qed.

Lemma parse_hex_puthex n num :
  0 <= num < 16 ^ Z.of_nat n → is_u32 num → parse_hex 0 (reverse (puthex_buffer n num)) = Some num.
Proof.
  revert num. induction n as [|n IH]; intros num Hn Hu; [simpl in Hn; by replace num with 0 by lia|].
  cbn [puthex_buffer]. ztest; [|by replace num with 0 by lia].
  assert (0 <= Z.shiftr num 4 < 16 ^ Z.of_nat n) as Hq.
  { rewrite Z.shiftr_div_pow2 by lia. change (2 ^ 4) with 16.
    rewrite Nat2Z.inj_succ, Z.pow_succ_r in Hn by lia.
    split; [apply Z.div_pos; lia|]. apply Z.div_lt_upper_bound; lia. }
  assert (is_u32 (Z.shiftr num 4)) as Hq32.
  { rewrite Z.shiftr_div_pow2 by lia. change (2 ^ 4) with 16. word_lia. }
  rewrite reverse_cons, parse_hex_app, IH by done. cbn [mbind option_bind parse_hex].
  change 0xF with (Z.ones 4). rewrite Z.land_ones by lia.
  rewrite hex_nibble_digit by (apply Z.mod_pos_bound; lia). cbn [mbind option_bind]. f_equal.
  rewrite Z.shiftr_div_pow2 in * by lia. rewrite Z.shiftl_mul_pow2 by lia. change (2 ^ 4) with 16.
  rewrite (u32_small (num / 16 * 16)) by word_lia. pose proof (Z.div_mod num 16 ltac:(lia)).
  rewrite u32_small; [lia|]. word_lia.
Qed.

Lemma parse_hex_text h : is_u32 h → parse_hex 0 (hex_text h) = Some h.
Proof.
  intros Hh. unfold hex_text. ztest; [by subst|]. apply parse_hex_puthex; [|done].
  unfold is_u32 in Hh. change (16 ^ Z.of_nat 9) with 68719476736. lia.
Qed.

Lemma parse_dec_digits v s :
  is_u32 v → parse_dec v s =
    if forallb is_digit s then Some (u32 (foldl (λ n c, 10 * n + (c - chr "0")) v s)) else None.
Proof.
  revert v. induction s as [|c s IH]; intros v Hv; cbn [parse_dec forallb foldl];
    [by rewrite u32_small|].
  destruct (is_digit c); [|done]. cbn [andb]. rewrite IH by apply u32_range.
  destruct (forallb is_digit s); [|done]. f_equal. clear IH.
  assert (∀ a b, u32 a = u32 b → u32 (foldl (λ n c, 10 * n + (c - chr "0")) a s) =
    u32 (foldl (λ n c, 10 * n + (c - chr "0")) b s)) as Hc.
  { induction s as [|d s IHs]; intros a b Hab; [done|]. cbn [foldl]. apply IHs.
    unfold u32 in *. rewrite Z.add_mod, Z.mul_mod, Hab, <- Z.mul_mod, <- Z.add_mod by lia. done. }
  apply Hc. unfold u32. rewrite Z.mod_mod by lia. rewrite Z.add_mod_idemp_l by lia. f_equal. lia.
Qed.

(** C28: numbers on the command line: the text the shell prints for a 32-bit number reads
    back as that number, as an argument of [free] and of [syscall]; a decimal argument is
    accepted exactly when all its characters are digits (an empty one is 0) and its value
    is taken modulo 2^32. *)
Theorem shell_numbers h s k :
  is_u32 h →
  vga_puthex k h = vga_putstr k (lit "0x" ++ hex_text h) ∧ parse_hex 0 (hex_text h) = Some h ∧
  parse_value (lit "0x" ++ hex_text h) = inr h ∧
  parse_dec 0 s =
    if forallb is_digit s then Some (u32 (foldl (λ n c, 10 * n + (c - chr "0")) 0 s)) else None.
Proof.
  intros Hh. split; [apply vga_puthex_text|]. split; [by apply parse_hex_text|]. split.
  - unfold parse_value. change (has_0x (lit "0x" ++ hex_text h)) with true.
    change (drop 2 (lit "0x" ++ hex_text h)) with (hex_text h). by rewrite parse_hex_text.
  - by apply parse_dec_digits.
Qed.

Lemma shell_numbers_witness :
  parse_hex 0 (lit "20001C") = Some 0x20001C ∧ parse_dec 0 (lit "4294967297") = Some 1.
Proof.
  destruct (shell_numbers 0x20001C (lit "4294967297") blank_machine ltac:(done)) as (_ & H1 & _ & H2).
  split; [exact H1|exact H2].
Defined.

Lemma say_hex_text num k : is_u32 num → say_hex num k = say (lit "0x" ++ hex_text num) k.
Proof. intros Hn. unfold say_hex, say, on_con. by rewrite u32_small, vga_puthex_text. Qed.

(** The two ways to look at the line that [malloc] prints. *)
Lemma malloc_report size p k :
  is_u32 size → is_u32 p →
  say [10] (say_hex p (say (lit " bytes at address: ") (say_hex size (say (lit "Allocated ") k)))) =
  say (lit "Allocated 0x" ++ hex_text size ++ lit " bytes at address: 0x" ++ hex_text p ++ [10]) k.
Proof.
  intros Hs Hp. rewrite !say_hex_text by done.
  change (lit "Allocated 0x") with (lit "Allocated " ++ lit "0x").
  change (lit " bytes at address: 0x") with (lit " bytes at address: " ++ lit "0x").
  by rewrite !say_app.
Qed.

(** Allocating and freeing by hand: on a well-formed kernel [malloc] of a decimal size either
    reports that it failed, or allocates a block of at least that size inside the heap and
    prints its address; and typing the printed address as the argument of [free] releases
    the block, after which the heap has exactly the blocks it had before. *)
Theorem shell_malloc_free_roundtrip E k text size l :
  kernel_ok E k → heap_inv (k_mm k) (ram_of k) l →
  parse_dec 0 text = Some size → 0 < size <= 0xFFFFFFFC →
  shell_malloc k [lit "malloc"; text] = Some (say (line "Memory allocation failed!") k) ∨
  ∃ p h k2, shell_malloc k [lit "malloc"; text] =
      Some (say (lit "Allocated 0x" ++ hex_text size ++ lit " bytes at address: 0x" ++ hex_text p ++ [10])
              (set_heap k h)) ∧
    (∃ s, size <= s ∧ owns h p s ∧ ∀ t, ¬ owns (heap_of k) p t) ∧
    shell_free (say (lit "Allocated 0x" ++ hex_text size ++ lit " bytes at address: 0x" ++ hex_text p ++ [10])
                (set_heap k h)) [lit "free"; lit "0x" ++ hex_text p] = Some k2 ∧
    heap_inv (k_mm k2) (ram_of k2) l.
Proof.
  intros Hk Hl Hd Hsz. unfold shell_malloc. change (argc _ <? 2) with false. cbv iota.
  change (arg [lit "malloc"; text] 1) with text. rewrite Hd. rewrite (proj2 (Z.eqb_neq size 0)) by lia.
  destruct (kmalloc_then_free (k_mm k) (ram_of k) l size Hl Hsz)
    as [->|(p & l' & m' & s & -> & Hl' & Hf & Hp & Hs & Ho & Hn)]; cbn [mbind option_bind].
  { left. rewrite Z.eqb_refl. cbn [negb]. by destruct k as [? [] ? ? ? ? ?]. }
  right. rewrite (proj2 (Z.eqb_neq p 0)) by (heap_consts; lia). cbn [negb].
  set (h := (with_heap_stats (k_mm k) l', m')).
  assert (is_u32 size ∧ is_u32 p) as [Hs32 Hp32] by (unfold is_u32; heap_consts; lia).
  set (text1 := lit "Allocated 0x" ++ hex_text size ++ lit " bytes at address: 0x" ++ hex_text p ++ [10]).
  assert (prints (set_heap k h) (say text1 (set_heap k h))) as (c & Ec & [Htc Hc]).
  { apply say_prints, prints_refl. apply term_ok_mem, Hk. }
  set (k1 := set_heap k h <| k_con := c |>).
  assert (heap_inv (k_mm k1) (ram_of k1) l') as Hl1.
  { eapply heap_inv_frame; [exact Hl'|exact Hc|]. intros a. region_lia. }
  destruct (kfree_ok _ _ _ _ _ Hl1 Hf) as (m2 & Hkf & Hl2 & _).
  set (k2 := set_heap k1 (with_heap_stats (k_mm k1) l, m2)).
  assert (prints k2 (say [10] (say_hex p (say (lit "Freed memory at address: 0x") k2)))) as (c2 & Ec2 & [_ Hc2]).
  { apply say_prints, say_hex_prints, say_prints, prints_refl. apply term_ok_mem, Htc. }
  exists p, h, (say [10] (say_hex p (say (lit "Freed memory at address: 0x") k2))).
  fold text1. split; [|split; [|split]].
  - f_equal. by apply malloc_report.
  - exists s. split; [exact Hs|]. by split.
  - unfold shell_free. change (argc _ <? 2) with false. cbv iota.
    change (arg [lit "free"; lit "0x" ++ hex_text p] 1) with (lit "0x" ++ hex_text p).
    change (has_0x (lit "0x" ++ hex_text p)) with true. cbv iota.
    change (drop 2 (lit "0x" ++ hex_text p)) with (hex_text p). rewrite parse_hex_text by done.
    rewrite Ec. fold k1. rewrite Hkf. cbn [mbind option_bind]. reflexivity.
  - rewrite Ec2. eapply heap_inv_frame; [exact Hl2|exact Hc2|]. intros a. region_lia.
Qed.

Lemma shell_malloc_free_roundtrip_witness :
  ∃ k', shell_malloc demo_kernel [lit "malloc"; lit "100"] = Some k'.
Proof.
  destruct (shell_malloc_free_roundtrip demo_env demo_kernel (lit "100") 100 fresh_heap demo_kernel_ok
    (bt_heap _ _ _ demo_kernel_booted) ltac:(reflexivity) ltac:(lia)) as [H|(p & h & k2 & H & _)];
    eexists; exact H.
Defined.
