(* ===== verification/ShellFiles.v ===== *)
(** * Files from the shell

    What the shell shows of the file system: [cat] of any file prints nothing, because no
    entry ever has a size; and the second [rm] of a file never returns, because the first one
    frees its clusters and leaves its entry. *)

From S2P Require Import Prelude Ram CString Vga Memory Fat FsNames Fs FsCorrect FsPreserve FsTotal.
From S2P Require Import Process SysTable Kernel KernelInv Syscall Shell Boot.
Set Default Goal Selector "!".

#[local] Arguments vga_putstr : simpl never.

Lemma kernel_eta k : k <| k_con := k_con k |> <| k_fs := k_fs k |> = k.
Proof. by destruct k. Qed.

(** Opening for reading changes nothing and finds the file empty. *)
Lemma open_for_reading s con junk p f :
  initialized s = true → sizes_zero s →
  fs_open s con junk (Some p) FS_MODE_READ (Some f) = Some (
    if negb (validate_path (Some p) =? FS_SUCCESS) then (FS_ERROR_INVALID_PATH, (Some f, (s, con)))
    else match find_directory_entry s (Some p) with
         | Ok e => (FS_SUCCESS, (Some (MkFile (d_cluster e) 0 0 FS_MODE_READ true p), (s, con)))
         | Err _ => (FS_ERROR_NOT_FOUND,
                     (Some f, (s, vga_putstr con (line "fs_open: file not found and not creating"))))
         end).
Proof.
  intros Hi Hz. unfold fs_open. rewrite Hi. cbn [negb]. destruct (negb _); [done|].
  cbn [default]. change (id p) with p. unfold open_entry.
  destruct (find_directory_entry s (Some p)) as [e|] eqn:Ee; cbn [mbind option_bind]; [|done].
  by rewrite (found_size s p e Hz Ee).
Qed.

Lemma shell_cat_result E k argv :
  initialized (k_fs k) = true → sizes_zero (k_fs k) →
  shell_cat E k argv = Some (
    if argc argv <? 2 then say (line "Usage: cat <filename>") k
    else if negb (validate_path (Some (full_path argv)) =? FS_SUCCESS)
    then print_error (line "Failed to open file") k
    else match find_directory_entry (k_fs k) (Some (full_path argv)) with
         | Ok _ => k
         | Err _ => print_error (line "Failed to open file")
                      (say (line "fs_open: file not found and not creating") k)
         end).
Proof.
  intros Hi Hz. unfold shell_cat. destruct (_ <? 2); [done|]. rewrite open_for_reading by done.
  cbn [mbind option_bind]. destruct (negb (validate_path _ =? _)); [by destruct k|].
  destruct (find_directory_entry _ _) as [e|]; cbn [mbind option_bind]; [|by destruct k].
  change (negb (FS_SUCCESS =? FS_SUCCESS)) with false. cbv iota.
  change (loop _ _ _) with
    (Some (Some (k <| k_con := k_con k |> <| k_fs := k_fs k |>,
                 MkFile (d_cluster e) 0 0 FS_MODE_READ true (full_path argv)))).
  cbn [mbind option_bind]. by rewrite kernel_eta.
Qed.

(** The file commands when the operation prints nothing. *)
Lemma file_command_result op usage success failure k argv r s :
  2 <= argc argv → op (k_fs k) (k_con k) (full_path argv) = Some (r, (s, k_con k)) →
  file_command op usage success failure k argv = Some (
    if r =? FS_SUCCESS then print_success (line success) (k <| k_fs := s |>)
    else print_error (line failure) (k <| k_fs := s |>)).
Proof.
  intros Hn Ho. unfold file_command. rewrite (proj2 (Z.ltb_ge _ _) Hn), Ho. cbn [mbind option_bind].
  by destruct k.
Qed.

Lemma shell_rm_result k argv :
  2 <= argc argv →
  shell_rm k argv =
    '(r, s) ← fs_delete (k_fs k) (Some (full_path argv));
    Some (if r =? FS_SUCCESS then print_success (line "File deleted successfully") (k <| k_fs := s |>)
          else print_error (line "Failed to delete file") (k <| k_fs := s |>)).
Proof.
  intros Hn. unfold shell_rm. destruct (fs_delete _ _) as [[r s]|] eqn:E; cbn [mbind option_bind].
  - apply file_command_result; [done|]. by rewrite E.
  - unfold file_command. by rewrite (proj2 (Z.ltb_ge _ _) Hn), E.
Qed.

Lemma fs_create_file s con junk p f :
  fs_inv s → current_directory s = lit "/" → file_path p f → dir_lookup s (convert_filename f) = None →
  has_free_cluster s → has_free_slot s →
  ∃ c s', fs_create s con junk (Some p) = Some (FS_SUCCESS, (s', con)) ∧ fs_inv s' ∧
    2 <= c < FS_CLUSTERS ∧
    (∀ d, is_cluster d → fat_get (fat_table s') d = if d =? c then 0xFFF else fat_get (fat_table s) d) ∧
    ∃ e, d_attr e = FS_ATTR_ARCHIVE ∧ d_cluster e = c ∧
      ∀ nm, name83 nm → dir_lookup s' nm =
        if decide (nm = convert_filename f) then Some e else dir_lookup s nm.
Proof.
  intros Hs Hcwd Hp Hnone Hfc Hfs. unfold fs_create.
  destruct (create_ok s con junk p f (Z.lor FS_MODE_CREATE FS_MODE_WRITE) (MkFile 0 0 0 0 false [])
    Hs Hcwd Hp Hnone Hfc Hfs ltac:(done))
    as (c & s' & -> & Hs' & Hc & _ & Hget & (e & Ha & Hcl & _ & Hlook) & _).
  cbn [mbind option_bind]. exists c, s'. split; [done|]. split; [done|]. split; [done|].
  split; [exact Hget|]. by exists e.
Qed.

(** The two deletions of a file of one cluster. *)
Lemma delete_twice s p f e :
  fs_inv s → file_path p f → dir_lookup s (convert_filename f) = Some e →
  dir_lookup s (convert_filename p) = None → d_attr e = FS_ATTR_ARCHIVE →
  2 <= d_cluster e < FS_CLUSTERS → fat_get (fat_table s) (d_cluster e) = 0xFFF →
  fat_get (fat_table s) 0 = 0 →
  ∃ s', fs_delete s (Some p) = Some (FS_ERROR_IO_ERROR, s') ∧ fs_inv s' ∧
    dir_lookup s' (convert_filename f) = Some e ∧ fs_delete s' (Some p) = None.
Proof.
  intros Hs Hp He Hnone Ha Hc Hfat H0.
  assert (is_directory e = false) as Hd by (unfold is_directory; by rewrite Ha).
  assert (is_cluster (d_cluster e)) as Hcl by (unfold is_cluster; lia).
  assert (chain (fat_table s) (d_cluster e) [d_cluster e]) as Hch.
  { simpl. split; [done|]. split; [done|]. rewrite Hfat. lia. }
  rewrite (delete_start s p f e Hs Hp He Hd).
  destruct (free_and_remove_path s p e [d_cluster e] Hs Hnone ltac:(lia) Hch (NoDup_singleton _))
    as (fat' & -> & Hget).
  set (s' := s <| fat_table := fat' |>). assert (fs_inv s') as Hs' by (by apply fs_inv_fat).
  assert (dir_lookup s' (convert_filename f) = Some e) as He' by (unfold s'; by rewrite dir_lookup_fat).
  exists s'. split; [done|]. split; [done|]. split; [done|].
  rewrite (delete_start s' p f e Hs' Hp He' Hd). unfold free_and_remove.
  rewrite (proj2 (Z.eqb_neq (d_cluster e) 0)) by lia. cbn [negb].
  rewrite free_cluster_chain_loops; [done|apply Hs'|done|..]; change (fat_table s') with fat'.
  - rewrite Hget, decide_True by (done || by left). done.
  - rewrite Hget, decide_False by (done || (intros ?%list_elem_of_singleton; lia)). exact H0.
Qed.

(** An empty file system has room. *)
Lemma fresh_fs_room s :
  root_dir s = zero_root → (∀ c, is_cluster c → fat_get (fat_table s) c = 0) →
  has_free_cluster s ∧ has_free_slot s ∧ fat_get (fat_table s) 0 = 0.
Proof.
  intros Hr Hf. assert (is_cluster 2 ∧ is_cluster 0) as [H2 H0] by done. split; [|split].
  - exists 2. split; [done|by apply Hf].
  - exists 0. split; [done|]. unfold root_entry. by rewrite Hr.
  - by apply Hf.
Qed.

(** ** Properties *)

(** C25: [cat] never shows the contents of a file: in every well-formed state all the
    entries of the directory have size 0, so [cat] of a file that exists returns without
    printing or changing anything, whatever was written to the file; [cat] of a valid path
    that is not in the directory complains twice, of an invalid one once. *)
Theorem cat_prints_nothing E k argv :
  kernel_ok E k → 2 <= argc argv →
  let path := full_path argv in
  Forall (λ e, d_size e = 0) (root_dir (k_fs k)) ∧
  shell_cat E k argv = Some (
    if negb (validate_path (Some path) =? FS_SUCCESS) then print_error (line "Failed to open file") k
    else match find_directory_entry (k_fs k) (Some path) with
         | Ok _ => k
         | Err _ => print_error (line "Failed to open file")
                      (say (line "fs_open: file not found and not creating") k)
         end).
Proof.
  intros Hk Hn path. destruct (ko_fs E k Hk) as (Hs & _ & _ & Hz). split; [exact Hz|].
  rewrite shell_cat_result by (done || apply Hs). by rewrite (proj2 (Z.ltb_ge _ _) Hn).
Qed.

Lemma cat_prints_nothing_witness :
  shell_cat demo_env demo_kernel [lit "cat"; lit "A"] =
    Some (print_error (line "Failed to open file")
            (say (line "fs_open: file not found and not creating") demo_kernel)).
Proof.
  set (argv := [lit "cat"; lit "A"]).
  rewrite (proj2 (cat_prints_nothing demo_env demo_kernel argv demo_kernel_ok ltac:(done))).
  change (full_path argv) with demo_path.
  rewrite (find_path _ _ _ (proj1 (ko_fs _ _ demo_kernel_ok)) demo_file_path).
  rewrite (proj1 (bt_dir _ _ _ demo_kernel_booted)).
  change (validate_path (Some demo_path) =? FS_SUCCESS) with true. cbn [negb]. cbv iota.
  exact eq_refl.
Defined.

(** C24: removing a file twice hangs the shell: at the root, with a cluster and a slot free,
    FAT entry 0 still 0 as after boot, and no entry under the name with its '/' (whose 8.3
    form is another than that of the name without), [touch] of a new file succeeds; [rm] of it then reports
    a failure although it has freed the cluster, and the file is still listed; and a
    second [rm] never returns. *)
Theorem rm_twice_hangs E k name :
  kernel_ok E k → current_directory (k_fs k) = lit "/" → file_path (full_path [lit "rm"; name]) name →
  dir_lookup (k_fs k) (convert_filename name) = None →
  dir_lookup (k_fs k) (convert_filename (lit "/" ++ name)) = None →
  convert_filename (lit "/" ++ name) ≠ convert_filename name →
  has_free_cluster (k_fs k) → has_free_slot (k_fs k) → fat_get (fat_table (k_fs k)) 0 = 0 →
  ∃ s1 s2,
    let k1 := print_success (line "File created successfully") (k <| k_fs := s1 |>) in
    let k2 := print_error (line "Failed to delete file") (k1 <| k_fs := s2 |>) in
    shell_touch E k [lit "touch"; name] = Some k1 ∧
    shell_rm k1 [lit "rm"; name] = Some k2 ∧
    fs_exists s2 (Some (lit "/" ++ name)) = FS_SUCCESS ∧
    shell_rm k2 [lit "rm"; name] = None.
Proof.
  intros Hk Hcwd Hp Hnone Hnone' Hne Hfc Hfs H0. pose proof (proj1 (ko_fs E k Hk)) as Hs.
  set (p := full_path [lit "rm"; name]) in *. change (lit "/" ++ name) with p in *.
  destruct (fs_create_file (k_fs k) (k_con k) (dir_junk E) p name Hs Hcwd Hp Hnone Hfc Hfs)
    as (c & s1 & Ec & Hs1 & Hc & Hget & e & Ha & Hcl & Hlook).
  assert (is_cluster c ∧ is_cluster 0) as [Hcc H00] by (unfold is_cluster, FS_CLUSTERS in *; lia).
  destruct (delete_twice s1 p name e Hs1 Hp) as (s2 & E2 & Hs2 & He2 & E3).
  - rewrite Hlook by apply (file_path_usable p name Hp). by rewrite decide_True.
  - rewrite Hlook by (apply convert_filename_83; destruct Hp as (-> & ? & _); constructor; done).
    by rewrite decide_False.
  - exact Ha.
  - by rewrite Hcl.
  - rewrite Hcl, Hget by done. by rewrite Z.eqb_refl.
  - rewrite Hget by done. rewrite (proj2 (Z.eqb_neq 0 c)) by lia. exact H0.
  - exists s1, s2. cbv zeta. set (k0 := k <| k_fs := s1 |>).
    set (k1 := print_success _ k0). assert (k_fs k1 = s1) as E1 by reflexivity.
    split; [|clearbody k1; split; [|split]].
    + apply (file_command_result _ _ _ _ k [lit "touch"; name] FS_SUCCESS s1); [done|exact Ec].
    + rewrite shell_rm_result, E1 by done. fold p. rewrite E2. reflexivity.
    + unfold fs_exists. by rewrite (fi_init _ Hs2), (find_path s2 p name Hs2 Hp), He2.
    + set (k2 := k1 <| k_fs := s2 |>). rewrite shell_rm_result by done. fold p.
      change (k_fs (print_error _ k2)) with s2. by rewrite E3.
Qed.

Lemma rm_twice_hangs_witness :
  ∃ k1 k2, shell_touch demo_env demo_kernel [lit "touch"; lit "A"] = Some k1 ∧
    shell_rm k1 [lit "rm"; lit "A"] = Some k2 ∧ shell_rm k2 [lit "rm"; lit "A"] = None.
Proof.
  destruct (bt_dir _ _ _ demo_kernel_booted) as (Hd & Hr & Hf).
  destruct (fresh_fs_room _ Hr Hf) as (Hfc & Hfs & H0).
  assert (convert_filename (lit "/" ++ lit "A") ≠ convert_filename (lit "A")) as Hne.
  { vm_compute. intros [=]. }
  destruct (rm_twice_hangs demo_env demo_kernel (lit "A") demo_kernel_ok
    (bt_cwd _ _ _ demo_kernel_booted) demo_file_path (Hd _) (Hd _) Hne Hfc Hfs H0)
    as (s1 & s2 & H1 & H2 & _ & H3).
  exact (ex_intro _ _ (ex_intro _ _ (conj H1 (conj H2 H3)))).
Defined.
