(* ===== verification/ShellInv.v ===== *)
(** * No command line damages the kernel

    Every command of the shell keeps the invariant of the whole kernel, unless it is
    asked to free memory that is not the user's, or to kill a process that is dead
    already, or to make a system call that does; and every command returns, but for [rm] and
    [rmdir] of a file whose clusters are not a chain, and such system calls. *)

From S2P Require Import Prelude Ram CString Vga Memory Heap HeapCorrect Alloc PhysPages Paging.
From S2P Require Import PagingCorrect Keyboard Interrupt Fat FsNames Fs FsCorrect FsPreserve FsTotal Process ProcessCorrect.
From S2P Require Import ProcessSteps SysTable Layout Kernel KernelInv Syscall Shell Boot SyscallCorrect ShellInput ShellCorrect ShellFiles.
Set Default Goal Selector "!".

#[local] Arguments vga_putstr : simpl never.

(** ** Reports *)

Lemma foldl_prints {A} (f : kernel → A → kernel) l k k' :
  (∀ k' a, prints k k' → prints k (f k' a)) → prints k k' → prints k (foldl f k' l).
Proof. intros Hf. revert k'. induction l as [|a l IH]; intros k' Hk; [done|]. by apply IH, Hf. Qed.

Lemma for_z_console n i (f : Z → machine → machine) c :
  (∀ j c', term_ok c' → console_step c' (f j c')) → term_ok c → console_step c (for_z n i f c).
Proof.
  intros Hf Hc. apply (for_z_inv (λ _ c', console_step c c')); [by apply console_step_refl|].
  intros j c' _ H. eapply console_step_trans; [exact H|]. apply Hf, H.
Qed.

Lemma for_z_console_after n i (f : Z → machine → machine) c c' :
  (∀ j c', term_ok c' → console_step c' (f j c')) → console_step c c' → console_step c (for_z n i f c').
Proof. intros Hf Hc. eapply console_step_trans; [exact Hc|]. apply for_z_console; [done|apply Hc]. Qed.

Lemma pad_to_after c c' len width : console_step c c' → console_step c (pad_to c' len width).
Proof. apply for_z_console_after. auto with console. Qed.
#[local] Hint Resolve pad_to_after : console.

Lemma syscall_list_console t c : term_ok c → console_step c (syscall_list t c).
Proof.
  intros Hc. unfold syscall_list. apply for_z_console_after; [|auto with console].
  intros j c' Hc'. case_bool_decide; auto 12 with console.
Qed.

Lemma print_memory_info_console mm c : term_ok c → console_step c (print_memory_info mm c).
Proof. intros Hc. unfold print_memory_info. auto 30 with console. Qed.

Lemma print_map_step_ok c0 c hdr :
  hdr ≠ 0 → console_step c0 c →
  ∃ c', print_map_step (c, hdr) = inl (c', blk_next (mem c') hdr) ∧ console_step c0 c'.
Proof.
  intros Hh Hc. unfold print_map_step. rewrite (proj2 (Z.eqb_neq hdr 0)) by done.
  eexists. split; [reflexivity|]. auto 10 with console.
Qed.

(** The walk of [print_memory_map] over a well-formed heap ends. *)
Lemma print_map_loop c0 c hdr prev l fuel :
  console_step c0 c → blocks_at (mem c0) prev hdr l 0 → KERNEL_HEAP_START <= hdr →
  Forall block_ok l → (length l < fuel)%nat →
  ∃ c', loop fuel print_map_step (c, ptr_to hdr l 0) = Some c' ∧ console_step c0 c'.
Proof.
  intros Hc Hat Hhdr Hl. revert prev hdr c fuel Hc Hat Hhdr.
  induction Hl as [|[s fl] l [Hs _] Hl IH]; intros prev hdr c fuel Hc Hat Hhdr Hf;
    (destruct fuel as [|fuel]; [simpl in Hf; lia|]); cbn [loop ptr_to].
  { by exists c. }
  destruct Hat as [Hn Hat]. cbn [fst] in Hs.
  destruct (print_map_step_ok c0 c hdr) as (c' & -> & Hc'); [heap_consts; lia|done|].
  assert (node (mem c') hdr prev (ptr_to (hdr + sizeof_memory_block + s) l 0) s fl) as (_ & _ & _ & -> & _).
  { eapply node_frame; [apply Hc'| |exact Hn]. intros a. unfold span. region_lia. }
  apply (IH hdr _ c' fuel Hc' Hat); [heap_consts; lia|simpl in Hf; lia].
Qed.

Lemma print_memory_map_ok mm c l :
  heap_inv mm (mem c) l → term_ok c → ∃ c', print_memory_map mm c = Some c' ∧ console_step c c'.
Proof.
  intros Hl Hc. unfold print_memory_map. cbv zeta. rewrite (heap_map_ptr _ _ _ Hl).
  eapply print_map_loop; [auto 8 with console|apply Hl|lia|apply Hl|].
  by eapply heap_length_bound.
Qed.

(** ** Every command *)

#[local] Hint Extern 1 (prints _ (foldl _ _ _)) => (apply foldl_prints; [intros|]) : prints.

Section commands.
Context (E : env) (HE : env_ok E) (k : kernel) (Hk : kernel_ok E k).

Lemma prints_ok k1 k2 : kernel_ok E k1 → prints k1 k2 → kernel_ok E k2.
Proof. intros Hk1 (c & -> & Hc). by apply kernel_ok_con. Qed.

Lemma prints_self : prints k k.
Proof. apply prints_refl, Hk. Qed.
#[local] Hint Resolve prints_self : prints.

(** Continuing with messages after a change of state. *)
Lemma then_prints k1 (f : kernel → kernel) :
  kernel_ok E k1 → (∀ k2, prints k1 k2 → prints k1 (f k2)) → kernel_ok E (f k1).
Proof. intros Hk1 Hf. eapply prints_ok; [exact Hk1|]. apply Hf, prints_refl, Hk1. Qed.

Lemma shell_help_prints : prints k (shell_help k).
Proof.
  unfold shell_help. apply foldl_prints; [|auto with prints].
  intros k' [name [f description]] H. auto 8 with prints.
Qed.
Lemma shell_clear_prints : prints k (shell_clear k).
Proof. unfold shell_clear. auto with prints. Qed.
Lemma shell_info_prints : prints k (shell_info k).
Proof. unfold shell_info. auto 10 with prints. Qed.
Lemma shell_memory_prints : prints k (shell_memory k).
Proof. apply on_con_prints; [|auto with prints]. intros c Hc. by apply print_memory_info_console. Qed.
Lemma shell_paging_prints : prints k (shell_paging k).
Proof. unfold shell_paging. auto 8 with prints. Qed.
Lemma shell_pwd_prints : prints k (shell_pwd k).
Proof. unfold shell_pwd. destruct (fs_get_cwd _ _); [destruct (_ =? 0)|]; auto 8 with prints. Qed.

Lemma shell_ls_prints : prints k (shell_ls E k).
Proof.
  unfold shell_ls. destruct (fs_listdir _ _ _ _); [|auto with prints].
  apply foldl_prints; [|auto 8 with prints].
  intros k' e H. unfold ls_entry. destruct (i_type e); auto 8 with prints.
Qed.

Lemma column_prints text width k' : prints k k' → prints k (column text width k').
Proof.
  intros H. unfold column. apply say_prints, on_con_prints; [|auto with prints].
  intros c Hc. apply pad_to_after. auto with console.
Qed.
#[local] Hint Resolve column_prints : prints.

Lemma shell_ps_prints : prints k (shell_ps k).
Proof.
  unfold shell_ps. apply report_prints, foldl_prints; [|auto 8 with prints].
  intros k' b H. unfold ps_entry. auto 12 with prints.
Qed.

Lemma shell_memmap_ok : ∃ k', shell_memmap k = Some k' ∧ kernel_ok E k'.
Proof.
  destruct (mo_heap _ _ (ko_mem E k Hk)) as [l Hl].
  destruct (print_memory_map_ok (k_mm k) (k_con k) l Hl (ko_con E k Hk)) as (c & Ec & Hc).
  unfold shell_memmap. rewrite Ec. cbn [mbind option_bind]. eexists. split; [reflexivity|].
  by apply kernel_ok_con.
Qed.

Lemma shell_malloc_ok argv :
  (∀ size, parse_dec 0 (arg argv 1) = Some size → size <= 0xFFFFFFFC) →
  ∃ k', shell_malloc k argv = Some k' ∧ kernel_ok E k'.
Proof.
  intros Hs. unfold shell_malloc.
  destruct (_ <? 2); [eexists; split; [reflexivity|]; apply then_prints; auto with prints|].
  destruct (parse_dec 0 _) as [size|] eqn:Ed;
    [|eexists; split; [reflexivity|]; apply then_prints; auto with prints].
  destruct (size =? 0); [eexists; split; [reflexivity|]; apply then_prints; auto with prints|].
  assert (0 <= size) as H0.
  { rewrite parse_dec_digits in Ed by done. destruct (forallb _ _); [|done]. injection Ed as <-.
    apply u32_range. }
  destruct (kernel_malloc E k Hk size (conj H0 (Hs size eq_refl))) as (p & h & -> & Hok).
  cbn [mbind option_bind]. eexists. split; [reflexivity|].
  destruct (negb _).
  - apply (then_prints (set_heap k h) (λ k, say [10] (say_hex p (say (lit " bytes at address: ")
      (say_hex size (say (lit "Allocated ") k)))))); [exact Hok|]. auto 8 with prints.
  - apply then_prints; auto with prints.
Qed.

Lemma shell_free_ok argv :
  (∀ addr, parse_hex 0 (if has_0x (arg argv 1) then drop 2 (arg argv 1) else arg argv 1) = Some addr →
     addr = 0 ∨ freeable k addr) →
  ∃ k', shell_free k argv = Some k' ∧ kernel_ok E k'.
Proof.
  intros Hs. unfold shell_free.
  destruct (_ <? 2); [eexists; split; [reflexivity|]; apply then_prints; auto with prints|].
  destruct (parse_hex 0 _) as [addr|] eqn:Ed;
    [|eexists; split; [reflexivity|]; apply then_prints; auto with prints].
  assert (∃ h, kfree (k_mm k) (ram_of k) addr = Some h ∧ kernel_ok E (set_heap k h)) as (h & -> & Hok).
  { destruct (Hs addr eq_refl) as [->|Hf]; [|by apply kernel_free].
    exists (heap_of k). split; [done|]. by destruct k as [? [] ? ? ? ? ?]. }
  cbn [mbind option_bind]. eexists. split; [reflexivity|].
  apply (then_prints (set_heap k h) (λ k, say [10] (say_hex addr (say (lit "Freed memory at address: 0x") k))));
    [exact Hok|]. auto 8 with prints.
Qed.

(** The arguments of a command are strings of at most 63 characters. *)
Context (argv : list (list Z)) (Hargs : Forall (λ w, str_ok w ∧ Str.strlen w <= 63) argv).

Lemma arg_ok i : str_ok (arg argv i) ∧ Str.strlen (arg argv i) <= 63.
Proof.
  unfold arg. destruct (decide (i < length argv)%nat) as [Hi|Hi].
  - rewrite Forall_forall in Hargs. apply Hargs. by apply list_elem_of_In, nth_In.
  - rewrite nth_overflow by lia. split; [constructor|done].
Qed.

Lemma full_path_ok : str_ok (full_path argv) ∧ Str.strlen (full_path argv) < FS_MAX_PATH.
Proof.
  destruct (arg_ok 1) as [Hs Hl]. unfold full_path. split.
  - apply Forall_app. split; [by repeat constructor|exact Hs].
  - unfold Str.strlen in *. rewrite length_app. change (length (lit "/")) with 1%nat. unfold FS_MAX_PATH. lia.
Qed.

Lemma file_command_ok op usage success failure k' :
  (∀ p r s con, str_ok p → op (k_fs k) (k_con k) p = Some (r, (s, con)) →
     fs_ok s ∧ console_step (k_con k) con) →
  file_command op usage success failure k argv = Some k' → kernel_ok E k'.
Proof.
  intros Hop. unfold file_command.
  destruct (_ <? 2); [intros [= <-]; apply then_prints; auto with prints|].
  destruct (op _ _ _) as [[r [s con]]|] eqn:Eo; [|done]. cbn [mbind option_bind].
  destruct (Hop _ _ _ _ (proj1 full_path_ok) Eo) as [Hs Hcon].
  assert (kernel_ok E (k <| k_con := con |> <| k_fs := s |>)) as Hok.
  { apply kernel_ok_fs; [by apply kernel_ok_con|done]. }
  destruct (r =? FS_SUCCESS); intros [= <-]; (eapply prints_ok; [exact Hok|]);
    [apply print_success_prints|apply print_error_prints]; apply prints_refl; apply Hok.
Qed.

Lemma shell_touch_ok k' : shell_touch E k argv = Some k' → kernel_ok E k'.
Proof.
  apply file_command_ok. intros p r s con Hp Ec.
  destruct (fs_create_step _ _ _ _ _ _ _ (proj1 (ko_fs E k Hk)) (ko_con E k Hk) Hp Ec) as [Hs Hc].
  split; [exact (fs_step_ok _ _ (ko_fs E k Hk) Hs)|done].
Qed.
Lemma shell_rm_ok k' : shell_rm k argv = Some k' → kernel_ok E k'.
Proof.
  apply file_command_ok. intros p r s con Hp. apply (quiet_ok E k Hk). intros r1 s1 H.
  eapply fs_delete_step; [apply Hk|exact Hp|exact H].
Qed.
Lemma shell_mkdir_ok k' : shell_mkdir E k argv = Some k' → kernel_ok E k'.
Proof.
  apply file_command_ok. intros p r s con Hp. apply (quiet_ok E k Hk). intros r1 s1 H.
  eapply fs_mkdir_step; [apply Hk|exact Hp|exact H].
Qed.
Lemma shell_rmdir_ok k' : shell_rmdir k argv = Some k' → kernel_ok E k'.
Proof.
  apply file_command_ok. intros p r s con Hp. apply (quiet_ok E k Hk). intros r1 s1 H.
  eapply fs_rmdir_step; [apply Hk|exact Hp|exact H].
Qed.

Lemma shell_cat_ok : ∃ k', shell_cat E k argv = Some k' ∧ kernel_ok E k'.
Proof.
  destruct (ko_fs E k Hk) as (Hs & _ & _ & Hz).
  rewrite (shell_cat_result E k argv (fi_init _ Hs) Hz). eexists. split; [reflexivity|].
  destruct (_ <? 2); [apply then_prints; auto with prints|].
  destruct (negb _); [apply then_prints; auto with prints|].
  destruct (find_directory_entry _ _); [exact Hk|].
  apply (then_prints k (λ k, print_error _ (say _ k))); [exact Hk|]. auto with prints.
Qed.

(** The file commands return when their operation does. *)
Lemma file_command_returns op usage success failure :
  (∃ r s con, op (k_fs k) (k_con k) (full_path argv) = Some (r, (s, con))) →
  ∃ k', file_command op usage success failure k argv = Some k'.
Proof.
  intros (r & s & con & E1). unfold file_command. destruct (_ <? 2); [by eexists|].
  rewrite E1. cbn [mbind option_bind]. by eexists.
Qed.

Lemma kernel_initialized : initialized (k_fs k) = true.
Proof. apply (ko_fs E k Hk). Qed.

Lemma shell_touch_returns : ∃ k', shell_touch E k argv = Some k'.
Proof. apply file_command_returns, fs_create_returns, kernel_initialized. Qed.
Lemma shell_mkdir_returns : ∃ k', shell_mkdir E k argv = Some k'.
Proof. apply file_command_returns, quiet_returns, fs_mkdir_returns, kernel_initialized. Qed.
Lemma shell_rm_returns : erasable (k_fs k) (full_path argv) → ∃ k', shell_rm k argv = Some k'.
Proof.
  intros He. apply file_command_returns, quiet_returns, fs_delete_returns; [apply kernel_initialized|done].
Qed.
Lemma shell_rmdir_returns : erasable (k_fs k) (full_path argv) → ∃ k', shell_rmdir k argv = Some k'.
Proof.
  intros He. apply file_command_returns, quiet_returns, fs_rmdir_returns; [apply kernel_initialized|done].
Qed.

Lemma shell_cd_ok : kernel_ok E (shell_cd k argv).
Proof.
  unfold shell_cd. destruct (_ <? 2); [apply then_prints; auto with prints|].
  destruct (_ && _); [apply then_prints; auto with prints|].
  set (path := if _ || _ then _ else _).
  assert (str_ok path ∧ Str.strlen path < FS_MAX_PATH) as [Hp Hl].
  { unfold path. destruct (_ || _); [|apply full_path_ok].
    destruct (arg_ok 1) as [? ?]. split; [done|]. unfold FS_MAX_PATH. lia. }
  destruct (fs_chdir (k_fs k) (Some path)) as [r s] eqn:Ec.
  pose proof (kernel_ok_fs E k Hk s (fs_chdir_ok _ _ _ _ (ko_fs E k Hk) Hp Hl Ec)) as Hok.
  destruct (r =? FS_SUCCESS); (eapply prints_ok; [exact Hok|]);
    [apply print_success_prints|apply print_error_prints]; apply prints_refl; apply Hok.
Qed.

Lemma shell_fs_info_ok : kernel_ok E (shell_fs_info k).
Proof.
  unfold shell_fs_info. destruct (fs_get_stats (k_fs k)) as [r s] eqn:Es.
  pose proof (fs_step_ok _ _ (ko_fs E k Hk) (fs_get_stats_step _ _ _ (proj1 (ko_fs E k Hk)) Es)) as Hs.
  pose proof (kernel_ok_fs E k Hk s Hs) as Hok. set (k1 := k <| k_fs := s |>) in *. clearbody k1.
  assert (prints k1 k1) as H1 by apply prints_refl, Hok.
  eapply prints_ok; [exact Hok|]. destruct r; [|auto with prints].
  destruct (fs_get_free_space _); auto 12 with prints.
Qed.

Lemma shell_kill_ok :
  (∀ pid, parse_dec 0 (arg argv 1) = Some pid → killable k pid) →
  ∃ k', shell_kill k argv = Some k' ∧ kernel_ok E k'.
Proof.
  intros Hc. unfold shell_kill.
  destruct (_ <? 2); [eexists; split; [reflexivity|]; apply then_prints; auto with prints|].
  destruct (parse_dec 0 _) as [pid|];
    [|eexists; split; [reflexivity|]; apply then_prints; auto with prints].
  destruct (pid =? 0); [eexists; split; [reflexivity|]; apply then_prints; auto with prints|].
  destruct (kernel_kill E k Hk pid (Hc pid eq_refl)) as (r & s & h & -> & Hok). cbn [mbind option_bind].
  eexists. split; [reflexivity|]. eapply prints_ok; [exact Hok|].
  pose proof (prints_refl _ (ko_con E _ Hok)).
  destruct (r =? PROCESS_SUCCESS); [|destruct (r =? PROCESS_ERROR_NOT_FOUND)]; auto with prints.
Qed.

Lemma shell_priority_ok : ∃ k', shell_priority k argv = Some k' ∧ kernel_ok E k'.
Proof.
  unfold shell_priority. destruct (_ <? 3).
  { eexists. split; [reflexivity|].
    apply (then_prints k (λ k, print_info _ (print_error _ k))); [exact Hk|]. auto with prints. }
  destruct (parse_dec 0 _) as [pid|];
    [|eexists; split; [reflexivity|]; apply then_prints; auto with prints].
  destruct (parse_dec 0 _) as [priority|];
    [|eexists; split; [reflexivity|]; apply then_prints; auto with prints].
  destruct (_ || _); [eexists; split; [reflexivity|]; apply then_prints; auto with prints|].
  destruct (kernel_set_priority E k Hk pid priority) as (r & s & -> & Hok). cbn [mbind option_bind].
  eexists. split; [reflexivity|]. eapply prints_ok; [exact Hok|].
  pose proof (prints_refl _ (ko_con E _ Hok)).
  destruct (r =? PROCESS_SUCCESS); [|destruct (r =? PROCESS_ERROR_NOT_FOUND)]; auto with prints.
Qed.
End commands.

(** ** Command lines *)

(** The system call a [syscall] command makes. *)
Definition call_of (argv : list (list Z)) : option syscall_args :=
  match parse_dec 0 (arg argv 1), parse_values (take 5 (drop 2 argv)) with
  | Some num, inr args =>
      let a i := nth i args 0 in
      Some (MkArgs num (a 0%nat) (a 1%nat) (a 2%nat) (a 3%nat) (a 4%nat))
  | _, _ => None
  end.

(** The command lines that cannot damage the kernel. *)
Definition harmless_argv (k : kernel) (argv : list (list Z)) : Prop :=
  match command_map !! arg argv 0 with
  | Some cmd_malloc => ∀ size, parse_dec 0 (arg argv 1) = Some size → size <= 0xFFFFFFFC
  | Some cmd_free =>
      ∀ addr, parse_hex 0 (if has_0x (arg argv 1) then drop 2 (arg argv 1) else arg argv 1) = Some addr →
        addr = 0 ∨ freeable k addr
  | Some cmd_kill => ∀ pid, parse_dec 0 (arg argv 1) = Some pid → killable k pid
  | Some cmd_syscall => ∀ a, call_of argv = Some a → harmless k a
  | _ => True
  end.
Definition line_harmless (k : kernel) (line : list Z) : Prop := harmless_argv k (take 8 (words line)).

(** When a command line returns: [rm] and [rmdir] when the clusters of what they delete
    form a chain, [syscall] when its call returns, every other one always. *)
Definition argv_ends (E : env) (k : kernel) (argv : list (list Z)) : Prop :=
  match command_map !! arg argv 0 with
  | Some cmd_rm | Some cmd_rmdir => erasable (k_fs k) (full_path argv)
  | Some cmd_syscall => ∀ a, call_of argv = Some a → ends E k a
  | _ => True
  end.
Definition line_ends (E : env) (k : kernel) (line : list Z) : Prop := argv_ends E k (take 8 (words line)).

Lemma parse_hex_u32 v s r : is_u32 v → parse_hex v s = Some r → is_u32 r.
Proof.
  revert v. induction s as [|c s IH]; intros v Hv; cbn [parse_hex]; [by intros [= <-]|].
  destruct (hex_nibble c); [|done]. cbn [mbind option_bind]. apply IH, u32_range.
Qed.

Lemma parse_value_u32 s v : parse_value s = inr v → is_u32 v.
Proof.
  unfold parse_value. destruct (has_0x s).
  - destruct (parse_hex 0 _) eqn:E; [|done]. intros [= <-]. by eapply parse_hex_u32 in E.
  - rewrite parse_dec_digits by done. destruct (forallb _ _); [|done]. intros [= <-]. apply u32_range.
Qed.

Lemma parse_values_u32 l vs i : parse_values l = inr vs → is_u32 (nth i vs 0).
Proof.
  revert vs i. induction l as [|s l IH]; intros vs i; cbn [parse_values].
  { intros [= <-]. by destruct i. }
  destruct (parse_value s) as [|v] eqn:Ev; [done|]. destruct (parse_values l) as [|vs']; [done|].
  intros [= <-]. destruct i; cbn [nth]; [by apply (parse_value_u32 s)|]. by apply IH.
Qed.

Section lines.
Context (E : env) (HE : env_ok E) (k : kernel) (Hk : kernel_ok E k).

Lemma shell_syscall_ok argv :
  (∀ a, call_of argv = Some a → harmless k a) →
  (∀ k', shell_syscall E k argv = Some k' → kernel_ok E k') ∧
  ((∀ a, call_of argv = Some a → ends E k a) → ∃ k', shell_syscall E k argv = Some k').
Proof.
  intros Hc. pose proof (prints_refl _ (ko_con E k Hk)) as H0. unfold shell_syscall.
  assert (∀ k1 (P : Prop), prints k k1 →
    (∀ k', Some k1 = Some k' → kernel_ok E k') ∧ (P → ∃ k', Some k1 = Some k')) as Hsay.
  { intros k1 P H1. split; [intros k' [= <-]; by apply (prints_ok E k)|by eexists]. }
  destruct (_ <? 2); [apply Hsay; auto with prints|].
  destruct (_ =? 0).
  { apply Hsay, on_con_prints; [|done]. intros c. apply syscall_list_console. }
  unfold call_of in *. rewrite parse_dec_digits in * by done.
  destruct (forallb _ _); [|apply Hsay; auto with prints].
  set (num := u32 _) in *.
  destruct (parse_values _) as [e|args] eqn:Ea; [apply Hsay; auto with prints|].
  set (a := MkArgs _ _ _ _ _ _) in *.
  destruct (execute_ok E k a HE Hk) as [Hok Hret].
  - split; [apply u32_range|]. split_and!; eapply parse_values_u32; exact Ea.
  - by apply Hc.
  - split.
    + intros k'. destruct (syscall_execute E k a) as [[r k1]|]; [|intros [=]]. cbn [mbind option_bind].
      specialize (Hok r k1 eq_refl). pose proof (prints_refl _ (ko_con E k1 Hok)).
      intros [= <-]. eapply prints_ok; [exact Hok|]. auto with prints.
    + intros He. destruct (Hret (He a eq_refl)) as (r & k1 & ->). by eexists.
Qed.

Lemma run_command_ok f argv :
  Forall (λ w, str_ok w ∧ Str.strlen w <= 63) argv →
  command_map !! arg argv 0 = Some f → harmless_argv k argv →
  (∀ k', run_command E k f argv = Some k' → kernel_ok E k') ∧
  (argv_ends E k argv → ∃ k', run_command E k f argv = Some k').
Proof.
  intros Ha Hf Hh. unfold harmless_argv in Hh. unfold argv_ends. rewrite Hf in *. clear Hf.
  assert (∀ (P : Prop) (r : option kernel), (∃ k', r = Some k' ∧ kernel_ok E k') →
    (∀ k', r = Some k' → kernel_ok E k') ∧ (P → ∃ k', r = Some k')) as Hsplit.
  { intros P r (k' & -> & Hk'). split; [by intros ? [= <-]|by exists k']. }
  assert (∀ k', prints k k' → ∃ k1, Some k' = Some k1 ∧ kernel_ok E k1) as Hpr.
  { intros k' H. exists k'. split; [done|]. by apply (prints_ok E k). }
  destruct f; cbn [run_command] in *.
  - apply Hsplit, Hpr, (shell_help_prints E k Hk).
  - apply Hsplit, Hpr, (shell_clear_prints E k Hk).
  - apply Hsplit, Hpr, (shell_info_prints E k Hk).
  - apply Hsplit, Hpr, (shell_memory_prints E k Hk).
  - apply Hsplit, (shell_malloc_ok E k Hk argv Hh).
  - apply Hsplit, (shell_free_ok E k Hk argv Hh).
  - apply Hsplit, Hpr, (shell_paging_prints E k Hk).
  - apply Hsplit, (shell_memmap_ok E k Hk).
  - apply Hsplit, Hpr, (shell_ls_prints E k Hk).
  - apply Hsplit, (shell_cat_ok E k Hk argv).
  - split; [exact (shell_touch_ok E k Hk argv Ha)|intros _; exact (shell_touch_returns E k Hk argv)].
  - split; [exact (shell_rm_ok E k Hk argv Ha)|exact (shell_rm_returns E k Hk argv)].
  - split; [exact (shell_mkdir_ok E k Hk argv Ha)|intros _; exact (shell_mkdir_returns E k Hk argv)].
  - split; [exact (shell_rmdir_ok E k Hk argv Ha)|exact (shell_rmdir_returns E k Hk argv)].
  - apply Hsplit. exists (shell_cd k argv). split; [reflexivity|]. exact (shell_cd_ok E k Hk argv Ha).
  - apply Hsplit, Hpr, (shell_pwd_prints E k Hk).
  - apply Hsplit. exists (shell_fs_info k). split; [reflexivity|]. exact (shell_fs_info_ok E k Hk).
  - apply Hsplit, Hpr, (shell_ps_prints E k Hk).
  - apply Hsplit, (shell_kill_ok E k Hk argv Hh).
  - apply Hsplit, (shell_priority_ok E k Hk argv).
  - exact (shell_syscall_ok argv Hh).
Qed.
End lines.

(** One command line; [kernel_ok] before gives [kernel_ok] after. *)
Lemma execute_line_ok E k line :
  env_ok E → kernel_ok E k → str_ok line → Str.strlen line <= 63 → line_harmless k line →
  (∀ k', shell_execute_command E k line = Some k' → kernel_ok E k') ∧
  (line_ends E k line → ∃ k', shell_execute_command E k line = Some k').
Proof.
  intros HE Hk Hs Hl Hh. rewrite (execute_line E k line Hs Hl). unfold line_harmless, line_ends in *.
  assert (Forall (λ w, str_ok w ∧ Str.strlen w <= 63) (take 8 (words line))) as Ha.
  { apply Forall_take, Forall_forall. intros w Hw. split; [by eapply words_chars|].
    unfold words in Hw. apply list_elem_of_filter in Hw as [_ Hw].
    pose proof (split_blank_length line) as H. rewrite Forall_forall in H. apply H in Hw.
    unfold Str.strlen in *. lia. }
  pose proof (prints_refl k (ko_con E k Hk)) as H0.
  assert (∀ k1, kernel_ok E k1 → kernel_ok E (shell_prompt (color VGA_COLOR_LIGHT_GREY (say [10] k1)))) as Hend.
  { intros k1 Hk1. eapply (prints_ok E k1 _ Hk1). apply shell_prompt_prints, color_prints, say_prints.
    apply prints_refl, Hk1. }
  destruct (take 8 (words line)) as [|name args] eqn:Ew.
  { split; [|by eexists]. intros k' [= <-]. eapply (prints_ok E k _ Hk). by apply shell_prompt_prints. }
  destruct (command_map !! name) as [f|] eqn:Ef.
  - destruct (run_command_ok E HE k Hk f (name :: args) Ha Ef Hh) as [H1 H2]. split.
    + intros k'. destruct (run_command E k f (name :: args)) as [k1|]; cbn [mbind option_bind];
        [|intros [=]].
      intros [= <-]. by apply Hend, H1.
    + intros Ht. destruct (H2 Ht) as (k1 & ->). by eexists.
  - split; [|by eexists]. intros k' [= <-]. eapply (prints_ok E k _ Hk).
    apply shell_prompt_prints, color_prints, say_prints, color_prints. exact H0.
Qed.

(** ** Properties *)

(** C4: no harmless command line damages the kernel: whatever the line does and whatever its
    outcome, every part of the kernel is well formed afterwards; the commands that may
    harm it are [free] of an address that is not an allocated block of the user, [kill]
    of a process that is dead already, [malloc] of the last three sizes and [syscall] with
    arguments that are not harmless; and every line returns, [rm] and [rmdir] when the
    clusters of what they delete form a chain, [syscall] when its call does. *)
Theorem shell_preserves_invariant E k line :
  env_ok E → kernel_ok E k → str_ok line → Str.strlen line <= 63 → line_harmless k line →
  (∀ k', shell_execute_command E k line = Some k' → kernel_ok E k') ∧
  (line_ends E k line → ∃ k', shell_execute_command E k line = Some k').
Proof. apply execute_line_ok. Qed.

Lemma shell_preserves_invariant_witness :
  ∃ k', shell_execute_command demo_env demo_kernel (lit "kill 7") = Some k' ∧ kernel_ok demo_env k'.
Proof.
  assert (str_ok (lit "kill 7")) as Hs by (apply lit_str_ok; vm_compute; reflexivity).
  assert (take 8 (words (lit "kill 7")) = [lit "kill"; lit "7"]) as Ew by (vm_compute; reflexivity).
  assert (command_map !! lit "kill" = Some cmd_kill) as Ef by (vm_compute; reflexivity).
  destruct (shell_preserves_invariant demo_env demo_kernel (lit "kill 7") demo_env_ok demo_kernel_ok Hs)
    as [H1 H2].
  - vm_compute. discriminate.
  - unfold line_harmless, harmless_argv. rewrite Ew. change (arg [lit "kill"; lit "7"] 0) with (lit "kill").
    rewrite Ef. change (parse_dec 0 (arg [lit "kill"; lit "7"] 1)) with (Some 7). intros pid [= <-] i.
    rewrite (bt_procs _ _ _ demo_kernel_booted). discriminate.
  - destruct H2 as (k' & E).
    + unfold line_ends, argv_ends. rewrite Ew. change (arg [lit "kill"; lit "7"] 0) with (lit "kill").
      rewrite Ef. exact I.
    + exists k'. split; [exact E|]. exact (H1 k' E).
Defined.
