(* ===== verification/Session.v ===== *)
(** * Sessions

    Everything that can happen to the kernel after booting, as a relation on the states of the
    main loop: steps of the processor, keyboard interrupts between any two of them, command
    lines, system calls.  The invariant holds in every state reached, but for the ring
    buffer when an interrupt hits its update, and the main loop serves one line after the
    other. *)

From S2P Require Import Prelude Ram CString Vga Memory Heap HeapCorrect Alloc PhysPages Paging.
From S2P Require Import PagingCorrect Keyboard Interrupt Fat FsNames Fs FsCorrect FsPreserve FsTotal Process ProcessCorrect.
From S2P Require Import ProcessSteps SysTable Layout Kernel KernelInv Syscall Shell ShellFrame Boot SyscallCorrect ShellInput ShellCorrect ShellFiles ShellInv.
Set Default Goal Selector "!".

(** ** The states *)

(** The states the kernel and its main loop go through: booted, it prints the prompt and reads
    lines; keyboard interrupts come at any point of the reading that [P] allows; complete
    lines are executed, and system calls served, all of them harmless. *)
Inductive session (E : env) (P : read_pc → Prop) : reader → Prop :=
| session_boot m : session E P (reading (shell_prompt (kmain E (kernel_image m))))
| session_irq t status scancode :
    session E P t → P (r_pc t) → is_u8 scancode → session E P (input_irq status scancode t)
| session_step t t' :
    session E P t → (r_pc t = At_end → line_harmless (r_kernel t) (r_buf t)) →
    shell_step E t = Some t' → session E P t'
| session_call t a r k' :
    session E P t → args_ok a → harmless (r_kernel t) a →
    syscall_execute E (r_kernel t) a = Some (r, k') → session E P (t <| r_kernel := k' |>).

Lemma session_mono E (P Q : read_pc → Prop) t : (∀ pc, P pc → Q pc) → session E P t → session E Q t.
Proof.
  intros H. induction 1 as [m|t st sc _ IH Hp Hs|t t' _ IH Hh Ex|t a r k' _ IH Ha Hh Ex].
  - exact (session_boot E Q m).
  - exact (session_irq E Q t st sc IH (H _ Hp) Hs).
  - exact (session_step E Q t t' IH Hh Ex).
  - exact (session_call E Q t a r k' IH Ha Hh Ex).
Qed.

(** ** Commands and calls with a damaged ring buffer *)

(** What is left of the driver's invariant when an interrupt hits the update of
    [buffer_count]: no access is out of bounds. *)
Record kbd_bounds (kb : keyboard) : Prop := {
  kb_len : length (input_buffer kb) = 256%nat;
  kb_head : 0 <= buffer_head kb < 256;
  kb_tail : 0 <= buffer_tail kb < 256;
  kb_count : 0 <= buffer_count kb <= 256;
}.

(** Everything but the ring buffer is well formed, and that is within its bounds. *)
Definition kernel_safe (E : env) (k : kernel) : Prop :=
  kbd_bounds (k_kbd k) ∧ ∀ kb, kbd_inv kb → kernel_ok E (with_kbd kb k).

Definition fresh_kbd : keyboard :=
  MkKeyboard (MkKeyboardState false false false false false false) (replicate 256 0) 0 0 0.
Lemma fresh_kbd_inv : kbd_inv fresh_kbd.
Proof. exact (proj1 (keyboard_init_ok fresh_kbd)). Qed.

Lemma kbd_inv_bounds kb : kbd_inv kb → kbd_bounds kb.
Proof. intros [H1 H2 H3 H4]. split; [done|done| |done]. rewrite H4. word_lia. Qed.

Lemma with_kbd_same k : with_kbd (k_kbd k) k = k.
Proof. by destruct k. Qed.

Lemma kernel_safe_ok E k : kernel_safe E k → kbd_inv (k_kbd k) → kernel_ok E k.
Proof. intros [_ H] Hk. rewrite <- (with_kbd_same k). by apply H. Qed.

Lemma kernel_ok_safe E k : kernel_ok E k → kernel_safe E k.
Proof.
  intros Hk. split; [by apply kbd_inv_bounds, (ko_kbd E)|]. intros kb Hkb. by apply (kernel_ok_kbd E k Hk).
Qed.

(** The same kernel with another keyboard and the same screen. *)
Lemma kernel_safe_kbd E k kb : kernel_safe E k → kbd_bounds kb → kernel_safe E (with_kbd kb k).
Proof. intros [_ H] Hb. by split. Qed.

Lemma kernel_safe_con E k f :
  (∀ c, term_ok c → console_step c (f c)) → kernel_safe E k → kernel_safe E (on_con f k).
Proof.
  intros Hf [Hb H]. split; [exact Hb|]. intros kb Hkb. rewrite <- on_con_blind.
  apply (kernel_ok_con E _ (H kb Hkb)), Hf, (ko_con E _ (H kb Hkb)).
Qed.

(** A command line, as [execute_line_ok], without the ring buffer. *)
Lemma execute_line_safe E k line :
  env_ok E → kernel_safe E k → str_ok line → Str.strlen line <= 63 → line_harmless k line →
  (∀ k', shell_execute_command E k line = Some k' → kernel_safe E k' ∧ k_kbd k' = k_kbd k) ∧
  (line_ends E k line → ∃ k', shell_execute_command E k line = Some k').
Proof.
  intros HE [Hb H] Hs Hl Hh. split.
  - intros k' Ex. assert (k_kbd k' = k_kbd k) as Hkbd.
    { pose proof (execute_command_blind E line (k_kbd k) k) as Hbl. cbv beta in Hbl.
      rewrite with_kbd_same, Ex in Hbl. injection Hbl as Hbl. by rewrite Hbl. }
    split; [|exact Hkbd]. split; [by rewrite Hkbd|]. intros kb Hkb.
    destruct (execute_line_ok E (with_kbd kb k) line HE (H kb Hkb) Hs Hl Hh) as [Hok _].
    apply Hok. rewrite (execute_command_blind E line kb k). by rewrite Ex.
  - intros He. destruct (execute_line_ok E (with_kbd fresh_kbd k) line HE (H _ fresh_kbd_inv) Hs Hl Hh) as [_ Hret].
    destruct (Hret He) as (k' & Ex). rewrite (execute_command_blind E line fresh_kbd k) in Ex.
    destruct (shell_execute_command E k line) as [k1|]; [by exists k1|done].
Qed.

Lemma call_safe E k a r k' :
  env_ok E → kernel_safe E k → args_ok a → harmless k a →
  syscall_execute E k a = Some (r, k') → kernel_safe E k' ∧ k_kbd k' = k_kbd k.
Proof.
  intros HE [Hb H] Ha Hh Ex. assert (k_kbd k' = k_kbd k) as Hkbd.
  { pose proof (syscall_execute_blind E a (k_kbd k) k) as Hbl. cbv beta in Hbl.
    rewrite with_kbd_same, Ex in Hbl. injection Hbl as Hbl. by rewrite Hbl. }
  split; [|exact Hkbd]. split; [by rewrite Hkbd|]. intros kb Hkb.
  destruct (execute_ok E (with_kbd kb k) a HE (H kb Hkb) Ha Hh) as [Hok _].
  apply (Hok r). rewrite (syscall_execute_blind E a kb k). by rewrite Ex.
Qed.

(** ** Reading with interrupts anywhere *)

(** The count that [keyboard_get_char] holds in a register. *)
Definition held (pc : read_pc) : Prop :=
  match pc with Got_count n | Got_char n _ | Moved_head n _ => 1 <= n <= 256 | _ => True end.

Definition reader_safe (E : env) (t : reader) : Prop :=
  kernel_safe E (r_kernel t) ∧ line_ok MAX_COMMAND_LENGTH t ∧ held (r_pc t).

Lemma buffer_put_bounds kb c : kbd_bounds kb → kbd_bounds (buffer_put kb c).
Proof.
  intros Hb. pose proof Hb as [H1 H2 H3 H4]. unfold buffer_put, INPUT_BUFFER_SIZE.
  destruct (Z.ltb_spec (buffer_count kb) 256); [|done].
  split; cbn; [by rewrite length_insert|done| |lia]. apply Z.rem_bound_pos; lia.
Qed.

Lemma handler_bounds kb status scancode :
  kbd_bounds kb → kbd_bounds (keyboard_interrupt_handler kb status scancode).
Proof.
  intros Hb. assert (∀ st, kbd_bounds (kb <| kbd_state := st |>)) as Hst by (intros st; destruct Hb; by split).
  pose proof (buffer_put_bounds kb) as Hput. unfold keyboard_interrupt_handler, process_scancode.
  repeat case_match; auto.
Qed.

Lemma irq_safe E k status scancode : kernel_safe E k → kernel_safe E (irq k status scancode).
Proof.
  intros Hk. change (irq k status scancode) with
    (with_kbd (keyboard_interrupt_handler (k_kbd k) status scancode) (on_con (outb 0x20 0x20) k)).
  apply kernel_safe_kbd; [|apply handler_bounds, Hk]. apply kernel_safe_con; [|exact Hk].
  intros c Hc. split; [exact Hc|apply only_refl].
Qed.

Lemma input_irq_safe E t status scancode : reader_safe E t → reader_safe E (input_irq status scancode t).
Proof.
  destruct t as [k buf pc]. intros (Hk & (Hb & Hp & Hroom) & Hh). split; [by apply irq_safe|].
  cbn [r_pc r_buf] in *. by destruct pc.
Qed.

Lemma input_step_safe E t : reader_safe E t → reader_safe E (input_step MAX_COMMAND_LENGTH t).
Proof.
  destruct t as [k buf pc]. intros (Hk & (Hb & Hp & Hroom) & Hh). cbn [r_kernel r_buf r_pc] in *.
  pose proof Hk as [Hkb _]. unfold input_step, set_kbd. cbn [r_pc r_buf r_kernel set_field eta_reader].
  assert (∀ pc', held pc' → (busy pc' = true → Str.strlen buf < MAX_COMMAND_LENGTH - 1) →
    reader_safe E (MkReader k buf pc')) as Hpc by done.
  destruct pc as [| |n|n ch|n ch|ch| | |]; cbn [busy racy held] in *.
  - apply Hpc; [by repeat case_match|]. destruct (Z.ltb_spec (Str.strlen buf) (MAX_COMMAND_LENGTH - 1)); done.
  - apply Hpc; [|auto]. destruct (Z.eqb_spec (buffer_count (k_kbd k)) 0); cbn [held]; [done|].
    destruct Hkb. lia.
  - by apply Hpc; auto.
  - split; [|by split]. apply (kernel_safe_kbd E k (advance_head (k_kbd k)) Hk).
    destruct Hkb as [H1 H2 H3 H4]. split; cbn; [done| |done|done]. apply Z.rem_bound_pos; unfold INPUT_BUFFER_SIZE; lia.
  - split; [|by split]. apply (kernel_safe_kbd E k (store_count n (k_kbd k)) Hk).
    destruct Hkb as [H1 H2 H3 H4]. split; cbn; [done|done|done|lia].
  - split; [|split; [exact (take_char_line _ k buf ch (Hroom eq_refl) Hp)|]].
    + assert (∀ c, kernel_safe E (on_con (λ con, vga_putchar con c) k)) as Hput.
      { intros c. apply kernel_safe_con; [|exact Hk]. auto with console. }
      unfold take_char. destruct (_ || _); [apply Hput|].
      destruct (_ || _); [destruct (0 <? _)|destruct (_ && _)]; done || apply Hput.
    + unfold take_char. destruct (_ || _); [done|].
      by destruct (_ || _); [destruct (0 <? _)|destruct (_ && _)].
  - by apply Hpc; auto.
  - by apply Hpc; auto.
  - by apply Hpc.
Qed.

(** ** The main loop *)

Lemma printable_str_ok line : Forall printable line → str_ok line.
Proof. intros H. eapply Forall_impl; [exact H|]. unfold printable. cbn. lia. Qed.

(** A step of the main loop that executes a line. *)
Lemma line_step E t :
  env_ok E → reader_safe E t → r_pc t = At_end → line_harmless (r_kernel t) (r_buf t) →
  (∀ t', shell_step E t = Some t' →
     ∃ k', t' = reading k' ∧ kernel_safe E k' ∧ k_kbd k' = kbd_of t) ∧
  (line_ends E (r_kernel t) (r_buf t) → ∃ t', shell_step E t = Some t').
Proof.
  intros HE (Hk & (Hb & Hp & _) & _) Hpc Hh. unfold shell_step. rewrite Hpc.
  destruct (execute_line_safe E (r_kernel t) (r_buf t) HE Hk (printable_str_ok _ Hp) Hb Hh) as [H1 H2]. split.
  - intros t'. destruct (shell_execute_command _ _ _) as [k'|]; [|intros [=]].
    cbn [mbind option_bind]. intros [= <-]. exists k'. split; [done|]. exact (H1 k' eq_refl).
  - intros He. destruct (H2 He) as (k' & ->). by eexists.
Qed.

Lemma reading_safe E k : kernel_safe E k → reader_safe E (reading k).
Proof. intros Hk. split; [exact Hk|]. split; [|exact I]. split; [done|]. by split. Qed.

Lemma reading_step E t :
  r_pc t ≠ At_end → shell_step E t = Some (input_step MAX_COMMAND_LENGTH t).
Proof. unfold shell_step. by destruct (r_pc t). Qed.

Lemma shell_step_safe E t t' :
  env_ok E → reader_safe E t → (r_pc t = At_end → line_harmless (r_kernel t) (r_buf t)) →
  shell_step E t = Some t' → reader_safe E t'.
Proof.
  intros HE Ht Hh Ex. destruct (decide (r_pc t = At_end)) as [E0|E0].
  - destruct (line_step E t HE Ht E0 (Hh E0)) as [H _]. destruct (H t' Ex) as (k' & -> & Hk' & _).
    by apply reading_safe.
  - rewrite reading_step in Ex by done. injection Ex as <-. by apply input_step_safe.
Qed.

Lemma booted_safe E m : env_ok E → reader_safe E (reading (shell_prompt (kmain E (kernel_image m)))).
Proof.
  intros HE. pose proof (bt_ok _ _ _ (kmain_booted E m HE)) as Hk.
  apply reading_safe, kernel_ok_safe. eapply (prints_ok E _ _ Hk). apply shell_prompt_prints, prints_refl, Hk.
Qed.

Lemma session_safe E P t : env_ok E → session E P t → reader_safe E t.
Proof.
  intros HE. induction 1 as [m|t st sc _ IH _ _|t t' _ IH Hh Ex|t a r k' _ IH Ha Hh Ex].
  - by apply booted_safe.
  - by apply input_irq_safe.
  - by apply (shell_step_safe E t).
  - destruct IH as (Hk & Hl & Hheld). split; [|by split]. by eapply (call_safe E (r_kernel t) a r).
Qed.

Lemma prompt_kbd k : k_kbd (shell_prompt k) = k_kbd k.
Proof. rewrite <- (with_kbd_same k) at 1. rewrite shell_prompt_blind. reflexivity. Qed.

Lemma booted_ring E m : env_ok E → ring_ok (reading (shell_prompt (kmain E (kernel_image m)))).
Proof.
  intros HE. pose proof (ko_kbd _ _ (bt_ok _ _ _ (kmain_booted E m HE))) as Hk. revert Hk.
  generalize (kmain E (kernel_image m)). intros k Hk.
  change (kbd_inv (k_kbd (shell_prompt k))). by rewrite prompt_kbd.
Qed.

(** The ring buffer as long as no interrupt hits the update. *)
Lemma session_ring E t : env_ok E → session E race_free t → ring_ok t.
Proof.
  intros HE Hs. induction Hs as [m|t st sc Hs IH Hp Hsc|t t' Hs IH Hh Ex|t a r k' Hs IH Ha Hh Ex].
  - exact (booted_ring E m HE).
  - destruct (session_safe E _ t HE Hs) as (_ & Hl & _).
    by destruct (irq_ok MAX_COMMAND_LENGTH t st sc (conj Hl IH) Hp Hsc) as ((_ & H) & _).
  - pose proof (session_safe E _ t HE Hs) as Ht. destruct (decide (r_pc t = At_end)) as [E0|E0].
    + destruct (line_step E t HE Ht E0 (Hh E0)) as [H _]. destruct (H t' Ex) as (k' & -> & _ & Hkbd).
      unfold ring_ok in IH. rewrite E0 in IH. change (kbd_inv (k_kbd k')). rewrite Hkbd. exact IH.
    + rewrite reading_step in Ex by done. injection Ex as <-. destruct Ht as (_ & Hl & _).
      by destruct (step_ok MAX_COMMAND_LENGTH t (conj Hl IH)) as ((_ & H) & _).
  - destruct (session_safe E _ t HE Hs) as (Hk & _ & _).
    destruct (call_safe E (r_kernel t) a r k' HE Hk Ha Hh Ex) as [_ Hkbd].
    unfold ring_ok, kbd_of in *. cbn [r_pc r_kernel set_field eta_reader]. by rewrite Hkbd.
Qed.

Lemma session_reader E t : env_ok E → session E race_free t → reader_ok MAX_COMMAND_LENGTH t.
Proof. intros HE Hs. destruct (session_safe E _ t HE Hs) as (_ & Hl & _). split; [exact Hl|]. by apply (session_ring E). Qed.

(** Outside the update the driver's invariant holds. *)
Lemma session_ok E t :
  env_ok E → session E race_free t → racy (r_pc t) = false → kernel_ok E (r_kernel t).
Proof.
  intros HE Hs Hp. destruct (session_safe E _ t HE Hs) as (Hk & _ & _).
  apply kernel_safe_ok; [exact Hk|]. pose proof (session_ring E t HE Hs) as Hr.
  unfold ring_ok, kbd_of in Hr. destruct (r_pc t); try done; apply Hr.
Qed.

(** When no interrupt comes before [hlt] either, the loop sleeps with nothing waiting. *)
Lemma session_alert E t : env_ok E → session E wakeful t → alert t.
Proof.
  intros HE Hs. induction Hs as [m|t st sc Hs IH Hp Hsc|t t' Hs IH Hh Ex|t a r k' Hs IH Ha Hh Ex].
  - intros [H|H]; discriminate H.
  - apply (session_mono E _ race_free) in Hs; [|by intros pc []].
    exact (next_alert MAX_COMMAND_LENGTH t (Irq st sc) (session_reader E t HE Hs) IH (proj2 Hp)).
  - apply (session_mono E _ race_free) in Hs; [|by intros pc []].
    destruct (decide (r_pc t = At_end)) as [E0|E0].
    + destruct (line_step E t HE (session_safe E _ t HE Hs) E0 (Hh E0)) as [H _]. destruct (H t' Ex) as (k' & -> & _).
      intros [H'|H']; discriminate H'.
    + rewrite reading_step in Ex by done. injection Ex as <-.
      exact (next_alert MAX_COMMAND_LENGTH t Cpu (session_reader E t HE Hs) IH I).
  - apply (session_mono E _ race_free) in Hs; [|by intros pc []].
    destruct (session_safe E _ t HE Hs) as (Hk & _ & _).
    destruct (call_safe E (r_kernel t) a r k' HE Hk Ha Hh Ex) as [_ Hkbd].
    unfold alert, kbd_of in *. cbn [r_pc r_kernel set_field eta_reader]. by rewrite Hkbd.
Qed.

(** ** Serving *)

(** Every line that the processor completes without further interrupts is harmless and
    ends. *)
Definition served (E : env) (t : reader) : Prop :=
  ∀ n t', shell_loop E t (replicate n Cpu) = Some t' → r_pc t' = At_end →
    line_harmless (r_kernel t') (r_buf t') ∧ line_ends E (r_kernel t') (r_buf t').

Lemma served_step E t t' : served E t → shell_step E t = Some t' → served E t'.
Proof.
  intros Hs Ex n t2 Hn. apply (Hs (S n)). cbn [replicate shell_loop shell_event]. rewrite Ex. exact Hn.
Qed.

(** One step, with what it changes of the weight. *)
Lemma served_weight E t :
  env_ok E → session E race_free t → served E t → r_pc t ≠ Asleep →
  ∃ t', shell_step E t = Some t' ∧ session E race_free t' ∧
    weight MAX_COMMAND_LENGTH t' < weight MAX_COMMAND_LENGTH t ∧ (alert t → alert t').
Proof.
  intros HE Hs Hserved Hpc. pose proof (session_safe E _ t HE Hs) as Ht. pose proof (session_reader E t HE Hs) as Hr.
  destruct (decide (r_pc t = At_end)) as [E0|E0].
  - destruct (Hserved O t eq_refl E0) as [Hh He]. destruct (line_step E t HE Ht E0 Hh) as [H1 H2].
    destruct (H2 He) as (t' & Ex). destruct (H1 t' Ex) as (k' & -> & _ & Hkbd). exists (reading k').
    split; [exact Ex|]. split; [exact (session_step E _ t _ Hs (λ _, Hh) Ex)|]. split.
    + unfold weight, waiting. rewrite E0. change (kbd_of (reading k')) with (k_kbd k'). rewrite Hkbd.
      change (20 * Str.strlen (kbd_queue (kbd_of t)) + 7 < 20 * Str.strlen (kbd_queue (kbd_of t)) + 8). lia.
    + intros _ [H|H]; discriminate H.
  - exists (input_step MAX_COMMAND_LENGTH t). pose proof (reading_step E t E0) as Ex.
    split; [exact Ex|]. split; [exact (session_step E _ t _ Hs (λ H, False_ind _ (E0 H)) Ex)|].
    split; [by apply step_weight|]. intros Ha. exact (next_alert _ t Cpu Hr Ha I).
Qed.

Lemma served_sleeps E t :
  env_ok E → session E race_free t → served E t → alert t →
  ∃ n t', shell_loop E t (replicate n Cpu) = Some t' ∧ session E race_free t' ∧
    r_pc t' = Asleep ∧ kbd_queue (kbd_of t') = [].
Proof.
  intros HE. remember (weight MAX_COMMAND_LENGTH t) as w eqn:Ew. revert t Ew.
  induction (Z.lt_wf 0 w) as [w _ IH]. intros t -> Hs Hserved Ha.
  destruct (decide (r_pc t = Asleep)) as [Es|Es].
  { exists O, t. split; [done|]. split; [done|]. split; [done|]. apply Ha. by right. }
  destruct (served_weight E t HE Hs Hserved Es) as (t1 & Ex & Hs1 & Hw & Ha1).
  pose proof (weight_nonneg MAX_COMMAND_LENGTH t1).
  destruct (IH (weight MAX_COMMAND_LENGTH t1) ltac:(lia) t1 eq_refl Hs1 (served_step E t t1 Hserved Ex) (Ha1 Ha))
    as (n & t' & En & H'). exists (S n), t'. split; [|exact H'].
  cbn [replicate shell_loop shell_event]. rewrite Ex. exact En.
Qed.

(** ** Properties *)

(** C1: the kernel never corrupts itself: in every state of the main loop reachable from booting on
    arbitrary memory by keyboard interrupts at any point of the reading loop, by harmless command
    lines and by harmless system calls, in any order and number, the invariant of the whole
    kernel holds, but for the ring buffer of the keyboard, whose accesses stay within
    bounds, and the line being read has at most 63 printable characters; and if no interrupt comes
    between the load and the store of [buffer_count] in [keyboard_get_char], the whole
    invariant holds, that of the ring buffer included, except between the two. *)
Theorem session_invariant E P t :
  env_ok E → session E P t →
  (∀ kb, kbd_inv kb → kernel_ok E (with_kbd kb (r_kernel t))) ∧ kbd_bounds (kbd_of t) ∧
  Str.strlen (r_buf t) <= 63 ∧ Forall printable (r_buf t) ∧
  ((∀ pc, P pc → race_free pc) → racy (r_pc t) = false → kernel_ok E (r_kernel t)).
Proof.
  intros HE Hs. destruct (session_safe E P t HE Hs) as ([Hb Hk] & (Hl & Hp & _) & _).
  split; [exact Hk|]. split; [exact Hb|]. split; [exact Hl|]. split; [exact Hp|].
  intros HP. apply (session_ok E t HE). by apply (session_mono E P).
Qed.

(** A key pressed just after booting. *)
Lemma session_invariant_witness :
  kernel_ok demo_env
    (r_kernel (input_irq 1 0x1E (reading (shell_prompt (kmain demo_env (kernel_image ∅)))))).
Proof.
  assert (is_u8 0x1E) as Hsc by done.
  pose proof (session_irq demo_env race_free _ 1 0x1E (session_boot demo_env race_free ∅) eq_refl Hsc) as Hs.
  destruct (session_invariant demo_env race_free _ demo_env_ok Hs) as (_ & _ & _ & _ & H).
  exact (H (λ pc Hpc, Hpc) eq_refl).
Defined.

(** C3: the main loop serves: in a session where no interrupt comes between the load and the store
    of [buffer_count], from any state in which the loop is not asleep, or about to sleep,
    on waiting characters, the processor alone, without further interrupts, executes
    every line the waiting characters complete, provided these lines are harmless and end, and
    goes to sleep with no character waiting and the whole invariant in place; in a session
    where no interrupt comes between [keyboard_has_input] and [hlt] either every state is
    such, and so is every state in which an interrupt has just ended the sleep. *)
Theorem main_loop_serves E t :
  env_ok E → session E race_free t → served E t →
  (session E wakeful t → alert t) ∧
  (∀ t0 status scancode, t = input_irq status scancode t0 → r_pc t0 = Asleep → alert t) ∧
  (alert t →
   ∃ n t', shell_loop E t (replicate n Cpu) = Some t' ∧ session E race_free t' ∧
     r_pc t' = Asleep ∧ kbd_queue (kbd_of t') = [] ∧ kernel_ok E (r_kernel t')).
Proof.
  intros HE Hs Hserved. split; [exact (session_alert E t HE)|]. split.
  - intros t0 status scancode -> Hpc. unfold alert, input_irq. cbn [r_pc set_field eta_reader]. rewrite Hpc.
    by intros [[=]|[=]].
  - intros Ha. destruct (served_sleeps E t HE Hs Hserved Ha) as (n & t' & En & Hs' & Hpc & Hq).
    exists n, t'. split; [exact En|]. split; [exact Hs'|]. split; [exact Hpc|]. split; [exact Hq|].
    apply (session_ok E t' HE Hs'). by rewrite Hpc.
Qed.

(** The Enter key alone: empty lines. *)
Definition only_enter (t : reader) : Prop :=
  reader_ok MAX_COMMAND_LENGTH t ∧ r_buf t = [] ∧ Forall (λ c, c = 10) (waiting t).

Lemma only_enter_step E t t' : only_enter t → shell_step E t = Some t' → only_enter t'.
Proof.
  intros (Hr & Hb & Hw) Ex. destruct (decide (r_pc t = At_end)) as [E0|E0].
  - unfold shell_step in Ex. rewrite E0, Hb in Ex. injection Ex as <-.
    assert (kbd_of (reading (shell_prompt (r_kernel t))) = kbd_of t) as Hkbd by exact (prompt_kbd _).
    destruct Hr as [_ Hr]. unfold ring_ok, waiting in *. rewrite E0 in *.
    split; [apply reading_ok|split; [done|]].
    + change (kbd_inv (kbd_of (reading (shell_prompt (r_kernel t))))). by rewrite Hkbd.
    + change (Forall (λ c, c = 10) (kbd_queue (kbd_of (reading (shell_prompt (r_kernel t)))))). by rewrite Hkbd.
  - rewrite reading_step in Ex by done. injection Ex as <-.
    destruct (step_ok MAX_COMMAND_LENGTH t Hr) as (Hr' & _). pose proof (step_waiting MAX_COMMAND_LENGTH t Hr) as Hwait.
    split; [exact Hr'|]. destruct t as [k buf pc]. cbn [r_buf r_pc] in *. subst buf.
    destruct pc; try (rewrite Hwait; split; [done|exact Hw]).
    destruct Hwait as [ch' Hwait]. pose proof Hw as Hw1. rewrite Hwait in Hw. apply Forall_cons in Hw as [_ Hw].
    split; [|exact Hw]. unfold waiting in Hw1. cbn [r_pc] in Hw1. apply Forall_cons in Hw1 as [-> _]. reflexivity.
Qed.

Lemma no_command : command_map !! arg (take 8 (words [])) 0 = None.
Proof. vm_compute. reflexivity. Qed.

Lemma only_enter_served E t : only_enter t → served E t.
Proof.
  intros Ht n. revert t Ht. induction n as [|n IH]; intros t Ht t'.
  - cbn [replicate shell_loop]. intros [= <-] _. destruct Ht as (_ & -> & _).
    unfold line_harmless, line_ends, harmless_argv, argv_ends. by rewrite no_command.
  - cbn [replicate shell_loop shell_event]. destruct (shell_step E t) as [t1|] eqn:Ex; [|intros [=]].
    cbn [mbind option_bind]. apply (IH t1). by apply (only_enter_step E t).
Qed.

(** Enter, just after booting. *)
Definition demo_entered : reader := input_irq 1 0x1C (reading (shell_prompt (kmain demo_env (kernel_image ∅)))).

Lemma demo_session : session demo_env wakeful demo_entered.
Proof.
  assert (is_u8 0x1C) as Hsc by done. refine (session_irq demo_env wakeful _ 1 0x1C (session_boot demo_env wakeful ∅) _ Hsc).
  by split.
Qed.

Lemma enter_only k : kbd_inv (k_kbd k) → kbd_queue (k_kbd k) = [] → only_enter (input_irq 1 0x1C (reading k)).
Proof.
  intros Hk Hq. assert (is_u8 0x1C) as Hsc by done.
  destruct (irq_ok MAX_COMMAND_LENGTH (reading k) 1 0x1C (reading_ok k Hk) eq_refl Hsc) as (Hr & _ & _ & Hw & _).
  split; [exact Hr|]. split; [done|]. rewrite Hw. change (waiting (reading k)) with (kbd_queue (k_kbd k)). rewrite Hq.
  cbn [app]. unfold taken. destruct (_ =? 0); [done|]. destruct (_ <? _); [|done].
  unfold key_effect. by repeat constructor.
Qed.

Lemma demo_only_enter : only_enter demo_entered.
Proof.
  unfold demo_entered. pose proof (kmain_booted demo_env ∅ demo_env_ok) as Hb. revert Hb.
  generalize (kmain demo_env (kernel_image ∅)). intros k Hb. apply enter_only; rewrite prompt_kbd.
  - exact (ko_kbd _ _ (bt_ok _ _ _ Hb)).
  - exact (bt_keys _ _ _ Hb).
Qed.

Lemma main_loop_serves_witness :
  ∃ n t', shell_loop demo_env demo_entered (replicate n Cpu) = Some t' ∧ r_pc t' = Asleep ∧
    kernel_ok demo_env (r_kernel t').
Proof.
  pose proof demo_session as Hw. assert (session demo_env race_free demo_entered) as Hs.
  { exact (session_mono demo_env wakeful race_free demo_entered (λ pc H, proj1 H) Hw). }
  destruct (main_loop_serves demo_env demo_entered demo_env_ok Hs (only_enter_served _ _ demo_only_enter))
    as (Hal & _ & H).
  destruct (H (Hal Hw)) as (n & t' & En & _ & Hpc & _ & Hk). exists n, t'. split; [exact En|]. split; [exact Hpc|exact Hk].
Defined.
